(* ===== verification/_CoqProject ===== *)
-Q . S2P
Prelude.v
Queue.v
SigSet.v
World.v
Machine.v
Platform.v
Sched.v
Mach.v
Demo.v
Waiting.v
Attr.v
AttrFacts.v
Mutex.v
MutexInv.v
MutexSpec.v
MutexClient.v
MutexFacts.v
Sem.v
SemSpec.v
Rwlock.v
RwlockSpec.v
Barrier.v
OnceSpec.v
BarrierSpec.v
Cond.v
Kernel.v
KernelFacts.v
Keys.v
Threads.v
CondWait.v
ThreadOps.v
AtFork.v
Libc.v
ThreadFacts.v
CondSpec.v
MonitorInv.v
MonitorSpec.v
Monitor.v
MonitorCount.v
KeyFacts.v
KeySpec.v
ExitSpec.v
JoinSpec.v
CancelSpec.v
CreateSpec.v
CreateErrors.v
RecycleSpec.v
LifeSpec.v
Signal.v
SignalFacts.v
SignalSpec.v
Ports.v
