(* ===== verification/Prelude.v ===== *)
(** * libpthread: a model of the POSIX threads library of the Hurd

    This development models the implementation files of libpthread (src/) and
    proves what makes its components correct.  Sources are named relative to
    src/.

    ** The program and the model

    libpthread implements threads on the Mach kernel.  A thread that has to wait
    queues its [struct __pthread] on an intrusive list of the object it waits for
    and receives on its wakeup port; the thread that gives the object up dequeues
    it and sends a message.  Short critical sections are protected by spin locks.
    The model is executable: a call of the library is a computation in the monad
    [M] (Machine.v) on a [world] (World.v), which holds every object the library
    works on, named by keys of finite maps; it ends with a result, a fault
    (assertion, null or dangling pointer, abort, undefined behaviour, lack of
    fuel), the end of the process or of the thread, or suspends.  It suspends to
    take a spin lock, to receive a message and before accesses without a lock;
    the code between two suspensions runs without interruption, which is faithful
    because what it touches is protected by the lock it holds or belongs to the
    thread.  Sched.v interleaves any number of suspended threads and has the
    program logic (ghost state per thread, an invariant at suspension points) that
    turns proofs about single threads into theorems about every interleaving;
    [solo] runs a thread alone until it has to wait.

    ** Files

    - Prelude: error codes, machine integers, null-able map updates, tactics.
    - Queue: the lists of pthread/pt-internal.h; they implement lists of threads.
    - SigSet: signal numbers, sets and the data of signal/.
    - World: the data of all components.  Machine: the monad and its primitives.
      Platform: what is taken from the kernel, the C library, libihash.
    - Sched: interleavings and the logic.  Mach: spin locks, blocking, waking up
      (sysdeps/mach, sysdeps/i386).  Demo: concrete worlds for the witnesses.
    - Waiting: the protocol by which the semaphores and rwlocks grant an object to
      a waiting thread, proved once against the class [WaitObject], which the
      objects instantiate.
    - Attr, AttrFacts: attribute objects.
    - Mutex, MutexInv, MutexSpec, MutexClient, MutexFacts: pt-mutex-*.c.
    - Sem, SemSpec: sem-*.c.  Rwlock, RwlockSpec: pt-rwlock-*.c.
    - Barrier, BarrierSpec, OnceSpec: pt-barrier-*.c and pt-once.c.
    - Cond, CondWait, CondSpec: pt-cond-*.c and the Hurd versions of the waits.
      MonitorInv, MonitorSpec, Monitor, MonitorCount: threads that share a mutex and
      a condition variable.
    - Kernel, KernelFacts: kernel threads, stacks, machine contexts, signal masks
      (sysdeps/mach, sysdeps/mach/hurd).
    - Keys, KeyFacts, KeySpec: thread specific data (sysdeps/hurd).
    - Threads, ThreadOps, ThreadFacts, ExitSpec, JoinSpec, CancelSpec, CreateSpec, CreateErrors,
      RecycleSpec, LifeSpec: pt-alloc.c, pt-create.c, pt-exit.c, pt-join.c, pt-detach.c,
      pt-cancel.c and the small files of pthread/.
    - Signal, SignalFacts, SignalSpec: signal/ and the signal functions of
      sysdeps/generic, for ports that manage signals in user space.
    - AtFork, Libc: forward.c, pt-atfork.c, pt-initialize.c, cthreads-compat.c.
    - Ports: code that the Hurd port replaces.

    ** Theorems

    - Over every interleaving of any number of threads: mutual exclusion
      (MutexClient), writers excluded by rwlocks (RwlockSpec), the number of
      threads inside a semaphore (SemSpec), rounds of barriers (BarrierSpec), the
      single run of a once routine (OnceSpec), monitors (Monitor), and that none
      of these programs deadlocks if no wait is timed (a barrier needs a count of at
      least two).  A monitor stops only when all threads wait on its condition
      variable, and then no more of them than began a wait and were not signalled
      since (MonitorCount); an event that is broadcast reaches all (Monitor).
    - Races with a timeout or a second signal: a timed lock that expires while the mutex
      is handed over loses the mutex for everybody (MutexFacts); an execution
      shows the counterpart for semaphores (SemSpec); a second signal to a thread in
      sigwait replaces the first one (SignalSpec).
    - Refinement: the queues implement lists (Queue), the signal sets finite sets
      (SigSet), the list of fork handlers the list of registrations (AtFork), thread
      specific data a table of keys and a map from threads and keys to values
      (KeySpec).
    - The life of a thread: what pthread_create sets up (CreateSpec) and takes back when it
      fails (CreateErrors), that a structure which is used again gets no kernel thread and
      no port (RecycleSpec), what runs when a thread exits (ExitSpec), that joining it, before or
      after its end, gives its status and its resources back (JoinSpec), that canceling
      it wakes it up and ends it (CancelSpec), and the composition of these (LifeSpec).
    - Invariants: the table of keys (KeyFacts, KeySpec), the table of thread IDs
      (ThreadFacts), attribute objects (AttrFacts).
    - Termination and bounds: the search for a stack (KernelFacts), the delivery
      of signals (SignalFacts), the rounding of timeouts (Mach), the layout of
      stacks and descriptors (KernelFacts).
    - Results of operations on all branches, errors included: MutexFacts, Cond, CondSpec,
      KernelFacts, ThreadFacts, SignalSpec.

    ** Assumptions on the application

    The library calls back: start routines, cleanup handlers, destructors and signal
    handlers.  Where the outcome depends on what they do, the theorems say so: the
    class [AppCalls] (ExitSpec) holds of a thread whose routines return and stay in the
    memory of the application, [quiet_handlers] (SignalFacts) of such signal
    handlers.  Both exclude behaviour that the library permits (pt-key.h:46 lets a
    destructor delete keys), and the library enforces neither.  The definitions do
    not depend on them; what [pthread_cancel] does to a joining thread is stated for
    arbitrary handlers up to the start of its exit (CancelSpec).

    ** Bounds and fuel

    Loops over lists in memory have as fuel the number of variables of the list,
    [find_stack] the number of stacks that fit into the address space, the search
    for a key the number of keys; the theorems show that this is enough.  Loops
    that the application can prolong without bound (cleanup handlers, rounds of
    destructors, spurious wakeups in a join, retries of an allocation) run on the
    fuel [loop_fuel] of the class [Platform], and [signal_dispatch] on
    [dispatch_fuel].  Integers are [Z] with the wrap-around of their width written
    out ([u32], [i32], [u64]).  Memory is sequentially consistent.

    ** Not modelled

    The bodies of kernel calls, the dynamic linker, libihash, futexes and the
    functions of the application are parameters or recorded requests.  lockfile.c
    and pt-yield.c only call the C library; the public headers are declarations;
    the tests and build files have no code of the library.  The theorems on monitors
    leave out cancelation during a wait, the Hurd versions of the waits and
    recursive mutexes. *)
From Stdlib Require Import ZArith Lia.
From stdpp Require Export prelude gmap functions list list_numbers.

#[export] Set Default Goal Selector "!".

(** ** Error codes

    The library only ever compares error codes with [0] and with one another,
    so they are an enumeration; [OK] is the C value [0]. *)
Inductive error_t :=
  | OK | EINVAL | ESRCH | EDEADLK | EBUSY | EPERM | ETIMEDOUT | ENOMEM
  | EAGAIN | ENOSYS | ENOTSUP | EOPNOTSUPP | EINTR.

#[export] Instance error_t_eq_dec : EqDecision error_t.
Proof. solve_decision. Defined.

(** ** Machine integers *)
Definition wrapu (bits z : Z) : Z := (z mod 2 ^ bits)%Z.
Definition wraps (bits z : Z) : Z :=
  (let m := z mod 2 ^ bits in if m <? 2 ^ (bits - 1) then m else m - 2 ^ bits)%Z.

Abbreviation u32 := (wrapu 32).
Abbreviation i32 := (wraps 32).
Abbreviation u64 := (wrapu 64).

Section Integers.
Local Open Scope Z_scope.

Lemma wrapu_range b z : 0 <= b -> 0 <= wrapu b z < 2 ^ b.
Proof.
  intros Hb. unfold wrapu. apply Z.mod_pos_bound. apply Z.pow_pos_nonneg; lia.
Qed.

Lemma wrapu_small b z : 0 <= z < 2 ^ b -> wrapu b z = z.
Proof. intros. unfold wrapu. by apply Z.mod_small. Qed.

Lemma wraps_small b z : 0 < b -> - 2 ^ (b - 1) <= z < 2 ^ (b - 1) -> wraps b z = z.
Proof.
  intros Hb Hz. unfold wraps.
  assert (2 ^ b = 2 * 2 ^ (b - 1)) as Hp.
  { rewrite <- Z.pow_succ_r by lia. f_equal. lia. }
  destruct (decide (0 <= z)) as [Hpos | Hneg].
  - rewrite Z.mod_small by lia. destruct (Z.ltb_spec z (2 ^ (b - 1))); lia.
  - rewrite <- (Z.mod_add z 1) by lia. rewrite Z.mod_small by lia.
    destruct (Z.ltb_spec (z + 1 * 2 ^ b) (2 ^ (b - 1))); lia.
Qed.
End Integers.

(** ** Null-able updates

    A C pointer variable is a key of a finite map, a null pointer the absence
    of the key; [upd k o m] is the assignment of the possibly null [o]. *)
Definition upd `{Countable K} {V} (k : K) (o : option V) (m : gmap K V) : gmap K V :=
  partial_alter (fun _ => o) k m.

Arguments upd : simpl never.

Section Upd.
Context `{Countable K} {V : Type}.
Implicit Types (m : gmap K V) (k : K) (o : option V).

Lemma lookup_upd_eq k o m : upd k o m !! k = o.
Proof. apply lookup_partial_alter_eq. Qed.

Lemma lookup_upd_ne k k' o m : k <> k' -> upd k o m !! k' = m !! k'.
Proof. intros. unfold upd. by rewrite lookup_partial_alter_ne. Qed.

Lemma lookup_upd k k' o m :
  upd k o m !! k' = if decide (k = k') then o else m !! k'.
Proof.
  case_decide as Hk; [subst; apply lookup_upd_eq | by apply lookup_upd_ne].
Qed.
End Upd.

Create Rewrite HintDb libpthread.
#[export] Hint Rewrite @lookup_upd_eq : libpthread.

(** ** Tactics *)

(** Split conjunctions and existentials of the context. *)
Ltac deex :=
  repeat match goal with
    | H : ex _ |- _ => destruct H as [? H]
    | H : _ /\ _ |- _ => destruct H
    end.

(** Case split on the head [match]/[if] of the goal, keeping the equation. *)
Ltac split_match :=
  match goal with
  | |- context [match ?x with _ => _ end] => destruct x eqn:?
  end.
