(* ===== verification/Queue.v ===== *)
(** * The intrusive waiter queues of pt-internal.h

    [struct __pthread] carries [next] and [prevp]; a queue head is a variable
    of type [struct __pthread *] inside a mutex, a condition variable, ... and
    [prevp] points at the variable that points at the thread: the head, or the
    [next] member of the preceding thread.  [qheap] is the part of the memory
    these operations touch.  [qrep] relates it to the abstract queues, one list
    of threads per head, and the theorems show that each operation refines the
    list operation. *)
From Stdlib Require Import Lia.
From S2P Require Import Prelude.

(** The variables of type [struct __pthread *]. *)
Inductive cell (H : Type) :=
  | Head (h : H)
  | Next (t : nat).
Arguments Head {H} h.
Arguments Next {H} t.

#[export] Instance cell_eq_dec `{EqDecision H} : EqDecision (cell H).
Proof. solve_decision. Defined.

#[export] Instance cell_countable `{Countable H} : Countable (cell H).
Proof.
  refine (inj_countable' (fun c => match c with Head h => inl h | Next t => inr t end)
                         (fun s => match s with inl h => Head h | inr t => Next t end) _).
  by intros [].
Defined.

Section Queue.
  Context `{Countable H}.

(** [cells !! c] is the pointer stored in variable [c] (absent: null) and
    [prevp !! t] the [prevp] member of thread [t]. *)
Record qheap := mkQheap {
  cells : gmap (cell H) nat;
  prevp : gmap nat (cell H);
}.

Definition qheap_empty : qheap := mkQheap ∅ ∅.

Implicit Types (q : qheap) (h : H) (t u : nat) (c : cell H) (l : list nat).

(** [None] is a failed assertion. *)
Definition __pthread_enqueue (h : H) (t : nat) (q : qheap) : option qheap :=
  match prevp q !! t with
  | Some _ => None                                   (* assert (thread->prevp == 0) *)
  | None =>
      let head := cells q !! Head h in
      let cs := upd (Next t) head (cells q) in       (* thread->next = *head *)
      let ps := <[t := Head h]> (prevp q) in         (* thread->prevp = head *)
      let ps := match head with
                | Some u => <[u := Next t]> ps       (* ( *head)->prevp = &thread->next *)
                | None => ps
                end in
      Some (mkQheap (<[Head h := t]> cs) ps)         (* *head = thread *)
  end.

Definition __pthread_dequeue (t : nat) (q : qheap) : option qheap :=
  match prevp q !! t with
  | None => None                                     (* assert (thread->prevp) *)
  | Some c =>
      let next := cells q !! Next t in
      let ps := match next with
                | Some u => <[u := c]> (prevp q)     (* thread->next->prevp = thread->prevp *)
                | None => prevp q
                end in
      Some (mkQheap (upd c next (cells q))           (* *thread->prevp = thread->next *)
                    (delete t ps))                   (* thread->prevp = 0 *)
  end.

(** One round of [__pthread_dequeuing_iterate]: [(element)->prevp = 0], after
    [__pdi_next] was read. *)
Definition unlink (t : nat) (q : qheap) : qheap :=
  mkQheap (cells q) (delete t (prevp q)).

(** Assignment of null to a head. *)
Definition clear_head (h : H) (q : qheap) : qheap :=
  mkQheap (delete (Head h) (cells q)) (prevp q).

(** ** Representation *)

(** The chain of threads that starts at variable [c] is [l]. *)
Fixpoint qseg q c l : Prop :=
  match l with
  | [] => cells q !! c = None
  | t :: l => cells q !! c = Some t /\ prevp q !! t = Some c /\ qseg q (Next t) l
  end.

(** The abstract state: the list of every head. *)
Record qrep q (Q : H -> list nat) : Prop := {
  qrep_seg : forall h, qseg q (Head h) (Q h);
  qrep_nodup : forall h, NoDup (Q h);
  qrep_disj : forall h1 h2 t, t ∈ Q h1 -> t ∈ Q h2 -> h1 = h2;
  qrep_prevp : forall t c, prevp q !! t = Some c -> exists h, t ∈ Q h;
}.

Definition queued (Q : H -> list nat) t : Prop := exists h, t ∈ Q h.

Lemma qseg_prevp q c l t : qseg q c l -> t ∈ l -> is_Some (prevp q !! t).
Proof.
  revert c. induction l as [|u l IH]; intros c Hs Ht; [set_solver|].
  destruct Hs as (_ & Hp & Hs). apply elem_of_cons in Ht as [-> | Ht]; eauto.
Qed.

Lemma qseg_frame q q' c l :
  cells q' !! c = cells q !! c ->
  (forall t, t ∈ l -> cells q' !! Next t = cells q !! Next t /\ prevp q' !! t = prevp q !! t) ->
  qseg q c l -> qseg q' c l.
Proof.
  revert c. induction l as [|u l IH]; intros c Hc Hl Hs; cbn in *; [congruence|].
  destruct Hs as (H1 & H2 & H3). destruct (Hl u) as [Hn Hp]; [set_solver|].
  repeat split; [congruence | congruence |].
  apply IH; [done | set_solver | done].
Qed.

Lemma qrep_queued q Q t : qrep q Q -> queued Q t <-> is_Some (prevp q !! t).
Proof.
  intros R. split.
  - intros [h Ht]. by eapply qseg_prevp, Ht; apply R.
  - intros [c Hc]. by eapply qrep_prevp.
Qed.

Lemma qrep_not_queued q Q t : qrep q Q -> ~ queued Q t <-> prevp q !! t = None.
Proof.
  intros R. rewrite (qrep_queued q Q t R), eq_None_not_Some. done.
Qed.

Lemma qrep_head q Q h : qrep q Q -> cells q !! Head h = head (Q h).
Proof.
  intros R. pose proof (qrep_seg _ _ R h) as Hs.
  destruct (Q h); cbn in *; [done | apply Hs].
Qed.

Lemma qrep_empty : qrep qheap_empty (fun _ => []).
Proof.
  split; intros; cbn in *; [done | apply NoDup_nil_2 | set_solver |].
  by rewrite lookup_empty in *.
Qed.

(** Only the lists matter, not the function that gives them. *)
#[export] Instance qrep_proper q : Proper (pointwise_relation H eq ==> iff) (qrep q).
Proof.
  assert (forall Q Q', pointwise_relation H eq Q Q' -> qrep q Q -> qrep q Q') as Himp.
  { intros Q Q' HQ [Hs Hn Hd Hp]. split.
    - intros h. by rewrite <- (HQ h).
    - intros h. by rewrite <- (HQ h).
    - intros h1 h2 t. rewrite <- (HQ h1), <- (HQ h2). apply Hd.
    - intros t c Hc. destruct (Hp _ _ Hc) as [h Hh]. exists h. by rewrite <- (HQ h). }
  intros Q Q' HQ. split; apply Himp; [done|]. intros h. symmetry. apply HQ.
Qed.

(** ** Enqueue *)

Lemma enqueue_seg_head q h l t :
  qseg q (Head h) l -> NoDup l -> t ∉ l -> prevp q !! t = None ->
  exists q', __pthread_enqueue h t q = Some q' /\ qseg q' (Head h) (t :: l).
Proof.
  intros Hs Hnd Ht Hp. unfold __pthread_enqueue. rewrite Hp. eexists; split; [done|].
  destruct l as [|u l]; cbn in *.
  - rewrite Hs. cbn. repeat split.
    + by rewrite lookup_insert_eq.
    + by rewrite lookup_insert_eq.
    + rewrite lookup_insert_ne by done. by rewrite lookup_upd_eq.
  - destruct Hs as (Hc & Hu & Hs). rewrite Hc. cbn.
    apply NoDup_cons in Hnd as [Hul Hnd].
    assert (u <> t) by set_solver.
    repeat split.
    + by rewrite lookup_insert_eq.
    + rewrite lookup_insert_ne by done. by rewrite lookup_insert_eq.
    + rewrite lookup_insert_ne by done. by rewrite lookup_upd_eq.
    + by rewrite lookup_insert_eq.
    + eapply qseg_frame, Hs; cbn.
      * rewrite lookup_insert_ne by done. by rewrite lookup_upd_ne by congruence.
      * intros v Hv. assert (v <> t /\ v <> u) as [] by set_solver. split.
        -- rewrite lookup_insert_ne by done. by rewrite lookup_upd_ne by congruence.
        -- by rewrite !lookup_insert_ne by done.
Qed.

Lemma enqueue_seg_other q q' h h' l lh t :
  h <> h' -> qseg q (Head h') l -> qseg q (Head h) lh ->
  t ∉ l -> (forall u, u ∈ l -> u ∉ lh) ->
  __pthread_enqueue h t q = Some q' -> qseg q' (Head h') l.
Proof.
  intros Hh Hs Hsh Ht Hd Hq. unfold __pthread_enqueue in Hq.
  destruct (prevp q !! t); [done|]. injection Hq as <-.
  eapply qseg_frame, Hs; cbn.
  - rewrite lookup_insert_ne by congruence. by rewrite lookup_upd_ne by congruence.
  - intros v Hv. assert (v <> t) by set_solver. split.
    + rewrite lookup_insert_ne by congruence. by rewrite lookup_upd_ne by congruence.
    + destruct (cells q !! Head h) as [u|] eqn:Hu.
      * assert (v <> u).
        { intros ->. destruct lh; cbn in *; [congruence|].
          destruct Hsh as (Hsh & _). rewrite Hsh in Hu. injection Hu as ->.
          apply (Hd u); set_solver. }
        by rewrite !lookup_insert_ne by congruence.
      * by rewrite lookup_insert_ne by congruence.
Qed.

Lemma enqueue_refines q Q h t :
  qrep q Q -> ~ queued Q t ->
  exists q', __pthread_enqueue h t q = Some q' /\ qrep q' (<[h := t :: Q h]> Q).
Proof.
  intros R Ht. pose proof (proj1 (qrep_not_queued _ _ _ R) Ht) as Hp.
  assert (forall h', t ∉ Q h') as Hfresh by (intros h' ?; apply Ht; by exists h').
  destruct (enqueue_seg_head q h (Q h) t) as (q' & Hq & Hs);
    [apply R | apply R | auto | done |].
  exists q'. split; [done|]. split.
  - intros h'. destruct (decide (h = h')) as [<- | Hne].
    + by rewrite fn_lookup_insert.
    + rewrite fn_lookup_insert_ne by done.
      eapply (enqueue_seg_other q q' h h'); [done | apply R | apply R | auto | | done].
      intros u Hu Hu'. by pose proof (qrep_disj _ _ R _ _ _ Hu Hu').
  - intros h'. destruct (decide (h = h')) as [<- | Hne].
    + rewrite fn_lookup_insert. apply NoDup_cons_2; [auto | apply R].
    + rewrite fn_lookup_insert_ne by done. apply R.
  - intros h1 h2 u. destruct (decide (h = h1)) as [<- | H1], (decide (h = h2)) as [<- | H2];
      rewrite ?fn_lookup_insert, ?fn_lookup_insert_ne by done; [done | | |apply R];
      rewrite elem_of_cons.
    + intros [-> | Hu] Hu2; [by destruct (Hfresh h2) | by eapply R].
    + intros Hu2 [-> | Hu]; [by destruct (Hfresh h1) | by eapply R].
  - intros u c Hu.
    destruct (decide (u = t)) as [-> | Hut].
    { exists h. rewrite fn_lookup_insert. set_solver. }
    assert (is_Some (prevp q !! u)) as [c' Hc'].
    { unfold __pthread_enqueue in Hq. rewrite Hp in Hq. injection Hq as <-.
      cbn in Hu. destruct (cells q !! Head h) as [v|] eqn:Hv.
      - destruct (decide (u = v)) as [-> | Huv].
        + rewrite (qrep_head _ _ _ R) in Hv. eapply (qseg_prevp q (Head h) (Q h)); [apply R|].
          destruct (Q h); cbn in *; simplify_eq. set_solver.
        + rewrite !lookup_insert_ne in Hu by congruence. eauto.
      - rewrite lookup_insert_ne in Hu by congruence. eauto. }
    destruct (qrep_prevp _ _ R _ _ Hc') as [h' Hh']. exists h'.
    destruct (decide (h = h')) as [<- | Hne];
      rewrite ?fn_lookup_insert, ?fn_lookup_insert_ne by done; set_solver.
Qed.

(** ** Dequeue, at any position *)

(** Removal of a thread from every abstract queue. *)
Definition qremove (t : nat) (Q : H -> list nat) : H -> list nat :=
  fun h => filter (fun u => u <> t) (Q h).

Lemma filter_ne_not_in t l : t ∉ l -> filter (fun u => u <> t) l = l.
Proof.
  induction l as [|u l IH]; intros Ht; [done|].
  rewrite filter_cons_True by set_solver. rewrite IH by set_solver. done.
Qed.

Lemma filter_ne_split t l1 l2 :
  NoDup (l1 ++ t :: l2) -> filter (fun u => u <> t) (l1 ++ t :: l2) = l1 ++ l2.
Proof.
  intros Hnd. apply NoDup_app in Hnd as (_ & Hd & Hnd).
  apply NoDup_cons in Hnd as [Ht _].
  rewrite filter_app, filter_cons_False by (by intros []).
  rewrite !filter_ne_not_in; [done | done |].
  intros Hin. apply (Hd _ Hin). set_solver.
Qed.

Lemma qremove_head t l h Q : Q h = t :: l -> NoDup (Q h) -> qremove t Q h = l.
Proof.
  intros Hq Hnd. unfold qremove. rewrite Hq in *. apply (filter_ne_split t [] l Hnd).
Qed.

Lemma elem_of_qremove t u Q h : u ∈ qremove t Q h <-> u ∈ Q h /\ u <> t.
Proof. unfold qremove. rewrite list_elem_of_filter. tauto. Qed.

(** A queue that is not empty after a thread left was not empty before. *)
Lemma qremove_nonempty t Q h : qremove t Q h <> [] -> Q h <> [].
Proof. intros Hr HQ. apply Hr. unfold qremove. by rewrite HQ. Qed.

Lemma qremove_not_queued t Q : ~ queued Q t -> pointwise_relation H eq (qremove t Q) Q.
Proof.
  intros Ht h. unfold qremove. apply filter_ne_not_in. intros Hin. apply Ht. by exists h.
Qed.

(** A thread that queues up and leaves. *)
Lemma qremove_enqueued h t Q :
  ~ queued Q t -> pointwise_relation H eq (qremove t (<[h := t :: Q h]> Q)) Q.
Proof.
  intros Ht h'. assert (t ∉ Q h') as Hn by (intros Hin; apply Ht; by exists h'). unfold qremove.
  destruct (decide (h = h')) as [<- | Hne].
  - rewrite fn_lookup_insert, filter_cons_False by naive_solver. by apply filter_ne_not_in.
  - rewrite fn_lookup_insert_ne by done. by apply filter_ne_not_in.
Qed.

Lemma queued_qremove t u Q : queued (qremove t Q) u <-> queued Q u /\ u <> t.
Proof.
  unfold queued. setoid_rewrite elem_of_qremove. naive_solver.
Qed.

(** The variable that holds [t] in a chain from [c] is [c] or the [next] of a
    thread of the chain. *)
Lemma qseg_pred q c l1 t l2 :
  qseg q c (l1 ++ t :: l2) ->
  prevp q !! t = Some (match last l1 with Some x => Next x | None => c end).
Proof.
  revert c. induction l1 as [|x l1 IH]; intros c Hs; cbn in Hs |- *; [apply Hs|].
  destruct Hs as (_ & _ & Hs). rewrite (IH _ Hs), last_cons.
  by destruct (last l1).
Qed.

Lemma qseg_next q c l1 t l2 : qseg q c (l1 ++ t :: l2) -> cells q !! Next t = head l2.
Proof.
  revert c. induction l1 as [|y l1 IH]; intros c Hs; cbn in Hs.
  - destruct Hs as (_ & _ & Hs). destruct l2; [done | apply Hs].
  - apply (IH (Next y)). apply Hs.
Qed.

Lemma dequeue_seg q q' c l1 t l2 :
  qseg q c (l1 ++ t :: l2) -> NoDup (l1 ++ t :: l2) ->
  (forall x, c = Next x -> x ∉ l1 ++ t :: l2) ->
  __pthread_dequeue t q = Some q' -> qseg q' c (l1 ++ l2).
Proof.
  unfold __pthread_dequeue. intros Hs Hnd Hc Hq.
  destruct (prevp q !! t) as [c1|] eqn:Hp; [|done]. injection Hq as <-.
  revert c Hs Hc. induction l1 as [|x l1 IH]; intros c Hs Hc; cbn in *.
  - destruct Hs as (_ & Hp' & Hs). rewrite Hp in Hp'. injection Hp' as ->.
    apply NoDup_cons in Hnd as [Ht Hnd].
    destruct l2 as [|u l2]; cbn in *; [by rewrite Hs, lookup_upd_eq|].
    destruct Hs as (Hn & Hu & Hs). rewrite Hn. cbn.
    apply NoDup_cons in Hnd as [Hul Hnd].
    repeat split.
    + by rewrite lookup_upd_eq.
    + rewrite lookup_delete_ne by set_solver. by rewrite lookup_insert_eq.
    + assert (forall v, v ∈ u :: l2 -> Next v <> c) as Hvc
        by (intros v Hv <-; apply (Hc v eq_refl); set_solver).
      eapply qseg_frame, Hs; cbn.
      * rewrite lookup_upd_ne; [done|]. apply not_eq_sym, Hvc. set_solver.
      * intros v Hv. rewrite lookup_upd_ne by (apply not_eq_sym, Hvc; set_solver).
        rewrite lookup_delete_ne by set_solver. by rewrite lookup_insert_ne by set_solver.
  - pose proof (qseg_pred q c (x :: l1) t l2 Hs) as Hp'. rewrite Hp, last_cons in Hp'.
    destruct Hs as (Hx & Hpx & Hs). apply NoDup_cons in Hnd as [Hxl Hnd].
    assert (c <> c1) as Hne.
    { intros ->. destruct (last l1) as [y|] eqn:Hl; injection Hp' as ->.
      - apply last_Some in Hl as [l' ->]. apply (Hc y eq_refl). set_solver.
      - apply (Hc x eq_refl). set_solver. }
    repeat split.
    + by rewrite lookup_upd_ne.
    + rewrite lookup_delete_ne by set_solver.
      rewrite (qseg_next _ _ _ _ _ Hs).
      destruct l2 as [|u l2]; [done|]. cbn. by rewrite lookup_insert_ne by set_solver.
    + apply IH; [done | done |]. by intros y [= <-].
Qed.

Lemma dequeue_seg_other q q' h l lh t :
  qseg q (Head h) l -> t ∉ l ->
  (exists h', h' <> h /\ qseg q (Head h') lh /\ t ∈ lh /\ (forall u, u ∈ l -> u ∉ lh)) ->
  __pthread_dequeue t q = Some q' -> qseg q' (Head h) l.
Proof.
  intros Hs Ht (h' & Hne & Hs' & Hin & Hd) Hq.
  apply list_elem_of_split in Hin as (l1 & l2 & ->).
  pose proof (qseg_pred _ _ _ _ _ Hs') as Hp.
  unfold __pthread_dequeue in Hq. rewrite Hp in Hq. injection Hq as <-.
  set (c1 := match last l1 with Some x => Next x | None => Head h' end).
  assert (forall x, c1 = Next x -> x ∈ l1) as Hc1.
  { intros x. unfold c1. destruct (last l1) as [y|] eqn:Hl; [|done].
    intros [= ->]. apply last_Some in Hl as [l' ->]. set_solver. }
  assert (c1 <> Head h) as Hch by (unfold c1; destruct (last l1); congruence).
  eapply qseg_frame, Hs; cbn.
  - by rewrite lookup_upd_ne.
  - intros v Hv. specialize (Hd v Hv). split.
    + rewrite lookup_upd_ne; [done|]. intros E. apply Hc1 in E. set_solver.
    + rewrite lookup_delete_ne by set_solver.
      rewrite (qseg_next _ _ _ _ _ Hs').
      destruct l2 as [|u l2]; [done|]. cbn. by rewrite lookup_insert_ne by set_solver.
Qed.

Lemma dequeue_prevp q q' t u c :
  __pthread_dequeue t q = Some q' -> prevp q' !! u = Some c ->
  u <> t /\ (is_Some (prevp q !! u) \/ cells q !! Next t = Some u).
Proof.
  unfold __pthread_dequeue. destruct (prevp q !! t) as [c0|]; [|done].
  intros [= <-]; cbn. intros Hu.
  destruct (decide (u = t)) as [-> | Hut]; [by rewrite lookup_delete_eq in Hu|].
  split; [done|]. rewrite lookup_delete_ne in Hu by done.
  destruct (cells q !! Next t) as [v|]; [|eauto].
  destruct (decide (u = v)) as [-> | Huv]; [by right|].
  rewrite lookup_insert_ne in Hu by done. eauto.
Qed.

Lemma dequeue_refines q Q t :
  qrep q Q -> queued Q t ->
  exists q', __pthread_dequeue t q = Some q' /\ qrep q' (qremove t Q).
Proof.
  intros R [h Ht].
  assert (exists q', __pthread_dequeue t q = Some q') as [q' Hq].
  { destruct (qseg_prevp q (Head h) (Q h) t) as [c Hc]; [apply R | done|].
    unfold __pthread_dequeue. rewrite Hc. eauto. }
  exists q'. split; [done|].
  apply list_elem_of_split in Ht as (l1 & l2 & Hl).
  pose proof (qrep_nodup _ _ R h) as Hnd. pose proof (qrep_seg _ _ R h) as Hsh.
  rewrite Hl in Hnd, Hsh.
  split.
  - intros h'. destruct (decide (h' = h)) as [-> | Hne].
    + unfold qremove. rewrite Hl, filter_ne_split by done.
      by eapply dequeue_seg.
    + assert (t ∉ Q h') as Ht'.
      { intros Hin. apply Hne. eapply (qrep_disj _ _ R); [done|]. rewrite Hl. set_solver. }
      unfold qremove. rewrite filter_ne_not_in by done.
      eapply (dequeue_seg_other q q' h' (Q h') (Q h) t); [apply R | done | | done].
      exists h. repeat split; [congruence | apply R | rewrite Hl; set_solver |].
      intros u Hu Hu'. apply Hne. by eapply (qrep_disj _ _ R).
  - intros h'. unfold qremove. apply NoDup_filter, R.
  - intros h1 h2 u. rewrite !elem_of_qremove. intros [] []. by eapply (qrep_disj _ _ R).
  - intros u c Hu. destruct (dequeue_prevp _ _ _ _ _ Hq Hu) as [Hut Hor].
    assert (exists h', u ∈ Q h') as [h' Hh'].
    { destruct Hor as [[c' Hc'] | Hn]; [by eapply R|].
      exists h. rewrite (qseg_next _ _ _ _ _ Hsh) in Hn. rewrite Hl.
      destruct l2; cbn in Hn; simplify_eq. set_solver. }
    exists h'. by apply elem_of_qremove.
Qed.

(** A queue is no longer than the number of non-null variables. *)
Lemma qseg_length q c l : qseg q c l -> NoDup l -> length l <= size (cells q).
Proof.
  intros Hs Hnd.
  assert (forall t, t ∈ l -> t ∈ (map_to_list (cells q)).*2) as Hin.
  { intros t Ht. apply list_elem_of_fmap.
    assert (exists c', cells q !! c' = Some t) as [c' Hc'].
    { clear Hnd. revert c Hs. induction l as [|u l IH]; intros c Hs; [set_solver|].
      destruct Hs as (Hc & _ & Hs).
      apply elem_of_cons in Ht as [-> | Ht]; eauto. }
    exists (c', t). split; [done|]. by apply elem_of_map_to_list. }
  rewrite <- length_map_to_list, <- (length_fmap snd).
  apply submseteq_length, NoDup_submseteq; auto.
Qed.

Lemma qseg_unlink q c l t : t ∉ l -> qseg q c l -> qseg (unlink t q) c l.
Proof.
  intros Ht. apply qseg_frame; cbn; [done|]. intros u Hu. split; [done|].
  by rewrite lookup_delete_ne by set_solver.
Qed.

(** ** Unlinking a whole queue *)

Lemma unlink_all_prevp q l u :
  prevp (foldl (fun q t => unlink t q) q l) !! u =
  if decide (u ∈ l) then None else prevp q !! u.
Proof.
  revert q. induction l as [|t l IH]; intros q; cbn.
  - case_decide; set_solver.
  - rewrite IH. cbn. case_decide as H1; case_decide as H2; try set_solver.
    + assert (u = t) as -> by set_solver. by rewrite lookup_delete_eq.
    + by rewrite lookup_delete_ne by set_solver.
Qed.

Lemma unlink_all_cells q l : cells (foldl (fun q t => unlink t q) q l) = cells q.
Proof. revert q. induction l as [|t l IH]; intros q; [done|]. cbn. by rewrite IH. Qed.

(** Clearing [prevp] of every thread of a queue and then nulling the head
    empties that queue and leaves the others alone. *)
Lemma unlink_all_refines q Q h :
  qrep q Q ->
  qrep (clear_head h (foldl (fun q t => unlink t q) q (Q h))) (<[h := []]> Q).
Proof.
  intros R. split.
  - intros h'. destruct (decide (h = h')) as [<- | Hne].
    + rewrite fn_lookup_insert. cbn. rewrite unlink_all_cells. by rewrite lookup_delete_eq.
    + rewrite fn_lookup_insert_ne by done. eapply qseg_frame, R; cbn.
      * rewrite unlink_all_cells. by rewrite lookup_delete_ne by congruence.
      * intros t Ht. rewrite unlink_all_cells, unlink_all_prevp. split.
        -- by rewrite lookup_delete_ne by congruence.
        -- rewrite decide_False; [done|]. intros Ht'. apply Hne. by eapply R.
  - intros h'. destruct (decide (h = h')) as [<- | Hne].
    + rewrite fn_lookup_insert. apply NoDup_nil_2.
    + rewrite fn_lookup_insert_ne by done. apply R.
  - intros h1 h2 u. destruct (decide (h = h1)) as [<- | H1], (decide (h = h2)) as [<- | H2];
      rewrite ?fn_lookup_insert, ?fn_lookup_insert_ne by done; try set_solver. apply R.
  - intros u c. cbn. rewrite unlink_all_prevp. case_decide as Hu; [done|]. intros Hc.
    destruct (qrep_prevp _ _ R _ _ Hc) as [h' Hh']. exists h'.
    rewrite fn_lookup_insert_ne; [done|]. by intros ->.
Qed.

(** ** Sequences of operations *)

Inductive qop := QEnqueue (h : H) (t : nat) | QDequeue (t : nat).

Definition qop_run (op : qop) (q : qheap) : option qheap :=
  match op with
  | QEnqueue h t => __pthread_enqueue h t q
  | QDequeue t => __pthread_dequeue t q
  end.

Definition qop_spec (op : qop) (Q : H -> list nat) : H -> list nat :=
  match op with
  | QEnqueue h t => <[h := t :: Q h]> Q
  | QDequeue t => qremove t Q
  end.

(** What the assertions of the operations ask for. *)
Definition qop_ok (op : qop) (Q : H -> list nat) : Prop :=
  match op with
  | QEnqueue _ t => ~ queued Q t
  | QDequeue t => queued Q t
  end.

Fixpoint run_ops (ops : list qop) (q : qheap) : option qheap :=
  match ops with
  | [] => Some q
  | op :: ops => match qop_run op q with Some q => run_ops ops q | None => None end
  end.

Fixpoint spec_ops (ops : list qop) (Q : H -> list nat) : H -> list nat :=
  match ops with
  | [] => Q
  | op :: ops => spec_ops ops (qop_spec op Q)
  end.

Fixpoint ops_ok (ops : list qop) (Q : H -> list nat) : Prop :=
  match ops with
  | [] => True
  | op :: ops => qop_ok op Q /\ ops_ok ops (qop_spec op Q)
  end.

Lemma qop_refines op q Q :
  qrep q Q ->
  match qop_run op q with
  | Some q' => qop_ok op Q /\ qrep q' (qop_spec op Q)
  | None => ~ qop_ok op Q
  end.
Proof.
  intros R. pose proof (qrep_queued q Q) as Hp. destruct op as [h t | t]; cbn.
  - destruct (prevp q !! t) as [c|] eqn:Ht.
    + unfold __pthread_enqueue. rewrite Ht. rewrite Hp, Ht by done. intros []. by exists c.
    + assert (~ queued Q t) as Hq by (rewrite Hp, Ht by done; by intros []).
      destruct (enqueue_refines q Q h t R Hq) as (q' & -> & R'). done.
  - destruct (prevp q !! t) as [c|] eqn:Ht.
    + assert (queued Q t) as Hq by (rewrite Hp, Ht by done; by exists c).
      destruct (dequeue_refines q Q t R Hq) as (q' & -> & R'). done.
    + unfold __pthread_dequeue. rewrite Ht. rewrite Hp, Ht by done. by intros [].
Qed.

(** C24: the intrusive queues implement lists: whatever sequence of enqueue and
    dequeue operations on any number of heads is run, no assertion fails exactly
    when no queued thread is enqueued and no unqueued one dequeued, and then the
    pointers represent, for every head, the list with the enqueued threads
    pushed at its front and the dequeued ones removed from wherever they were. *)
Theorem queue_operations_refine ops q Q :
  qrep q Q ->
  match run_ops ops q with
  | Some q' => ops_ok ops Q /\ qrep q' (spec_ops ops Q)
  | None => ~ ops_ok ops Q
  end.
Proof.
  revert q Q. induction ops as [|op ops IH]; intros q Q R; cbn; [done|].
  pose proof (qop_refines op q Q R) as Hop. destruct (qop_run op q) as [q'|]; [|tauto].
  destruct Hop as [Hok R']. specialize (IH q' _ R'). destruct (run_ops ops q'); tauto.
Qed.

End Queue.

Lemma queue_operations_refine_witness :
  run_ops (H := nat) [QEnqueue 0 1; QEnqueue 0 2; QEnqueue 1 3; QDequeue 1] qheap_empty <> None /\
  match run_ops (H := nat) [QEnqueue 0 1; QEnqueue 0 2; QEnqueue 1 3; QDequeue 1] qheap_empty with
  | Some q' => ops_ok (H := nat) [QEnqueue 0 1; QEnqueue 0 2; QEnqueue 1 3; QDequeue 1] (fun _ => []) /\
      qrep q' (spec_ops [QEnqueue 0 1; QEnqueue 0 2; QEnqueue 1 3; QDequeue 1] (fun _ => []))
  | None => ~ ops_ok (H := nat) [QEnqueue 0 1; QEnqueue 0 2; QEnqueue 1 3; QDequeue 1] (fun _ => [])
  end.
Proof.
  split; [by vm_compute|].
  apply (queue_operations_refine (H := nat)). apply qrep_empty.
Defined.

Arguments qheap H {_ _}.
