(* ===== verification/SigSet.v ===== *)
(** * Signal numbers, signal sets and actions: signal/signal.h, sig-internal.h

    A [sigset_t] is a 64-bit word.  The functions of sysdeps/generic/sig*set.c
    return the error code ([-1] with [errno] is the error, [0] is [OK]) and the
    new set, and are shown to implement finite sets of signal numbers. *)
From Stdlib Require Import ZArith Lia.
From S2P Require Import Prelude.
Local Open Scope Z_scope.

(** ** Signals *)

Definition SIGHUP : Z := 1.
Definition SIGINT : Z := 2.
Definition SIGQUIT : Z := 3.
Definition SIGILL : Z := 4.
Definition SIGTRAP : Z := 5.
Definition SIGABRT : Z := 6.
Definition SIGBUS : Z := 7.
Definition SIGFPE : Z := 8.
Definition SIGKILL : Z := 9.
Definition SIGUSR1 : Z := 10.
Definition SIGSEGV : Z := 11.
Definition SIGUSR2 : Z := 12.
Definition SIGPIPE : Z := 13.
Definition SIGALRM : Z := 14.
Definition SIGTERM : Z := 15.
Definition SIGSTKFLT : Z := 16.
Definition SIGCHLD : Z := 17.
Definition SIGCONT : Z := 18.
Definition SIGSTOP : Z := 19.
Definition SIGTSTP : Z := 20.
Definition SIGTTIN : Z := 21.
Definition SIGTTOU : Z := 22.
Definition SIGURG : Z := 23.
Definition SIGXCPU : Z := 24.
Definition SIGXFSZ : Z := 25.
Definition SIGVTALRM : Z := 26.
Definition SIGPROF : Z := 27.
Definition SIGWINCH : Z := 28.
Definition SIGIO : Z := 29.
Definition SIGPWR : Z := 30.
Definition SIGSYS : Z := 31.
Definition NSIG : Z := 32.

Definition SIG_DFL : Z := 0.
Definition SIG_ERR : Z := -1.
Definition SIG_IGN : Z := 1.

Definition SA_ONSTACK : Z := Z.shiftl 1 0.
Definition SA_RESETHAND : Z := Z.shiftl 1 2.
Definition SA_RESTART : Z := Z.shiftl 1 3.
Definition SA_NODEFER : Z := Z.shiftl 1 6.
Definition SS_ONSTACK : Z := Z.shiftl 1 0.
Definition SS_DISABLE : Z := Z.shiftl 1 1.

(** The flag [f] is set in [flags]. *)
Definition flag (flags f : Z) : bool := negb (Z.land flags f =? 0).

(** The macro is used for signals from 1 to 64 only; the shift of other ones is
    undefined in C. *)
Definition sigmask (sig : Z) : Z := u64 (Z.shiftl 1 (sig - 1)).

Definition STOPSIGS : Z :=
  Z.lor (Z.lor (sigmask SIGTTIN) (sigmask SIGTTOU)) (Z.lor (sigmask SIGSTOP) (sigmask SIGTSTP)).

(** The complement of a 64-bit word. *)
Definition not64 (s : Z) : Z := u64 (Z.lnot s).

Inductive sig_action := sig_core | sig_terminate | sig_ignore | sig_cont | sig_stop.

#[export] Instance sig_action_eq_dec : EqDecision sig_action.
Proof. solve_decision. Defined.

(** [None]: [panic]. *)
Definition default_action (signo : Z) : option sig_action :=
  if bool_decide (signo ∈ [SIGABRT; SIGBUS; SIGFPE; SIGILL; SIGQUIT; SIGSEGV; SIGSTKFLT;
                           SIGSYS; SIGTRAP; SIGXCPU; SIGXFSZ])
  then Some sig_core
  else if bool_decide (signo ∈ [SIGALRM; SIGHUP; SIGINT; SIGIO; SIGKILL; SIGPIPE; SIGPROF;
                                SIGTERM; SIGUSR1; SIGUSR2; SIGVTALRM])
  then Some sig_terminate
  else if bool_decide (signo ∈ [SIGCHLD; SIGPWR; SIGURG; SIGWINCH]) then Some sig_ignore
  else if bool_decide (signo ∈ [SIGCONT]) then Some sig_cont
  else if bool_decide (signo ∈ [SIGSTOP; SIGTSTP; SIGTTIN; SIGTTOU]) then Some sig_stop
  else None.

(** ** Data *)

Record siginfo_t := mkSiginfo {
  si_signo : Z; si_code : Z; si_errno : Z; si_pid : Z; si_uid : Z; si_addr : Z;
  si_status : Z; si_band : Z; si_value : Z;
}.

(** [memset (&si, 0, sizeof (si))] and the signal number. *)
Definition siginfo_zero (signo : Z) : siginfo_t := mkSiginfo signo 0 0 0 0 0 0 0 0.

(** [sa_handler] and [sa_sigaction] are one member. *)
Record sigaction_t := mkSigaction { sa_handler : Z; sa_mask : Z; sa_flags : Z }.

Record stack_t := mkStack { st_sp : Z; st_size : Z; st_flags : Z }.

(** [struct signal_state] but for the lock, which is a mutex of the world; the
    waiter is that of the thread whose stack it is on. *)
Record signal_state := mkSignalState {
  s_pending : Z;
  s_blocked : Z;
  s_stack : stack_t;
  s_actions : list sigaction_t;
  s_info : list siginfo_t;
  s_sigwaiter : option nat;
}.

Record sigwaiter := mkSigwaiter {
  sw_next : option nat;
  sw_prev : option nat;
  sw_ss : nat;
  sw_signals : Z;
  sw_info : siginfo_t;
}.

(** The variables of sig-internal.c and sigwaiter.c, the signal states of the
    threads, and the waiters on the threads' stacks. *)
Record signals := mkSignals {
  sig_states : gmap nat signal_state;
  process_pending : Z;
  process_pending_info : list siginfo_t;
  sigwaiters : option nat;
  waiter_of : gmap nat sigwaiter;
}.

(** ** Operations on signal sets *)

Definition bad_signo (signo : Z) : bool := (signo <=? 0) || (NSIG <=? signo).

Definition sigaddset (s signo : Z) : error_t * Z :=
  if bad_signo signo then (EINVAL, s) else (OK, Z.lor s (sigmask signo)).

Definition sigdelset (s signo : Z) : error_t * Z :=
  if bad_signo signo then (EINVAL, s) else (OK, Z.land s (not64 (sigmask signo))).

Definition sigemptyset (s : Z) : error_t * Z := (OK, 0).

Definition sigfillset (s : Z) : error_t * Z := (OK, Z.shiftl 1 (NSIG - 1) - 1).

Definition sigismember (s signo : Z) : error_t * bool :=
  if bad_signo signo then (EINVAL, false) else (OK, negb (Z.land s (sigmask signo) =? 0)).

(** ** Signal sets as finite sets *)

Definition members (s : Z) : gset Z :=
  list_to_set (filter (fun a => Z.testbit s (a - 1) = true) (seqZ 1 (NSIG - 1))).

Definition valid_sigset (s : Z) : Prop := 0 <= s < 2 ^ 64.

Lemma elem_of_members a s : a ∈ members s <-> bad_signo a = false /\ Z.testbit s (a - 1) = true.
Proof.
  unfold members, bad_signo, NSIG. rewrite elem_of_list_to_set, list_elem_of_filter, elem_of_seqZ.
  rewrite orb_false_iff, Z.leb_gt, Z.leb_gt. intuition lia.
Qed.

Lemma good_signo a : bad_signo a = false -> 0 <= a - 1 < 31.
Proof. unfold bad_signo, NSIG. rewrite orb_false_iff, !Z.leb_gt. lia. Qed.

Lemma sigmask_pow a : 0 <= a - 1 < 64 -> sigmask a = 2 ^ (a - 1).
Proof.
  intros Ha. unfold sigmask. rewrite Z.shiftl_1_l. apply wrapu_small. split; [lia|].
  apply Z.pow_lt_mono_r; lia.
Qed.

Lemma sigmask_testbit a n : 0 <= a - 1 < 64 -> 0 <= n -> Z.testbit (sigmask a) n = (n =? a - 1).
Proof.
  intros Ha Hn. rewrite sigmask_pow by done. rewrite Z.pow2_bits_eqb by lia. apply Z.eqb_sym.
Qed.

Lemma u64_testbit x n : 0 <= n -> Z.testbit (u64 x) n = (n <? 64) && Z.testbit x n.
Proof.
  intros Hn. unfold wrapu. destruct (Z.ltb_spec n 64) as [Hl | Hl].
  - by rewrite Z.mod_pow2_bits_low by lia.
  - by rewrite Z.mod_pow2_bits_high by lia.
Qed.

Lemma not64_testbit x n : 0 <= n < 64 -> Z.testbit (not64 x) n = negb (Z.testbit x n).
Proof.
  intros Hn. unfold not64. rewrite u64_testbit, Z.lnot_spec by lia.
  by destruct (Z.ltb_spec n 64); [|lia].
Qed.

Lemma not64_valid x : valid_sigset (not64 x).
Proof. by apply wrapu_range. Qed.

Lemma sigmask_valid a : valid_sigset (sigmask a).
Proof. by apply wrapu_range. Qed.

Lemma valid_high s n : valid_sigset s -> 64 <= n -> Z.testbit s n = false.
Proof.
  intros [Hs Hs'] Hn. destruct (decide (s = 0)) as [-> | Hne]; [apply Z.bits_0|].
  apply Z.bits_above_log2; [done|]. apply Z.log2_lt_pow2; [lia|].
  eapply Z.lt_le_trans; [exact Hs'|]. apply Z.pow_le_mono_r; lia.
Qed.

(** A word none of whose bits from 64 on is set is a signal set. *)
Lemma valid_of_bits s :
  0 <= s -> (forall n, 64 <= n -> Z.testbit s n = false) -> valid_sigset s.
Proof.
  intros Hs Hb. split; [done|]. destruct (decide (s = 0)) as [-> | Hne]; [lia|].
  apply Z.log2_lt_pow2; [lia|]. destruct (Z.ltb_spec (Z.log2 s) 64) as [|Hl]; [done|].
  specialize (Hb _ Hl). rewrite Z.bit_log2 in Hb by lia. done.
Qed.

Lemma lor_valid s s' : valid_sigset s -> valid_sigset s' -> valid_sigset (Z.lor s s').
Proof.
  intros Hs Hs'. apply valid_of_bits; [by apply Z.lor_nonneg; destruct Hs, Hs'|].
  intros n Hn. by rewrite Z.lor_spec, !valid_high.
Qed.

Lemma land_valid s x : valid_sigset s -> valid_sigset (Z.land s x).
Proof.
  intros Hs. apply valid_of_bits; [apply Z.land_nonneg; left; by destruct Hs|].
  intros n Hn. by rewrite Z.land_spec, valid_high.
Qed.

Lemma members_add s a b :
  bad_signo a = false -> bad_signo b = false ->
  Z.testbit (Z.lor s (sigmask a)) (b - 1) = Z.testbit s (b - 1) || (b =? a).
Proof.
  intros Ha%good_signo Hb%good_signo. rewrite Z.lor_spec, sigmask_testbit by lia. f_equal.
  destruct (Z.eqb_spec b a), (Z.eqb_spec (b - 1) (a - 1)); (done || lia).
Qed.

Lemma members_del s a b :
  bad_signo a = false -> bad_signo b = false ->
  Z.testbit (Z.land s (not64 (sigmask a))) (b - 1) = Z.testbit s (b - 1) && negb (b =? a).
Proof.
  intros Ha%good_signo Hb%good_signo. rewrite Z.land_spec, not64_testbit, sigmask_testbit by lia.
  do 2 f_equal. destruct (Z.eqb_spec b a), (Z.eqb_spec (b - 1) (a - 1)); (done || lia).
Qed.

Lemma land_sigmask s a :
  bad_signo a = false -> (Z.land s (sigmask a) =? 0) = negb (Z.testbit s (a - 1)).
Proof.
  intros Ha%good_signo. destruct (Z.testbit s (a - 1)) eqn:Ht.
  - apply Z.eqb_neq. intros H0. assert (Z.testbit (Z.land s (sigmask a)) (a - 1) = true) as H1.
    + by rewrite Z.land_spec, Ht, sigmask_testbit, Z.eqb_refl by lia.
    + by rewrite H0, Z.bits_0 in H1.
  - apply Z.eqb_eq, Z.bits_inj'. intros n Hn. rewrite Z.land_spec, sigmask_testbit, Z.bits_0 by lia.
    destruct (Z.eqb_spec n (a - 1)) as [-> |]; [by rewrite Ht | by rewrite andb_false_r].
Qed.

Lemma delset_twice s a : snd (sigdelset (snd (sigdelset s a)) a) = snd (sigdelset s a).
Proof.
  unfold sigdelset. destruct (bad_signo a); cbn; [done|]. by rewrite <- Z.land_assoc, Z.land_diag.
Qed.

Lemma members_addset s a :
  bad_signo a = false -> members (snd (sigaddset s a)) = {[a]} ∪ members s.
Proof.
  intros Ha. unfold sigaddset. rewrite Ha. apply set_eq. intros b. cbn.
  rewrite elem_of_union, elem_of_singleton, !elem_of_members.
  destruct (bad_signo b) eqn:Hb; [intuition congruence|].
  rewrite members_add by done. rewrite orb_true_iff, Z.eqb_eq. intuition.
Qed.

Lemma members_delset s a :
  bad_signo a = false -> members (snd (sigdelset s a)) = members s ∖ {[a]}.
Proof.
  intros Ha. unfold sigdelset. rewrite Ha. apply set_eq. intros b. cbn.
  rewrite elem_of_difference, elem_of_singleton, !elem_of_members.
  destruct (bad_signo b) eqn:Hb; [intuition congruence|].
  rewrite members_del by done. rewrite andb_true_iff, negb_true_iff, Z.eqb_neq. intuition.
Qed.

(** C32: the functions on signal sets implement finite sets of the signals 1 to
    31.  Adding, deleting and testing a signal add, delete and test an element
    and fail with EINVAL, changing nothing, if there is no such signal;
    sigemptyset and sigfillset make the empty and the full set; the results are
    64-bit words. *)
Theorem sigset_refines_set s a :
  valid_sigset s ->
  (if bad_signo a
   then sigaddset s a = (EINVAL, s) /\ sigdelset s a = (EINVAL, s) /\
        sigismember s a = (EINVAL, false)
   else (exists s', sigaddset s a = (OK, s') /\ valid_sigset s' /\ members s' = {[a]} ∪ members s) /\
        (exists s', sigdelset s a = (OK, s') /\ valid_sigset s' /\ members s' = members s ∖ {[a]}) /\
        sigismember s a = (OK, bool_decide (a ∈ members s))) /\
  members (snd (sigemptyset s)) = ∅ /\
  (forall b, b ∈ members (snd (sigfillset s)) <-> 1 <= b < NSIG).
Proof.
  intros Hs. split; [|split].
  - pose proof (members_addset s a) as Hadd. pose proof (members_delset s a) as Hdel.
    unfold sigaddset, sigdelset, sigismember in *. destruct (bad_signo a) eqn:Ha; [done|]. split_and!.
    + eexists. split; [done|]. split; [by apply lor_valid, sigmask_valid | by apply Hadd].
    + eexists. split; [done|]. split; [by apply land_valid | by apply Hdel].
    + f_equal. rewrite land_sigmask, negb_involutive by done.
      destruct (Z.testbit s (a - 1)) eqn:Ht.
      * symmetry. by apply bool_decide_eq_true_2, elem_of_members.
      * symmetry. apply bool_decide_eq_false_2. rewrite elem_of_members, Ht. by intros [].
  - done.
  - intros b. assert (members (snd (sigfillset s)) = list_to_set (seqZ 1 31)) as -> by (by vm_compute).
    rewrite elem_of_list_to_set, elem_of_seqZ. unfold NSIG. lia.
Qed.

Lemma sigset_refines_set_witness :
  valid_sigset 5 /\ sigismember 5 SIGQUIT = (OK, bool_decide (SIGQUIT ∈ members 5)).
Proof.
  split; [done|]. destruct (sigset_refines_set 5 SIGQUIT) as [(_ & _ & Hm) _]; [done|]. exact Hm.
Defined.
