(* ===== verification/World.v ===== *)
(** * The process memory and the monad of library calls

    [world] holds the objects the library works on; [M A] is the type of a
    library call: it runs on a kernel thread [kctx], reads and writes the world
    and either finishes, fails, or suspends at a point where other threads can
    run.  The suspension points are the acquisition of a spin lock, the receive
    on a thread's wakeup port, and the explicit [yield]s. *)
From Stdlib Require Import ZArith Lia.
From S2P Require Import Prelude Queue SigSet.

(** ** Object names *)

(** The mutexes: those of the application, the [state_lock] and [cancel_lock]
    members of a thread, and the ones of the library;
    [sig_lock] and the locks of the threads' signal states. *)
Inductive mutex_id :=
  | MUser (n : nat) | MStateLock (t : nat) | MCancelLock (t : nat)
  | MFreeThreadsLock | MKeyLock | MSigLock | MSigState (t : nat).
Inductive cond_id := CUser (n : nat) | CStateCond (t : nat).
Inductive rwlock_id := RUser (n : nat) | RThreadsLock.
Inductive once_id := OUser (n : nat) | OKeyReady.

(** The queue heads: [__queue] of a mutex, a condition variable, a semaphore,
    a barrier, the two queues of a rwlock, and [__pthread_free_threads]. *)
Inductive head_id :=
  | HMutex (m : mutex_id) | HCond (c : cond_id) | HSem (s : nat)
  | HReaders (r : rwlock_id) | HWriters (r : rwlock_id) | HBarrier (b : nat)
  | HFreeThreads.

(** The spin locks ([__held] is one, too). *)
Inductive spin_id :=
  | SMutexHeld (m : mutex_id) | SMutexLock (m : mutex_id) | SCond (c : cond_id)
  | SRwHeld (r : rwlock_id) | SRwLock (r : rwlock_id) | SSem (s : nat)
  | SBarrier (b : nat) | SOnce (o : once_id) | SSigstate (k : nat).

#[export] Instance mutex_id_eq_dec : EqDecision mutex_id.
Proof. solve_decision. Defined.
#[export] Instance cond_id_eq_dec : EqDecision cond_id.
Proof. solve_decision. Defined.
#[export] Instance rwlock_id_eq_dec : EqDecision rwlock_id.
Proof. solve_decision. Defined.
#[export] Instance once_id_eq_dec : EqDecision once_id.
Proof. solve_decision. Defined.
#[export] Instance head_id_eq_dec : EqDecision head_id.
Proof. solve_decision. Defined.
#[export] Instance spin_id_eq_dec : EqDecision spin_id.
Proof. solve_decision. Defined.

#[export] Instance mutex_id_countable : Countable mutex_id.
Proof.
  refine (inj_countable'
    (fun m => match m with MUser n => (0, n) | MStateLock t => (1, t)
                         | MCancelLock t => (2, t) | MFreeThreadsLock => (3, 0)
                         | MKeyLock => (4, 0) | MSigLock => (5, 0) | MSigState t => (6, t) end)
    (fun p => match p with (0, n) => MUser n | (1, t) => MStateLock t
                         | (2, t) => MCancelLock t | (3, _) => MFreeThreadsLock
                         | (4, _) => MKeyLock | (5, _) => MSigLock
                         | (_, t) => MSigState t end) _).
  by intros [].
Defined.

#[export] Instance cond_id_countable : Countable cond_id.
Proof.
  refine (inj_countable'
    (fun c => match c with CUser n => inl n | CStateCond t => inr t end)
    (fun s => match s with inl n => CUser n | inr t => CStateCond t end) _).
  by intros [].
Defined.

#[export] Instance rwlock_id_countable : Countable rwlock_id.
Proof.
  refine (inj_countable'
    (fun r => match r with RUser n => Some n | RThreadsLock => None end)
    (fun o => match o with Some n => RUser n | None => RThreadsLock end) _).
  by intros [].
Defined.

#[export] Instance once_id_countable : Countable once_id.
Proof.
  refine (inj_countable'
    (fun o => match o with OUser n => Some n | OKeyReady => None end)
    (fun s => match s with Some n => OUser n | None => OKeyReady end) _).
  by intros [].
Defined.

#[export] Instance head_id_countable : Countable head_id.
Proof.
  refine (inj_countable'
    (fun h => match h with
      | HMutex m => inl m | HCond c => inr (inl c) | HReaders r => inr (inr (inl (true, r)))
      | HWriters r => inr (inr (inl (false, r))) | HSem s => inr (inr (inr (0, s)))
      | HBarrier b => inr (inr (inr (1, b))) | HFreeThreads => inr (inr (inr (2, 0))) end)
    (fun s => match s with
      | inl m => HMutex m | inr (inl c) => HCond c | inr (inr (inl (true, r))) => HReaders r
      | inr (inr (inl (false, r))) => HWriters r | inr (inr (inr (0, s))) => HSem s
      | inr (inr (inr (1, b))) => HBarrier b | inr (inr (inr _)) => HFreeThreads end) _).
  by intros [].
Defined.

#[export] Instance spin_id_countable : Countable spin_id.
Proof.
  refine (inj_countable'
    (fun x => match x with
      | SMutexHeld m => inl (true, m) | SMutexLock m => inl (false, m)
      | SCond c => inr (inl c) | SRwHeld r => inr (inr (inl (true, r)))
      | SRwLock r => inr (inr (inl (false, r))) | SSem s => inr (inr (inr (0, s)))
      | SBarrier b => inr (inr (inr (1, b))) | SSigstate k => inr (inr (inr (3, k)))
      | SOnce (OUser n) => inr (inr (inr (2, n))) | SOnce OKeyReady => inr (inr (inr (4, 0)))
      end)
    (fun s => match s with
      | inl (true, m) => SMutexHeld m | inl (false, m) => SMutexLock m
      | inr (inl c) => SCond c | inr (inr (inl (true, r))) => SRwHeld r
      | inr (inr (inl (false, r))) => SRwLock r | inr (inr (inr (0, s))) => SSem s
      | inr (inr (inr (1, b))) => SBarrier b | inr (inr (inr (2, o))) => SOnce (OUser o)
      | inr (inr (inr (3, k))) => SSigstate k | inr (inr (inr (_, _))) => SOnce OKeyReady
      end) _).
  intros [| | | | | | | [|] | ]; reflexivity.
Defined.

(** ** Data of the synchronisation objects *)

Record timespec := mkTimespec { tv_sec : Z; tv_nsec : Z }.

(** bits/mutex-attr.h *)
Record mutexattr := mkMutexattr {
  prioceiling : Z; protocol : Z; mx_pshared : Z; mutex_type : Z }.

(** The [attr] member of a mutex: null, one of the two static sentinels, a block
    allocated by [pthread_mutex_init], or such a block after it was freed. *)
Inductive mutexattr_ptr :=
  | ANull | AErrorcheck | ARecursive | AHeap (a : mutexattr) | AFreed.

(** bits/mutex.h; [__held] and [__lock] are spin locks, [__queue] a queue head,
    [cthreadscompat1] and [data] are never used. *)
Record mutex := mkMutex { m_attr : mutexattr_ptr; m_owner : option nat; m_locks : Z }.

(** bits/condition-attr.h and bits/condition.h. *)
Record condattr := mkCondattr { cn_pshared : Z; cn_clock : Z }.
Record cond := mkCond { c_attr : option condattr }.

(** bits/rwlock.h *)
Record rwlockattr := mkRwlockattr { rw_pshared : Z }.
Record rwlock := mkRwlock { rw_readers : Z; rw_attr : option rwlockattr }.

(** bits/semaphore.h *)
Record semaphore := mkSem { sem_pshared : Z; sem_value : Z }.

(** bits/barrier.h *)
Record barrierattr := mkBarrierattr { b_pshared : Z }.
Record barrier := mkBarrier { b_pending : Z; b_count : Z; b_attr : option barrierattr }.

(** ** Threads *)

(** pt-internal.h *)
Inductive pthread_state :=
  | PTHREAD_JOINABLE | PTHREAD_DETACHED | PTHREAD_EXITED | PTHREAD_TERMINATED.

#[export] Instance pthread_state_eq_dec : EqDecision pthread_state.
Proof. solve_decision. Defined.

(** [struct cancel_ctx] of pt-cond-timedwait.c, the argument of the only
    cancellation hook. *)
Record cancel_ctx := mkCancelCtx { ctx_wakeup : nat; ctx_cond : cond_id }.

(** A cleanup handler: the unlocking of a mutex, which [pthread_join] pushes, or
    a function of the application with its argument. *)
Inductive cancelation_handler :=
  | HandlerMutexUnlock (m : mutex_id)
  | HandlerUser (f arg : Z).

(** [struct __pthread], with the members of PTHREAD_SYSDEP_MEMBERS and the
    machine context; [next] and [prevp] are in the queue heap, the two locks
    and the condition variable are objects of their own. *)
Record pthread := mkPthread {
  p_thread : Z;
  cancel_hook : option cancel_ctx;
  cancel_state : Z;
  cancel_type : Z;
  cancel_pending : Z;
  cancelation_handlers : list cancelation_handler;
  p_stackaddr : Z;
  p_stacksize : Z;
  p_guardsize : Z;
  p_stack : bool;
  p_status : Z;
  p_state : pthread_state;
  mc_pc : Z;
  mc_sp : Z;
  kernel_thread : Z;
  have_kernel_resources : bool;
  p_tcb : option Z;
  thread_specifics : option Z;
}.

Definition with_p_thread x (p : pthread) : pthread :=
  mkPthread x (cancel_hook p) (cancel_state p) (cancel_type p)
    (cancel_pending p) (cancelation_handlers p) (p_stackaddr p) (p_stacksize
    p) (p_guardsize p) (p_stack p) (p_status p) (p_state p) (mc_pc p) (mc_sp
    p) (kernel_thread p) (have_kernel_resources p) (p_tcb p)
    (thread_specifics p).
Definition with_cancel_hook x (p : pthread) : pthread :=
  mkPthread (p_thread p) x (cancel_state p) (cancel_type p) (cancel_pending
    p) (cancelation_handlers p) (p_stackaddr p) (p_stacksize p) (p_guardsize
    p) (p_stack p) (p_status p) (p_state p) (mc_pc p) (mc_sp p)
    (kernel_thread p) (have_kernel_resources p) (p_tcb p) (thread_specifics
    p).
Definition with_cancel_state x (p : pthread) : pthread :=
  mkPthread (p_thread p) (cancel_hook p) x (cancel_type p) (cancel_pending
    p) (cancelation_handlers p) (p_stackaddr p) (p_stacksize p) (p_guardsize
    p) (p_stack p) (p_status p) (p_state p) (mc_pc p) (mc_sp p)
    (kernel_thread p) (have_kernel_resources p) (p_tcb p) (thread_specifics
    p).
Definition with_cancel_type x (p : pthread) : pthread :=
  mkPthread (p_thread p) (cancel_hook p) (cancel_state p) x (cancel_pending
    p) (cancelation_handlers p) (p_stackaddr p) (p_stacksize p) (p_guardsize
    p) (p_stack p) (p_status p) (p_state p) (mc_pc p) (mc_sp p)
    (kernel_thread p) (have_kernel_resources p) (p_tcb p) (thread_specifics
    p).
Definition with_cancel_pending x (p : pthread) : pthread :=
  mkPthread (p_thread p) (cancel_hook p) (cancel_state p) (cancel_type p) x
    (cancelation_handlers p) (p_stackaddr p) (p_stacksize p) (p_guardsize p)
    (p_stack p) (p_status p) (p_state p) (mc_pc p) (mc_sp p) (kernel_thread
    p) (have_kernel_resources p) (p_tcb p) (thread_specifics p).
Definition with_cancelation_handlers x (p : pthread) : pthread :=
  mkPthread (p_thread p) (cancel_hook p) (cancel_state p) (cancel_type p)
    (cancel_pending p) x (p_stackaddr p) (p_stacksize p) (p_guardsize p)
    (p_stack p) (p_status p) (p_state p) (mc_pc p) (mc_sp p) (kernel_thread
    p) (have_kernel_resources p) (p_tcb p) (thread_specifics p).
Definition with_p_stackaddr x (p : pthread) : pthread :=
  mkPthread (p_thread p) (cancel_hook p) (cancel_state p) (cancel_type p)
    (cancel_pending p) (cancelation_handlers p) x (p_stacksize p)
    (p_guardsize p) (p_stack p) (p_status p) (p_state p) (mc_pc p) (mc_sp p)
    (kernel_thread p) (have_kernel_resources p) (p_tcb p) (thread_specifics
    p).
Definition with_p_stacksize x (p : pthread) : pthread :=
  mkPthread (p_thread p) (cancel_hook p) (cancel_state p) (cancel_type p)
    (cancel_pending p) (cancelation_handlers p) (p_stackaddr p) x
    (p_guardsize p) (p_stack p) (p_status p) (p_state p) (mc_pc p) (mc_sp p)
    (kernel_thread p) (have_kernel_resources p) (p_tcb p) (thread_specifics
    p).
Definition with_p_guardsize x (p : pthread) : pthread :=
  mkPthread (p_thread p) (cancel_hook p) (cancel_state p) (cancel_type p)
    (cancel_pending p) (cancelation_handlers p) (p_stackaddr p) (p_stacksize
    p) x (p_stack p) (p_status p) (p_state p) (mc_pc p) (mc_sp p)
    (kernel_thread p) (have_kernel_resources p) (p_tcb p) (thread_specifics
    p).
Definition with_p_stack x (p : pthread) : pthread :=
  mkPthread (p_thread p) (cancel_hook p) (cancel_state p) (cancel_type p)
    (cancel_pending p) (cancelation_handlers p) (p_stackaddr p) (p_stacksize
    p) (p_guardsize p) x (p_status p) (p_state p) (mc_pc p) (mc_sp p)
    (kernel_thread p) (have_kernel_resources p) (p_tcb p) (thread_specifics
    p).
Definition with_p_status x (p : pthread) : pthread :=
  mkPthread (p_thread p) (cancel_hook p) (cancel_state p) (cancel_type p)
    (cancel_pending p) (cancelation_handlers p) (p_stackaddr p) (p_stacksize
    p) (p_guardsize p) (p_stack p) x (p_state p) (mc_pc p) (mc_sp p)
    (kernel_thread p) (have_kernel_resources p) (p_tcb p) (thread_specifics
    p).
Definition with_p_state x (p : pthread) : pthread :=
  mkPthread (p_thread p) (cancel_hook p) (cancel_state p) (cancel_type p)
    (cancel_pending p) (cancelation_handlers p) (p_stackaddr p) (p_stacksize
    p) (p_guardsize p) (p_stack p) (p_status p) x (mc_pc p) (mc_sp p)
    (kernel_thread p) (have_kernel_resources p) (p_tcb p) (thread_specifics
    p).
Definition with_mc_pc x (p : pthread) : pthread :=
  mkPthread (p_thread p) (cancel_hook p) (cancel_state p) (cancel_type p)
    (cancel_pending p) (cancelation_handlers p) (p_stackaddr p) (p_stacksize
    p) (p_guardsize p) (p_stack p) (p_status p) (p_state p) x (mc_sp p)
    (kernel_thread p) (have_kernel_resources p) (p_tcb p) (thread_specifics
    p).
Definition with_mc_sp x (p : pthread) : pthread :=
  mkPthread (p_thread p) (cancel_hook p) (cancel_state p) (cancel_type p)
    (cancel_pending p) (cancelation_handlers p) (p_stackaddr p) (p_stacksize
    p) (p_guardsize p) (p_stack p) (p_status p) (p_state p) (mc_pc p) x
    (kernel_thread p) (have_kernel_resources p) (p_tcb p) (thread_specifics
    p).
Definition with_kernel_thread x (p : pthread) : pthread :=
  mkPthread (p_thread p) (cancel_hook p) (cancel_state p) (cancel_type p)
    (cancel_pending p) (cancelation_handlers p) (p_stackaddr p) (p_stacksize
    p) (p_guardsize p) (p_stack p) (p_status p) (p_state p) (mc_pc p) (mc_sp
    p) x (have_kernel_resources p) (p_tcb p) (thread_specifics p).
Definition with_have_kernel_resources x (p : pthread) : pthread :=
  mkPthread (p_thread p) (cancel_hook p) (cancel_state p) (cancel_type p)
    (cancel_pending p) (cancelation_handlers p) (p_stackaddr p) (p_stacksize
    p) (p_guardsize p) (p_stack p) (p_status p) (p_state p) (mc_pc p) (mc_sp
    p) (kernel_thread p) x (p_tcb p) (thread_specifics p).
Definition with_p_tcb x (p : pthread) : pthread :=
  mkPthread (p_thread p) (cancel_hook p) (cancel_state p) (cancel_type p)
    (cancel_pending p) (cancelation_handlers p) (p_stackaddr p) (p_stacksize
    p) (p_guardsize p) (p_stack p) (p_status p) (p_state p) (mc_pc p) (mc_sp
    p) (kernel_thread p) (have_kernel_resources p) x (thread_specifics p).
Definition with_thread_specifics x (p : pthread) : pthread :=
  mkPthread (p_thread p) (cancel_hook p) (cancel_state p) (cancel_type p)
    (cancel_pending p) (cancelation_handlers p) (p_stackaddr p) (p_stacksize
    p) (p_guardsize p) (p_stack p) (p_status p) (p_state p) (mc_pc p) (mc_sp
    p) (kernel_thread p) (have_kernel_resources p) (p_tcb p) x.

(** ** Thread specific data: pt-key.h *)

(** An element of the array of destructors: [PTHREAD_KEY_INVALID], a null
    pointer, or a function. *)
Inductive destructor := KeyInvalid | KeyNull | KeyFn (f : Z).

#[export] Instance destructor_eq_dec : EqDecision destructor.
Proof. solve_decision. Defined.

Record keys_t := mkKeys {
  key_destructors : gmap Z destructor;
  key_size : Z;
  key_count : Z;
  key_invalid_count : Z;
  key_index : Z;
}.

(** ** The world *)

(** The parts of glibc's [struct hurd_sigstate] the library uses. *)
Record hurd_sigstate := mkSigstate {
  ss_blocked : Z;
  ss_pending : Z;
  ss_cancel : Z;
  ss_cancel_hook : option cancel_ctx;
  ss_intr_port : Z;
}.

(** pt-internal.h: the TCB of a thread. *)
Record tcbhead := mkTcb { tcb_tcb : Z; tcb_self : Z }.

(** The requests to the kernel and to glibc that the library does not read the
    outcome of, other than success or failure. *)
Inductive kcall :=
  | KPortAllocate (t : nat) | KPortInsertRight (t : nat) | KPortDestroy (t : nat)
  | KThreadCreate (k : Z) | KThreadTerminate (k : Z) | KThreadResume (k : Z)
  | KThreadSuspend (k : Z) | KThreadAbort (k : Z)
  | KThreadGetState (k : Z) | KThreadSetState (k : Z) (ip sp gs : option Z)
  | KSetLdt (k sel lo hi : Z) | KSetGdt (k sel lo hi : Z)
  | KVmAllocate (base size : Z) | KVmDeallocate (base size : Z)
  | KVmProtect (base size : Z)
  | KTlsAllocate (tcb : Z) | KTlsDeallocate (tcb : Z)
  | KRaiseSignal (k sig : Z).

(** The variables of pt-alloc.c, pt-create.c, pt-stack-alloc.c and
    pt-getconcurrency.c. *)
Record globals := mkGlobals {
  threads_tab : option (list (option nat));  (* __pthread_threads *)
  max_threads : Z;  (* __pthread_max_threads *)
  num_threads : Z;  (* __pthread_num_threads *)
  pthread_total : Z;  (* __pthread_total *)
  next_stack_base : Z;
  default_stacksize : Z;  (* __pthread_default_attr.stacksize *)
  concurrency : Z;  (* __pthread_concurrency *)
  next_thread : nat;  (* the next fresh struct __pthread *)
  keys : keys_t;
}.

(** The environment the library runs in.  An exhausted list of answers stands
    for success. *)
Record environment := mkEnv {
  clock : Z -> timespec;
  answers : list bool;  (* of the allocator and the kernel to the next requests *)
  klog : list kcall;  (* the requests made so far, the last one first *)
  next_port : Z;  (* the next fresh port name or address *)
  garbage : pthread;  (* what fresh memory contains *)
  errnos : gmap Z error_t;  (* errno of each kernel thread *)
  sigstates : gmap Z hurd_sigstate;
  fresh_sigstate : hurd_sigstate;
  proc_sigmask : Z;
  tcbs : gmap Z tcbhead;
  stack_mem : gmap Z Z;
  ext_mem : gmap (Z * Z) Z;  (* memory of other libraries *)
}.

Abbreviation qheap_w := (qheap head_id).

Record world := mkWorld {
  qh : qheap_w;
  spins : gset spin_id;  (* the held spin locks *)
  mail : gmap nat nat;  (* messages queued on each thread's wakeup port *)
  mutexes : gmap mutex_id mutex;
  conds : gmap cond_id cond;
  rwlocks : gmap rwlock_id rwlock;
  sems : gmap nat semaphore;
  barriers : gmap nat barrier;
  onces : gmap once_id Z;
  pthreads : gmap nat pthread;
  glob : globals;
  env : environment;
  umem : gmap nat Z;  (* memory of the application *)
  sigs : signals;
}.

Definition set_qh x (w : world) : world :=
  mkWorld x (spins w) (mail w) (mutexes w) (conds w) (rwlocks w) (sems w)
    (barriers w) (onces w) (pthreads w) (glob w) (env w) (umem w) (sigs w).
Definition set_spins x (w : world) : world :=
  mkWorld (qh w) x (mail w) (mutexes w) (conds w) (rwlocks w) (sems w)
    (barriers w) (onces w) (pthreads w) (glob w) (env w) (umem w) (sigs w).
Definition set_mail x (w : world) : world :=
  mkWorld (qh w) (spins w) x (mutexes w) (conds w) (rwlocks w) (sems w)
    (barriers w) (onces w) (pthreads w) (glob w) (env w) (umem w) (sigs w).
Definition set_mutexes x (w : world) : world :=
  mkWorld (qh w) (spins w) (mail w) x (conds w) (rwlocks w) (sems w)
    (barriers w) (onces w) (pthreads w) (glob w) (env w) (umem w) (sigs w).
Definition set_conds x (w : world) : world :=
  mkWorld (qh w) (spins w) (mail w) (mutexes w) x (rwlocks w) (sems w)
    (barriers w) (onces w) (pthreads w) (glob w) (env w) (umem w) (sigs w).
Definition set_rwlocks x (w : world) : world :=
  mkWorld (qh w) (spins w) (mail w) (mutexes w) (conds w) x (sems w)
    (barriers w) (onces w) (pthreads w) (glob w) (env w) (umem w) (sigs w).
Definition set_sems x (w : world) : world :=
  mkWorld (qh w) (spins w) (mail w) (mutexes w) (conds w) (rwlocks w) x
    (barriers w) (onces w) (pthreads w) (glob w) (env w) (umem w) (sigs w).
Definition set_barriers x (w : world) : world :=
  mkWorld (qh w) (spins w) (mail w) (mutexes w) (conds w) (rwlocks w) (sems
    w) x (onces w) (pthreads w) (glob w) (env w) (umem w) (sigs w).
Definition set_onces x (w : world) : world :=
  mkWorld (qh w) (spins w) (mail w) (mutexes w) (conds w) (rwlocks w) (sems
    w) (barriers w) x (pthreads w) (glob w) (env w) (umem w) (sigs w).
Definition set_pthreads x (w : world) : world :=
  mkWorld (qh w) (spins w) (mail w) (mutexes w) (conds w) (rwlocks w) (sems
    w) (barriers w) (onces w) x (glob w) (env w) (umem w) (sigs w).
Definition set_glob x (w : world) : world :=
  mkWorld (qh w) (spins w) (mail w) (mutexes w) (conds w) (rwlocks w) (sems
    w) (barriers w) (onces w) (pthreads w) x (env w) (umem w) (sigs w).
Definition set_env x (w : world) : world :=
  mkWorld (qh w) (spins w) (mail w) (mutexes w) (conds w) (rwlocks w) (sems
    w) (barriers w) (onces w) (pthreads w) (glob w) x (umem w) (sigs w).
Definition set_umem x (w : world) : world :=
  mkWorld (qh w) (spins w) (mail w) (mutexes w) (conds w) (rwlocks w) (sems
    w) (barriers w) (onces w) (pthreads w) (glob w) (env w) x (sigs w).
Definition set_sigs x (w : world) : world :=
  mkWorld (qh w) (spins w) (mail w) (mutexes w) (conds w) (rwlocks w) (sems
    w) (barriers w) (onces w) (pthreads w) (glob w) (env w) (umem w) x.

Definition set_threads_tab x (g : globals) : globals :=
  mkGlobals x (max_threads g) (num_threads g) (pthread_total g)
    (next_stack_base g) (default_stacksize g) (concurrency g) (next_thread
    g) (keys g).
Definition set_max_threads x (g : globals) : globals :=
  mkGlobals (threads_tab g) x (num_threads g) (pthread_total g)
    (next_stack_base g) (default_stacksize g) (concurrency g) (next_thread
    g) (keys g).
Definition set_num_threads x (g : globals) : globals :=
  mkGlobals (threads_tab g) (max_threads g) x (pthread_total g)
    (next_stack_base g) (default_stacksize g) (concurrency g) (next_thread
    g) (keys g).
Definition set_pthread_total x (g : globals) : globals :=
  mkGlobals (threads_tab g) (max_threads g) (num_threads g) x
    (next_stack_base g) (default_stacksize g) (concurrency g) (next_thread
    g) (keys g).
Definition set_next_stack_base x (g : globals) : globals :=
  mkGlobals (threads_tab g) (max_threads g) (num_threads g) (pthread_total
    g) x (default_stacksize g) (concurrency g) (next_thread g) (keys g).
Definition set_default_stacksize x (g : globals) : globals :=
  mkGlobals (threads_tab g) (max_threads g) (num_threads g) (pthread_total
    g) (next_stack_base g) x (concurrency g) (next_thread g) (keys g).
Definition set_concurrency x (g : globals) : globals :=
  mkGlobals (threads_tab g) (max_threads g) (num_threads g) (pthread_total
    g) (next_stack_base g) (default_stacksize g) x (next_thread g) (keys g).
Definition set_next_thread x (g : globals) : globals :=
  mkGlobals (threads_tab g) (max_threads g) (num_threads g) (pthread_total
    g) (next_stack_base g) (default_stacksize g) (concurrency g) x (keys g).
Definition set_keys x (g : globals) : globals :=
  mkGlobals (threads_tab g) (max_threads g) (num_threads g) (pthread_total
    g) (next_stack_base g) (default_stacksize g) (concurrency g)
    (next_thread g) x.

Definition set_clock x (e : environment) : environment :=
  mkEnv x (answers e) (klog e) (next_port e) (garbage e) (errnos e)
    (sigstates e) (fresh_sigstate e) (proc_sigmask e) (tcbs e) (stack_mem e)
    (ext_mem e).
Definition set_answers x (e : environment) : environment :=
  mkEnv (clock e) x (klog e) (next_port e) (garbage e) (errnos e) (sigstates
    e) (fresh_sigstate e) (proc_sigmask e) (tcbs e) (stack_mem e) (ext_mem
    e).
Definition set_klog x (e : environment) : environment :=
  mkEnv (clock e) (answers e) x (next_port e) (garbage e) (errnos e)
    (sigstates e) (fresh_sigstate e) (proc_sigmask e) (tcbs e) (stack_mem e)
    (ext_mem e).
Definition set_next_port x (e : environment) : environment :=
  mkEnv (clock e) (answers e) (klog e) x (garbage e) (errnos e) (sigstates
    e) (fresh_sigstate e) (proc_sigmask e) (tcbs e) (stack_mem e) (ext_mem
    e).
Definition set_garbage x (e : environment) : environment :=
  mkEnv (clock e) (answers e) (klog e) (next_port e) x (errnos e) (sigstates
    e) (fresh_sigstate e) (proc_sigmask e) (tcbs e) (stack_mem e) (ext_mem
    e).
Definition set_errnos x (e : environment) : environment :=
  mkEnv (clock e) (answers e) (klog e) (next_port e) (garbage e) x
    (sigstates e) (fresh_sigstate e) (proc_sigmask e) (tcbs e) (stack_mem e)
    (ext_mem e).
Definition set_sigstates x (e : environment) : environment :=
  mkEnv (clock e) (answers e) (klog e) (next_port e) (garbage e) (errnos e)
    x (fresh_sigstate e) (proc_sigmask e) (tcbs e) (stack_mem e) (ext_mem e).
Definition set_fresh_sigstate x (e : environment) : environment :=
  mkEnv (clock e) (answers e) (klog e) (next_port e) (garbage e) (errnos e)
    (sigstates e) x (proc_sigmask e) (tcbs e) (stack_mem e) (ext_mem e).
Definition set_proc_sigmask x (e : environment) : environment :=
  mkEnv (clock e) (answers e) (klog e) (next_port e) (garbage e) (errnos e)
    (sigstates e) (fresh_sigstate e) x (tcbs e) (stack_mem e) (ext_mem e).
Definition set_tcbs x (e : environment) : environment :=
  mkEnv (clock e) (answers e) (klog e) (next_port e) (garbage e) (errnos e)
    (sigstates e) (fresh_sigstate e) (proc_sigmask e) x (stack_mem e)
    (ext_mem e).
Definition set_stack_mem x (e : environment) : environment :=
  mkEnv (clock e) (answers e) (klog e) (next_port e) (garbage e) (errnos e)
    (sigstates e) (fresh_sigstate e) (proc_sigmask e) (tcbs e) x (ext_mem e).
Definition set_ext_mem x (e : environment) : environment :=
  mkEnv (clock e) (answers e) (klog e) (next_port e) (garbage e) (errnos e)
    (sigstates e) (fresh_sigstate e) (proc_sigmask e) (tcbs e) (stack_mem e)
    x.

Lemma set_spins_twice s s' w : set_spins s (set_spins s' w) = set_spins s w.
Proof. done. Qed.
Lemma set_mutexes_twice x x' w : set_mutexes x (set_mutexes x' w) = set_mutexes x w.
Proof. done. Qed.

#[export] Hint Rewrite set_spins_twice set_mutexes_twice : libpthread.

(** Worlds are equal field by field. *)
Lemma world_ext w1 w2 :
  qh w1 = qh w2 -> spins w1 = spins w2 -> mail w1 = mail w2 -> mutexes w1 = mutexes w2 -> conds w1 = conds w2 ->
  rwlocks w1 = rwlocks w2 -> sems w1 = sems w2 -> barriers w1 = barriers w2 -> onces w1 = onces w2 ->
  pthreads w1 = pthreads w2 -> glob w1 = glob w2 -> env w1 = env w2 -> umem w1 = umem w2 -> sigs w1 = sigs w2 -> w1 = w2.
Proof. destruct w1, w2. cbn. intros. subst. reflexivity. Qed.
