(* ===== verification/Machine.v ===== *)
(** * The monad of library calls and its primitives

    A call [c : M A] applied to a kernel thread and a world yields a [res A].
    [Susp] hands the processor over: the thread waits for the reason given and
    its continuation receives the kernel's answer and the world at that time.
    Code between two suspension points runs without interruption; apart from
    accesses the code makes without holding a lock, which [yield] precedes, the
    code between two such points touches data only its thread or the holder of
    the spin lock it holds touches. *)
From Stdlib Require Import ZArith Lia FunctionalExtensionality.
From S2P Require Import Prelude Queue World.

(** The answers of [mach_msg]. *)
Inductive kern_return := KERN_SUCCESS | EMACH_RCV_TIMED_OUT | KERN_FAILURE.

#[export] Instance kern_return_eq_dec : EqDecision kern_return.
Proof. solve_decision. Defined.

(** What a suspended thread waits for: a spin lock, a message on the wakeup
    port of a thread (with a timeout in milliseconds), or nothing. *)
Inductive reason :=
  | RSpin (l : spin_id)
  | RRecv (t : nat) (timeout : option Z)
  | RYield.

(** Why a call does not return: a failed assertion ([assert], [assert_perror]),
    an access through a null or dangling pointer (the [LOSE] macro is one), a
    call of [abort] or [panic], behaviour that C leaves undefined, or a loop that ran
    out of fuel. *)
Inductive fault := FAssert | FSegv | FAbort | FUndef | FFuel.

Inductive res (A : Type) :=
  | Done (a : A) (w : world)
  | Fault (f : fault)
  | Exit (code : Z)
  | Halted (w : world)
  | Susp (r : reason) (w : world) (k : kern_return -> world -> res A).
Arguments Done {A} a w.
Arguments Fault {A} f.
Arguments Exit {A} code.
Arguments Halted {A} w.
Arguments Susp {A} r w k.

Fixpoint bindr {A B} (c : res A) (f : A -> world -> res B) : res B :=
  match c with
  | Done a w => f a w
  | Fault x => Fault x
  | Exit x => Exit x
  | Halted w => Halted w
  | Susp r w k => Susp r w (fun e w' => bindr (k e w') f)
  end.

Lemma bindr_assoc {A B C} (c : res A) (f : A -> world -> res B) (g : B -> world -> res C) :
  bindr (bindr c f) g = bindr c (fun a w => bindr (f a w) g).
Proof.
  induction c as [| | | |r w k IH]; [done..|]. cbn. f_equal.
  extensionality e. extensionality w'. apply IH.
Qed.

Lemma bindr_ret {A} (c : res A) : bindr c Done = c.
Proof.
  induction c as [| | | |r w k IH]; [done..|]. cbn. f_equal.
  extensionality e. extensionality w'. apply IH.
Qed.

(** The kernel thread a call runs on: its number and the thread local variable
    [___pthread_self]. *)
Record kctx := mkKctx { ktid : Z; tls_self : option nat }.

Definition M (A : Type) : Type := kctx -> world -> res A.

#[export] Instance M_ret : MRet M := fun A a _ w => Done a w.
#[export] Instance M_bind : MBind M :=
  fun A B f m me w => bindr (m me w) (fun a w' => f a me w').

#[global] Arguments mbind {_ _ _ _} _ _ /.
#[global] Arguments mret {_ _ _} _ /.
#[global] Arguments M_bind _ _ _ _ _ _ /.
#[global] Arguments M_ret _ _ _ _ /.

(** ** Primitives *)

Definition fail {A} (f : fault) : M A := fun _ _ => Fault f.
Definition gets {A} (f : world -> A) : M A := fun _ w => Done (f w) w.
Definition modify (f : world -> world) : M unit := fun _ w => Done tt (f w).

Definition c_assert (b : bool) : M unit := if b then mret tt else fail FAssert.

(** Dereference of a pointer: a missing object is a dangling pointer. *)
Definition deref {A} (o : option A) : M A :=
  match o with Some a => mret a | None => fail FSegv end.

Definition yield : M unit := fun _ w => Susp RYield w (fun _ w' => Done tt w').

Definition halt_self {A} : M A := fun _ w => Halted w.
Definition exit {A} (code : Z) : M A := fun _ _ => Exit code.

Definition set_errno (e : error_t) : M unit := fun me w =>
  Done tt (set_env (set_errnos (<[ktid me := e]> (errnos (env w))) (env w)) w).

(** A request to the allocator or the kernel: does it succeed? *)
Definition ask : M bool := fun _ w =>
  match answers (env w) with
  | [] => Done true w
  | b :: l => Done b (set_env (set_answers l (env w)) w)
  end.

Definition malloc_ok : M bool := ask.

(** A request that is recorded. *)
Definition kernel_request (c : kcall) : M bool :=
  modify (fun w => set_env (set_klog (c :: klog (env w)) (env w)) w);; ask.

(** Queue operations of pt-internal.h on the queues of the world. *)
Definition on_queue (f : qheap_w -> option qheap_w) : M unit := fun _ w =>
  match f (qh w) with
  | Some q => Done tt (set_qh q w)
  | None => Fault FAssert
  end.

Definition enqueue (h : head_id) (t : nat) : M unit := on_queue (__pthread_enqueue h t).
Definition dequeue (t : nat) : M unit := on_queue (__pthread_dequeue t).

Lemma enqueue_some h t me w q :
  __pthread_enqueue h t (qh w) = Some q -> enqueue h t me w = Done tt (set_qh q w).
Proof. intros Hq. unfold enqueue, on_queue. by rewrite Hq. Qed.

Lemma dequeue_some t me w q :
  __pthread_dequeue t (qh w) = Some q -> dequeue t me w = Done tt (set_qh q w).
Proof. intros Hq. unfold dequeue, on_queue. by rewrite Hq. Qed.

Definition queue_head (h : head_id) : M (option nat) := gets (fun w => cells (qh w) !! Head h).
Definition get_prevp (t : nat) : M (option (cell head_id)) := gets (fun w => prevp (qh w) !! t).

(** The macro [__pthread_dequeuing_iterate (queue, element) body]. *)
Fixpoint dequeuing_loop (fuel : nat) (pdi_next : option nat) (body : nat -> M unit) : M unit :=
  match pdi_next with
  | None => mret tt
  | Some element =>
      match fuel with
      | O => fail FFuel
      | S fuel =>
          next ← gets (fun w => cells (qh w) !! Next element);
          modify (fun w => set_qh (unlink element (qh w)) w);;
          body element;;
          dequeuing_loop fuel next body
      end
  end.

(** Every iteration but the first reads another non-null variable of the queue
    heap, so that their number bounds the iterations. *)
Definition __pthread_dequeuing_iterate (queue : option nat) (body : nat -> M unit) : M unit :=
  fuel ← gets (fun w => Datatypes.S (size (cells (qh w))));
  dequeuing_loop fuel queue body.

(** ** Running one thread alone

    [solo] lets a thread take the spin locks that are free and stops where it
    has to wait for another thread. *)
Fixpoint solo {A} (c : res A) : res A :=
  match c with
  | Susp (RSpin l) w k =>
      if decide (l ∈ spins w) then c else solo (k KERN_SUCCESS (set_spins ({[l]} ∪ spins w) w))
  | Susp RYield w k => solo (k KERN_SUCCESS w)
  | c => c
  end.

Lemma solo_bind_done {A B} (c : res A) (f : A -> world -> res B) a w :
  solo c = Done a w -> solo (bindr c f) = solo (f a w).
Proof.
  induction c as [a' w'|x|x|w'|r w' k IH]; cbn; [by intros [= -> ->]|done..|].
  destruct r as [l|t o|]; cbn; [|done|apply IH].
  case_decide; [done|]. apply IH.
Qed.

(** ** The loop over a queue *)

Section Iterate.
Context (me : kctx).

(** [g] is what the loop body does where it runs to completion; it leaves the
    links alone. *)
Definition quiet (body : nat -> M unit) (g : nat -> world -> option world) : Prop :=
  forall t w w', g t w = Some w' -> body t me w = Done tt w' /\ qh w' = qh w.

(** What the loop does to a list of threads. *)
Fixpoint drain_list (g : nat -> world -> option world) (l : list nat) (w : world) : option world :=
  match l with
  | [] => Some w
  | t :: l =>
      match g t (set_qh (unlink t (qh w)) w) with
      | Some w' => drain_list g l w'
      | None => None
      end
  end.

(** The chain of threads that starts with the pointer [o]. *)
Definition chain (q : qheap_w) (o : option nat) (l : list nat) : Prop :=
  match l with [] => o = None | t :: l => o = Some t /\ qseg q (Next t) l end.

Lemma qseg_chain q c l : qseg q c l -> chain q (cells q !! c) l.
Proof. destruct l as [|t l]; cbn; [done|]. intros (Hc & _ & Hl). done. Qed.

Lemma dequeuing_loop_spec body g l o fuel w w' :
  quiet body g -> chain (qh w) o l -> NoDup l -> length l <= fuel ->
  drain_list g l w = Some w' -> dequeuing_loop fuel o body me w = Done tt w'.
Proof.
  intros Hq. revert fuel o w. induction l as [|t l IH]; intros fuel o w Hs Hnd Hf Hd.
  { cbn in Hs. subst o. injection Hd as ->. by destruct fuel. }
  destruct Hs as (-> & Hs). apply NoDup_cons in Hnd as [Ht Hnd].
  destruct fuel as [|fuel]; [cbn in Hf; lia|]. cbn in *.
  destruct (g t _) as [w1|] eqn:Hg; [|done]. apply Hq in Hg as [-> Hqh]. cbn in *.
  apply IH; [|done|lia|done].
  rewrite Hqh. assert (cells (qh w) !! Next t = cells (unlink t (qh w)) !! Next t) as -> by done.
  apply qseg_chain. by apply qseg_unlink.
Qed.

(** The loop over a chain visits its threads in order. *)
Lemma dequeuing_iterate_spec body g l o w w' :
  quiet body g -> chain (qh w) o l -> NoDup l -> drain_list g l w = Some w' ->
  __pthread_dequeuing_iterate o body me w = Done tt w'.
Proof.
  intros Hq Hc Hnd Hd.
  change (__pthread_dequeuing_iterate o body me w)
    with (dequeuing_loop (Datatypes.S (size (cells (qh w)))) o body me w).
  eapply dequeuing_loop_spec; [done | done | done | | done].
  destruct l as [|t l]; cbn; [lia|]. destruct Hc as [_ Hc].
  apply NoDup_cons in Hnd as [_ Hnd]. pose proof (qseg_length _ _ _ Hc Hnd). lia.
Qed.
End Iterate.

#[global] Arguments __pthread_dequeuing_iterate : simpl never.
