(* ===== verification/Platform.v ===== *)
(** * What the library takes from the platform and from other libraries

    The classes stand for code that is not part of the library: constants of the
    kernel's headers, functions of the application, and libihash, whose laws are
    the documented behaviour of hurd/ihash.h. *)
From Stdlib Require Import ZArith Lia.
From S2P Require Import Prelude Queue World Machine.

Class Platform := {
  (** mach/machine/vm_param.h *)
  VM_MIN_ADDRESS : Z;
  VM_MAX_ADDRESS : Z;
  (** The number of threadvars of the C library, and the address of a
      threadvar for a stack pointer. *)
  hurd_threadvar_max : Z;
  threadvar_location : Z -> Z;
  (** The selector in [%gs], and the one the kernel gives a new GDT entry. *)
  self_gs : Z;
  gdt_sel : Z;
  (** limits.h: PAGESIZE and PTHREAD_THREADS_MAX, if defined. *)
  pagesize : option Z;
  PTHREAD_THREADS_MAX : option Z;
  (** A call of the application's function at an address with an argument. *)
  call : Z -> Z -> M Z;
  (** How often loops that the application's functions can prolong are followed. *)
  loop_fuel : nat;
}.

(** hurd/ihash.h.  A null pointer is [0]. *)
Class IHash := {
  hurd_ihash_create : M (option Z);
  hurd_ihash_free : Z -> M unit;
  hurd_ihash_find : Z -> Z -> M Z;
  hurd_ihash_add : Z -> Z -> Z -> M error_t;
  hurd_ihash_remove : Z -> Z -> M Z;
}.

(** What the documentation promises: [tables] are the tables in use and [value]
    the items, [0] where there is none, in the memory of the library. *)
Abbreviation ext_memory := (gmap (Z * Z) Z).

Definition with_ext (x : ext_memory) (w : world) : world := set_env (set_ext_mem x (env w)) w.

Class IHashLaws (I : IHash) := {
  tables : ext_memory -> gset Z;
  value : ext_memory -> Z -> Z -> Z;
  ihash_create_spec me w : let x := ext_mem (env w) in
    exists o x', hurd_ihash_create me w = Done o (with_ext x' w) /\
      match o with
      | Some h => h ∉ tables x /\ tables x' = {[h]} ∪ tables x /\
          (forall k, value x' h k = 0%Z) /\ (forall h' k, h' <> h -> value x' h' k = value x h' k)
      | None => tables x' = tables x /\ forall h k, value x' h k = value x h k
      end;
  ihash_free_spec h me w : let x := ext_mem (env w) in h ∈ tables x ->
    exists x', hurd_ihash_free h me w = Done tt (with_ext x' w) /\
      tables x' = tables x ∖ {[h]} /\ forall h' k, h' <> h -> value x' h' k = value x h' k;
  ihash_find_spec h k me w : let x := ext_mem (env w) in h ∈ tables x ->
    hurd_ihash_find h k me w = Done (value x h k) w;
  ihash_add_spec h k v me w : let x := ext_mem (env w) in h ∈ tables x ->
    exists e x', hurd_ihash_add h k v me w = Done e (with_ext x' w) /\ tables x' = tables x /\
      forall h' k', value x' h' k' = if decide (e = OK /\ h' = h /\ k' = k) then v else value x h' k';
  ihash_remove_spec h k me w : let x := ext_mem (env w) in h ∈ tables x ->
    exists r x', hurd_ihash_remove h k me w = Done r (with_ext x' w) /\ tables x' = tables x /\
      (value x h k <> 0%Z -> r = 1%Z) /\
      forall h' k', value x' h' k' = if decide (h' = h /\ k' = k) then 0%Z else value x h' k';
}.
