(* ===== verification/Sched.v ===== *)
(** * Threads interleaved, and a logic for their invariants

    A configuration is a world and a pool of suspended threads.  [cstep] lets
    one thread whose wait is over run to its next suspension point; the clocks
    may advance at any time.  The logic is in the style of Owicki and Gries:
    every thread has a ghost value, [I] relates the ghost values of all threads
    to the world at suspension points, and [wp] says that a thread re-establishes
    [I], changing its own ghost value only.  [adequacy] turns proofs about the
    single threads into a theorem about every interleaving. *)
From Stdlib Require Import ZArith Lia FunctionalExtensionality.
From stdpp Require Import relations.
From S2P Require Import Prelude Queue World Machine.

(** ** The end of a wait *)

Inductive resume : reason -> world -> kern_return -> world -> Prop :=
  | resume_spin l w :
      l ∉ spins w ->
      resume (RSpin l) w KERN_SUCCESS (set_spins ({[l]} ∪ spins w) w)
  | resume_yield w :
      resume RYield w KERN_SUCCESS w
  | resume_msg t timeout n w :
      mail w !! t = Some (S n) ->
      resume (RRecv t timeout) w KERN_SUCCESS (set_mail (<[t := n]> (mail w)) w)
  | resume_timeout t ms w :
      mail w !! t = Some 0 ->
      resume (RRecv t (Some ms)) w EMACH_RCV_TIMED_OUT w
  | resume_dead t timeout w :
      mail w !! t = None ->
      resume (RRecv t timeout) w KERN_FAILURE w.

(** The same as a function; [timeout] chooses to let a timed wait expire. *)
Definition resume_with (expire : bool) (r : reason) (w : world) : option (kern_return * world) :=
  match r with
  | RSpin l =>
      if decide (l ∈ spins w) then None
      else Some (KERN_SUCCESS, set_spins ({[l]} ∪ spins w) w)
  | RYield => Some (KERN_SUCCESS, w)
  | RRecv t timeout =>
      match mail w !! t with
      | None => Some (KERN_FAILURE, w)
      | Some (S n) => Some (KERN_SUCCESS, set_mail (<[t := n]> (mail w)) w)
      | Some O =>
          match timeout with
          | Some _ => if expire then Some (EMACH_RCV_TIMED_OUT, w) else None
          | None => None
          end
      end
  end.

Lemma resume_with_sound b r w e w' :
  resume_with b r w = Some (e, w') -> resume r w e w'.
Proof.
  destruct r as [l|t o|]; cbn.
  - case_decide; [done|]. intros [= <- <-]. by constructor.
  - destruct (mail w !! t) as [[|n]|] eqn:Hm.
    + destruct o; [|done]. destruct b; [|done]. intros [= <- <-]. by constructor.
    + intros [= <- <-]. by constructor.
    + intros [= <- <-]. by constructor.
  - intros [= <- <-]. constructor.
Qed.

Lemma resume_with_complete r w e w' :
  resume r w e w' -> exists b, resume_with b r w = Some (e, w').
Proof.
  intros []; cbn.
  - exists false. by rewrite decide_False by done.
  - by exists false.
  - exists false. by rewrite H.
  - exists true. by rewrite H.
  - exists false. by rewrite H.
Qed.

(** ** Configurations *)

Abbreviation thread_state := (reason * (kern_return -> world -> res unit))%type.

Inductive config :=
  | Run (w : world) (p : gmap nat thread_state)
  | Crashed (f : fault)
  | Exited (code : Z).

(** The configuration after thread [t] ran to [c]. *)
Definition commit (t : nat) (p : gmap nat thread_state) (c : res unit) : config :=
  match c with
  | Done _ w | Halted w => Run w (delete t p)
  | Susp r w k => Run w (<[t := (r, k)]> p)
  | Fault f => Crashed f
  | Exit z => Exited z
  end.

Definition tick (c : Z -> timespec) (w : world) : world :=
  set_env (set_clock c (env w)) w.

Inductive cstep : config -> config -> Prop :=
  | cstep_run w p t r k e w' :
      p !! t = Some (r, k) -> resume r w e w' ->
      cstep (Run w p) (commit t p (k e w'))
  | cstep_tick c w p : cstep (Run w p) (Run (tick c w) p).

(** A schedule: which thread runs, and whether its wait expires. *)
Fixpoint exec (sched : list (nat * bool)) (c : config) : option config :=
  match sched with
  | [] => Some c
  | (t, b) :: sched =>
      match c with
      | Run w p =>
          match p !! t with
          | Some (r, k) =>
              match resume_with b r w with
              | Some (e, w') => exec sched (commit t p (k e w'))
              | None => None
              end
          | None => None
          end
      | _ => None
      end
  end.

Lemma exec_sound sched c c' : exec sched c = Some c' -> rtc cstep c c'.
Proof.
  revert c. induction sched as [|[t b] sched IH]; intros c; cbn; [intros [= ->]; reflexivity|].
  destruct c as [w p| |]; [|done|done].
  destruct (p !! t) as [[r k]|] eqn:Hp; [|done].
  destruct (resume_with b r w) as [[e w']|] eqn:Hr; [|done].
  intros Hx. eapply rtc_l; [|by apply IH].
  by econstructor; [|eapply resume_with_sound].
Qed.

(** No thread can run, whatever the schedule. *)
Definition stuck (c : config) : Prop :=
  match c with
  | Run w p => p <> ∅ /\ forall t r k, p !! t = Some (r, k) -> forall e w', ~ resume r w e w'
  | _ => False
  end.

(** Thread [t] about to run [body]. *)
Definition spawn (me : kctx) (body : M unit) : thread_state := (RYield, fun _ w => body me w).

(** ** Ghost values of threads *)

Lemma fn_ext {G} (f g : nat -> G) : (forall t, f t = g t) -> f = g.
Proof. apply functional_extensionality. Qed.

Lemma fn_insert_id {G} (γ : nat -> G) t g : γ t = g -> <[t := g]> γ = γ.
Proof.
  intros <-. apply fn_ext. intros t'.
  destruct (decide (t = t')) as [<- | Hne];
    [by rewrite fn_lookup_insert | by rewrite fn_lookup_insert_ne].
Qed.

Lemma fn_insert_insert {G} (γ : nat -> G) t g g' : <[t := g]> (<[t := g']> γ) = <[t := g]> γ.
Proof.
  apply fn_ext. intros t'.
  destruct (decide (t = t')) as [<- | Hne];
    [by rewrite !fn_lookup_insert | by rewrite !fn_lookup_insert_ne].
Qed.

(** ** The logic *)

Section Logic.
Context {G : Type} (I : (nat -> G) -> world -> Prop).
(** Which waits a thread with a given ghost value can be in, and the ghost
    values a thread can end with. *)
Context (S : nat -> G -> reason -> Prop) (E : nat -> G -> Prop).
Implicit Types (γ : nat -> G) (t : nat) (w : world).

Fixpoint wp (t : nat) {A} (c : res A) γ (Q : A -> (nat -> G) -> world -> Prop) : Prop :=
  match c with
  | Done a w => Q a γ w
  | Fault _ => False
  | Exit _ => True
  | Halted w => exists g, E t g /\ I (<[t := g]> γ) w
  | Susp r w k =>
      exists g, S t g r /\ I (<[t := g]> γ) w /\
        forall γ' w' e w'', γ' t = g -> I γ' w' -> resume r w' e w'' ->
                            wp t (k e w'') γ' Q
  end.

Lemma wp_done t {A} (a : A) w γ (Q : A -> (nat -> G) -> world -> Prop) :
  Q a γ w -> wp t (Done a w) γ Q.
Proof. done. Qed.

Lemma wp_susp t {A} r w (k : kern_return -> world -> res A) γ g Q :
  S t g r -> I (<[t := g]> γ) w ->
  (forall γ' w' e w'', γ' t = g -> I γ' w' -> resume r w' e w'' -> wp t (k e w'') γ' Q) ->
  wp t (Susp r w k) γ Q.
Proof. intros. exists g. auto. Qed.

Lemma wp_bind t {A B} (c : res A) (f : A -> world -> res B) γ Q :
  wp t c γ (fun a γ' w => wp t (f a w) γ' Q) -> wp t (bindr c f) γ Q.
Proof.
  revert γ. induction c as [a w|x|x|w|r w k IH]; intros γ; cbn; try done.
  intros (g & HS & HI & Hk). exists g. repeat split; [done..|]. intros. eapply IH, Hk; done.
Qed.

Lemma wp_mono t {A} (c : res A) γ (Q Q' : A -> (nat -> G) -> world -> Prop) :
  wp t c γ Q -> (forall a γ' w, Q a γ' w -> Q' a γ' w) -> wp t c γ Q'.
Proof.
  intros Hc HQ. revert γ Hc. induction c as [a w|x|x|w|r w k IH]; intros γ; cbn; try done.
  - apply HQ.
  - intros (g & HS & HI & Hk). exists g. repeat split; [done..|]. intros. eapply IH, Hk; done.
Qed.

(** The invariant holds with the ghost value [g] for thread [t]. *)
Definition at_phase t g γ w : Prop := I (<[t := g]> γ) w.

Lemma at_phase_same t g γ w : γ t = g -> at_phase t g γ w <-> I γ w.
Proof. intros H. unfold at_phase. by rewrite fn_insert_id. Qed.

(** A specification of a call: [P] before, [Q] after, on thread [t]. *)
Definition triple (t : nat) {A} (P : (nat -> G) -> world -> Prop) (c : M A) (me : kctx)
    (Q : A -> (nat -> G) -> world -> Prop) : Prop :=
  forall γ w, P γ w -> wp t (c me w) γ Q.

Lemma triple_bind t {A B} P (c : M A) (f : A -> M B) me Q R :
  triple t P c me Q -> (forall a, triple t (Q a) (f a) me R) ->
  triple t P (c ≫= f) me R.
Proof.
  intros Hc Hf γ w HP. apply wp_bind. eapply wp_mono; [by apply Hc|].
  intros a γ' w'. apply Hf.
Qed.

Lemma triple_weaken t {A} P P' (c : M A) me (Q Q' : A -> (nat -> G) -> world -> Prop) :
  triple t P c me Q -> (forall γ w, P' γ w -> P γ w) ->
  (forall a γ w, Q a γ w -> Q' a γ w) -> triple t P' c me Q'.
Proof. intros Hc HP HQ γ w HP'. eapply wp_mono; [apply Hc; auto | auto]. Qed.

Lemma triple_ret t {A} (a : A) me (Q : A -> (nat -> G) -> world -> Prop) :
  triple t (Q a) (mret a) me Q.
Proof. by intros γ w. Qed.

(** ** Adequacy *)

Context (I_tick : forall γ c w, I γ w -> I γ (tick c w)).

Definition finished (t : nat) : unit -> (nat -> G) -> world -> Prop :=
  fun _ γ w => exists g, E t g /\ I (<[t := g]> γ) w.

Definition thread_ok (t : nat) γ (s : thread_state) : Prop :=
  S t (γ t) s.1 /\
  forall γ' w' e w'', γ' t = γ t -> I γ' w' -> resume s.1 w' e w'' ->
                      wp t (s.2 e w'') γ' (finished t).

Definition good (c : config) : Prop :=
  match c with
  | Run w p =>
      exists γ, I γ w /\ (forall t s, p !! t = Some s -> thread_ok t γ s) /\
        (forall t, p !! t = None -> E t (γ t))
  | Crashed _ => False
  | Exited _ => True
  end.

Lemma thread_ok_other t t' γ g s : t <> t' -> thread_ok t γ s -> thread_ok t (<[t' := g]> γ) s.
Proof. intros Hne. unfold thread_ok. by rewrite fn_lookup_insert_ne by done. Qed.

Lemma good_step c c' : good c -> cstep c c' -> good c'.
Proof.
  intros Hg Hs. destruct Hs as [w p t r k e w' Hp Hr | clk w p].
  - destruct Hg as (γ & HI & Hts & Hend).
    destruct (Hts _ _ Hp) as [_ Hk]. specialize (Hk _ _ _ _ eq_refl HI Hr). cbn in Hk.
    assert (forall g w1, E t g -> I (<[t := g]> γ) w1 -> good (Run w1 (delete t p))) as Hdel.
    { intros g w1 HE H1. exists (<[t := g]> γ). split; [done|split].
      - intros t' s Hs. apply lookup_delete_Some in Hs as [Hne Hs].
        apply thread_ok_other; auto.
      - intros t' [<- | Ht]%lookup_delete_None; [by rewrite fn_lookup_insert|].
        destruct (decide (t = t')) as [<- | Hne]; [by rewrite fn_lookup_insert|].
        rewrite fn_lookup_insert_ne by done. auto. }
    destruct (k e w') as [a w1|x|x|w1|r1 w1 k1]; cbn in *; [|done|done| |].
    + destruct Hk as (g & HE & Hg). by eapply Hdel.
    + destruct Hk as (g & HE & Hg). by eapply Hdel.
    + destruct Hk as (g & HS & HI1 & Hk1). exists (<[t := g]> γ). split; [done|split].
      * intros t' s Hs. destruct (decide (t' = t)) as [-> | Hne].
        -- rewrite lookup_insert_eq in Hs. injection Hs as <-.
           split; cbn; rewrite fn_lookup_insert; [done|]. intros. by eapply Hk1.
        -- rewrite lookup_insert_ne in Hs by done. apply thread_ok_other; auto.
      * intros t' [Ht Hne]%lookup_insert_None.
        rewrite fn_lookup_insert_ne by done. auto.
  - destruct Hg as (γ & HI & Hts & Hend). exists γ. auto.
Qed.

Theorem adequacy c c' : good c -> rtc cstep c c' -> good c'.
Proof. intros Hg Hr. induction Hr; [done|]. eauto using good_step. Qed.

(** A pool of fresh threads is good when each satisfies its specification. *)
Lemma good_spawn γ w (p : gmap nat thread_state) :
  I γ w ->
  (forall t s, p !! t = Some s -> exists me body, s = spawn me body /\ S t (γ t) RYield /\
      triple t (fun γ' w' => γ' t = γ t /\ I γ' w') body me (finished t)) ->
  (forall t, p !! t = None -> E t (γ t)) ->
  good (Run w p).
Proof.
  intros HI Hp Hend. exists γ. split; [done|]. split; [|done]. intros t s Hs.
  destruct (Hp _ _ Hs) as (me & body & -> & HS & Hb). split; [done|].
  intros γ' w' e w'' Hγ HI' Hr. inversion Hr; subst. by apply Hb.
Qed.
End Logic.


(** A check for [stuck]. *)
Definition stuckb (c : config) : bool :=
  match c with
  | Run w p =>
      negb (size p =? 0) &&
      forallb (fun x : nat * thread_state => bool_decide (resume_with true x.2.1 w = None))
        (map_to_list p)
  | _ => false
  end.

Lemma resume_with_none r w : resume_with true r w = None -> forall e w', ~ resume r w e w'.
Proof.
  intros Hn e w' Hr.
  destruct Hr as [l w Hl | w | t o n w Hm | t ms w Hm | t o w Hm]; cbn in Hn.
  - by rewrite decide_False in Hn.
  - done.
  - by rewrite Hm in Hn.
  - by rewrite Hm in Hn.
  - by rewrite Hm in Hn.
Qed.

Lemma stuckb_sound c : stuckb c = true -> stuck c.
Proof.
  destruct c as [w p| |]; [|done|done]. cbn. intros [Hne Hall]%andb_true_iff. split.
  - intros ->. by rewrite map_size_empty in Hne.
  - intros t r k Hp. rewrite forallb_forall in Hall.
    apply resume_with_none. specialize (Hall (t, (r, k))). cbn in Hall.
    apply bool_decide_eq_true in Hall; [done|]. apply list_elem_of_In, elem_of_map_to_list, Hp.
Qed.

(** The configuration a schedule leads to. *)
Definition run_schedule (sched : list (nat * bool)) (c : config) : config :=
  default c (exec sched c).

Lemma run_schedule_rtc sched c : rtc cstep c (run_schedule sched c).
Proof.
  unfold run_schedule. destruct (exec sched c) as [c'|] eqn:Hx; cbn; [|reflexivity].
  by apply exec_sound in Hx.
Qed.

#[global] Arguments wp : simpl never.
