(* ===== verification/Mach.v ===== *)
(** * Spin locks, the current thread, blocking and waking up

    bits/spin-lock-inline.h and pt-spin.c (the spin locks), pt-sysdep.h
    ([_pthread_self]), pt-block.c, pt-timedblock.c and pt-wakeup.c.  The message
    queue of a wakeup port holds one message ([mach_port_set_qlimit]): [mail]
    counts the queued ones, and the absence of the thread in [mail] means that
    the port does not exist. *)
From Stdlib Require Import ZArith Lia.
From S2P Require Import Prelude Queue World Machine Sched.

(** ** Spin locks *)

(** [xchgl]: the lock word becomes one whatever it was. *)
Definition __pthread_spin_trylock (l : spin_id) : M error_t :=
  locked ← gets (fun w => bool_decide (l ∈ spins w));
  modify (fun w => set_spins ({[l]} ∪ spins w) w);;
  mret (if locked : bool then EBUSY else OK).

(** [__spin_lock_solid] retries until it gets the lock. *)
Definition _pthread_spin_lock (l : spin_id) : M error_t :=
  fun _ w => Susp (RSpin l) w (fun _ w' => Done OK w').

Definition __pthread_spin_lock (l : spin_id) : M error_t :=
  yield;;
  r ← __pthread_spin_trylock l;
  if decide (r = OK) then mret OK else _pthread_spin_lock l.

Definition __pthread_spin_unlock (l : spin_id) : M error_t :=
  modify (fun w => set_spins (spins w ∖ {[l]}) w);; mret OK.

Definition __pthread_spin_init (l : spin_id) (pshared : Z) : M error_t :=
  modify (fun w => set_spins (spins w ∖ {[l]}) w);; mret OK.

Definition __pthread_spin_destroy (l : spin_id) : M error_t := mret OK.

(** ** The current thread *)

Definition _pthread_self : M nat :=
  tab ← gets (fun w => threads_tab (glob w));
  c_assert (bool_decide (is_Some tab));;
  self ← (fun me w => Done (tls_self me) w);
  match self with
  | None => fail FAssert
  | Some self =>
      p ← gets (fun w => pthreads w !! self);
      p ← deref p;
      me ← (fun me w => Done me w);
      c_assert (bool_decide (kernel_thread p = ktid me));;
      mret self
  end.

(** The kernel thread [me] runs the thread [t] and the library is initialised. *)
Definition runs (me : kctx) (t : nat) (w : world) : Prop :=
  is_Some (threads_tab (glob w)) /\ tls_self me = Some t /\
  exists p, pthreads w !! t = Some p /\ kernel_thread p = ktid me.

Lemma pthread_self_runs me t w : runs me t w -> _pthread_self me w = Done t w.
Proof.
  intros (Htab & Htls & p & Hp & Hk). unfold _pthread_self. cbn.
  rewrite bool_decide_eq_true_2 by done. cbn. rewrite Htls. cbn.
  rewrite Hp. cbn. by rewrite bool_decide_eq_true_2 by done.
Qed.

Lemma runs_same me t w w' :
  pthreads w' = pthreads w -> threads_tab (glob w') = threads_tab (glob w) ->
  runs me t w -> runs me t w'.
Proof. intros Hp Hg. unfold runs. by rewrite Hp, Hg. Qed.

(** The parts of the world that identify the running threads. *)
Definition framed (w w' : world) : Prop :=
  pthreads w' = pthreads w /\ threads_tab (glob w') = threads_tab (glob w).

(** ** Messages *)

Definition mach_msg_receive (t : nat) (timeout : option Z) : M kern_return :=
  fun _ w => Susp (RRecv t timeout) w (fun e w' => Done e w').

(** A send with a zero timeout: it fails when the queue is full. *)
Definition mach_msg_send (t : nat) : M kern_return := fun _ w =>
  match mail w !! t with
  | Some O => Done KERN_SUCCESS (set_mail (<[t := 1]> (mail w)) w)
  | _ => Done KERN_FAILURE w
  end.

Definition __pthread_wakeup (t : nat) : M unit :=
  err ← mach_msg_send t;
  c_assert (bool_decide (err = KERN_SUCCESS)).

(** The port of a thread that has no message queued takes one. *)
Lemma wakeup_empty t me w :
  mail w !! t = Some 0 ->
  __pthread_wakeup t me w = Done tt (set_mail (<[t := 1]> (mail w)) w).
Proof. intros Hm. unfold __pthread_wakeup, mach_msg_send. cbn. by rewrite Hm. Qed.

Definition __pthread_block (t : nat) : M unit :=
  err ← mach_msg_receive t None;
  c_assert (bool_decide (err = KERN_SUCCESS)).

(** The relative timeout in milliseconds of pt-timedblock.c, a 32-bit
    [mach_msg_timeout_t].  The product is computed in [time_t], which has 32 bits on
    i386; beyond 2^31 ms (24 days) C leaves the overflow undefined, and this is the
    two's complement result that i386 delivers. *)
Definition timeout_ms (now abstime : timespec) : Z :=
  let timeout := u32 ((tv_sec abstime - tv_sec now) * 1000) in
  if (tv_nsec now <=? tv_nsec abstime)%Z
  then u32 (timeout + (tv_nsec abstime - tv_nsec now + 999999) `quot` 1000000)
  else u32 (timeout - (tv_nsec now - tv_nsec abstime + 999999) `quot` 1000000).

Definition time_passed (now abstime : timespec) : bool :=
  ((tv_sec abstime <? tv_sec now)
   || ((tv_sec now =? tv_sec abstime) && (tv_nsec abstime <? tv_nsec now)))%Z.

Definition __pthread_timedblock (t : nat) (abstime : timespec) (clock_id : Z) : M error_t :=
  now ← gets (fun w => clock (env w) clock_id);
  if time_passed now abstime then mret ETIMEDOUT
  else
    err ← mach_msg_receive t (Some (timeout_ms now abstime));
    match err with
    | EMACH_RCV_TIMED_OUT => mret ETIMEDOUT
    | err => c_assert (bool_decide (err = KERN_SUCCESS));; mret OK
    end.

Definition when (b : bool) (c : M unit) : M unit := if b then c else mret tt.
#[global] Arguments when !b c /.

Definition bad_timespec (ts : timespec) : bool :=
  ((tv_nsec ts <? 0) || (1000000000 <=? tv_nsec ts))%Z.

Definition bad_abstime (abstime : option timespec) : bool :=
  match abstime with Some ts => bad_timespec ts | None => false end.

Definition get_thread (t : nat) : M pthread :=
  o ← gets (fun w => pthreads w !! t); deref o.

Definition put_thread (t : nat) (p : pthread) : M unit :=
  modify (fun w => set_pthreads (<[t := p]> (pthreads w)) w).

(** The initialisers compare the attributes with the default ones, but the
    parenthesis of the call to [memcmp] encloses [sizeof ( *attr) == 0], so that
    zero bytes are compared and the result is zero. *)
Definition memcmp_zero : Z := 0.

(** ** The common part of the waits *)

(** Block, retake the spin lock [l], leave the queue if still on it, drop the
    lock and drain a message that arrived after the timeout: lines 130 to 156
    of pt-mutex-timedlock.c, which pt-rwlock-timedrdlock.c,
    pt-rwlock-timedwrlock.c and sem-timedwait.c repeat. *)
Definition wait_for_wakeup (l : spin_id) (self : nat) (abstime : option timespec)
    (clock_id : Z) : M error_t :=
  err ← match abstime with
        | Some ts => __pthread_timedblock self ts clock_id
        | None => __pthread_block self;; mret OK
        end;
  __pthread_spin_lock l;;
  p ← get_prevp self;
  drain ← match p with
          | None => mret (bool_decide (err <> OK))
          | Some _ => dequeue self;; mret false
          end;
  __pthread_spin_unlock l;;
  when drain (__pthread_block self);;
  mret err.

#[global] Arguments __pthread_spin_lock : simpl never.
#[global] Arguments _pthread_self : simpl never.
#[global] Arguments mach_msg_receive : simpl never.
#[global] Arguments __pthread_wakeup : simpl never.

#[global] Arguments wait_for_wakeup : simpl never.

(** A thread that takes a spin lock which is free at every suspension point:
    it gives the processor away once and then holds the lock. *)
Lemma wp_spin_lock {G} (I : (nat -> G) -> world -> Prop) S E t l {B}
    (f : error_t -> world -> res B) γ w g Q me :
  S t g RYield -> I (<[t := g]> γ) w ->
  (forall γ' w', I γ' w' -> l ∉ spins w') ->
  (forall γ' w', γ' t = g -> I γ' w' ->
     wp I S E t (f OK (set_spins ({[l]} ∪ spins w') w')) γ' Q) ->
  wp I S E t (bindr (__pthread_spin_lock l me w) f) γ Q.
Proof.
  intros HS HI Hfree Hk. exists g. repeat split; [done..|].
  intros γ' w' e w'' Hg HI' Hr. inversion Hr; subst. cbn.
  rewrite bool_decide_eq_false_2 by eauto. cbn. by apply Hk.
Qed.

(** A thread that runs alone takes a free spin lock. *)
Lemma solo_spin_lock l me w {B} (f : error_t -> world -> res B) :
  l ∉ spins w ->
  solo (bindr (__pthread_spin_lock l me w) f) = solo (f OK (set_spins ({[l]} ∪ spins w) w)).
Proof.
  intros Hl. unfold __pthread_spin_lock. cbn. by rewrite bool_decide_eq_false_2.
Qed.

(** The worlds differ in the way the set of held locks is written. *)
Ltac same_spins :=
  match goal with
  | |- solo (?f ?a (set_spins ?A _)) = solo (?f ?a (set_spins ?B _)) =>
      replace A with B by set_solver; reflexivity
  end.

Lemma spins_cycle (l : spin_id) (s : gset spin_id) : l ∉ s -> ({[l]} ∪ s) ∖ {[l]} = s.
Proof. intros. set_solver. Qed.

Lemma set_spins_same w : set_spins (spins w) w = w.
Proof. by destruct w. Qed.

(** ** Waking the threads of a list *)

Definition wake (t : nat) (w : world) : option world :=
  match mail w !! t with
  | Some 0 => Some (set_mail (<[t := 1]> (mail w)) w)
  | _ => None
  end.

Lemma quiet_wakeup me : quiet me __pthread_wakeup wake.
Proof.
  intros t w w'. unfold wake. destruct (mail w !! t) as [[|n]|] eqn:Hm; [|done..].
  intros [= <-]. split; [by apply wakeup_empty | done].
Qed.

(** One message for every thread of [l]. *)
Definition post_all (l : list nat) (b : gmap nat nat) : gmap nat nat :=
  foldl (fun b t => <[t := 1]> b) b l.

Lemma lookup_post_all l b t :
  post_all l b !! t = if decide (t ∈ l) then Some 1 else b !! t.
Proof.
  unfold post_all. revert b. induction l as [|u l IH]; intros b; cbn; [done|].
  rewrite IH. case_decide as H1; case_decide as H2; try set_solver.
  - assert (t = u) as -> by set_solver. apply lookup_insert_eq.
  - apply lookup_insert_ne. set_solver.
Qed.

Lemma drain_wake l w :
  NoDup l -> (forall t, t ∈ l -> mail w !! t = Some 0) ->
  drain_list wake l w =
    Some (set_qh (foldl (fun q t => unlink t q) (qh w) l) (set_mail (post_all l (mail w)) w)).
Proof.
  revert w. induction l as [|t l IH]; intros w Hnd Hm; cbn; [by destruct w|].
  apply NoDup_cons in Hnd as [Ht Hnd]. unfold wake. cbn. rewrite (Hm t) by set_solver.
  rewrite IH; [by destruct w | done |]. intros u Hu. cbn.
  rewrite lookup_insert_ne by (intros ->; done). apply Hm. set_solver.
Qed.

(** ** The conversion of times *)

Section Time.
Local Open Scope Z_scope.

Definition valid_timespec (ts : timespec) : Prop := 0 <= tv_nsec ts < 1000000000.

(** A time in nanoseconds. *)
Definition nanoseconds (ts : timespec) : Z := tv_sec ts * 1000000000 + tv_nsec ts.

Lemma time_passed_spec now abstime :
  valid_timespec now -> valid_timespec abstime ->
  time_passed now abstime = true <-> nanoseconds abstime < nanoseconds now.
Proof.
  intros Hn Ha. unfold time_passed, valid_timespec, nanoseconds in *.
  rewrite orb_true_iff, andb_true_iff, !Z.ltb_lt, Z.eqb_eq. lia.
Qed.

(** The time left until [abstime]. *)
Definition remaining (now abstime : timespec) : Z := nanoseconds abstime - nanoseconds now.

Lemma timeout_ms_exact now abstime :
  valid_timespec now -> valid_timespec abstime ->
  0 <= remaining now abstime < 2 ^ 32 * 1000000 - 1000000 ->
  timeout_ms now abstime =
  if tv_nsec now <=? tv_nsec abstime
  then (remaining now abstime + 999999) / 1000000
  else remaining now abstime / 1000000.
Proof.
  intros Hn Ha Hr. unfold timeout_ms, remaining, valid_timespec, nanoseconds, wrapu in *.
  destruct (Z.leb_spec (tv_nsec now) (tv_nsec abstime)) as [Hle | Hlt].
  - rewrite Z.quot_div_nonneg by lia.
    rewrite Zplus_mod_idemp_l.
    rewrite Z.mod_small; [|Z.to_euclidean_division_equations; lia].
    Z.to_euclidean_division_equations; lia.
  - rewrite Z.quot_div_nonneg by lia.
    rewrite Zminus_mod_idemp_l.
    rewrite Z.mod_small; [|Z.to_euclidean_division_equations; lia].
    Z.to_euclidean_division_equations; lia.
Qed.
End Time.

