(* ===== verification/Demo.v ===== *)
(** * Concrete states and threads for the examples

    The theorems with hypotheses are applied to these states, which shows that
    the hypotheses can hold. *)
From Stdlib Require Import ZArith Lia.
From S2P Require Import Prelude Queue SigSet World Machine Platform Sched Mach.

Definition demo_ctx (t : nat) : kctx := mkKctx (Z.of_nat t) (Some t).

Definition demo_pthread (t : nat) : pthread :=
  mkPthread (Z.of_nat t + 1) None 0 0 0 [] 0 0 0 false 0 PTHREAD_JOINABLE 0 0 (Z.of_nat t) true None None.

(** [n] running threads, none of which waits, and a mutex with the attributes
    [attr]; thread [t] has the ID [t + 1]. *)
Definition demo_world (n : nat) (attr : mutexattr_ptr) : world :=
  mkWorld qheap_empty ∅ (list_to_map (map (fun t => (t, 0)) (seq 0 n)))
    {[MUser 0 := mkMutex attr None 0]} ∅ ∅ ∅ ∅ ∅
    (list_to_map (map (fun t => (t, demo_pthread t)) (seq 0 n)))
    (mkGlobals (Some (map Some (seq 0 n))) (Z.of_nat n) (Z.of_nat n) (Z.of_nat n) 0 2097152 0 n
       (mkKeys ∅ 0 0 0 0))
    (mkEnv (fun _ => mkTimespec 0 0) [] [] 1000 (demo_pthread 0) ∅ ∅ (mkSigstate 0 0 0 None 0) 0 ∅ ∅ ∅)
    {[0 := 0%Z]} (mkSignals ∅ 0 [] None ∅).

(** The i386 address space of the Hurd; the application's functions return their
    argument. *)
Definition demo_platform : Platform := {|
  VM_MIN_ADDRESS := 0; VM_MAX_ADDRESS := 0xc0000000;
  hurd_threadvar_max := 8; threadvar_location := id;
  self_gs := 0; gdt_sel := 0x48; pagesize := None; PTHREAD_THREADS_MAX := None;
  call _ arg := mret arg; loop_fuel := 10 |}.

(** One thread per program. *)
Definition demo_pool (bodies : list (M unit)) : gmap nat thread_state :=
  list_to_map (zip_with (fun t b => (t, spawn (demo_ctx t) b)) (seq 0 (length bodies)) bodies).

Lemma lookup_table {V} (f : nat -> V) n t :
  t < n -> list_to_map (M := gmap nat V) (map (fun t => (t, f t)) (seq 0 n)) !! t = Some (f t).
Proof.
  intros Ht. apply elem_of_list_to_map.
  - rewrite <- list_fmap_compose. cbn. rewrite (list_fmap_ext _ id), list_fmap_id; [apply NoDup_seq | done].
  - apply list_elem_of_fmap. exists t. split; [done|]. apply elem_of_seq. lia.
Qed.

Lemma demo_runs n attr t : t < n -> runs (demo_ctx t) t (demo_world n attr).
Proof.
  intros Ht. split; [by eexists|]. split; [done|]. exists (demo_pthread t).
  split; [by apply lookup_table | done].
Qed.

Lemma demo_mail n attr t : t < n -> mail (demo_world n attr) !! t = Some 0.
Proof. apply (lookup_table (fun _ => 0)). Qed.

(** The thread of the pool at [t] runs the program at [t]. *)
Lemma demo_pool_lookup bodies t s :
  demo_pool bodies !! t = Some s -> exists b, bodies !! t = Some b /\ s = spawn (demo_ctx t) b.
Proof.
  intros Hs. apply elem_of_list_to_map_2, list_elem_of_lookup in Hs as [i Hi].
  rewrite lookup_zip_with in Hi.
  destruct (seq 0 (length bodies) !! i) as [j|] eqn:Hj; [|done]. cbn in Hi.
  destruct (bodies !! i) as [b|] eqn:Hb; [|done]. cbn in Hi. injection Hi as <- <-.
  apply lookup_seq in Hj as [-> Hlt]. by exists b.
Qed.

(** A queue with the threads [l]. *)
Definition queue_of (h : head_id) (l : list nat) : qheap_w :=
  foldr (fun t q => default q (__pthread_enqueue h t q)) qheap_empty l.

Lemma queue_of_rep h l :
  NoDup l -> qrep (queue_of h l) (<[h := l]> (fun _ => [])).
Proof.
  induction l as [|t l IH]; intros Hnd.
  - eapply qrep_proper; [|apply qrep_empty]. intros h'.
    destruct (decide (h = h')) as [<- | Hne];
      [by rewrite fn_lookup_insert | by rewrite fn_lookup_insert_ne].
  - apply NoDup_cons in Hnd as [Ht Hnd].
    destruct (enqueue_refines (queue_of h l) (<[h := l]> (fun _ => [])) h t) as (q & Hq & R); [by apply IH | |].
    + intros [h' Hin]. destruct (decide (h = h')) as [<- | Hne].
      * by rewrite fn_lookup_insert in Hin.
      * rewrite fn_lookup_insert_ne in Hin by done. set_solver.
    + change (queue_of h (t :: l))
        with (default (queue_of h l) (__pthread_enqueue h t (queue_of h l))).
      rewrite Hq. eapply qrep_proper; [|exact R]. intros h'.
      destruct (decide (h = h')) as [<- | Hne];
        [by rewrite !fn_lookup_insert | by rewrite !fn_lookup_insert_ne].
Qed.

(** Threads [l] wait in the queue [h]. *)
Definition demo_waiting (n : nat) (h : head_id) (l : list nat) : world :=
  set_qh (queue_of h l) (demo_world n ANull).

