(* ===== verification/Waiting.v ===== *)
(** * Threads that wait for an object to be granted to them

    The semaphores and the read/write locks let a thread wait in the same way:
    under the spin lock of the object the thread queues up, another thread that
    gives up the object later dequeues it, grants it the object and sends it a
    message ([wait_for_wakeup] is the waiting side).  This file proves the
    protocol once: an object instantiates it with the waiting classes [C] (one
    per queue), the states [X] of threads that do not wait, and the invariant
    [Obj] of its own memory. *)
From Stdlib Require Import ZArith Lia.
From S2P Require Import Prelude Queue World Machine Sched Mach.

(** The phase of a thread.  [Blocked]: it waits for a message; [Woken]: it has
    received one; [TimedOut]: its wait expired and it goes for the spin lock;
    [Draining]: it was granted the object after its wait expired and waits for
    the message that says so. *)
Inductive wphase (C X : Type) :=
  | Out (x : X) | Blocked (c : C) | Woken (c : C) | TimedOut (c : C) | Draining (c : C).
Arguments Out {C X} x.
Arguments Blocked {C X} c.
Arguments Woken {C X} c.
Arguments TimedOut {C X} c.
Arguments Draining {C X} c.

(** The worlds differ in the links of the queues, the messages, the spin lock
    [l] and the environment only. *)
Record links (l : spin_id) (w w' : world) : Prop := {
  lk_mutexes : mutexes w' = mutexes w;
  lk_conds : conds w' = conds w;
  lk_rwlocks : rwlocks w' = rwlocks w;
  lk_sems : sems w' = sems w;
  lk_barriers : barriers w' = barriers w;
  lk_onces : onces w' = onces w;
  lk_umem : umem w' = umem w;
  lk_spins : forall l', l' <> l -> l' ∈ spins w' <-> l' ∈ spins w;
}.

(** What an object promises to the protocol: its invariant [Obj] speaks of the
    queues, the grants, and the states of the threads that do not wait; it does
    not depend on what [links] leaves open, and a thread may leave a queue. *)
Class WaitObject (C X : Type) := {
  hd : C -> head_id;
  hd_inj : Inj (=) (=) hd;
  olock : spin_id;
  timed : C -> bool;
  idle : X;
  holds : X -> option C;
  holds_idle : holds idle = None;
  Obj : (head_id -> list nat) -> gmap nat C -> (nat -> X) -> world -> Prop;
  Obj_links Q P v w w' : links olock w w' -> Obj Q P v w -> Obj Q P v w';
  Obj_leave Q P v w t : Obj Q P v w -> Obj (qremove t Q) P v w;
}.
#[export] Existing Instance hd_inj.

(** ** Sets of grants *)

Section Granted.
Context {C : Type}.
Implicit Types (P : gmap nat C).

(** All threads of the queue of class [c] are granted the object. *)
Fixpoint grant_all (c : C) (l : list nat) (P : gmap nat C) : gmap nat C :=
  match l with [] => P | u :: l => <[u := c]> (grant_all c l P) end.

Lemma lookup_grant_all c l P t :
  grant_all c l P !! t = if decide (t ∈ l) then Some c else P !! t.
Proof.
  induction l as [|u l IH]; cbn; [done|]. destruct (decide (u = t)) as [-> | Hne].
  - rewrite lookup_insert_eq, decide_True by set_solver. done.
  - rewrite lookup_insert_ne, IH by done. by repeat case_decide; set_solver.
Qed.

(** How many grants of class [c] there are. *)
Context `{EqDecision C}.

Definition granted (c : C) (P : gmap nat C) : nat := size (filter (fun kv => kv.2 = c) P).

Lemma granted_empty c : granted c ∅ = 0.
Proof. unfold granted. by rewrite map_filter_empty, map_size_empty. Qed.

Lemma granted_insert c c' P t :
  P !! t = None -> granted c (<[t := c']> P) = granted c P + if decide (c' = c) then 1 else 0.
Proof.
  intros HP. unfold granted. case_decide as Hc.
  - rewrite map_filter_insert_True by done. rewrite map_size_insert_None; [lia|].
    apply map_lookup_filter_None. by left.
  - rewrite map_filter_insert_not' by (done || naive_solver). lia.
Qed.

Lemma granted_delete c c' P t :
  P !! t = Some c' -> granted c P = granted c (delete t P) + if decide (c' = c) then 1 else 0.
Proof.
  intros HP. rewrite <- (insert_delete_id P t c') at 1 by done.
  apply granted_insert. apply lookup_delete_eq.
Qed.

Lemma granted_pos c P t : P !! t = Some c -> 0 < granted c P.
Proof. intros HP. rewrite (granted_delete c c P t HP), decide_True by done. lia. Qed.

Lemma granted_grant_all c c' l P :
  NoDup l -> (forall t, t ∈ l -> P !! t = None) ->
  granted c (grant_all c' l P) = granted c P + if decide (c' = c) then length l else 0.
Proof.
  induction 1 as [|t l Ht Hnd IH]; intros HP; cbn; [case_decide; lia|].
  rewrite granted_insert, IH.
  - case_decide; lia.
  - intros u Hu. apply HP. set_solver.
  - rewrite lookup_grant_all, decide_False by done. apply HP. set_solver.
Qed.

Lemma granted_le c P : granted c P <= size P.
Proof.
  unfold granted. rewrite <- !size_dom. apply subseteq_size, dom_filter_subseteq.
Qed.

End Granted.

Section Waiting.
Context {C X : Type} `{O : !WaitObject C X}.
Context (T : gset nat) (ctx : nat -> kctx).
Implicit Types (Q : head_id -> list nat) (P : gmap nat C) (γ : nat -> wphase C X).

(** The state of a thread as the object sees it. *)
Definition view γ (t : nat) : X := match γ t with Out x => x | _ => idle end.

(** What the phase [g] of [t] says about the queues, the grants and the number
    [n] of messages on its wakeup port. *)
Definition place (g : wphase C X) (t : nat) Q P (n : nat) : Prop :=
  match g with
  | Out x => ~ queued Q t /\ P !! t = holds x /\ n = 0
  | Woken c => ~ queued Q t /\ P !! t = Some c /\ n = 0
  | Blocked c | TimedOut c =>
      (t ∈ Q (hd c) /\ P !! t = None /\ n = 0) \/ (~ queued Q t /\ P !! t = Some c /\ n = 1)
  | Draining c => ~ queued Q t /\ P !! t = Some c /\ n = 1
  end.

Definition may_expire (g : wphase C X) : Prop :=
  match g with TimedOut c | Draining c => timed c = true | _ => True end.

Record tinv Q P (w : world) (t : nat) (g : wphase C X) : Prop := {
  t_out : t ∉ T -> (forall c, t ∉ Q (hd c)) /\ P !! t = None /\ g = Out idle;
  t_runs : t ∈ T -> runs (ctx t) t w;
  t_place : t ∈ T -> exists n, mail w !! t = Some n /\ place g t Q P n;
  t_timed : may_expire g;
}.

(** The clauses about the queues and the threads, and all of them. *)
Record winv Q P γ (w : world) : Prop := {
  w_rep : qrep (qh w) Q;
  w_lock : olock ∉ spins w;
  w_threads : forall t, tinv Q P w t (γ t);
}.

Definition inv Q P γ (w : world) : Prop := Obj Q P (view γ) w /\ winv Q P γ w.

Definition WI γ (w : world) : Prop := exists Q P, inv Q P γ w.

(** The waits of each phase, and the phase a thread ends in. *)
Definition WS (t : nat) (g : wphase C X) (r : reason) : Prop :=
  match g, r with
  | Out _, RYield | Woken _, RYield | TimedOut _, RYield => True
  | Blocked c, RRecv t' o => t' = t /\ (timed c = false -> o = None)
  | Draining _, RRecv t' None => t' = t
  | _, _ => False
  end.

Definition WE (t : nat) (g : wphase C X) : Prop := g = Out idle.

Lemma WI_lock γ w : WI γ w -> olock ∉ spins w.
Proof. intros (Q & P & _ & H). apply H. Qed.

Lemma view_insert t g γ : view (<[t := g]> γ) = <[t := view (fun _ => g) t]> (view γ).
Proof.
  apply fn_ext. intros u. unfold view. destruct (decide (t = u)) as [<- | Hne].
  - by rewrite !fn_lookup_insert.
  - by rewrite !fn_lookup_insert_ne.
Qed.

(** A change between phases that the object does not tell apart. *)
Lemma view_relabel t g γ : view γ t = view (fun _ => g) t -> view (<[t := g]> γ) = view γ.
Proof. intros H. rewrite view_insert, <- H. by apply fn_insert_id. Qed.

(** ** Steps of one thread *)

(** The thread [u] does not notice the step. *)
Definition unnoticed (u : nat) Q P w Q' P' w' : Prop :=
  (forall h, u ∈ Q' h <-> u ∈ Q h) /\ P' !! u = P !! u /\ mail w' !! u = mail w !! u.

Lemma queued_same u Q Q' : (forall h, u ∈ Q' h <-> u ∈ Q h) -> queued Q' u <-> queued Q u.
Proof. intros H. unfold queued. by setoid_rewrite H. Qed.

Lemma wtinv_frame Q P w Q' P' w' u g :
  tinv Q P w u g -> framed w w' -> unnoticed u Q P w Q' P' w' -> tinv Q' P' w' u g.
Proof.
  intros [Ho Hr Hp Ht] [Hfp Hft] (HQ & HP & Hm).
  pose proof (queued_same _ _ _ HQ) as Hqd. split; [| | |done].
  - rewrite HP. setoid_rewrite HQ. done.
  - intros HT. eapply runs_same; eauto.
  - intros HT. destruct (Hp HT) as (n & Hn & Hpl). exists n. rewrite Hm. split; [done|].
    destruct g; cbn in *; by rewrite ?HQ, ?Hqd, ?HP.
Qed.

Lemma winv_step Q P γ w t g' Q' P' w' :
  winv Q P γ w -> t ∈ T -> framed w w' ->
  (forall u, u <> t -> unnoticed u Q P w Q' P' w') ->
  (exists n, mail w' !! t = Some n /\ place g' t Q' P' n) -> may_expire g' ->
  qrep (qh w') Q' -> olock ∉ spins w' -> winv Q' P' (<[t := g']> γ) w'.
Proof.
  intros [Hr Hl Ht] HT Hf Hoth Hpl Hto Hr' Hl'. split; [done..|].
  intros u. destruct (decide (t = u)) as [<- | Hne].
  - rewrite fn_lookup_insert. split; [done | | done | done]. intros _.
    destruct Hf. eapply runs_same; [done | done |]. by apply (Ht t).
  - rewrite fn_lookup_insert_ne by done. eapply wtinv_frame; [apply Ht | done | by apply Hoth].
Qed.

Lemma winv_place Q P γ w t :
  winv Q P γ w -> t ∈ T -> exists n, mail w !! t = Some n /\ place (γ t) t Q P n.
Proof. intros H HT. by apply (w_threads _ _ _ _ H t). Qed.

Lemma winv_in_T Q P γ w t : winv Q P γ w -> γ t <> Out idle -> t ∈ T.
Proof.
  intros H Hγ. destruct (decide (t ∈ T)) as [|HT]; [done|].
  by destruct (t_out _ _ _ _ _ (w_threads _ _ _ _ H t) HT) as (_ & _ & ?).
Qed.

(** Only parts that [links] leaves open change, and neither links nor messages. *)
Lemma winv_links Q P γ w w' :
  winv Q P γ w -> framed w w' -> qh w' = qh w -> mail w' = mail w ->
  olock ∉ spins w' -> winv Q P γ w'.
Proof.
  intros [Hr Hl Ht] Hf Hq Hm Hl'. split.
  - by rewrite Hq.
  - done.
  - intros t. eapply wtinv_frame; [apply Ht | done |]. split_and!; [done | done | by rewrite Hm].
Qed.

Lemma WI_tick γ c w : WI γ w -> WI γ (tick c w).
Proof.
  intros (Q & P & Ho & H). exists Q, P. split.
  - eapply Obj_links; [|exact Ho]. by split.
  - eapply winv_links; [exact H | done..|]. apply H.
Qed.

(** A thread that does not wait moves to the state [y]; only its grant changes. *)
Lemma winv_state Q P γ w t y P' w' :
  winv Q P γ w -> t ∈ T -> (exists x, γ t = Out x) \/ (exists c, γ t = Woken c) ->
  P' !! t = holds y -> (forall u, u <> t -> P' !! u = P !! u) ->
  framed w w' -> qh w' = qh w -> mail w' = mail w -> olock ∉ spins w' ->
  winv Q P' (<[t := Out y]> γ) w'.
Proof.
  intros H HT Hγ HP HP' Hf Hq Hm Hl.
  destruct (winv_place _ _ _ _ _ H HT) as (n & Hn & Hpl).
  assert (~ queued Q t /\ n = 0) as [Hnq ->]
    by (destruct Hγ as [[x Hγ] | [c Hγ]]; rewrite Hγ in Hpl; cbn in Hpl; tauto).
  eapply winv_step; [exact H | done | done | | | done | rewrite Hq; apply H | done].
  - intros u Hu. split_and!; [done | by apply HP' | by rewrite Hm].
  - exists 0. by rewrite Hm.
Qed.

(** ** Queueing up, being granted, giving up *)

Lemma not_queued_prevp Q P γ w t : winv Q P γ w -> ~ queued Q t <-> prevp (qh w) !! t = None.
Proof. intros H. apply qrep_not_queued, H. Qed.

(** A thread that waits is queued in its class only. *)
Lemma winv_enqueue Q P γ w t c q' w' :
  winv Q P γ w -> t ∈ T -> γ t = Out idle ->
  let Q' := <[hd c := t :: Q (hd c)]> Q in
  __pthread_enqueue (hd c) t (qh w) = Some q' ->
  framed w w' -> qh w' = q' -> mail w' = mail w -> olock ∉ spins w' ->
  winv Q' P (<[t := Blocked c]> γ) w'.
Proof.
  intros H HT Hγ Q' Hq Hf Hqh Hm Hl.
  destruct (winv_place _ _ _ _ _ H HT) as (n & Hn & Hpl). rewrite Hγ in Hpl.
  destruct Hpl as (Hnq & HP & ->). rewrite holds_idle in HP.
  destruct (enqueue_refines (qh w) Q (hd c) t (w_rep _ _ _ _ H) Hnq) as (q & Hq1 & R).
  assert (q = q') as -> by congruence.
  eapply winv_step; [exact H | done | done | | | done | by rewrite Hqh | done].
  - intros u Hu. split_and!; [|done|by rewrite Hm]. intros h. unfold Q'.
    destruct (decide (hd c = h)) as [<- | Hne].
    + rewrite fn_lookup_insert. set_solver.
    + by rewrite fn_lookup_insert_ne.
  - exists 0. rewrite Hm. split; [done|]. left. unfold Q'. rewrite fn_lookup_insert. set_solver.
Qed.

Lemma winv_can_enqueue Q P γ w t c :
  winv Q P γ w -> t ∈ T -> γ t = Out idle ->
  exists q', __pthread_enqueue (hd c) t (qh w) = Some q'.
Proof.
  intros H HT Hγ. destruct (winv_place _ _ _ _ _ H HT) as (n & Hn & Hpl). rewrite Hγ in Hpl.
  destruct (enqueue_refines (qh w) Q (hd c) t (w_rep _ _ _ _ H)) as (q & Hq & _); [apply Hpl|].
  eauto.
Qed.

(** The threads of the queue of class [c]. *)
Lemma winv_queued Q P γ w c u :
  winv Q P γ w -> u ∈ Q (hd c) ->
  u ∈ T /\ P !! u = None /\ mail w !! u = Some 0 /\
  (γ u = Blocked c \/ γ u = TimedOut c).
Proof.
  intros H Hin. assert (queued Q u) as Hqd by (by exists (hd c)).
  assert (u ∈ T) as HT.
  { destruct (decide (u ∈ T)) as [|HT]; [done|].
    by destruct (t_out _ _ _ _ _ (w_threads _ _ _ _ H u) HT) as (Hn & _); destruct (Hn c). }
  destruct (winv_place _ _ _ _ _ H HT) as (n & Hn & Hpl).
  assert (forall c', u ∈ Q (hd c') -> c' = c) as Hc.
  { intros c' Hc'. apply (inj hd). by eapply (qrep_disj _ _ (w_rep _ _ _ _ H)). }
  destruct (γ u) as [x|c'|c'|c'|c'] eqn:Hγ; cbn in Hpl; [tauto| |tauto| |tauto];
    (destruct Hpl as [(Hin' & HP & ->) | (Hnq & _)]; [|done]);
    rewrite <- (Hc _ Hin'); eauto.
Qed.

(** It is granted the object and sent a message. *)
Lemma winv_grant Q P γ w c u l q' P' w' :
  winv Q P γ w -> Q (hd c) = u :: l ->
  __pthread_dequeue u (qh w) = Some q' -> P' = <[u := c]> P -> framed w w' -> qh w' = q' ->
  mail w' = <[u := 1]> (mail w) -> olock ∉ spins w' ->
  winv (qremove u Q) P' γ w'.
Proof.
  intros H HQ Hq -> Hf Hqh Hm Hl.
  assert (u ∈ Q (hd c)) as Hu by (rewrite HQ; set_solver).
  destruct (winv_queued _ _ _ _ _ _ H Hu) as (HT & HP & Hmu & Hγ).
  destruct (dequeue_refines (qh w) Q u (w_rep _ _ _ _ H)) as (q & Hq1 & R); [by exists (hd c)|].
  assert (q = q') as -> by congruence.
  rewrite <- (fn_insert_id γ u (γ u) eq_refl).
  eapply winv_step; [exact H | done | done | | | | by rewrite Hqh | done].
  - intros v Hv. split_and!.
    + intros h. rewrite elem_of_qremove. tauto.
    + by rewrite lookup_insert_ne.
    + by rewrite Hm, lookup_insert_ne.
  - exists 1. rewrite Hm, !lookup_insert_eq. split; [done|].
    assert (~ queued (qremove u Q) u) as Hnq by (rewrite queued_qremove; tauto).
    destruct Hγ as [-> | ->]; right; by rewrite lookup_insert_eq.
  - apply (w_threads _ _ _ _ H u).
Qed.

(** A thread whose wait expired leaves the queue. *)
Lemma inv_give_up Q P γ w t c q' w' :
  inv Q P γ w -> γ t = TimedOut c -> t ∈ Q (hd c) -> __pthread_dequeue t (qh w) = Some q' ->
  links olock w w' -> framed w w' -> qh w' = q' -> mail w' = mail w -> olock ∉ spins w' ->
  inv (qremove t Q) P (<[t := Out idle]> γ) w'.
Proof.
  intros [Ho H] Hγ Hin Hq Hk Hf Hqh Hm Hl. split.
  { rewrite view_relabel by (unfold view; by rewrite Hγ).
    eapply Obj_links; [done|]. by apply Obj_leave. }
  assert (t ∈ T) as HT by (eapply winv_in_T; [exact H | by rewrite Hγ]).
  destruct (winv_place _ _ _ _ _ H HT) as (n & Hn & Hpl). rewrite Hγ in Hpl.
  destruct Hpl as [(_ & HP & ->) | (Hnq & _)]; [|by destruct Hnq; exists (hd c)].
  destruct (dequeue_refines (qh w) Q t (w_rep _ _ _ _ H)) as (q & Hq1 & R); [by exists (hd c)|].
  assert (q = q') as -> by congruence.
  eapply winv_step; [exact H | done | done | | | done | by rewrite Hqh | done].
  - intros v Hv. split_and!; [|done|by rewrite Hm]. intros h. rewrite elem_of_qremove. tauto.
  - exists 0. rewrite Hm. cbn. rewrite holds_idle. split_and!; [done | | done | done].
    rewrite queued_qremove. tauto.
Qed.

Lemma winv_grant_all Q P γ w c w' :
  winv Q P γ w -> qrep (qh w') (<[hd c := []]> Q) -> framed w w' ->
  (forall t, mail w' !! t = if decide (t ∈ Q (hd c)) then Some 1 else mail w !! t) ->
  olock ∉ spins w' -> winv (<[hd c := []]> Q) (grant_all c (Q (hd c)) P) γ w'.
Proof.
  intros H R Hf Hm Hl. split; [done..|]. intros t.
  assert (forall h, t ∈ (<[hd c := []]> Q) h <-> t ∈ Q h /\ h <> hd c) as Hin.
  { intros h. destruct (decide (hd c = h)) as [<- | Hne].
    - rewrite fn_lookup_insert. set_solver.
    - rewrite fn_lookup_insert_ne by done. split; [|tauto]. intros ?. by split; [|intros ->]. }
  destruct (decide (t ∈ Q (hd c))) as [Ht | Ht].
  - destruct (winv_queued _ _ _ _ _ _ H Ht) as (HT & _ & _ & Hγ).
    assert (~ queued (<[hd c := []]> Q) t) as Hnq.
    { intros [h Hh]. apply Hin in Hh as [Hh Hne]. apply Hne.
      by eapply (qrep_disj _ _ (w_rep _ _ _ _ H)). }
    split; [done | | | apply (w_threads _ _ _ _ H t)].
    + intros _. destruct Hf. eapply runs_same; [done | done |]. by apply (w_threads _ _ _ _ H t).
    + intros _. exists 1. rewrite Hm, decide_True by done. split; [done|].
      destruct Hγ as [-> | ->]; right; by rewrite lookup_grant_all, decide_True.
  - eapply wtinv_frame; [apply (w_threads _ _ _ _ H t) | done |]. split_and!.
    + intros h. rewrite Hin. split; [tauto|]. intros Hh. split; [done|]. by intros ->.
    + by rewrite lookup_grant_all, decide_False.
    + by rewrite Hm, decide_False.
Qed.

(** ** Messages *)

(** A message to a thread that waits for one: it was granted the object. *)
Lemma winv_receive Q P γ w t c n :
  inv Q P γ w -> mail w !! t = Some (S n) -> γ t = Blocked c \/ γ t = Draining c ->
  inv Q P (<[t := Woken c]> γ) (set_mail (<[t := n]> (mail w)) w).
Proof.
  intros [Ho H] Hm Hγ. split.
  { rewrite view_relabel by (unfold view; by destruct Hγ as [-> | ->]).
    eapply Obj_links; [|exact Ho]. by split. }
  assert (t ∈ T) as HT by (eapply winv_in_T; [exact H | by destruct Hγ as [-> | ->]]).
  destruct (winv_place _ _ _ _ _ H HT) as (k & Hk & Hpl). rewrite Hk in Hm. injection Hm as ->.
  assert (~ queued Q t /\ P !! t = Some c /\ n = 0) as (Hnq & HP & ->).
  { destruct Hγ as [Hγ | Hγ]; rewrite Hγ in Hpl; cbn in Hpl; naive_solver lia. }
  eapply winv_step; [exact H | done | done | | | done | apply H | apply H].
  - intros u Hu. split_and!; [done..|]. cbn. by rewrite lookup_insert_ne.
  - exists 0. cbn. by rewrite lookup_insert_eq.
Qed.

(** A phase change that neither the object nor the queues show. *)
Lemma winv_relabel Q P γ w t g :
  inv Q P γ w -> t ∈ T -> view γ t = view (fun _ => g) t -> may_expire g ->
  (forall n, mail w !! t = Some n -> place (γ t) t Q P n -> place g t Q P n) ->
  inv Q P (<[t := g]> γ) w.
Proof.
  intros [Ho H] HT Hv He Hpl. destruct (winv_place _ _ _ _ _ H HT) as (n & Hn & Hp).
  split; [by rewrite view_relabel|].
  eapply winv_step; [exact H | done | done | done | eauto | done | apply H | apply H].
Qed.

Abbreviation wp := (wp WI WS WE).
Abbreviation triple := (triple WI WS WE).
Abbreviation at_phase := (at_phase WI).

Lemma wreceive_spec t c timeout me :
  (timed c = false -> timeout = None) ->
  triple t (at_phase t (Blocked c)) (mach_msg_receive t timeout) me
    (fun e γ w => match e with
       | KERN_SUCCESS => at_phase t (Woken c) γ w
       | EMACH_RCV_TIMED_OUT => timeout <> None /\ timed c = true /\ at_phase t (TimedOut c) γ w
       | KERN_FAILURE => False
       end).
Proof.
  intros Hto γ w HI. eapply wp_susp; [by instantiate (1 := Blocked c) | done |].
  intros γ' w' e w'' Hγ (Q & P & H) Hr. apply wp_done.
  assert (t ∈ T) as HT by (eapply winv_in_T; [exact (proj2 H) | by rewrite Hγ]).
  inversion Hr as [ | |? ? n ? Hm|? ms ? Hm|? ? ? Hm]; subst; cbn.
  - exists Q, P. eapply winv_receive; eauto.
  - assert (timed c = true) as Hti by (destruct (timed c); [done | by discriminate Hto]).
    split_and!; [done..|]. exists Q, P. apply winv_relabel; [done | done | | done |].
    + unfold view. by rewrite Hγ.
    + intros n _. by rewrite Hγ.
  - destruct (winv_place _ _ _ _ _ (proj2 H) HT) as (k & Hk & _). congruence.
Qed.

Definition block_post t c (e : error_t) γ (w : world) : Prop :=
  e = OK /\ at_phase t (Woken c) γ w \/
  e = ETIMEDOUT /\ timed c = true /\ at_phase t (TimedOut c) γ w.

Lemma wblock_spec t c abstime clk me :
  (timed c = false -> abstime = None) ->
  triple t (at_phase t (Blocked c))
    (match abstime with
     | Some ts => __pthread_timedblock t ts clk
     | None => __pthread_block t;; mret OK
     end) me (block_post t c).
Proof.
  intros Hto γ w HI. destruct abstime as [ts|].
  - assert (timed c = true) as Hti by (destruct (timed c); [done | by discriminate Hto]).
    unfold __pthread_timedblock. cbn. destruct (time_passed _ ts); cbn.
    + apply wp_done. right. split_and!; [done..|].
      destruct HI as (Q & P & H). exists Q, P.
      assert (t ∈ T) as HT by (eapply winv_in_T; [exact (proj2 H) | by rewrite fn_lookup_insert]).
      rewrite <- (fn_insert_insert γ t _ (Blocked c)).
      apply winv_relabel; [done | done | | done |].
      * unfold view. by rewrite fn_lookup_insert.
      * intros n _. by rewrite fn_lookup_insert.
    + eapply wp_bind, wp_mono; [eapply (wreceive_spec t c); [congruence | exact HI]|].
      cbn. intros e γ' w' He. destruct e; cbn in *; [| |done]; apply wp_done.
      * by left.
      * right. tauto.
  - unfold __pthread_block. cbn. apply wp_bind, wp_bind.
    eapply wp_mono; [eapply (wreceive_spec t c); [done | exact HI]|].
    intros e γ' w' He. destruct e; cbn in *; [|tauto|done]. apply wp_done. by left.
Qed.

(** After the wait the thread was granted the object, or it was not and its wait
    expired; but it may have been granted the object and its wait have expired,
    too. *)
Definition wait_post t c (e : error_t) γ (w : world) : Prop :=
  e = OK /\ at_phase t (Woken c) γ w \/
  e = ETIMEDOUT /\ timed c = true /\ (at_phase t (Woken c) γ w \/ at_phase t (Out idle) γ w).

Lemma wdrain_spec t c me :
  triple t (at_phase t (Draining c)) (__pthread_block t) me (fun _ => at_phase t (Woken c)).
Proof.
  intros γ w HI. unfold __pthread_block. cbn.
  eapply wp_susp; [by instantiate (1 := Draining c) | done |].
  intros γ' w' e w'' Hγ (Q & P & H) Hr.
  assert (t ∈ T) as HT by (eapply winv_in_T; [exact (proj2 H) | by rewrite Hγ]).
  inversion Hr as [ | |? ? n ? Hm|? ? ? Hm|? ? ? Hm]; subst; cbn.
  - exists Q, P. eapply winv_receive; eauto.
  - destruct (winv_place _ _ _ _ _ (proj2 H) HT) as (k & Hk & _). congruence.
Qed.

(** Taking and dropping the spin lock changes nothing the invariant speaks of. *)
Lemma inv_unlocked Q P γ w :
  inv Q P γ w -> inv Q P γ (set_spins (({[olock]} ∪ spins w) ∖ {[olock]}) (set_spins ({[olock]} ∪ spins w) w)).
Proof. intros H. rewrite set_spins_twice, spins_cycle, set_spins_same; [done | apply (proj2 H)]. Qed.

Lemma granted_wait_spec t c abstime clk me :
  (timed c = false -> abstime = None) ->
  triple t (at_phase t (Blocked c)) (wait_for_wakeup olock t abstime clk) me (wait_post t c).
Proof.
  intros Hto. eapply triple_bind; [by apply wblock_spec|]. intros e γ w [(-> & HB) | (-> & Hti & HB)].
  - eapply wp_spin_lock; [|exact HB|apply WI_lock|]; [done|].
    intros γ1 w1 Hγ1 (Q & P & H). cbn.
    assert (t ∈ T) as HT by (eapply winv_in_T; [exact (proj2 H) | by rewrite Hγ1]).
    destruct (winv_place _ _ _ _ _ (proj2 H) HT) as (n & _ & Hp). rewrite Hγ1 in Hp.
    rewrite (proj1 (not_queued_prevp _ _ _ _ _ (proj2 H))) by apply Hp. cbn.
    apply wp_done. left. split; [done|]. apply at_phase_same; [done|].
    exists Q, P. by apply inv_unlocked.
  - eapply wp_spin_lock; [|exact HB|apply WI_lock|]; [done|].
    intros γ1 w1 Hγ1 (Q & P & H). cbn.
    assert (t ∈ T) as HT by (eapply winv_in_T; [exact (proj2 H) | by rewrite Hγ1]).
    destruct (winv_place _ _ _ _ _ (proj2 H) HT) as (n & Hn & Hp). rewrite Hγ1 in Hp.
    destruct Hp as [(Hin & HP & ->) | (Hnq & HP & ->)].
    + destruct (dequeue_refines (qh w1) Q t (w_rep _ _ _ _ (proj2 H))) as (q' & Hq' & _); [by exists (hd c)|].
      destruct (prevp (qh w1) !! t) eqn:Hprev;
        [|by apply (not_queued_prevp _ _ _ _ _ (proj2 H)) in Hprev; destruct Hprev; exists (hd c)].
      cbn. erewrite dequeue_some by exact Hq'. cbn. apply wp_done. right. split_and!; [done..|].
      right. eexists _, P. eapply inv_give_up; [exact H | done | done | exact Hq' | | | done..|].
      * split; cbn; try done. set_solver.
      * done.
      * cbn. set_solver.
    + rewrite (proj1 (not_queued_prevp _ _ _ _ _ (proj2 H)) Hnq). cbn.
      eapply wp_bind, wp_mono.
      * eapply (wdrain_spec t c). exists Q, P. apply winv_relabel.
        -- by apply inv_unlocked.
        -- done.
        -- unfold view. by rewrite Hγ1.
        -- done.
        -- cbn. intros k Hk _. split_and!; congruence.
      * intros ? γ2 w2 HI2. apply wp_done. right. tauto.
Qed.

(** ** Configurations in which no thread can run *)

(** Every thread waits in a queue for a grant. *)
Lemma stuck_queued w p :
  (forall c, timed c = false) -> good WI WS WE (Run w p) -> stuck (Run w p) ->
  exists γ Q P, inv Q P γ w /\ (exists t, p !! t <> None) /\
    (forall t, p !! t <> None -> exists c, γ t = Blocked c /\ t ∈ Q (hd c)) /\
    (forall t, p !! t = None -> γ t = Out idle).
Proof.
  intros Hti (γ & (Q & P & H) & Hok & Hend) [Hne Hs]. exists γ, Q, P. split_and!; [done | | | done].
  - apply map_choose in Hne as (t & s & Ht). exists t. by rewrite Ht.
  - intros t Ht. destruct (p !! t) as [[r k]|] eqn:Hp; [|done].
    destruct (Hok _ _ Hp) as [HS _]. cbn in HS. specialize (Hs _ _ _ Hp).
    destruct r as [l|t' o|]; [by destruct (γ t) | | by edestruct Hs; constructor].
    pose proof (t_timed _ _ _ _ _ (w_threads _ _ _ _ (proj2 H) t)) as He.
    destruct (γ t) as [x|c|c|c|c] eqn:Hγ; cbn in He; try done; [|rewrite Hti in He; done].
    destruct HS as [-> Ho].
    assert (t ∈ T) as HT by (eapply winv_in_T; [exact (proj2 H) | by rewrite Hγ]).
    destruct (winv_place _ _ _ _ _ (proj2 H) HT) as (n & Hn & Hpl). rewrite Hγ in Hpl.
    exists c. split; [done|]. destruct Hpl as [(Hin & _) | (_ & _ & ->)]; [done|].
    by edestruct Hs; constructor.
Qed.
End Waiting.
