(* ===== verification/Attr.v ===== *)
(** * Attribute objects

    The attribute objects of threads, mutexes, condition variables, rwlocks and
    barriers.  A setter maps the attribute object to the error code and the new
    object, a getter to the error code and the value stored through its pointer
    argument (none when nothing is stored).  Integer arguments are the C values;
    the enumerations are those of pthread/pthreadtypes.h. *)
From Stdlib Require Import ZArith Lia.
From S2P Require Import Prelude Queue World.
Local Open Scope Z_scope.

(** ** Enumerations of pthread/pthreadtypes.h *)
Definition PTHREAD_PROCESS_PRIVATE : Z := 0.
Definition PTHREAD_PROCESS_SHARED : Z := 1.
Definition PTHREAD_EXPLICIT_SCHED : Z := 0.
Definition PTHREAD_INHERIT_SCHED : Z := 1.
Definition PTHREAD_SCOPE_SYSTEM : Z := 0.
Definition PTHREAD_SCOPE_PROCESS : Z := 1.
Definition PTHREAD_CREATE_JOINABLE : Z := 0.
Definition PTHREAD_CREATE_DETACHED : Z := 1.
Definition PTHREAD_PRIO_NONE : Z := 0.
Definition PTHREAD_PRIO_INHERIT : Z := 1.
Definition PTHREAD_PRIO_PROTECT : Z := 2.
Definition PTHREAD_MUTEX_NORMAL : Z := 0.
Definition PTHREAD_MUTEX_ERRORCHECK : Z := 1.
Definition PTHREAD_MUTEX_RECURSIVE : Z := 2.
Definition PTHREAD_MUTEX_DEFAULT : Z := PTHREAD_MUTEX_NORMAL.

(** sched.h and time.h of the C library. *)
Definition SCHED_OTHER : Z := 0.
Definition SCHED_FIFO : Z := 1.
Definition SCHED_RR : Z := 2.
Definition CLOCK_REALTIME : Z := 0.
Definition CLOCK_MONOTONIC : Z := 1.

(** Every [pshared] setter has this body. *)
Definition set_pshared {A} (set : Z -> A -> A) (attr : A) (pshared : Z) : error_t * A :=
  if pshared =? PTHREAD_PROCESS_PRIVATE then (OK, set pshared attr)
  else if pshared =? PTHREAD_PROCESS_SHARED then (ENOTSUP, attr)
  else (EINVAL, attr).

(** ** Thread attributes *)

(** bits/thread-attr.h; [schedparam] has the single member [sched_priority]. *)
Record pthread_attr := mkAttr {
  schedparam : Z;
  stackaddr : Z;
  stacksize : Z;
  guardsize : Z;
  detachstate : Z;
  inheritsched : Z;
  contentionscope : Z;
  schedpolicy : Z;
}.

Definition PTHREAD_STACK_DEFAULT : Z := 2 * 1024 * 1024.

(** pt-attr.c; [pagesize] is the macro PAGESIZE if limits.h defines it. *)
Definition __pthread_default_attr (pagesize : option Z) : pthread_attr := {|
  schedparam := 0;
  stacksize := PTHREAD_STACK_DEFAULT;
  stackaddr := 0;
  guardsize := match pagesize with Some p => p | None => 1 end;
  detachstate := PTHREAD_CREATE_JOINABLE;
  inheritsched := PTHREAD_EXPLICIT_SCHED;
  contentionscope := PTHREAD_SCOPE_SYSTEM;
  schedpolicy := SCHED_OTHER
|}.

Definition set_stackaddr v (a : pthread_attr) := mkAttr (schedparam a) v (stacksize a)
  (guardsize a) (detachstate a) (inheritsched a) (contentionscope a) (schedpolicy a).
Definition set_stacksize v (a : pthread_attr) := mkAttr (schedparam a) (stackaddr a) v
  (guardsize a) (detachstate a) (inheritsched a) (contentionscope a) (schedpolicy a).
Definition set_guardsize v (a : pthread_attr) := mkAttr (schedparam a) (stackaddr a)
  (stacksize a) v (detachstate a) (inheritsched a) (contentionscope a) (schedpolicy a).
Definition set_detachstate v (a : pthread_attr) := mkAttr (schedparam a) (stackaddr a)
  (stacksize a) (guardsize a) v (inheritsched a) (contentionscope a) (schedpolicy a).
Definition set_inheritsched v (a : pthread_attr) := mkAttr (schedparam a) (stackaddr a)
  (stacksize a) (guardsize a) (detachstate a) v (contentionscope a) (schedpolicy a).
Definition set_contentionscope v (a : pthread_attr) := mkAttr (schedparam a) (stackaddr a)
  (stacksize a) (guardsize a) (detachstate a) (inheritsched a) v (schedpolicy a).
Definition set_schedpolicy v (a : pthread_attr) := mkAttr (schedparam a) (stackaddr a)
  (stacksize a) (guardsize a) (detachstate a) (inheritsched a) (contentionscope a) v.
Definition set_schedparam v (a : pthread_attr) := mkAttr v (stackaddr a) (stacksize a)
  (guardsize a) (detachstate a) (inheritsched a) (contentionscope a) (schedpolicy a).

Section ThreadAttr.
  (** The global [__pthread_default_attr], whose [stacksize] the start-up code
      may have changed. *)
  Context (default_attr : pthread_attr).

Definition __pthread_attr_init (attr : pthread_attr) : error_t * pthread_attr :=
  (OK, default_attr).

Definition __pthread_attr_destroy (attr : pthread_attr) : error_t * pthread_attr := (OK, attr).

Definition __pthread_attr_getdetachstate (attr : pthread_attr) : error_t * Z :=
  (OK, detachstate attr).
Definition __pthread_attr_setdetachstate (attr : pthread_attr) (v : Z) : error_t * pthread_attr :=
  if (v =? PTHREAD_CREATE_DETACHED) || (v =? PTHREAD_CREATE_JOINABLE)
  then (OK, set_detachstate v attr) else (EINVAL, attr).

Definition pthread_attr_getguardsize (attr : pthread_attr) : error_t * Z := (OK, guardsize attr).
Definition pthread_attr_setguardsize (attr : pthread_attr) (v : Z) : error_t * pthread_attr :=
  (OK, set_guardsize v attr).

Definition __pthread_attr_getinheritsched (attr : pthread_attr) : error_t * Z :=
  (OK, inheritsched attr).
Definition __pthread_attr_setinheritsched (attr : pthread_attr) (v : Z) : error_t * pthread_attr :=
  if (v =? PTHREAD_INHERIT_SCHED) || (v =? PTHREAD_EXPLICIT_SCHED)
  then (OK, set_inheritsched v attr) else (EINVAL, attr).

Definition __pthread_attr_getschedparam (attr : pthread_attr) : error_t * Z := (OK, schedparam attr).
Definition __pthread_attr_setschedparam (attr : pthread_attr) (param : Z) : error_t * pthread_attr :=
  if param =? schedparam default_attr then (OK, set_schedparam param attr) else (ENOTSUP, attr).

Definition __pthread_attr_getschedpolicy (attr : pthread_attr) : error_t * Z :=
  (OK, schedpolicy attr).
Definition __pthread_attr_setschedpolicy (attr : pthread_attr) (policy : Z) : error_t * pthread_attr :=
  if policy =? SCHED_OTHER then (OK, set_schedpolicy policy attr)
  else if (policy =? SCHED_FIFO) || (policy =? SCHED_RR) then (ENOTSUP, attr)
  else (EINVAL, attr).

Definition __pthread_attr_getscope (attr : pthread_attr) : error_t * Z :=
  (OK, contentionscope attr).
Definition __pthread_attr_setscope (attr : pthread_attr) (v : Z) : error_t * pthread_attr :=
  if v =? contentionscope default_attr then (OK, set_contentionscope v attr)
  else if (v =? PTHREAD_SCOPE_PROCESS) || (v =? PTHREAD_SCOPE_SYSTEM) then (ENOTSUP, attr)
  else (EINVAL, attr).

Definition pthread_attr_getstackaddr (attr : pthread_attr) : error_t * Z := (OK, stackaddr attr).
Definition pthread_attr_getstacksize (attr : pthread_attr) : error_t * Z := (OK, stacksize attr).

(** sysdeps/mach/hurd/pt-attr-setstackaddr.c *)
Definition pthread_attr_setstackaddr (attr : pthread_attr) (v : Z) : error_t * pthread_attr :=
  if negb (Z.land v (stacksize default_attr - 1) =? 0) then (EINVAL, attr)
  else (OK, set_stackaddr v attr).

(** sysdeps/mach/hurd/pt-attr-setstacksize.c *)
Definition pthread_attr_setstacksize (attr : pthread_attr) (v : Z) : error_t * pthread_attr :=
  if negb (v =? stacksize default_attr) then (EINVAL, attr)
  else (OK, set_stacksize v attr).

(** The versions of sysdeps/generic, which the Hurd ones replace. *)
Definition generic_attr_setstackaddr (attr : pthread_attr) (v : Z) : error_t * pthread_attr :=
  (OK, set_stackaddr v attr).
Definition generic_attr_setstacksize (attr : pthread_attr) (v : Z) : error_t * pthread_attr :=
  if v =? stacksize default_attr then
    let attr := set_stacksize v attr in
    (OK, if guardsize attr >? stacksize attr then set_guardsize (stacksize attr) attr else attr)
  else (ENOTSUP, attr).

Definition pthread_attr_getstack (attr : pthread_attr) : error_t * (Z * Z) :=
  (OK, ((pthread_attr_getstackaddr attr).2, (pthread_attr_getstacksize attr).2)).

(** [None] is the failure of [assert_perror] on the way back. *)
Definition pthread_attr_setstack (attr : pthread_attr) (addr size : Z) :
    option (error_t * pthread_attr) :=
  let s := (pthread_attr_getstacksize attr).2 in
  match pthread_attr_setstacksize attr size with
  | (OK, attr) =>
      match pthread_attr_setstackaddr attr addr with
      | (OK, attr) => Some (OK, attr)
      | (err, attr) =>
          match pthread_attr_setstacksize attr s with
          | (OK, attr) => Some (err, attr)
          | _ => None
          end
      end
  | (err, attr) => Some (err, attr)
  end.
End ThreadAttr.

(** ** Mutex attributes *)

Definition __pthread_default_mutexattr : mutexattr :=
  mkMutexattr 0 PTHREAD_PRIO_NONE PTHREAD_PROCESS_PRIVATE PTHREAD_MUTEX_DEFAULT.
Definition __pthread_errorcheck_mutexattr : mutexattr :=
  mkMutexattr 0 PTHREAD_PRIO_NONE PTHREAD_PROCESS_PRIVATE PTHREAD_MUTEX_ERRORCHECK.
Definition __pthread_recursive_mutexattr : mutexattr :=
  mkMutexattr 0 PTHREAD_PRIO_NONE PTHREAD_PROCESS_PRIVATE PTHREAD_MUTEX_RECURSIVE.

Definition pthread_mutexattr_init (attr : mutexattr) : error_t * mutexattr :=
  (OK, __pthread_default_mutexattr).
Definition pthread_mutexattr_destroy (attr : mutexattr) : error_t * mutexattr := (OK, attr).
Definition pthread_mutexattr_getprioceiling (attr : mutexattr) : error_t * option Z :=
  (ENOSYS, None).
Definition pthread_mutexattr_setprioceiling (attr : mutexattr) (v : Z) : error_t * mutexattr :=
  (ENOSYS, attr).
Definition pthread_mutexattr_getprotocol (attr : mutexattr) : error_t * Z := (OK, protocol attr).
Definition pthread_mutexattr_setprotocol (attr : mutexattr) (v : Z) : error_t * mutexattr :=
  if v =? protocol __pthread_default_mutexattr
  then (OK, mkMutexattr (prioceiling attr) v (mx_pshared attr) (mutex_type attr))
  else if (v =? PTHREAD_PRIO_NONE) || (v =? PTHREAD_PRIO_INHERIT) || (v =? PTHREAD_PRIO_PROTECT)
  then (ENOTSUP, attr)
  else (EINVAL, attr).
Definition pthread_mutexattr_getpshared (attr : mutexattr) : error_t * Z := (OK, mx_pshared attr).
Definition pthread_mutexattr_setpshared (attr : mutexattr) (v : Z) : error_t * mutexattr :=
  set_pshared (fun v attr => mkMutexattr (prioceiling attr) (protocol attr) v (mutex_type attr))
    attr v.
Definition pthread_mutexattr_gettype (attr : mutexattr) : error_t * Z := (OK, mutex_type attr).
Definition pthread_mutexattr_settype (attr : mutexattr) (v : Z) : error_t * mutexattr :=
  if (v =? PTHREAD_MUTEX_NORMAL) || (v =? PTHREAD_MUTEX_ERRORCHECK)
     || (v =? PTHREAD_MUTEX_RECURSIVE)
  then (OK, mkMutexattr (prioceiling attr) (protocol attr) (mx_pshared attr) v)
  else (EINVAL, attr).

(** ** Condition variable attributes *)

Definition __pthread_default_condattr : condattr :=
  mkCondattr PTHREAD_PROCESS_PRIVATE CLOCK_REALTIME.
Definition __pthread_condattr_init (attr : condattr) : error_t * condattr :=
  (OK, __pthread_default_condattr).
Definition __pthread_condattr_destroy (attr : condattr) : error_t * condattr := (OK, attr).
Definition pthread_condattr_getclock (attr : condattr) : error_t * Z := (OK, cn_clock attr).
(** [avail] is the static variable that remembers whether the kernel has a
    monotonic clock, [clock_getres] the answer of that system call. *)
Definition pthread_condattr_setclock (clock_getres : Z) (avail : Z) (attr : condattr) (v : Z) :
    error_t * condattr * Z :=
  if v =? CLOCK_MONOTONIC then
    let avail := if avail =? 0 then (if clock_getres <? 0 then -1 else 1) else avail in
    if avail <? 0 then (EINVAL, attr, avail) else (OK, mkCondattr (cn_pshared attr) v, avail)
  else if negb (v =? CLOCK_REALTIME) then (EINVAL, attr, avail)
  else (OK, mkCondattr (cn_pshared attr) v, avail).
Definition pthread_condattr_getpshared (attr : condattr) : error_t * Z := (OK, cn_pshared attr).
Definition pthread_condattr_setpshared (attr : condattr) (v : Z) : error_t * condattr :=
  set_pshared (fun v attr => mkCondattr v (cn_clock attr)) attr v.

(** ** Rwlock and barrier attributes *)

Definition __pthread_default_rwlockattr : rwlockattr := mkRwlockattr PTHREAD_PROCESS_PRIVATE.
Definition pthread_rwlockattr_init (attr : rwlockattr) : error_t * rwlockattr :=
  (OK, __pthread_default_rwlockattr).
Definition pthread_rwlockattr_destroy (attr : rwlockattr) : error_t * rwlockattr := (OK, attr).
Definition pthread_rwlockattr_getpshared (attr : rwlockattr) : error_t * Z := (OK, rw_pshared attr).
Definition pthread_rwlockattr_setpshared (attr : rwlockattr) (v : Z) : error_t * rwlockattr :=
  set_pshared (fun v _ => mkRwlockattr v) attr v.

Definition __pthread_default_barrierattr : barrierattr := mkBarrierattr PTHREAD_PROCESS_PRIVATE.
Definition pthread_barrierattr_init (attr : barrierattr) : error_t * barrierattr :=
  (OK, __pthread_default_barrierattr).
Definition pthread_barrierattr_destroy (attr : barrierattr) : error_t * barrierattr := (OK, attr).
Definition pthread_barrierattr_getpshared (attr : barrierattr) : error_t * Z := (OK, b_pshared attr).
Definition pthread_barrierattr_setpshared (attr : barrierattr) (v : Z) : error_t * barrierattr :=
  set_pshared (fun v _ => mkBarrierattr v) attr v.
