(* ===== verification/AttrFacts.v ===== *)
(** * What the setters of attribute objects guarantee *)
From Stdlib Require Import ZArith Lia.
From S2P Require Import Prelude Queue World Attr.
Local Open Scope Z_scope.

(** ** Thread attributes *)

Inductive attr_op :=
  | SetDetachstate (v : Z) | SetGuardsize (v : Z) | SetInheritsched (v : Z) | SetSchedparam (v : Z)
  | SetSchedpolicy (v : Z) | SetScope (v : Z) | SetStackaddr (v : Z) | SetStacksize (v : Z).

Definition attr_value (op : attr_op) : Z :=
  match op with
  | SetDetachstate v | SetGuardsize v | SetInheritsched v | SetSchedparam v
  | SetSchedpolicy v | SetScope v | SetStackaddr v | SetStacksize v => v
  end.

Definition attr_set (d : pthread_attr) (op : attr_op) (a : pthread_attr) : error_t * pthread_attr :=
  match op with
  | SetDetachstate v => __pthread_attr_setdetachstate a v
  | SetGuardsize v => pthread_attr_setguardsize a v
  | SetInheritsched v => __pthread_attr_setinheritsched a v
  | SetSchedparam v => __pthread_attr_setschedparam d a v
  | SetSchedpolicy v => __pthread_attr_setschedpolicy a v
  | SetScope v => __pthread_attr_setscope d a v
  | SetStackaddr v => pthread_attr_setstackaddr d a v
  | SetStacksize v => pthread_attr_setstacksize d a v
  end.

(** The getter for the member the operation sets. *)
Definition attr_get (op : attr_op) (a : pthread_attr) : error_t * Z :=
  match op with
  | SetDetachstate _ => __pthread_attr_getdetachstate a
  | SetGuardsize _ => pthread_attr_getguardsize a
  | SetInheritsched _ => __pthread_attr_getinheritsched a
  | SetSchedparam _ => __pthread_attr_getschedparam a
  | SetSchedpolicy _ => __pthread_attr_getschedpolicy a
  | SetScope _ => __pthread_attr_getscope a
  | SetStackaddr _ => pthread_attr_getstackaddr a
  | SetStacksize _ => pthread_attr_getstacksize a
  end.

Definition same_member (op op' : attr_op) : bool :=
  match op, op' with
  | SetDetachstate _, SetDetachstate _ | SetGuardsize _, SetGuardsize _
  | SetInheritsched _, SetInheritsched _ | SetSchedparam _, SetSchedparam _
  | SetSchedpolicy _, SetSchedpolicy _ | SetScope _, SetScope _
  | SetStackaddr _, SetStackaddr _ | SetStacksize _, SetStacksize _ => true
  | _, _ => false
  end.

(** Each of the single setters, or [pthread_attr_setstack]. *)
Inductive attr_call := One (op : attr_op) | SetStack (addr size : Z).

Definition attr_call_run (d : pthread_attr) (c : attr_call) (a : pthread_attr) : option (error_t * pthread_attr) :=
  match c with
  | One op => Some (attr_set d op a)
  | SetStack addr size => pthread_attr_setstack d a addr size
  end.

(** The values that the library supports.  [pthread_create] relies on the detach
    state and the stack size: [__pthread_stack_alloc] refuses another size. *)
Record attr_wf (d a : pthread_attr) : Prop := {
  wf_detach : detachstate a = PTHREAD_CREATE_JOINABLE \/ detachstate a = PTHREAD_CREATE_DETACHED;
  wf_inherit : inheritsched a = PTHREAD_INHERIT_SCHED \/ inheritsched a = PTHREAD_EXPLICIT_SCHED;
  wf_param : schedparam a = schedparam d;
  wf_policy : schedpolicy a = SCHED_OTHER;
  wf_scope : contentionscope a = contentionscope d;
  wf_stacksize : stacksize a = stacksize d;
  wf_stackaddr : Z.land (stackaddr a) (stacksize d - 1) = 0;
}.

(** The results of the calls are ignored; [None] if an assertion fails. *)
Fixpoint attr_run (d : pthread_attr) (cs : list attr_call) (a : pthread_attr) : option pthread_attr :=
  match cs with
  | [] => Some a
  | c :: cs => match attr_call_run d c a with Some (_, a) => attr_run d cs a | None => None end
  end.

Lemma attr_set_wf d op a : attr_wf d a -> attr_wf d (attr_set d op a).2.
Proof.
  intros H. destruct op; cbn;
    unfold __pthread_attr_setdetachstate, __pthread_attr_setinheritsched,
      __pthread_attr_setschedparam, __pthread_attr_setschedpolicy, __pthread_attr_setscope,
      pthread_attr_setstackaddr, pthread_attr_setstacksize; repeat case_match; cbn; try done;
    destruct H; split; cbn; try done.
  all: first [lia | by apply negb_false_iff, Z.eqb_eq in H0].
Qed.

(** A setter of thread attributes that succeeds stores the value its getter
    then returns and leaves the other members alone; one that fails does so with
    EINVAL or ENOTSUP and changes nothing. *)
Theorem attr_set_get d op a :
  match attr_set d op a with
  | (OK, a') => attr_get op a' = (OK, attr_value op) /\
      forall op', same_member op op' = false -> attr_get op' a' = attr_get op' a
  | (e, a') => (e = EINVAL \/ e = ENOTSUP) /\ a' = a
  end.
Proof.
  destruct op; cbn;
    unfold __pthread_attr_setdetachstate, __pthread_attr_setinheritsched,
      __pthread_attr_setschedparam, __pthread_attr_setschedpolicy, __pthread_attr_setscope,
      pthread_attr_setstackaddr, pthread_attr_setstacksize; repeat case_match; simplify_eq; try tauto;
    (split; [done | by intros []]).
Qed.

(** [pthread_attr_setstack] sets both members or none; it fails its own
    assertion exactly if the address is misaligned and the object has another
    stack size than the default one, which only a change of the default size
    after the initialisation of the object can bring about. *)
Theorem setstack_all_or_nothing d a addr size :
  match pthread_attr_setstack d a addr size with
  | Some (e, a') =>
      (e = OK /\ pthread_attr_getstack a' = (OK, (addr, size))) \/ (e = EINVAL /\ a' = a)
  | None => size = stacksize d /\ Z.land addr (stacksize d - 1) <> 0 /\ stacksize a <> stacksize d
  end.
Proof.
  unfold pthread_attr_setstack, pthread_attr_setstacksize, pthread_attr_setstackaddr. cbn.
  destruct (Z.eqb_spec size (stacksize d)) as [-> | Hs]; cbn; [|by right].
  destruct (Z.eqb_spec (Z.land addr (stacksize d - 1)) 0) as [Ha | Ha]; cbn; [by left|].
  destruct (Z.eqb_spec (stacksize a) (stacksize d)) as [E | E]; cbn; [|done].
  right. split; [done|]. destruct a; cbn in *. by rewrite E.
Qed.

Lemma attr_call_wf d c a :
  attr_wf d a -> exists e a', attr_call_run d c a = Some (e, a') /\ attr_wf d a'.
Proof.
  intros H. destruct c as [op|addr size]; cbn [attr_call_run].
  - exists (attr_set d op a).1, (attr_set d op a).2. split; [by destruct (attr_set d op a)|by apply attr_set_wf].
  - pose proof (setstack_all_or_nothing d a addr size) as Hs. pose proof (wf_stacksize _ _ H) as Hsize.
    destruct (pthread_attr_setstack d a addr size) as [[e a']|] eqn:Hrun; [|by destruct Hs as (_ & _ & [])].
    exists e, a'. split; [done|]. destruct Hs as [[-> _] | [_ ->]]; [|done].
    pose proof (attr_set_wf d (SetStacksize size) a H) as H1. cbn in H1.
    unfold pthread_attr_setstack in Hrun. destruct (pthread_attr_setstacksize d a size) as [e1 a1]. cbn in H1.
    pose proof (attr_set_wf d (SetStackaddr addr) a1 H1) as H2. cbn in H2.
    destruct e1; try done. destruct (pthread_attr_setstackaddr d a1 addr) as [e2 a2]. cbn in H2.
    destruct e2; repeat case_match; by simplify_eq.
Qed.

(** C38: whatever setters are called on an initialised attributes object, in
    whatever order and with whatever arguments, [pthread_attr_setstack] included, no
    assertion fails (when setstack takes the stack size back it gets the old one
    accepted), and every member keeps a value that the library supports: the detach
    state and the inheritance one of the two that exist, the contention scope and the
    scheduling parameter the default ones, the policy SCHED_OTHER, the stack size the
    default one, which [__pthread_stack_alloc] insists on, and the stack address
    aligned to it. *)
Theorem attr_run_wf pagesize size cs a :
  let d := set_stacksize size (__pthread_default_attr pagesize) in
  exists a', attr_run d cs (__pthread_attr_init d a).2 = Some a' /\ attr_wf d a'.
Proof.
  intros d.
  assert (attr_wf d (__pthread_attr_init d a).2) as H by (split; cbn; auto; apply Z.land_0_l).
  revert H. generalize (__pthread_attr_init d a).2. induction cs as [|c cs IH]; intros x H; cbn; [by exists x|].
  destruct (attr_call_wf d c x H) as (e & x' & -> & Hx). by apply IH.
Qed.
