(* ===== verification/Mutex.v ===== *)
(** * Mutexes: sysdeps/generic/pt-mutex-*.c

    Compiled without ALWAYS_TRACK_MUTEX_OWNER and without NDEBUG.  [__held] is
    the spin lock [SMutexHeld m], [__lock] is [SMutexLock m] and [__queue] the
    queue head [HMutex m]. *)
From Stdlib Require Import ZArith Lia.
From S2P Require Import Prelude Queue World Machine Sched Mach Attr.

Definition get_mutex (m : mutex_id) : M mutex :=
  o ← gets (fun w => mutexes w !! m); deref o.

Definition put_mutex (m : mutex_id) (x : mutex) : M unit :=
  modify (fun w => set_mutexes (<[m := x]> (mutexes w)) w).

Definition set_owner (m : mutex_id) (o : option nat) : M unit :=
  x ← get_mutex m; put_mutex m (mkMutex (m_attr x) o (m_locks x)).

Definition set_locks (m : mutex_id) (n : Z) : M unit :=
  x ← get_mutex m; put_mutex m (mkMutex (m_attr x) (m_owner x) n).

(** The first lines of every operation: the attributes behind [mutex->attr]. *)
Definition resolve_attr (p : mutexattr_ptr) : option mutexattr :=
  match p with
  | ANull => None
  | AErrorcheck => Some __pthread_errorcheck_mutexattr
  | ARecursive => Some __pthread_recursive_mutexattr
  | AHeap a => Some a
  | AFreed => Some (mkMutexattr 0 0 0 (-1))   (* no type: the next switch is an error *)
  end.

(** [switch (attr->mutex_type)] when [attr] is not null. *)
Inductive kind := KNormal | KErrorcheck | KRecursive | KBad.

#[export] Instance kind_eq_dec : EqDecision kind.
Proof. solve_decision. Defined.

Definition kind_of_type (ty : Z) : kind :=
  if (ty =? PTHREAD_MUTEX_NORMAL)%Z then KNormal
  else if (ty =? PTHREAD_MUTEX_ERRORCHECK)%Z then KErrorcheck
  else if (ty =? PTHREAD_MUTEX_RECURSIVE)%Z then KRecursive
  else KBad.

(** Null attributes are treated like the type NORMAL throughout. *)
Definition kind_of (attr : option mutexattr) : kind :=
  match attr with None => KNormal | Some a => kind_of_type (mutex_type a) end.

(** [attr && attr->mutex_type != PTHREAD_MUTEX_NORMAL] *)
Definition tracked (k : kind) : bool := match k with KNormal => false | _ => true end.

Definition recursive (k : kind) : bool := match k with KRecursive => true | _ => false end.

Definition LOSE {A} : M A := fail FSegv.

(** After [__held] was taken: lines 61 to 75 of pt-mutex-timedlock.c, and the
    same lines of pt-mutex-trylock.c. *)
Definition acquired (m : mutex_id) (k : kind) : M unit :=
  match k with
  | KNormal => mret tt
  | KRecursive => set_locks m 1;; self ← _pthread_self; set_owner m (Some self)
  | KErrorcheck => self ← _pthread_self; set_owner m (Some self)
  | KBad => LOSE
  end.

(** pt-mutex-timedlock.c, lines 86 to 116: the mutex is taken, maybe by the
    caller; the result of the call if it ends here. *)
Definition held_already (m : mutex_id) (k : kind) (self : nat) : M (option error_t) :=
  x ← get_mutex m;
  match k with
  | KNormal => mret None
  | KErrorcheck =>
      if decide (m_owner x = Some self)
      then __pthread_spin_unlock (SMutexLock m);; mret (Some EDEADLK)
      else mret None
  | KRecursive =>
      if decide (m_owner x = Some self)
      then set_locks m (u32 (m_locks x + 1));;
           __pthread_spin_unlock (SMutexLock m);; mret (Some OK)
      else mret None
  | KBad => LOSE
  end.

(** Lines 164 to 188: the wakeup was the hand-over of the mutex. *)
Definition handed_over (m : mutex_id) (k : kind) (self : nat) : M unit :=
  x ← get_mutex m;
  when (tracked k) (c_assert (bool_decide (m_owner x = Some self)));;
  match k with
  | KNormal => mret tt
  | KRecursive =>
      c_assert (m_locks x =? 0)%Z;;
      set_locks m 1;; set_owner m (Some self)
  | KErrorcheck => set_owner m (Some self)
  | KBad => LOSE
  end.

(** Lines 118 to 189: queue up and wait for the mutex. *)
Definition wait_turn (m : mutex_id) (k : kind) (self : nat) (abstime : option timespec) :
    M error_t :=
  x ← get_mutex m;
  when (tracked k) (c_assert (bool_decide (is_Some (m_owner x))));;
  if bad_abstime abstime then mret EINVAL
  else
  enqueue (HMutex m) self;;
  __pthread_spin_unlock (SMutexLock m);;
  err ← wait_for_wakeup (SMutexLock m) self abstime CLOCK_REALTIME;
  if decide (err <> OK) then c_assert (bool_decide (err = ETIMEDOUT));; mret err
  else handed_over m k self;; mret OK.

(** pt-mutex-timedlock.c *)
Definition __pthread_mutex_timedlock_internal (m : mutex_id) (abstime : option timespec) :
    M error_t :=
  x ← get_mutex m;
  let k := kind_of (resolve_attr (m_attr x)) in
  __pthread_spin_lock (SMutexLock m);;
  r ← __pthread_spin_trylock (SMutexHeld m);
  if decide (r = OK) then
    acquired m k;;
    __pthread_spin_unlock (SMutexLock m);;
    mret OK
  else
  self ← _pthread_self;
  early ← held_already m k self;
  match early with
  | Some err => mret err
  | None => wait_turn m k self abstime
  end.

Definition __pthread_mutex_lock (m : mutex_id) : M error_t :=
  __pthread_mutex_timedlock_internal m None.

Definition pthread_mutex_timedlock (m : mutex_id) (abstime : option timespec) : M error_t :=
  __pthread_mutex_timedlock_internal m abstime.

(** pt-mutex-trylock.c, lines 77 to 104: the mutex is taken. *)
Definition try_busy (m : mutex_id) (attr : option mutexattr) : M error_t :=
  match attr with
  | None => mret EBUSY
  | Some _ =>
      self ← _pthread_self;
      x ← get_mutex m;
      match kind_of attr with
      | KNormal | KErrorcheck => mret EBUSY
      | KRecursive =>
          if decide (m_owner x = Some self)
          then set_locks m (u32 (m_locks x + 1));; mret OK
          else mret EBUSY
      | KBad => LOSE
      end
  end.

(** pt-mutex-trylock.c *)
Definition __pthread_mutex_trylock (m : mutex_id) : M error_t :=
  x ← get_mutex m;
  let attr := resolve_attr (m_attr x) in
  __pthread_spin_lock (SMutexLock m);;
  r ← __pthread_spin_trylock (SMutexHeld m);
  if decide (r = OK) then
    acquired m (kind_of attr);;
    __pthread_spin_unlock (SMutexLock m);;
    mret OK
  else
  err ← try_busy m attr;
  __pthread_spin_unlock (SMutexLock m);;
  mret err.

(** pt-mutex-unlock.c, lines 40 to 76: the caller gives the mutex up; the
    result of the call if it ends here. *)
Definition disown (m : mutex_id) (k : kind) : M (option error_t) :=
  match k with
  | KNormal => mret None
  | KErrorcheck | KRecursive =>
      self ← _pthread_self;
      x ← get_mutex m;
      if decide (m_owner x <> Some self)
      then __pthread_spin_unlock (SMutexLock m);; mret (Some EPERM)
      else
        let locks := u32 (m_locks x - 1) in
        when (recursive k) (set_locks m locks);;
        if recursive k && (0 <? locks)%Z
        then __pthread_spin_unlock (SMutexLock m);; mret (Some OK)
        else set_owner m None;; mret None
  | KBad => LOSE
  end.

(** Lines 79 to 105: free the mutex or hand it to the first waiter. *)
Definition pass_on (m : mutex_id) (k : kind) : M error_t :=
  q ← queue_head (HMutex m);
  match q with
  | None =>
      __pthread_spin_unlock (SMutexHeld m);;
      __pthread_spin_unlock (SMutexLock m);;
      mret OK
  | Some wakeup =>
      dequeue wakeup;;
      when (tracked k) (set_owner m (Some wakeup));;
      __pthread_spin_unlock (SMutexLock m);;
      __pthread_wakeup wakeup;;
      mret OK
  end.

(** pt-mutex-unlock.c *)
Definition __pthread_mutex_unlock (m : mutex_id) : M error_t :=
  x ← get_mutex m;
  let k := kind_of (resolve_attr (m_attr x)) in
  __pthread_spin_lock (SMutexLock m);;
  early ← disown m k;
  match early with
  | Some err => mret err
  | None => pass_on m k
  end.

(** pt-mutex-init.c. *)
Definition _pthread_mutex_init (m : mutex_id) (attr : option mutexattr) : M error_t :=
  modify (fun w => set_spins (spins w ∖ {[SMutexHeld m; SMutexLock m]}) w);;
  modify (fun w => set_qh (clear_head (HMutex m) (qh w)) w);;
  put_mutex m (mkMutex ANull None 0);;
  match attr with
  | None => mret OK
  | Some a =>
      if negb (memcmp_zero =? 0)%Z then mret OK
      else
      x ← get_mutex m;
      p ← match m_attr x with
          | ANull | AErrorcheck | ARecursive =>
              ok ← malloc_ok; mret (if ok : bool then AHeap a else ANull)
          | p => mret p
          end;
      match p with
      | AHeap _ => put_mutex m (mkMutex (AHeap a) (m_owner x) (m_locks x));; mret OK
      | _ => mret ENOMEM
      end
  end.

(** pt-mutex-destroy.c: [free] of the attributes, unless they are static; a
    second [free] is an error. *)
Definition _pthread_mutex_destroy (m : mutex_id) : M error_t :=
  x ← get_mutex m;
  match m_attr x with
  | AErrorcheck | ARecursive => mret OK
  | ANull => mret OK
  | AHeap _ => put_mutex m (mkMutex AFreed (m_owner x) (m_locks x));; mret OK
  | AFreed => fail FSegv
  end.

Definition pthread_mutex_getprioceiling (m : mutex_id) : M (error_t * option Z) :=
  mret (ENOSYS, None).
Definition pthread_mutex_setprioceiling (m : mutex_id) (prio : Z) : M (error_t * option Z) :=
  mret (ENOSYS, None).

#[global] Arguments acquired : simpl never.
#[global] Arguments held_already : simpl never.
#[global] Arguments handed_over : simpl never.
#[global] Arguments wait_turn : simpl never.
#[global] Arguments try_busy : simpl never.
#[global] Arguments disown : simpl never.
#[global] Arguments pass_on : simpl never.
#[global] Arguments __pthread_mutex_timedlock_internal : simpl never.
#[global] Arguments __pthread_mutex_lock : simpl never.
#[global] Arguments __pthread_mutex_unlock : simpl never.

(** ** A mutex that nobody else uses

    The library's own mutexes have null attributes; a thread that runs alone
    takes and drops them without waiting. *)

Record mutex_idle (m : mutex_id) (w : world) : Prop := {
  mi_attr : exists o n, mutexes w !! m = Some (mkMutex ANull o n);
  mi_lock : SMutexLock m ∉ spins w;
  mi_held : SMutexHeld m ∉ spins w;
  mi_queue : cells (qh w) !! Head (HMutex m) = None;
}.

Definition hold_mutex (m : mutex_id) (w : world) : world :=
  set_spins ({[SMutexHeld m]} ∪ spins w) w.

Lemma solo_mutex_lock m me w {B} (f : error_t -> world -> res B) :
  mutex_idle m w -> solo (bindr (__pthread_mutex_lock m me w) f) = solo (f OK (hold_mutex m w)).
Proof.
  intros [(o & n & Hm) Hl Hh _].
  unfold __pthread_mutex_lock, __pthread_mutex_timedlock_internal, get_mutex. cbn.
  rewrite Hm. cbn. unfold __pthread_spin_lock. cbn.
  rewrite bool_decide_eq_false_2, decide_True by done. cbn.
  rewrite bool_decide_eq_false_2 by set_solver. rewrite decide_True by done. cbn.
  unfold acquired, hold_mutex. cbn. same_spins.
Qed.

Lemma solo_mutex_unlock m o n me w {B} (f : error_t -> world -> res B) :
  mutexes w !! m = Some (mkMutex ANull o n) -> SMutexLock m ∉ spins w ->
  cells (qh w) !! Head (HMutex m) = None ->
  solo (bindr (__pthread_mutex_unlock m me w) f) =
  solo (f OK (set_spins (spins w ∖ {[SMutexHeld m]}) w)).
Proof.
  intros Hm Hl Hq. unfold __pthread_mutex_unlock, get_mutex. cbn. rewrite Hm. cbn.
  unfold __pthread_spin_lock. cbn. rewrite bool_decide_eq_false_2, decide_True by done. cbn.
  unfold disown, pass_on. cbn. rewrite Hq. cbn. same_spins.
Qed.
