(* ===== verification/MutexInv.v ===== *)
(** * The invariant of one mutex used by any number of threads

    [inv] relates the phase of every thread to the memory of the mutex; the
    lemmas of this file are its transitions, one per way a thread can move.
    MutexSpec.v proves the operations of Mutex.v from them. *)
From Stdlib Require Import ZArith Lia.
From S2P Require Import Prelude Queue World Machine Sched Mach Attr Mutex.

(** Where a thread is with respect to the mutex.  [Owns n u]: it holds the mutex
    with lock count [n] and the application memory is [u]; [Blocked]: it waits
    for a message; [Woken]: it has received one; [TimedOut]: its wait expired
    and it goes for the spin lock; [Draining]: it was handed the mutex after its
    wait expired and waits for the message that says so. *)
Inductive phase :=
  | Idle | Owns (n : Z) (u : gmap nat Z) | Blocked | Woken | TimedOut | Draining.

(** Whom the mutex belongs to.  [Lost t]: it was handed to [t], whose call
    returned ETIMEDOUT all the same, so that nobody knows to hold it. *)
Inductive holder := Free | By (t : nat) | Lost (t : nat).

#[export] Instance holder_eq_dec : EqDecision holder.
Proof. solve_decision. Defined.

Definition owner_of (h : holder) : option nat :=
  match h with Free => None | By t | Lost t => Some t end.

(** The count and the memory a thread in its critical section knows. *)
Definition held_by (h : holder) (γ : nat -> phase) : option (Z * gmap nat Z) :=
  match h with
  | By t => match γ t with Owns n u => Some (n, u) | _ => None end
  | _ => None
  end.

(** What the phase says about being in the queue [q], being the one the mutex
    belongs to [o], and the number [n] of messages on the wakeup port. *)
Definition place (g : phase) (q o : Prop) (n : nat) : Prop :=
  match g with
  | Idle => ~ q /\ ~ o /\ n = 0
  | Owns _ _ | Woken => ~ q /\ o /\ n = 0
  | Blocked | TimedOut => (q /\ ~ o /\ n = 0) \/ (~ q /\ o /\ n = 1)
  | Draining => ~ q /\ o /\ n = 1
  end.

#[export] Instance place_proper g : Proper (iff ==> iff ==> eq ==> iff) (place g).
Proof. intros q q' Hq o o' Ho n n' ->. destruct g; cbn; by rewrite Hq, Ho. Qed.

Lemma held_by_other h γ t g :
  h <> By t -> held_by h (<[t := g]> γ) = held_by h γ.
Proof.
  intros Hne. destruct h as [|t'|]; [done| |done]. cbn.
  rewrite fn_lookup_insert_ne; [done | congruence].
Qed.

Section MutexInv.
Context (m : mutex_id) (attr : mutexattr_ptr).
(** The threads that use the mutex and the kernel threads that run them. *)
Context (T : gset nat) (ctx : nat -> kctx).
(** What the mutex protects: [R] holds of the application memory whenever
    no thread holds the mutex. *)
Context (R : gmap nat Z -> Prop).
(** Whether timed operations are used. *)
Context (timed : bool).

Definition mkind : kind := kind_of (resolve_attr attr).

(** The lock count of an owner: the nesting depth of a recursive mutex, and
    zero (never touched) for the other types. *)
Definition count_ok (n : Z) : Prop :=
  match mkind with KRecursive => (1 <= n < 2 ^ 32)%Z | _ => n = 0%Z end.

(** The clauses about one thread. *)
Record tinv (Q : head_id -> list nat) (hold : holder) (w : world) (t : nat) (g : phase) : Prop := {
  t_out : t ∉ T -> g = Idle /\ t ∉ Q (HMutex m) /\ hold <> By t;
  t_runs : t ∈ T -> runs (ctx t) t w;
  t_only : t ∈ T -> forall h, t ∈ Q h -> h = HMutex m;
  t_place : t ∈ T -> exists n, mail w !! t = Some n /\
              place g (t ∈ Q (HMutex m)) (hold = By t) n;
  t_timed : timed = false -> g <> TimedOut /\ g <> Draining;
}.

Definition count (hb : option (Z * gmap nat Z)) : Z :=
  match hb with Some (n, _) => n | None => 0%Z end.

(** The clauses about the mutex. *)
Record ginv (Q : head_id -> list nat) (hold : holder) (hb : option (Z * gmap nat Z)) (w : world) : Prop := {
  g_mutex : mutexes w !! m =
    Some (mkMutex attr (if tracked mkind then owner_of hold else None) (count hb));
  g_rep : qrep (qh w) Q;
  g_lock : SMutexLock m ∉ spins w;
  g_held : SMutexHeld m ∈ spins w <-> hold <> Free;
  g_full : Q (HMutex m) <> [] -> hold <> Free;
  g_mem : match hb with Some (n, u) => count_ok n /\ umem w = u | None => R (umem w) end;
  g_timed : timed = false -> forall t, hold <> Lost t;
}.

Definition inv Q hold (γ : nat -> phase) (w : world) : Prop :=
  ginv Q hold (held_by hold γ) w /\ forall t, tinv Q hold w t (γ t).

Definition I (γ : nat -> phase) (w : world) : Prop := exists Q hold, inv Q hold γ w.

(** The waits of each phase. *)
Definition S (t : nat) (g : phase) (r : reason) : Prop :=
  match g, r with
  | Idle, RYield | Owns _ _, RYield | Woken, RYield | TimedOut, RYield => True
  | Blocked, RRecv t' o => t' = t /\ (timed = false -> o = None)
  | Draining, RRecv t' None => t' = t
  | _, _ => False
  end.

Definition E (t : nat) (g : phase) : Prop := g = Idle.

Lemma I_lock γ w : I γ w -> SMutexLock m ∉ spins w.
Proof. intros (Q & h & H & _). apply H. Qed.

Lemma I_tick γ c w : I γ w -> I γ (tick c w).
Proof.
  intros (Q & h & [] & Ht). exists Q, h. split; [by split|].
  intros t. by destruct (Ht t).
Qed.

(** ** Moving one thread *)

Lemma inv_move Q hold γ w t g :
  (forall t', t' <> t -> tinv Q hold w t' (γ t')) -> tinv Q hold w t g ->
  ginv Q hold (held_by hold (<[t := g]> γ)) w ->
  inv Q hold (<[t := g]> γ) w.
Proof.
  intros Hoth Ht Hg. split; [done|]. intros t'.
  destruct (decide (t = t')) as [<- | Hne].
  - by rewrite fn_lookup_insert.
  - rewrite fn_lookup_insert_ne by done. by apply Hoth.
Qed.

(** A thread not involved in the step keeps its clauses. *)
Lemma tinv_frame Q hold w Q' hold' w' t g :
  tinv Q hold w t g ->
  (forall h, t ∈ Q' h <-> t ∈ Q h) -> (hold' = By t <-> hold = By t) ->
  pthreads w' = pthreads w -> threads_tab (glob w') = threads_tab (glob w) ->
  mail w' !! t = mail w !! t ->
  tinv Q' hold' w' t g.
Proof.
  intros [Ho Hr Hon Hp Ht] HQ Hh Hpt Hg Hm. split; [| | | |done].
  - rewrite HQ, Hh. done.
  - intros HT. eapply runs_same; eauto.
  - intros HT h. rewrite HQ. auto.
  - intros HT. destruct (Hp HT) as (n & Hn & Hpl). exists n. rewrite Hm.
    split; [done|]. by rewrite HQ, Hh.
Qed.

(** A thread in [Owns] or [Woken] is the holder. *)
Lemma tinv_owner Q hold w t g :
  tinv Q hold w t g -> (exists n u, g = Owns n u) \/ g = Woken \/ g = Draining ->
  t ∈ T /\ hold = By t.
Proof.
  intros H Hg. destruct (decide (t ∈ T)) as [HT | HT].
  - destruct (t_place _ _ _ _ _ H HT) as (n & _ & Hp).
    split; [done|]. destruct Hg as [(? & ? & ->) | [-> | ->]]; cbn in Hp; tauto.
  - destruct (t_out _ _ _ _ _ H HT) as (-> & _). naive_solver.
Qed.

(** A step that leaves alone all that the invariant speaks of. *)
Lemma inv_frame Q hold γ w w' :
  inv Q hold γ w -> framed w w' -> mail w' = mail w -> qh w' = qh w -> umem w' = umem w ->
  mutexes w' !! m = mutexes w !! m ->
  SMutexLock m ∉ spins w' -> (SMutexHeld m ∈ spins w' <-> SMutexHeld m ∈ spins w) ->
  inv Q hold γ w'.
Proof.
  intros [[] Ht] [Hp Hg] Hm Hq Hu Hx Hl Hh. split.
  - split; rewrite ?Hq, ?Hu, ?Hx, ?Hh; done.
  - intros t. eapply tinv_frame; [apply Ht | done | done | done | done | by rewrite Hm].
Qed.

(** A step of [t] that concerns no other thread. *)
Lemma inv_step Q hold γ w t g' Q' hold' w' :
  inv Q hold γ w -> t ∈ T -> framed w w' ->
  (forall t', t' <> t -> (forall h, t' ∈ Q' h <-> t' ∈ Q h) /\
     (hold' = By t' <-> hold = By t') /\ mail w' !! t' = mail w !! t') ->
  (forall h, t ∈ Q' h -> h = HMutex m) ->
  (exists n, mail w' !! t = Some n /\ place g' (t ∈ Q' (HMutex m)) (hold' = By t) n) ->
  (timed = false -> g' <> TimedOut /\ g' <> Draining) ->
  ginv Q' hold' (held_by hold' (<[t := g']> γ)) w' ->
  inv Q' hold' (<[t := g']> γ) w'.
Proof.
  intros [_ Ht] HT [Hp Hg] Hoth Hon Hpl Hto Hgi.
  apply (inv_move Q' hold' γ w'); [| |done].
  - intros t' Hne. destruct (Hoth t' Hne) as (HQ & Hh & Hm).
    by eapply tinv_frame; [apply Ht|..].
  - split; [done | | done | done | done]. intros _.
    eapply runs_same; [done | done |]. by apply (Ht t).
Qed.

Lemma inv_place Q hold γ w t :
  inv Q hold γ w -> t ∈ T ->
  exists n, mail w !! t = Some n /\ place (γ t) (t ∈ Q (HMutex m)) (hold = By t) n.
Proof. intros [_ H] HT. by apply (H t). Qed.

(** The mutex belongs to a thread that is not in its critical section, or to
    nobody: the memory satisfies [R]. *)
Lemma inv_quiet Q hold γ w :
  inv Q hold γ w -> (forall t n u, hold = By t -> γ t <> Owns n u) -> R (umem w).
Proof.
  intros [Hg _] Hno. pose proof (g_mem _ _ _ _ Hg) as Hm.
  destruct hold as [|t|]; cbn in Hm; try done.
  specialize (Hno t). destruct (γ t); try done. by edestruct Hno.
Qed.

(** [t] takes the mutex, which is free, was handed to it, or belongs to it
    without its knowing. *)
Lemma inv_own Q hold γ w t n w' :
  inv Q hold γ w -> t ∈ T ->
  (hold = Free /\ γ t = Idle \/ hold = By t /\ γ t = Woken \/ hold = Lost t /\ γ t = Idle) ->
  count_ok n -> framed w w' -> mail w' = mail w -> qh w' = qh w -> umem w' = umem w ->
  mutexes w' !! m = Some (mkMutex attr (if tracked mkind then Some t else None) n) ->
  SMutexLock m ∉ spins w' -> SMutexHeld m ∈ spins w' ->
  inv Q (By t) (<[t := Owns n (umem w)]> γ) w' /\ R (umem w).
Proof.
  intros H HT Hcase Hn Hfr Hm Hq Hu Hx Hl Hh.
  split.
  - destruct (inv_place _ _ _ _ _ H HT) as (k & Hk & Hpl).
    eapply inv_step; [done..| | | | |].
    + intros t' Hne. split; [done|]. rewrite Hm. split; [|done].
      destruct Hcase as [[-> _] | [[-> _] | [-> _]]]; split; congruence.
    + destruct H as [_ H]. by apply (H t).
    + exists k. rewrite Hm. split; [done|].
      destruct Hcase as [[-> Hγ] | [[-> Hγ] | [-> Hγ]]]; rewrite Hγ in Hpl; cbn in *; tauto.
    + done.
    + destruct H as [Hg _]. destruct Hg. cbn. rewrite fn_lookup_insert.
      split; rewrite ?Hq; done.
  - eapply inv_quiet; [done|]. intros t' n' u ->.
    destruct Hcase as [[]|[[]|[]]]; congruence.
Qed.

(** The owner changes the lock count and the memory. *)
Lemma inv_owner_step Q hold γ w t n u n' u' w' :
  inv Q hold γ w -> γ t = Owns n u -> count_ok n' -> umem w' = u' ->
  framed w w' -> mail w' = mail w -> qh w' = qh w ->
  mutexes w' !! m = Some (mkMutex attr (if tracked mkind then Some t else None) n') ->
  SMutexLock m ∉ spins w' -> (SMutexHeld m ∈ spins w' <-> SMutexHeld m ∈ spins w) ->
  inv Q (By t) (<[t := Owns n' u']> γ) w'.
Proof.
  intros H Hγ Hn <- Hfr Hm Hq Hx Hl Hh.
  destruct (tinv_owner Q hold w t (γ t)) as [HT ->]; [by apply H | rewrite Hγ; eauto|].
  destruct (inv_place _ _ _ _ _ H HT) as (k & Hk & Hpl). rewrite Hγ in Hpl.
  eapply inv_step; [done..| | | | |].
  - intros t' Hne. by rewrite Hm.
  - destruct H as [_ H]. by apply (H t).
  - exists k. by rewrite Hm.
  - done.
  - destruct H as [Hg _]. destruct Hg. cbn. rewrite fn_lookup_insert.
    split; rewrite ?Hq, ?Hh; done.
Qed.

(** The owner of a mutex nobody waits for frees it. *)
Lemma inv_release Q hold γ w t n u w' :
  inv Q hold γ w -> γ t = Owns n u -> Q (HMutex m) = [] -> R (umem w) ->
  framed w w' -> mail w' = mail w -> qh w' = qh w -> umem w' = umem w ->
  mutexes w' !! m = Some (mkMutex attr None 0) ->
  SMutexLock m ∉ spins w' -> SMutexHeld m ∉ spins w' ->
  inv Q Free (<[t := Idle]> γ) w'.
Proof.
  intros H Hγ HQ HR Hfr Hm Hq Hu Hx Hl Hh.
  destruct (tinv_owner Q hold w t (γ t)) as [HT ->]; [by apply H | rewrite Hγ; eauto|].
  destruct (inv_place _ _ _ _ _ H HT) as (k & Hk & Hpl). rewrite Hγ in Hpl.
  eapply inv_step; [done..| | | | |].
  - intros t' Hne. rewrite Hm. split; [done|]. split; [split; congruence | done].
  - destruct H as [_ H]. by apply (H t).
  - exists k. rewrite Hm. split; [done|]. cbn in *. naive_solver.
  - done.
  - destruct H as [Hg _]. destruct Hg. cbn.
    split; rewrite ?Hq, ?Hu; try done. by destruct (tracked mkind).
Qed.

(** A phase change of [t] alone: its wait expires, or it finds that it was
    handed the mutex meanwhile. *)
Lemma inv_relabel Q hold γ w t g' w' :
  inv Q hold γ w -> t ∈ T ->
  (forall n u, g' <> Owns n u) -> (forall n u, γ t <> Owns n u) ->
  (forall n, mail w !! t = Some n -> place (γ t) (t ∈ Q (HMutex m)) (hold = By t) n ->
     place g' (t ∈ Q (HMutex m)) (hold = By t) n) ->
  (timed = false -> g' <> TimedOut /\ g' <> Draining) ->
  framed w w' -> mail w' = mail w -> qh w' = qh w -> umem w' = umem w ->
  mutexes w' !! m = mutexes w !! m ->
  SMutexLock m ∉ spins w' -> (SMutexHeld m ∈ spins w' <-> SMutexHeld m ∈ spins w) ->
  inv Q hold (<[t := g']> γ) w'.
Proof.
  intros H HT Hg' Hγ Hpl Hto Hfr Hm Hq Hu Hx Hl Hh.
  destruct (inv_place _ _ _ _ _ H HT) as (k & Hk & Hp).
  eapply inv_step; [done..| | | | |].
  - intros t' Hne. by rewrite Hm.
  - destruct H as [_ H]. by apply (H t).
  - exists k. rewrite Hm. auto.
  - done.
  - destruct H as [Hg _].
    replace (held_by hold (<[t := g']> γ)) with (held_by hold γ).
    + destruct Hg. by split; rewrite ?Hq, ?Hu, ?Hx, ?Hh.
    + destruct hold as [|t'|]; cbn; [done| |done].
      destruct (decide (t = t')) as [<- | Hne].
      * rewrite fn_lookup_insert. destruct (γ t), g'; naive_solver.
      * by rewrite fn_lookup_insert_ne.
Qed.

(** ** Messages *)

(** A message to a thread that waits for one: it was handed the mutex, which
    a thread whose wait expired does not take. *)
Lemma inv_receive Q hold γ w t n :
  inv Q hold γ w -> mail w !! t = Some (Datatypes.S n) ->
  (γ t = Blocked -> inv Q hold (<[t := Woken]> γ) (set_mail (<[t := n]> (mail w)) w)) /\
  (γ t = Draining -> inv Q (Lost t) (<[t := Idle]> γ) (set_mail (<[t := n]> (mail w)) w)).
Proof.
  intros H Hm.
  assert (γ t = Blocked \/ γ t = Draining -> t ∈ T /\ t ∉ Q (HMutex m) /\ hold = By t /\ n = 0)
    as Hcase.
  { intros Hγ. destruct (decide (t ∈ T)) as [HT | HT].
    - destruct (inv_place _ _ _ _ _ H HT) as (k & Hk & Hpl).
      rewrite Hk in Hm. injection Hm as ->.
      destruct Hγ as [Hγ | Hγ]; rewrite Hγ in Hpl; cbn in Hpl; naive_solver.
    - destruct (proj2 H t) as [Ho _ _ _ _]. destruct (Ho HT) as (Hi & _).
      rewrite Hi in Hγ. naive_solver. }
  split; intros Hγ; (destruct Hcase as (HT & HQ & -> & ->); [auto|]).
  - eapply inv_step; [done..| | | | |].
    + intros t' Hne. cbn. by rewrite lookup_insert_ne by done.
    + by apply (proj2 H t).
    + exists 0. cbn. rewrite lookup_insert_eq. tauto.
    + done.
    + destruct H as [[] _]. cbn in *. rewrite fn_lookup_insert. rewrite Hγ in *. by split.
  - assert (timed = true) as Hti.
    { destruct timed eqn:Ht; [done|]. exfalso.
      destruct (proj2 H t) as [_ _ _ _ Hti]. by destruct (Hti Ht). }
    eapply inv_step; [done..| | | | |].
    + intros t' Hne. cbn. rewrite lookup_insert_ne by done. repeat split; congruence.
    + by apply (proj2 H t).
    + exists 0. cbn. rewrite lookup_insert_eq. split; [done|]. naive_solver.
    + done.
    + destruct H as [[] _]. cbn in *. rewrite Hγ in *. split; try done.
      * rewrite g_held0. by split.
      * by rewrite Hti.
Qed.

(** ** The queue *)

Lemma inv_not_queued Q hold γ w t :
  inv Q hold γ w -> t ∈ T -> t ∉ Q (HMutex m) -> ~ queued Q t.
Proof.
  intros H HT Hn [h Hh]. apply Hn. assert (h = HMutex m) as <-; [|done].
  by apply (proj2 H t).
Qed.

(** An idle thread joins the queue of the mutex, which is not free. *)
Lemma inv_enqueue Q hold γ w t :
  inv Q hold γ w -> t ∈ T -> γ t = Idle -> hold <> Free ->
  exists q', __pthread_enqueue (HMutex m) t (qh w) = Some q' /\
    forall w', qh w' = q' -> framed w w' -> mail w' = mail w -> umem w' = umem w ->
      mutexes w' !! m = mutexes w !! m ->
      SMutexLock m ∉ spins w' -> SMutexHeld m ∈ spins w' ->
      inv (<[HMutex m := t :: Q (HMutex m)]> Q) hold (<[t := Blocked]> γ) w'.
Proof.
  intros H HT Hγ Hhold.
  destruct (inv_place _ _ _ _ _ H HT) as (k & Hk & Hpl). rewrite Hγ in Hpl. cbn in Hpl.
  destruct (enqueue_refines (qh w) Q (HMutex m) t) as (q' & Hq' & Hrep).
  { apply H. }
  { eapply inv_not_queued; [done | done | tauto]. }
  exists q'. split; [done|]. intros w' Hq Hfr Hm Hu Hx Hl Hh.
  eapply inv_step; [done..| | | | |].
  - intros t' Hne. rewrite Hm. split; [|done]. intros h.
    destruct (decide (HMutex m = h)) as [<- | Hneh].
    + rewrite fn_lookup_insert. set_solver.
    + by rewrite fn_lookup_insert_ne by done.
  - intros h. destruct (decide (HMutex m = h)) as [<- | Hneh]; [done|].
    rewrite fn_lookup_insert_ne by done. by apply (proj2 H t).
  - exists k. rewrite Hm, fn_lookup_insert. split; [done|]. left. set_solver.
  - done.
  - rewrite held_by_other by tauto. destruct H as [[] _]. split; rewrite ?Hq, ?Hx, ?Hu; try done.
Qed.

(** A thread whose wait expired leaves the queue. *)
Lemma inv_dequeue Q hold γ w t :
  inv Q hold γ w -> γ t = TimedOut -> t ∈ Q (HMutex m) ->
  exists q', __pthread_dequeue t (qh w) = Some q' /\
    forall w', qh w' = q' -> framed w w' -> mail w' = mail w -> umem w' = umem w ->
      mutexes w' !! m = mutexes w !! m ->
      SMutexLock m ∉ spins w' -> (SMutexHeld m ∈ spins w' <-> SMutexHeld m ∈ spins w) ->
      inv (qremove t Q) hold (<[t := Idle]> γ) w'.
Proof.
  intros H Hγ Hin.
  assert (t ∈ T) as HT.
  { destruct (decide (t ∈ T)) as [|HT]; [done|].
    destruct (t_out _ _ _ _ _ (proj2 H t) HT) as (Hi & _). congruence. }
  destruct (inv_place _ _ _ _ _ H HT) as (k & Hk & Hpl). rewrite Hγ in Hpl.
  destruct Hpl as [(_ & Hno & ->) | [? _]]; [|done].
  destruct (dequeue_refines (qh w) Q t) as (q' & Hq' & Hrep); [apply H | by exists (HMutex m)|].
  exists q'. split; [done|]. intros w' Hq Hfr Hm Hu Hx Hl Hh.
  eapply inv_step; [done..| | | | |].
  - intros t' Hne. rewrite Hm. split; [|done]. intros h. rewrite elem_of_qremove. tauto.
  - intros h. rewrite elem_of_qremove. tauto.
  - exists 0. rewrite Hm, elem_of_qremove. cbn. tauto.
  - done.
  - rewrite held_by_other by done.
    destruct H as [[] _]. split; rewrite ?Hq, ?Hx, ?Hu, ?Hh; try done.
    intros Hne. apply g_full0. intros Hnil. apply Hne. unfold qremove. by rewrite Hnil.
Qed.

(** The owner hands the mutex over to the first thread of the queue and posts
    the message that says so. *)
Lemma inv_handoff Q hold γ w t n u v l :
  inv Q hold γ w -> γ t = Owns n u -> Q (HMutex m) = v :: l -> R (umem w) ->
  exists q', __pthread_dequeue v (qh w) = Some q' /\ mail w !! v = Some 0 /\
    forall w', qh w' = q' -> framed w w' -> mail w' = <[v := 1]> (mail w) ->
      umem w' = umem w ->
      mutexes w' !! m = Some (mkMutex attr (if tracked mkind then Some v else None) 0) ->
      SMutexLock m ∉ spins w' -> SMutexHeld m ∈ spins w' ->
      inv (qremove v Q) (By v) (<[t := Idle]> γ) w'.
Proof.
  intros H Hγ HQ HR.
  destruct (tinv_owner Q hold w t (γ t)) as [HT ->]; [by apply H | rewrite Hγ; eauto|].
  assert (v ∈ Q (HMutex m)) as Hv by (rewrite HQ; set_solver).
  assert (v ∈ T) as HTv.
  { destruct (decide (v ∈ T)) as [|HTv]; [done|].
    by destruct (t_out _ _ _ _ _ (proj2 H v) HTv) as (_ & ? & _). }
  destruct (inv_place _ _ _ _ _ H HT) as (k & Hk & Hpl). rewrite Hγ in Hpl. cbn in Hpl.
  destruct (inv_place _ _ _ _ _ H HTv) as (kv & Hkv & Hplv).
  assert (v <> t) as Hvt by naive_solver.
  assert ((γ v = Blocked \/ γ v = TimedOut) /\ kv = 0) as [Hγv ->].
  { destruct (γ v); cbn in Hplv; naive_solver. }
  destruct (dequeue_refines (qh w) Q v) as (q' & Hq' & Hrep); [apply H | by exists (HMutex m)|].
  exists q'. split; [done|]. split; [done|]. intros w' Hq [Hp Hg] Hm Hu Hx Hl Hh.
  apply inv_move.
  - intros t' Hne. destruct (decide (t' = v)) as [-> | Hnv].
    + destruct (proj2 H v) as [_ Hr Hon _ Hti]. split; [done| | | |done].
      * intros _. eapply runs_same; eauto.
      * intros _ h. rewrite elem_of_qremove. tauto.
      * intros _. exists 1. rewrite Hm, lookup_insert_eq, elem_of_qremove.
        split; [done|]. destruct Hγv as [-> | ->]; cbn; tauto.
    + eapply tinv_frame; [apply (proj2 H t')| | |done|done|].
      * intros h. rewrite elem_of_qremove. tauto.
      * split; congruence.
      * by rewrite Hm, lookup_insert_ne.
  - destruct (proj2 H t) as [_ Hr Hon _ Hti]. split; [done| | | |done].
    + intros _. eapply runs_same; eauto.
    + intros _ h. rewrite elem_of_qremove. naive_solver.
    + intros _. exists k. rewrite Hm, lookup_insert_ne, elem_of_qremove by done.
      split; [done|]. cbn. naive_solver.
  - assert (held_by (By v) (<[t := Idle]> γ) = None) as ->.
    { cbn. rewrite fn_lookup_insert_ne by done. by destruct Hγv as [-> | ->]. }
    destruct H as [[] _]. split; rewrite ?Hq, ?Hu; try done.
Qed.
End MutexInv.
