(* ===== verification/MutexSpec.v ===== *)
(** * Mutual exclusion over every interleaving: the operations *)
From Stdlib Require Import ZArith Lia.
From S2P Require Import Prelude Queue World Machine Sched Mach Attr Mutex MutexInv.

(** ** The pieces of the operations that touch the owner and the count *)

Lemma set_mutexes_same w : w = set_mutexes (mutexes w) w.
Proof. by destruct w. Qed.

Definition first_of (k : kind) : Z := match k with KRecursive => 1 | _ => 0 end.

Lemma acquired_spec m k attr me t w :
  k <> KBad -> runs me t w -> mutexes w !! m = Some (mkMutex attr None 0) ->
  exists x, acquired m k me w = Done tt (set_mutexes x w) /\
    x !! m = Some (mkMutex attr (if tracked k then Some t else None) (first_of k)).
Proof.
  intros Hk Hr Hm. unfold acquired, set_owner, set_locks, get_mutex. destruct k; [| | |done]; cbn.
  - exists (mutexes w). by rewrite <- set_mutexes_same.
  - rewrite (pthread_self_runs _ _ _ Hr). cbn. rewrite Hm. cbn.
    eexists. split; [done|]. by rewrite lookup_insert_eq.
  - rewrite Hm. cbn. rewrite (pthread_self_runs me t); [|exact Hr]. cbn.
    rewrite lookup_insert_eq. cbn. eexists. split; [done|]. by rewrite lookup_insert_eq.
Qed.

Lemma held_already_spec m k attr o n me t w :
  k <> KBad -> mutexes w !! m = Some (mkMutex attr o n) ->
  held_already m k t me w =
    if tracked k && bool_decide (o = Some t) then
      if recursive k then
        Done (Some OK) (set_spins (spins w ∖ {[SMutexLock m]})
          (set_mutexes (<[m := mkMutex attr o (u32 (n + 1))]> (mutexes w)) w))
      else Done (Some EDEADLK) (set_spins (spins w ∖ {[SMutexLock m]}) w)
    else Done None w.
Proof.
  intros Hk Hm. unfold held_already, set_locks, get_mutex. cbn. rewrite Hm. cbn.
  destruct k; [done| | |done]; case_bool_decide; subst; cbn;
    rewrite ?decide_True, ?decide_False by done; cbn; rewrite ?Hm; done.
Qed.

Lemma handed_over_spec m k attr me t w :
  k <> KBad ->
  mutexes w !! m = Some (mkMutex attr (if tracked k then Some t else None) 0) ->
  exists x, handed_over m k t me w = Done tt (set_mutexes x w) /\
    x !! m = Some (mkMutex attr (if tracked k then Some t else None) (first_of k)).
Proof.
  intros Hk Hm. unfold handed_over, set_owner, set_locks, get_mutex. cbn. rewrite Hm. cbn.
  destruct k; [| | |done]; cbn.
  - exists (mutexes w). by rewrite <- set_mutexes_same.
  - rewrite bool_decide_eq_true_2 by done. cbn. rewrite ?Hm. cbn.
    eexists. split; [done|]. by rewrite lookup_insert_eq.
  - rewrite bool_decide_eq_true_2 by done. cbn. rewrite ?Hm. cbn. rewrite lookup_insert_eq. cbn.
    eexists. split; [done|]. by rewrite lookup_insert_eq.
Qed.

Lemma disown_spec m k attr o n me t w :
  k <> KBad -> runs me t w -> mutexes w !! m = Some (mkMutex attr o n) ->
  disown m k me w =
    if tracked k then
      if decide (o = Some t) then
        if recursive k then
          if (0 <? u32 (n - 1))%Z then
            Done (Some OK) (set_spins (spins w ∖ {[SMutexLock m]})
              (set_mutexes (<[m := mkMutex attr o (u32 (n - 1))]> (mutexes w)) w))
          else Done None (set_mutexes (<[m := mkMutex attr None (u32 (n - 1))]> (mutexes w)) w)
        else Done None (set_mutexes (<[m := mkMutex attr None n]> (mutexes w)) w)
      else Done (Some EPERM) (set_spins (spins w ∖ {[SMutexLock m]}) w)
    else Done None w.
Proof.
  intros Hk Hr Hm. unfold disown, set_locks, set_owner, get_mutex.
  destruct k; [done| | |done]; cbn; rewrite (pthread_self_runs _ _ _ Hr); cbn; rewrite Hm; cbn;
    destruct (decide (o = Some t)) as [-> | Ho];
    rewrite ?(decide_False (P := Some t <> Some t)), ?(decide_True (P := o <> Some t)) by tauto;
    cbn; try done; rewrite Hm; cbn; [done|].
  destruct (0 <? u32 (n - 1))%Z; cbn; [done|].
  rewrite lookup_insert_eq. cbn. by rewrite insert_insert_eq.
Qed.

Lemma try_busy_spec m a attr o n me t w :
  kind_of a <> KBad -> runs me t w -> mutexes w !! m = Some (mkMutex attr o n) ->
  try_busy m a me w =
    if recursive (kind_of a) && bool_decide (o = Some t)
    then Done OK (set_mutexes (<[m := mkMutex attr o (u32 (n + 1))]> (mutexes w)) w)
    else Done EBUSY w.
Proof.
  intros Hk Hr Hm. unfold try_busy, set_locks, get_mutex. destruct a as [a|]; cbn.
  - rewrite (pthread_self_runs _ _ _ Hr). cbn. rewrite Hm. cbn. cbn in Hk.
    destruct (kind_of_type _); try done; cbn.
    case_bool_decide; rewrite ?decide_True, ?decide_False by done; cbn; [|done]. by rewrite Hm.
  - done.
Qed.

Section MutexSpec.
Context (m : mutex_id) (attr : mutexattr_ptr) (T : gset nat) (ctx : nat -> kctx)
        (R : gmap nat Z -> Prop) (timed : bool).
Context (Hkind : mkind attr <> KBad).

Abbreviation inv := (inv m attr T ctx R timed).
Abbreviation I := (I m attr T ctx R timed).
Abbreviation S := (S timed).
Abbreviation wp := (wp I S E).
Abbreviation triple := (triple I S E).

Abbreviation at_phase := (at_phase I).

Definition first : Z := first_of (mkind attr).

Lemma count_ok_first : count_ok attr first.
Proof. unfold count_ok, first, first_of. destruct (mkind attr); lia. Qed.

Lemma owner_holds Q hold γ w t n u :
  inv Q hold γ w -> γ t = Owns n u -> t ∈ T /\ hold = By t.
Proof.
  intros H Hγ. eapply tinv_owner; [exact R | exact (proj2 H t) | rewrite Hγ; eauto].
Qed.

(** *** Waiting *)

Lemma expire t γ w : γ t = Blocked -> t ∈ T -> timed = true -> I γ w -> at_phase t TimedOut γ w.
Proof.
  intros Hγ HT Hti (Q & hold & H). exists Q, hold.
  eapply inv_relabel; try done.
  - by rewrite Hγ.
  - by rewrite Hγ.
  - by rewrite Hti.
  - by apply H.
Qed.

Definition block_post t (e : error_t) (γ : nat -> phase) (w : world) : Prop :=
  if decide (e = OK) then at_phase t Woken γ w
  else e = ETIMEDOUT /\ timed = true /\ at_phase t TimedOut γ w.

Lemma receive_spec t timeout :
  t ∈ T -> (timed = false -> timeout = None) ->
  triple t (at_phase t Blocked) (mach_msg_receive t timeout) (ctx t)
    (fun e γ w => match e with
       | KERN_SUCCESS => at_phase t Woken γ w
       | EMACH_RCV_TIMED_OUT => timeout <> None /\ timed = true /\ at_phase t TimedOut γ w
       | KERN_FAILURE => False
       end).
Proof.
  intros HT Hto γ w HI. eapply wp_susp; [by instantiate (1 := Blocked) | done |].
  intros γ' w' e w'' Hγ HI' Hr. apply wp_done.
  pose proof HI' as (Q & hold & H).
  inversion Hr as [ | |? ? n ? Hm|? ms ? Hm|? ? ? Hm]; subst; cbn.
  - exists Q, hold. by apply (inv_receive _ _ _ _ _ _ _ _ _ _ _ _ H Hm).
  - assert (timed = true) by (destruct timed; [done | by discriminate Hto]).
    split; [done|]. split; [done|]. by apply expire.
  - destruct (inv_place _ _ _ _ _ _ _ _ _ _ _ H HT) as (k & Hk & _). congruence.
Qed.

Lemma block_spec t abstime clk :
  t ∈ T -> (timed = false -> abstime = None) ->
  triple t (at_phase t Blocked)
    (match abstime with
     | Some ts => __pthread_timedblock t ts clk
     | None => __pthread_block t;; mret OK
     end) (ctx t) (block_post t).
Proof.
  intros HT Hto. destruct abstime as [ts|].
  - assert (timed = true) as Hti by (destruct timed; [done | by discriminate Hto]).
    intros γ w HI. unfold __pthread_timedblock. cbn. destruct (time_passed _ ts); cbn.
    + apply wp_done. unfold block_post. rewrite decide_False by done. split; [done|]. split; [done|].
      unfold Sched.at_phase. rewrite <- (fn_insert_insert γ t _ Blocked).
      apply expire; [by rewrite fn_lookup_insert | done..].
    + eapply wp_bind, wp_mono; [eapply (receive_spec t); [done | congruence | exact HI]|].
      cbn. intros e γ' w' He. unfold block_post. destruct e; cbn in *; [by apply wp_done | | done].
      apply wp_done. rewrite decide_False by done. tauto.
  - apply (triple_bind _ _ _ _ _ _ _ _ (fun _ => at_phase t Woken)).
    + eapply triple_bind; [by apply receive_spec|]. intros e γ' w' He.
      destruct e; cbn in *; [by apply wp_done | tauto | done].
    + intros [] γ w HI. apply wp_done. unfold block_post. by rewrite decide_True.
Qed.

(** The link of a thread tells whether it is in the queue of the mutex. *)
Lemma prevp_queued Q hold γ w t :
  inv Q hold γ w -> t ∈ T -> t ∈ Q (HMutex m) <-> is_Some (prevp (qh w) !! t).
Proof.
  intros H HT. rewrite <- (qrep_queued (qh w) Q t) by apply H. split.
  - intros Ht. by exists (HMutex m).
  - intros [h Hh]. assert (h = HMutex m) as <-; [by apply (proj2 H t) | done].
Qed.

Definition wait_post t (e : error_t) (γ : nat -> phase) (w : world) : Prop :=
  if decide (e = OK) then at_phase t Woken γ w
  else e = ETIMEDOUT /\ timed = true /\ at_phase t Idle γ w.

(** The wait for the message of a thread that was handed the mutex after its
    wait expired. *)
Lemma drain_spec t :
  t ∈ T -> triple t (at_phase t Draining) (__pthread_block t) (ctx t) (fun _ => at_phase t Idle).
Proof.
  intros HT γ w HI. unfold __pthread_block. cbn. eapply wp_susp; [by instantiate (1 := Draining) | done |].
  intros γ' w' e w'' Hγ (Q & hold & H) Hr.
  inversion Hr as [ | |? ? n ? Hm|? ? ? Hm|? ? ? Hm]; subst; cbn.
  - exists Q, (Lost t). by apply (inv_receive _ _ _ _ _ _ _ _ _ _ _ _ H Hm).
  - destruct (inv_place _ _ _ _ _ _ _ _ _ _ _ H HT) as (k & Hk & _). congruence.
Qed.

Lemma spin_cycle (l : spin_id) (s : gset spin_id) : l ∉ s -> ({[l]} ∪ s) ∖ {[l]} = s.
Proof. intros. set_solver. Qed.

Lemma wait_spec t abstime clk :
  t ∈ T -> (timed = false -> abstime = None) ->
  triple t (at_phase t Blocked) (wait_for_wakeup (SMutexLock m) t abstime clk) (ctx t)
    (wait_post t).
Proof.
  intros HT Hto. eapply triple_bind; [by apply block_spec|]. intros e γ w HB.
  unfold block_post in HB. case_decide as He.
  - subst e. cbn. eapply wp_spin_lock; [|exact HB|apply I_lock|]; [done|].
    intros γ1 w1 Hγ1 (Q & hold & H). cbn.
    assert (prevp (qh w1) !! t = None) as ->.
    { apply eq_None_not_Some. rewrite <- prevp_queued by done.
      destruct (inv_place _ _ _ _ _ _ _ _ _ _ _ H HT) as (k & _ & Hp). rewrite Hγ1 in Hp. apply Hp. }
    cbn. apply wp_done. unfold wait_post. rewrite decide_True by done.
    apply at_phase_same; [done|]. exists Q, hold.
    eapply inv_frame; [exact H | done.. | |]; cbn; set_solver.
  - destruct HB as (-> & Hti & HB). cbn.
    eapply wp_spin_lock; [|exact HB|apply I_lock|]; [done|].
    intros γ1 w1 Hγ1 (Q & hold & H). cbn.
    pose proof (g_lock _ _ _ _ _ _ _ _ (proj1 H)) as Hlock.
    destruct (prevp (qh w1) !! t) as [c|] eqn:Hprev; cbn.
    + assert (t ∈ Q (HMutex m)) as Hin by (eapply prevp_queued; eauto).
      destruct (inv_dequeue _ _ _ _ _ _ _ _ _ _ _ H Hγ1 Hin) as (q' & Hq' & Hk).
      erewrite dequeue_some by exact Hq'. cbn. apply wp_done.
      unfold wait_post. rewrite decide_False by done. split; [done|]. split; [done|].
      eexists _, hold. apply Hk; cbn; try done; set_solver.
    + assert (t ∉ Q (HMutex m)) as Hin.
      { rewrite (prevp_queued _ _ _ _ _ H) by done. rewrite Hprev. by intros []. }
      eapply wp_bind, wp_mono.
      * eapply (drain_spec t HT). unfold Sched.at_phase. exists Q, hold.
        eapply inv_relabel; [exact H | done | done | by rewrite Hγ1 | | by rewrite Hti
          | done | done | done | done | done | |]; [|cbn; set_solver..].
        intros n Hn. rewrite Hγ1. cbn. tauto.
      * intros ? γ2 w2 HI2. apply wp_done. unfold wait_post. by rewrite decide_False.
Qed.

(** *** Locking *)

(** The operations take the lock of the mutex first. *)
Lemma wp_mutex_start t g {B} (f : mutex -> error_t -> world -> res B) γ w P :
  at_phase t g γ w -> S t g RYield ->
  (forall o n γ1 w1 Q hold, γ1 t = g -> inv Q hold γ1 w1 ->
     wp t (f (mkMutex attr o n) OK (set_spins ({[SMutexLock m]} ∪ spins w1) w1)) γ1 P) ->
  wp t (bindr (get_mutex m (ctx t) w)
          (fun x w' => bindr (__pthread_spin_lock (SMutexLock m) (ctx t) w') (f x))) γ P.
Proof.
  intros HI HS Hk. pose proof HI as (Q0 & h0 & [Hg0 _]).
  unfold get_mutex. cbn. rewrite (g_mutex _ _ _ _ _ _ _ _ Hg0). cbn.
  eapply wp_spin_lock; [exact HS | exact HI | apply I_lock |].
  intros γ1 w1 Hγ1 (Q & hold & H). by eapply Hk.
Qed.

Lemma held_locked Q hold γ w :
  inv Q hold γ w ->
  bool_decide (SMutexHeld m ∈ {[SMutexLock m]} ∪ spins w) = negb (bool_decide (hold = Free)).
Proof.
  intros [Hg _]. pose proof (g_held _ _ _ _ _ _ _ _ Hg).
  destruct (decide (hold = Free)) as [-> | Hne].
  - rewrite (bool_decide_eq_true_2 (Free = Free)) by done. apply bool_decide_eq_false_2. set_solver.
  - rewrite (bool_decide_eq_false_2 (hold = Free)) by done. apply bool_decide_eq_true_2. set_solver.
Qed.

Definition lock_post t (r : error_t) (γ : nat -> phase) (w : world) : Prop :=
  if decide (r = OK) then at_phase t (Owns first (umem w)) γ w /\ R (umem w)
  else at_phase t Idle γ w /\ timed = true.

(** A mutex that nobody holds is taken under its lock. *)
Lemma take_free Q γ w t s :
  inv Q Free γ w -> γ t = Idle -> t ∈ T -> SMutexHeld m ∈ s ->
  wp t ((acquired m (mkind attr);; __pthread_spin_unlock (SMutexLock m);; mret OK) (ctx t)
          (set_spins s w)) γ
    (fun r γ' w' => r = OK /\ at_phase t (Owns first (umem w')) γ' w' /\ R (umem w')).
Proof.
  intros H Hγ HT Hs. cbn.
  destruct (acquired_spec m (mkind attr) attr (ctx t) t (set_spins s w)) as (x & Hx & Hxm).
  - done.
  - eapply runs_same; [done | done |]. by apply (proj2 H t).
  - pose proof (g_mutex _ _ _ _ _ _ _ _ (proj1 H)) as Hg. cbn in *. rewrite Hg.
    by destruct (tracked _).
  - rewrite Hx. cbn. apply wp_done. split; [done|].
    edestruct (inv_own m attr T ctx R timed Q Free γ w t first) as [Hi HR];
      [done | done | by left | apply count_ok_first | | | | | | | | split; [exists Q, (By t); exact Hi | exact HR]];
      cbn; try done; set_solver.
Qed.

Lemma wait_turn_spec Q hold γ w t abstime s :
  inv Q hold γ w -> hold <> Free -> γ t = Idle -> t ∈ T ->
  bad_abstime abstime = false -> (timed = false -> abstime = None) ->
  SMutexHeld m ∈ s ->
  wp t (wait_turn m (mkind attr) t abstime (ctx t) (set_spins s w)) γ (lock_post t).
Proof.
  intros H Hhold Hγ HT Hbad Hto Hs. unfold wait_turn, get_mutex. cbn.
  rewrite (g_mutex _ _ _ _ _ _ _ _ (proj1 H)). cbn.
  assert (forall me w', when (tracked (mkind attr)) (c_assert (bool_decide (is_Some
            (if tracked (mkind attr) then owner_of hold else None)))) me w' = Done tt w') as Hassert.
  { intros. destruct (tracked (mkind attr)); [|done]. by destruct hold. }
  rewrite Hassert, Hbad. cbn.
  destruct (inv_enqueue _ _ _ _ _ _ _ _ _ _ _ H HT Hγ Hhold) as (q' & Hq' & Hk).
  erewrite enqueue_some by exact Hq'. cbn.
  eapply wp_bind, wp_mono.
  - apply wait_spec; [done | done |]. eexists _, hold. apply Hk; [done.. | |]; cbn; set_solver.
  - intros e γ1 w1 He. unfold wait_post in He. case_decide as Heq.
    + subst e. rewrite decide_False by tauto. cbn. destruct He as (Q1 & hold1 & H1).
      destruct (inv_place _ _ _ _ _ _ _ _ _ _ _ H1 HT) as (k & _ & Hp).
      rewrite fn_lookup_insert in Hp. destruct Hp as (_ & -> & _).
      pose proof (g_mutex _ _ _ _ _ _ _ _ (proj1 H1)) as Hm. cbn in Hm.
      rewrite fn_lookup_insert in Hm.
      destruct (handed_over_spec m (mkind attr) attr (ctx t) t w1 Hkind Hm) as (x & Hx & Hxm).
      rewrite Hx. cbn. apply wp_done. unfold lock_post. rewrite decide_True by done.
      edestruct (inv_own m attr T ctx R timed Q1 (By t) (<[t := Woken]> γ1) w1 t first) as [Hi HR];
        [done | done | right; left; by rewrite fn_lookup_insert | apply count_ok_first | | | | | | | |
         rewrite fn_insert_insert in Hi; split; [exists Q1, (By t); exact Hi | exact HR]];
        cbn; try done; destruct H1 as [[] _]; [done | naive_solver].
    + destruct He as (-> & Hti & HI1). cbn. apply wp_done.
      unfold lock_post. by rewrite decide_False.
Qed.

(** A thread outside its critical section that is the recorded owner was
    handed the mutex when its wait expired. *)
Lemma owner_lost Q hold γ w t :
  inv Q hold γ w -> t ∈ T -> γ t = Idle -> owner_of hold = Some t ->
  hold = Lost t /\ timed = true.
Proof.
  intros H HT Hγ Ho. destruct (inv_place _ _ _ _ _ _ _ _ _ _ _ H HT) as (k & _ & Hp).
  rewrite Hγ in Hp. destruct hold as [|u|u]; cbn in *; [done | naive_solver |].
  injection Ho as ->. split; [done|]. destruct timed eqn:Hti; [done|].
  by destruct (g_timed _ _ _ _ _ _ _ _ (proj1 H) eq_refl t).
Qed.

Lemma timedlock_spec t abstime :
  t ∈ T -> bad_abstime abstime = false -> (timed = false -> abstime = None) ->
  triple t (at_phase t Idle) (__pthread_mutex_timedlock_internal m abstime) (ctx t) (lock_post t).
Proof.
  intros HT Hbad Hto γ w HI. unfold __pthread_mutex_timedlock_internal.
  apply wp_mutex_start with Idle; [exact HI | done |].
  intros o0 n0 γ1 w1 Q hold Hγ1 H. cbn [m_attr]. fold (mkind attr). cbn.
  rewrite (held_locked _ _ _ _ H). case_bool_decide as Hfree; cbn.
  - subst hold. rewrite decide_True by done.
    eapply wp_mono; [apply (take_free Q γ1 w1 t); [exact H | done | done | set_solver]|].
    intros r γ2 w2 (-> & HO). unfold lock_post. by rewrite decide_True.
  - rewrite decide_False by done.
    cbn. rewrite (pthread_self_runs (ctx t) t)
      by (eapply runs_same; [| |by apply (proj2 H t)]; done). cbn.
    erewrite held_already_spec by (first [done | apply H]).
    destruct (tracked (mkind attr) && _) eqn:Hb; cbn.
    + apply andb_true_iff in Hb as [Hb1 Hb2]. rewrite Hb1 in Hb2.
      apply bool_decide_eq_true in Hb2.
      destruct (owner_lost _ _ _ _ _ H HT Hγ1 Hb2) as [-> Hti].
      destruct (recursive (mkind attr)) eqn:Hrec; cbn; apply wp_done; unfold lock_post;
        rewrite ?decide_True, ?decide_False by done.
      * edestruct (inv_own m attr T ctx R timed Q (Lost t) γ1 w1 t first) as [Hi HR];
          [done | done | by right; right | apply count_ok_first | | | | | | | |
           split; [exists Q, (By t); exact Hi | exact HR]]; cbn; try done; [|set_solver..].
        rewrite lookup_insert_eq. unfold first. rewrite Hb1. by destruct (mkind attr).
      * split; [|done]. apply at_phase_same; [done|]. exists Q, (Lost t).
        eapply inv_frame; [exact H | done.. | |]; cbn; [set_solver|].
        rewrite (g_held _ _ _ _ _ _ _ _ (proj1 H)). set_solver.
    + apply (wait_turn_spec Q hold γ1 w1); [done.. |set_solver].
Qed.

Definition trylock_post t (r : error_t) (γ : nat -> phase) (w : world) : Prop :=
  if decide (r = OK) then at_phase t (Owns first (umem w)) γ w /\ R (umem w)
  else at_phase t Idle γ w /\ r = EBUSY.

Lemma runs_locked Q hold γ w t s : inv Q hold γ w -> t ∈ T -> runs (ctx t) t (set_spins s w).
Proof. intros H HT. eapply runs_same; [| |by apply (proj2 H t)]; done. Qed.

Lemma trylock_spec t :
  t ∈ T -> triple t (at_phase t Idle) (__pthread_mutex_trylock m) (ctx t) (trylock_post t).
Proof.
  intros HT γ w HI. unfold __pthread_mutex_trylock.
  apply wp_mutex_start with Idle; [exact HI | done |].
  intros o0 n0 γ1 w1 Q hold Hγ1 H. cbn [m_attr]. fold (mkind attr). cbn.
  rewrite (held_locked _ _ _ _ H). case_bool_decide as Hfree; cbn.
  - subst hold. rewrite decide_True by done.
    eapply wp_mono; [apply (take_free Q γ1 w1 t); [exact H | done | done | set_solver]|].
    intros r γ2 w2 (-> & HO). unfold trylock_post. by rewrite decide_True.
  - rewrite decide_False by done. cbn.
    pose proof (runs_locked _ _ _ _ _ ({[SMutexHeld m]} ∪ ({[SMutexLock m]} ∪ spins w1)) H HT) as Hr.
    rewrite set_spins_twice.
    rewrite (try_busy_spec m (resolve_attr attr) attr _ _ (ctx t) t _ Hkind Hr
               (g_mutex _ _ _ _ _ _ _ _ (proj1 H))).
    fold (mkind attr). destruct (recursive (mkind attr) && _) eqn:Hb; cbn; apply wp_done;
      unfold trylock_post; rewrite ?decide_True, ?decide_False by done.
    + apply andb_true_iff in Hb as [Hb1 Hb2%bool_decide_eq_true].
      assert (tracked (mkind attr) = true) as Htr by (by destruct (mkind attr)).
      rewrite Htr in Hb2. destruct (owner_lost _ _ _ _ _ H HT Hγ1 Hb2) as [-> Hti].
      edestruct (inv_own m attr T ctx R timed Q (Lost t) γ1 w1 t first) as [Hi HR];
        [done | done | by right; right | apply count_ok_first | | | | | | | |
         split; [exists Q, (By t); exact Hi | exact HR]]; cbn; try done; [|set_solver..].
      rewrite lookup_insert_eq. unfold first. rewrite Htr. by destruct (mkind attr).
    + split; [|done]. apply at_phase_same; [done|]. exists Q, hold.
      eapply inv_frame; [exact H | done.. | |]; cbn; [set_solver|].
      rewrite (g_held _ _ _ _ _ _ _ _ (proj1 H)). set_solver.
Qed.

(** A thread that holds the mutex locks it again: an error-checking mutex
    refuses, a recursive one counts. *)
Lemma relock_spec t n u :
  tracked (mkind attr) = true -> (n + 1 < 2 ^ 32)%Z ->
  triple t (at_phase t (Owns n u)) (__pthread_mutex_timedlock_internal m None) (ctx t)
    (fun r γ w => if recursive (mkind attr) then r = OK /\ at_phase t (Owns (n + 1) u) γ w
                  else r = EDEADLK /\ at_phase t (Owns n u) γ w).
Proof.
  intros Htr Hn γ w HI. unfold __pthread_mutex_timedlock_internal.
  apply wp_mutex_start with (Owns n u); [exact HI | done |].
  intros o0 n0 γ1 w1 Q hold Hγ1 H. cbn [m_attr]. fold (mkind attr). cbn.
  destruct (owner_holds _ _ _ _ _ _ _ H Hγ1) as [HT ->].
  rewrite (held_locked _ _ _ _ H), bool_decide_eq_false_2 by done. cbn.
  rewrite decide_False by done. cbn.
  rewrite (pthread_self_runs (ctx t) t) by apply (runs_locked _ _ _ _ _ _ H HT). cbn.
  pose proof (g_mutex _ _ _ _ _ _ _ _ (proj1 H)) as Hm.
  pose proof (g_mem _ _ _ _ _ _ _ _ (proj1 H)) as Hmem.
  cbn in Hm, Hmem. rewrite Hγ1 in Hm, Hmem. cbn in Hm, Hmem. destruct Hmem as [Hc Hu].
  erewrite held_already_spec by (first [done | exact Hm]).
  rewrite Htr, bool_decide_eq_true_2 by done. cbn.
  destruct (recursive (mkind attr)) eqn:Hrec; cbn; apply wp_done; (split; [done|]).
  - subst u. exists Q, (By t).
    eapply (inv_owner_step m attr T ctx R timed Q (By t) γ1 w1 t n (umem w1) (n + 1));
      [done | done | | done | done | done | done | | |]; cbn; [| |set_solver|].
    + unfold count_ok in *. destruct (mkind attr); try done. lia.
    + rewrite lookup_insert_eq, Htr, wrapu_small; [done|].
      unfold count_ok in Hc. destruct (mkind attr); try done. lia.
    + rewrite (g_held _ _ _ _ _ _ _ _ (proj1 H)). set_solver.
  - apply at_phase_same; [done|]. exists Q, (By t).
    eapply inv_frame; [exact H | done.. | |]; cbn; [set_solver|].
    rewrite (g_held _ _ _ _ _ _ _ _ (proj1 H)). set_solver.
Qed.

(** *** Unlocking *)

Definition unlock_post t n (r : error_t) (γ : nat -> phase) (w : world) : Prop :=
  r = OK /\ if recursive (mkind attr) && (1 <? n)%Z
            then at_phase t (Owns (n - 1) (umem w)) γ w else at_phase t Idle γ w.

(** The owner, who has given up the ownership in the memory of the mutex
    ([x]), frees the mutex or hands it over. *)
Lemma pass_on_spec Q γ w t n u x s :
  inv Q (By t) γ w -> γ t = Owns n u -> R (umem w) ->
  x !! m = Some (mkMutex attr None 0) ->
  SMutexHeld m ∈ s ->
  wp t (pass_on m (mkind attr) (ctx t) (set_mutexes x (set_spins s w))) γ
    (fun r γ' w' => r = OK /\ at_phase t Idle γ' w').
Proof.
  intros H Hγ HR Hx Hs. unfold pass_on. cbn.
  rewrite (qrep_head (qh w) Q) by apply H.
  destruct (Q (HMutex m)) as [|v l] eqn:HQ; cbn.
  - apply wp_done. split; [done|]. exists Q, Free.
    eapply inv_release; [exact H | exact Hγ | done | done | done | done | done | done | | |];
      cbn; [done | set_solver..].
  - edestruct inv_handoff as (q' & Hq' & Hmail & Hk); [exact H | exact Hγ | exact HQ | exact HR|].
    erewrite dequeue_some by exact Hq'. cbn.
    assert (exists x', when (tracked (mkind attr)) (set_owner m (Some v)) (ctx t)
              (set_qh q' (set_mutexes x (set_spins s w)))
            = Done tt (set_qh q' (set_mutexes x' (set_spins s w))) /\
            x' !! m = Some (mkMutex attr (if tracked (mkind attr) then Some v else None) 0))
      as (x' & -> & Hx').
    { unfold set_owner, get_mutex. destruct (tracked (mkind attr)); cbn; [|by exists x].
      rewrite Hx. cbn. exists (<[m := mkMutex attr (Some v) 0]> x).
      split; [done|]. by rewrite lookup_insert_eq. }
    cbn. erewrite wakeup_empty by exact Hmail. cbn. apply wp_done. split; [done|].
    eexists _, (By v). apply Hk; cbn; [done.. | set_solver | set_solver].
Qed.

Lemma unlock_spec t n :
  triple t (fun γ w => at_phase t (Owns n (umem w)) γ w /\
              (recursive (mkind attr) && (1 <? n)%Z = false -> R (umem w)))
    (__pthread_mutex_unlock m) (ctx t) (unlock_post t n).
Proof.
  intros γ w [HI HR]. unfold __pthread_mutex_unlock.
  apply wp_mutex_start with (Owns n (umem w)); [exact HI | done |].
  intros o0 n0 γ1 w1 Q hold Hγ1 H. cbn [m_attr]. fold (mkind attr). cbn.
  destruct (owner_holds _ _ _ _ _ _ _ H Hγ1) as [HT ->].
  pose proof (g_mutex _ _ _ _ _ _ _ _ (proj1 H)) as Hm.
  pose proof (g_mem _ _ _ _ _ _ _ _ (proj1 H)) as Hmem.
  cbn in Hm, Hmem. rewrite Hγ1 in Hm, Hmem. cbn in Hm, Hmem. destruct Hmem as [Hc Hu].
  rewrite <- Hu in HR. unfold count_ok in Hc.
  rewrite (disown_spec m (mkind attr) _ _ _ _ t _ Hkind (runs_locked _ _ _ _ _ _ H HT) Hm).
  assert (forall x, recursive (mkind attr) && (1 <? n)%Z = false ->
      x !! m = Some (mkMutex attr None 0) ->
      wp t (pass_on m (mkind attr) (ctx t)
              (set_mutexes x (set_spins ({[SMutexLock m]} ∪ spins w1) w1))) γ1 (unlock_post t n))
    as Hpass.
  { intros x Hlast Hx. eapply wp_mono; [eapply pass_on_spec; [exact H | exact Hγ1 | auto | done |]|].
    - pose proof (proj2 (g_held _ _ _ _ _ _ _ _ (proj1 H))). set_solver.
    - intros r γ2 w2 [-> HI2]. unfold unlock_post. by rewrite Hlast. }
  cbn. destruct (tracked (mkind attr)) eqn:Htr; [rewrite decide_True by done|].
  - destruct (recursive (mkind attr)) eqn:Hrec; cbn in *.
    + assert (1 <= n < 2 ^ 32)%Z as Hn by (by destruct (mkind attr)).
      rewrite wrapu_small by lia. replace (0 <? n - 1)%Z with (1 <? n)%Z by lia.
      destruct (1 <? n)%Z eqn:H1; cbn.
      * apply wp_done. unfold unlock_post. rewrite Hrec, H1. cbn. split; [done|].
        exists Q, (By t).
        eapply (inv_owner_step m attr T ctx R timed Q (By t) γ1 w1 t n _ (n - 1));
          [done | exact Hγ1 | | done | done | done | done | | |]; cbn; [| |set_solver|].
        -- unfold count_ok. destruct (mkind attr); try done. lia.
        -- by rewrite lookup_insert_eq, Htr.
        -- pose proof (g_held _ _ _ _ _ _ _ _ (proj1 H)). set_solver.
      * apply Hpass; [done|]. cbn. rewrite lookup_insert_eq.
        assert (n = 1%Z) as -> by lia. done.
    + apply Hpass; [done|]. cbn. rewrite lookup_insert_eq.
      by destruct (mkind attr); simplify_eq.
  - assert (mkind attr = KNormal) as Hk by (by destruct (mkind attr)).
    rewrite (set_mutexes_same (set_spins _ w1)). cbn. apply Hpass.
    + by rewrite Hk.
    + rewrite Hk in Hc. by subst n.
Qed.

(** A thread that does not hold an owner-tracking mutex cannot unlock it. *)
Lemma unlock_other_spec t :
  t ∈ T -> timed = false -> tracked (mkind attr) = true ->
  triple t (at_phase t Idle) (__pthread_mutex_unlock m) (ctx t)
    (fun r γ w => r = EPERM /\ at_phase t Idle γ w).
Proof.
  intros HT Hti Htr γ w HI. unfold __pthread_mutex_unlock.
  apply wp_mutex_start with Idle; [exact HI | done |].
  intros o0 n0 γ1 w1 Q hold Hγ1 H. cbn [m_attr]. fold (mkind attr). cbn.
  rewrite (disown_spec m (mkind attr) _ _ _ _ t _ Hkind (runs_locked _ _ _ _ _ _ H HT)
             (g_mutex _ _ _ _ _ _ _ _ (proj1 H))).
  rewrite Htr. rewrite decide_False.
  - cbn. apply wp_done. split; [done|]. apply at_phase_same; [done|]. exists Q, hold.
    eapply inv_frame; [exact H | done.. | |]; cbn; set_solver.
  - intros Ho. destruct (owner_lost _ _ _ _ _ H HT Hγ1 Ho) as [_ ?]. congruence.
Qed.
End MutexSpec.
