(* ===== verification/MutexClient.v ===== *)
(** * Pools of threads that share a mutex

    What the specifications of MutexSpec.v say about programs: mutual exclusion
    over every interleaving of any number of client threads, freedom from
    deadlock when no operation is timed, and the deadlock that a timed one can
    cause. *)
From Stdlib Require Import ZArith Lia.
From stdpp Require Import relations.
From S2P Require Import Prelude Queue World Machine Sched Mach Demo Attr Mutex MutexInv MutexSpec.

(** ** Client programs *)

(** The ways a client tries to enter its critical section. *)
Inductive attempt := ByLock | ByTrylock | ByTimedlock (abstime : timespec).

Definition try_enter (m : mutex_id) (a : attempt) : M error_t :=
  match a with
  | ByLock => __pthread_mutex_lock m
  | ByTrylock => __pthread_mutex_trylock m
  | ByTimedlock ts => pthread_mutex_timedlock m (Some ts)
  end.

(** The critical section fails when another thread is in its own: cell 0 of the
    application memory is one while a thread is inside, and the section gives
    the processor away. *)
Definition critical : M unit :=
  inside ← gets (fun w => umem w !! 0);
  c_assert (bool_decide (inside = Some 0%Z));;
  modify (fun w => set_umem (<[0 := 1%Z]> (umem w)) w);;
  yield;;
  modify (fun w => set_umem (<[0 := 0%Z]> (umem w)) w).

Fixpoint client (m : mutex_id) (attempts : list attempt) : M unit :=
  match attempts with
  | [] => mret tt
  | a :: attempts =>
      err ← try_enter m a;
      when (bool_decide (err = OK)) (critical;; __pthread_mutex_unlock m;; mret tt);;
      client m attempts
  end.

Definition outside (u : gmap nat Z) : Prop := u !! 0 = Some 0%Z.

(** The mutex has been initialised, nobody uses it, and the threads of [T] run. *)
Definition fresh (m : mutex_id) (attr : mutexattr_ptr) (T : gset nat) (ctx : nat -> kctx)
    (w : world) : Prop :=
  (forall t, t ∈ T -> runs (ctx t) t w /\ mail w !! t = Some 0) /\
  mutexes w !! m = Some (mkMutex attr None 0) /\ qh w = qheap_empty /\
  SMutexLock m ∉ spins w /\ SMutexHeld m ∉ spins w.

Definition valid_attempt (timed : bool) (a : attempt) : Prop :=
  match a with
  | ByTimedlock ts => timed = true /\ bad_timespec ts = false
  | _ => True
  end.

(** Every thread of the pool is a client about to start. *)
Definition client_pool (m : mutex_id) (T : gset nat) (ctx : nat -> kctx) (timed : bool)
    (p : gmap nat thread_state) : Prop :=
  forall t s, p !! t = Some s -> t ∈ T /\
    exists l, Forall (valid_attempt timed) l /\ s = spawn (ctx t) (client m l).

Section Clients.
Context (m : mutex_id) (attr : mutexattr_ptr) (T : gset nat) (ctx : nat -> kctx)
        (timed : bool).
Context (Hkind : mkind attr <> KBad).

Abbreviation I := (I m attr T ctx outside timed).
Abbreviation S := (S timed).
Abbreviation triple := (triple I S E).
Abbreviation at_phase := (at_phase I).

Lemma fresh_inv w : fresh m attr T ctx w -> outside (umem w) -> I (fun _ => Idle) w.
Proof.
  intros (Ht & Hm & Hq & Hl & Hh) Hu. exists (fun _ => []), Free. split.
  - split; cbn; [| rewrite Hq; apply qrep_empty | done | | done | done | done].
    + rewrite Hm. by destruct (tracked _).
    + split; [done | by intros []].
  - intros t. split; try done.
    + intros _. set_solver.
    + intros HT. by apply Ht.
    + intros HT h Hin. set_solver.
    + intros HT. exists 0. split; [by apply Ht|]. cbn. set_solver.
Qed.

Lemma try_enter_spec t a :
  t ∈ T -> valid_attempt timed a ->
  triple t (at_phase t Idle) (try_enter m a) (ctx t)
    (fun r γ w => if decide (r = OK)
       then at_phase t (Owns (first attr) (umem w)) γ w /\ outside (umem w)
       else at_phase t Idle γ w).
Proof.
  intros HT Ha. destruct a as [| |ts]; cbn.
  - eapply triple_weaken; [by apply timedlock_spec | done |].
    intros r γ w. unfold lock_post. case_decide; [done | tauto].
  - eapply triple_weaken; [by apply trylock_spec | done |].
    intros r γ w. unfold trylock_post. case_decide; [done | tauto].
  - destruct Ha as [Hti Hts].
    eapply triple_weaken; [apply timedlock_spec; [done | done | done | congruence] | done |].
    intros r γ w. unfold lock_post. case_decide; [done | tauto].
Qed.

(** The owner writes to the application memory. *)
Lemma owner_write t n u γ w :
  at_phase t (Owns n (umem w)) γ w -> at_phase t (Owns n u) γ (set_umem u w).
Proof.
  intros (Q & hold & H). unfold Sched.at_phase.
  rewrite <- (fn_insert_insert γ t _ (Owns n (umem w))).
  assert (<[t := Owns n (umem w)]> γ t = Owns n (umem w)) as Hγ by (by rewrite fn_lookup_insert).
  destruct (owner_holds _ _ _ _ _ _ _ _ _ _ _ _ _ H Hγ) as [HT ->].
  destruct (proj1 H) as [Hm _ Hl _ _ Hmem _]. cbn in Hm, Hmem. rewrite fn_lookup_insert in Hm, Hmem.
  exists Q, (By t). eapply inv_owner_step; [exact H | exact Hγ | | done | done | done | done | exact Hm | done | done].
  apply Hmem.
Qed.

Lemma critical_spec t n :
  triple t (fun γ w => at_phase t (Owns n (umem w)) γ w /\ outside (umem w)) critical (ctx t)
    (fun _ γ w => at_phase t (Owns n (umem w)) γ w /\ outside (umem w)).
Proof.
  intros γ w [HI Ho]. unfold critical. cbn. rewrite bool_decide_eq_true_2 by done. cbn.
  set (u := <[0 := 1%Z]> (umem w)).
  eapply wp_susp; [by instantiate (1 := Owns n u) | by apply owner_write |].
  intros γ1 w1 e w2 Hγ HI1 Hr. inversion Hr; subst. apply wp_done.
  assert (umem w2 = u) as Hu.
  { destruct HI1 as (Q & hold & H).
    destruct (owner_holds _ _ _ _ _ _ _ _ _ _ _ _ _ H Hγ) as [_ ->].
    destruct (proj1 H) as [_ _ _ _ _ Hmem _]. cbn in Hmem. rewrite Hγ in Hmem. apply Hmem. }
  split.
  - eapply owner_write. apply at_phase_same; [|done]. by rewrite Hu.
  - cbn. unfold outside. by rewrite lookup_insert_eq.
Qed.

Lemma client_spec t l :
  t ∈ T -> Forall (valid_attempt timed) l ->
  triple t (at_phase t Idle) (client m l) (ctx t) (fun _ => at_phase t Idle).
Proof.
  intros HT Hl. induction Hl as [|a l Ha Hl IH]; [by intros γ w|].
  eapply triple_bind; [by apply try_enter_spec|]. intros r.
  apply triple_bind with (Q := fun _ => at_phase t Idle); [|intros ?; exact IH].
  case_decide as Hr.
  - rewrite bool_decide_eq_true_2 by done.
    eapply triple_bind; [apply critical_spec|]. intros ?.
    apply triple_bind with (Q := fun _ => at_phase t Idle); [|by intros ? γ w].
    eapply triple_weaken; [by apply (unlock_spec m attr T ctx outside timed Hkind t (first attr))
      | tauto |].
    intros r' γ w [_ Hp]. unfold first in Hp. destruct (mkind attr); exact Hp.
  - rewrite bool_decide_eq_false_2 by done. by intros γ w.
Qed.

Lemma client_pool_good w p :
  fresh m attr T ctx w -> outside (umem w) -> client_pool m T ctx timed p ->
  good I S E (Run w p).
Proof.
  intros Hf Ho Hp. apply good_spawn with (fun _ => Idle); [by apply fresh_inv | | done].
  intros t s Hs. destruct (Hp t s Hs) as (HT & l & Hl & ->).
  exists (ctx t), (client m l). split; [done|]. split; [done|].
  eapply triple_weaken; [by apply client_spec | |].
  - intros γ w' [Hγ HI]. by apply at_phase_same.
  - intros ? γ w' HI. by exists Idle.
Qed.

Lemma client_good c w p :
  fresh m attr T ctx w -> outside (umem w) -> client_pool m T ctx timed p ->
  rtc cstep (Run w p) c -> good I S E c.
Proof.
  intros. eapply adequacy; [intros; by apply I_tick | by apply client_pool_good | done].
Qed.
End Clients.

(** In an untimed program the mutex a blocked thread waits for belongs to a
    thread that is neither idle nor without its message. *)
Lemma stuck_owner m attr T ctx R Q hold γ w :
  inv m attr T ctx R false Q hold γ w ->
  forall t, γ t = Blocked -> mail w !! t = Some 0 ->
  exists u, γ u <> Idle /\ ~ (γ u = Blocked /\ mail w !! u = Some 0).
Proof.
  intros H t Hγ Hm.
  assert (t ∈ T) as HT.
  { destruct (decide (t ∈ T)) as [|HT]; [done|].
    destruct (t_out _ _ _ _ _ _ _ _ _ (proj2 H t) HT). congruence. }
  destruct (inv_place _ _ _ _ _ _ _ _ _ _ _ H HT) as (n & Hn & Hp). rewrite Hγ in Hp.
  assert (t ∈ Q (HMutex m)) as Hin by (cbn in Hp; naive_solver).
  destruct (proj1 H) as [_ _ _ _ Hfull _ Htm].
  destruct hold as [|u|u]; [by destruct Hfull; [intros Hq; rewrite Hq in Hin; set_solver|]
    | | by destruct (Htm eq_refl u)].
  exists u. assert (u ∈ T) as HTu.
  { destruct (decide (u ∈ T)) as [|HTu]; [done|].
    by destruct (t_out _ _ _ _ _ _ _ _ _ (proj2 H u) HTu) as (_ & _ & []). }
  destruct (inv_place _ _ _ _ _ _ _ _ _ _ _ H HTu) as (k & Hk & Hpu).
  split.
  - intros Hi. rewrite Hi in Hpu. cbn in Hpu. tauto.
  - intros [Hb Hmu]. rewrite Hb in Hpu. cbn in Hpu. destruct Hpu as [(_ & [] & _) | (_ & _ & ->)]; [done|].
    congruence.
Qed.

(** ** Programs *)

(** C1: whatever the interleaving, in a program of any number of threads that
    enter and leave critical sections with lock, trylock, timedlock and unlock of
    one mutex of any type, no two threads are in their critical sections at the
    same time, and no assertion of the library or access through a bad pointer
    fails. *)
Theorem mutual_exclusion m attr T ctx w p c f :
  mkind attr <> KBad -> fresh m attr T ctx w -> outside (umem w) ->
  client_pool m T ctx true p -> rtc cstep (Run w p) c -> c <> Crashed f.
Proof.
  intros Hk Hf Ho Hp Hc ->.
  exact (client_good m attr T ctx true Hk _ w p Hf Ho Hp Hc).
Qed.

(** C2: a program of clients that use lock, trylock and unlock only never
    deadlocks: until every client has finished, some thread can run. *)
Theorem no_deadlock m attr T ctx w p c :
  mkind attr <> KBad -> fresh m attr T ctx w -> outside (umem w) ->
  client_pool m T ctx false p -> rtc cstep (Run w p) c -> ~ stuck c.
Proof.
  intros Hk Hf Ho Hp Hc Hs.
  pose proof (client_good m attr T ctx false Hk _ w p Hf Ho Hp Hc) as Hg.
  destruct c as [w' p'| |]; [|done|done]. destruct Hs as [Hne Hs].
  destruct Hg as (γ & (Q & hold & H) & Hok & Hend).
  assert (forall t s, p' !! t = Some s -> γ t = Blocked /\ mail w' !! t = Some 0) as Hb.
  { intros t [r k] Ht. destruct (Hok _ _ Ht) as [HS _]. cbn in HS. specialize (Hs _ _ _ Ht).
    destruct (t_timed _ _ _ _ _ _ _ _ _ (proj2 H t) eq_refl) as [Hn1 Hn2].
    destruct r as [l|t' o|]; [by destruct (γ t) | | by edestruct Hs; constructor].
    destruct (γ t); try done. destruct HS as [-> _]. split; [done|].
    destruct (mail w' !! t) as [[|n]|] eqn:Hm; [done | |]; by edestruct Hs; constructor. }
  apply map_choose in Hne as (t & s & Ht). destruct (Hb _ _ Ht) as [Hγ Hm].
  destruct (stuck_owner m attr T ctx outside _ _ _ _ H t Hγ Hm) as (u & Hu & Hid).
  destruct (p' !! u) as [su|] eqn:Hpu.
  - destruct (Hb _ _ Hpu) as [Hγu Hmu]. by apply Hid.
  - apply Hu, Hend, Hpu.
Qed.

(** ** Concrete runs *)

Definition lost_programs : list (M unit) :=
  [client (MUser 0) [ByLock]; client (MUser 0) [ByTimedlock (mkTimespec 1 0); ByLock]].

Definition lost_schedule : list (nat * bool) :=
  [(0, false); (0, false);                (* 0 takes the mutex *)
   (1, false); (1, false); (1, true);     (* 1 queues up, its wait expires *)
   (0, false); (0, false);                (* 0 hands the mutex to 1 *)
   (1, false);                            (* 1 drains the message: ETIMEDOUT *)
   (1, false); (1, false)].               (* 1 locks again and blocks *)

(** With a timed lock a program can deadlock (why is shown for all mutexes by
    [timedlock_loses_mutex] in MutexFacts.v): here the second client waits for ever
    for a mutex that the first one has released. *)
Theorem timed_program_deadlocks :
  exists c, rtc cstep (Run (demo_world 2 ANull) (demo_pool lost_programs)) c /\ stuck c.
Proof.
  exists (run_schedule lost_schedule (Run (demo_world 2 ANull) (demo_pool lost_programs))).
  split; [apply run_schedule_rtc | apply stuckb_sound; by vm_compute].
Qed.

Lemma demo_fresh n attr :
  fresh (MUser 0) attr (list_to_set (seq 0 n)) demo_ctx (demo_world n attr).
Proof.
  split; [|split; [|split; [|split]]]; cbn.
  - intros t [Hge Hlt]%elem_of_list_to_set%elem_of_seq.
    split; [apply demo_runs | apply (demo_mail n attr)]; lia.
  - by rewrite lookup_singleton_eq.
  - done.
  - set_solver.
  - set_solver.
Qed.

Lemma demo_client_pool timed (ls : list (list attempt)) :
  Forall (Forall (valid_attempt timed)) ls ->
  client_pool (MUser 0) (list_to_set (seq 0 (length ls))) demo_ctx timed
    (demo_pool (map (client (MUser 0)) ls)).
Proof.
  intros Hls t s (b & Hb & ->)%demo_pool_lookup. rewrite list_lookup_fmap in Hb.
  destruct (ls !! t) as [l|] eqn:Hl; [|done]. injection Hb as <-.
  split.
  - apply elem_of_list_to_set, elem_of_seq. apply lookup_lt_Some in Hl. lia.
  - exists l. split; [|done]. by eapply Forall_lookup_1.
Qed.

Definition demo_attempts : list (list attempt) :=
  [[ByLock; ByTrylock]; [ByTimedlock (mkTimespec 1 0); ByLock]; [ByTrylock; ByLock]].

Definition demo_start (attr : mutexattr_ptr) (ls : list (list attempt)) : config :=
  Run (demo_world (length ls) attr) (demo_pool (map (client (MUser 0)) ls)).

Lemma mutual_exclusion_witness :
  mkind ARecursive <> KBad /\
  run_schedule [(0, false); (1, false); (0, false)] (demo_start ARecursive demo_attempts)
    <> Crashed FAssert.
Proof.
  split; [by vm_compute|].
  apply (mutual_exclusion (MUser 0) ARecursive (list_to_set (seq 0 3)) demo_ctx
           (demo_world 3 ARecursive) (demo_pool (map (client (MUser 0)) demo_attempts))).
  - by vm_compute.
  - apply demo_fresh.
  - done.
  - apply (demo_client_pool true demo_attempts). by repeat constructor.
  - apply run_schedule_rtc.
Defined.

Lemma no_deadlock_witness :
  ~ stuck (run_schedule [(0, false); (1, false); (0, false); (1, false)]
             (demo_start AErrorcheck [[ByLock; ByTrylock]; [ByLock]])).
Proof.
  apply (no_deadlock (MUser 0) AErrorcheck (list_to_set (seq 0 2)) demo_ctx
           (demo_world 2 AErrorcheck)
           (demo_pool (map (client (MUser 0)) [[ByLock; ByTrylock]; [ByLock]]))).
  - by vm_compute.
  - apply demo_fresh.
  - done.
  - apply (demo_client_pool false [[ByLock; ByTrylock]; [ByLock]]). by repeat constructor.
  - apply run_schedule_rtc.
Defined.
