(* ===== verification/MutexFacts.v ===== *)
(** * Mutexes: initialisation, errors and relocking *)
From Stdlib Require Import ZArith Lia.
From stdpp Require Import relations.
From S2P Require Import Prelude Queue World Machine Sched Mach Demo Attr Mutex MutexInv MutexSpec MutexClient.

(** ** Initialisation *)

(** What [pthread_mutex_init] stores in [attr]. *)
Definition stored_attr (attr : option mutexattr) : mutexattr_ptr :=
  match attr with None => ANull | Some a => AHeap a end.

(** The initialisation of a mutex either succeeds, and the mutex is then
    free, has no owner and no waiters and the type of the attributes, or fails
    with ENOMEM, which happens only if attributes are given and the allocator
    fails; no other mutex changes. *)
Theorem mutex_init_result m attr me w :
  exists r w', _pthread_mutex_init m attr me w = Done r w' /\
    r = (if decide (is_Some attr /\ head (answers (env w)) = Some false) then ENOMEM else OK) /\
    (r = OK ->
      mutexes w' !! m = Some (mkMutex (stored_attr attr) None 0) /\
      kind_of (resolve_attr (stored_attr attr)) = kind_of attr /\
      SMutexHeld m ∉ spins w' /\ SMutexLock m ∉ spins w' /\
      cells (qh w') !! Head (HMutex m) = None) /\
    (forall m', m' <> m -> mutexes w' !! m' = mutexes w !! m').
Proof.
  unfold _pthread_mutex_init, get_mutex, malloc_ok, ask. cbn. destruct attr as [a|]; cbn.
  - rewrite lookup_insert_eq. cbn. destruct (answers (env w)) as [|[] l]; cbn;
      eexists _, _; (split; [done|]); repeat case_decide; try (exfalso; naive_solver); split_and!;
      cbn; try done; intros; rewrite ?lookup_insert_eq, ?lookup_insert_ne, ?lookup_delete_eq by done;
      try done; set_solver.
  - eexists _, _. split; [done|]. rewrite decide_False by (intros [[] _]; done).
    split_and!; cbn; try done; intros; rewrite ?lookup_insert_eq, ?lookup_insert_ne, ?lookup_delete_eq by done;
      try done; set_solver.
Qed.

(** ** A timed lock with invalid nanoseconds *)

(** A timed lock of a mutex that is taken, with nanoseconds out of range,
    returns EINVAL with the internal lock of the mutex held: from then on every
    lock and unlock of the mutex, the owner's too, spins for ever. *)
Theorem timedlock_einval_keeps_lock m o n ts t me w :
  mutexes w !! m = Some (mkMutex ANull o n) -> SMutexLock m ∉ spins w -> SMutexHeld m ∈ spins w ->
  bad_timespec ts = true -> runs me t w ->
  exists w', solo (pthread_mutex_timedlock m (Some ts) me w) = Done EINVAL w' /\
    forall me', (exists k, solo (__pthread_mutex_lock m me' w') = Susp (RSpin (SMutexLock m)) w' k) /\
      (exists k, solo (__pthread_mutex_unlock m me' w') = Susp (RSpin (SMutexLock m)) w' k).
Proof.
  intros Hm Hl Hh Hts Hr.
  assert (spins w ∪ {[SMutexLock m]} = {[SMutexHeld m]} ∪ ({[SMutexLock m]} ∪ spins w)) as Hs by set_solver.
  exists (set_spins (spins w ∪ {[SMutexLock m]}) w). split.
  - unfold pthread_mutex_timedlock, __pthread_mutex_timedlock_internal, get_mutex. cbn. rewrite Hm. cbn.
    unfold __pthread_spin_lock. cbn. rewrite bool_decide_eq_false_2, decide_True by done. cbn.
    rewrite bool_decide_eq_true_2 by set_solver. rewrite decide_False by done. cbn.
    rewrite (pthread_self_runs me t) by (eapply runs_same; [| |exact Hr]; done). cbn.
    unfold held_already, wait_turn, get_mutex. cbn. rewrite Hm. cbn. rewrite Hm. cbn.
    rewrite Hts. cbn. by rewrite set_spins_twice, Hs.
  - assert (set_spins ({[SMutexLock m]} ∪ (spins w ∪ {[SMutexLock m]}))
              (set_spins (spins w ∪ {[SMutexLock m]}) w) = set_spins (spins w ∪ {[SMutexLock m]}) w) as Hsame.
    { rewrite set_spins_twice. f_equal. set_solver. }
    intros me'. unfold __pthread_mutex_lock, __pthread_mutex_timedlock_internal,
      __pthread_mutex_unlock, get_mutex. cbn. rewrite Hm. cbn.
    unfold __pthread_spin_lock. cbn. rewrite !(bool_decide_eq_true_2 (SMutexLock m ∈ _)) by set_solver.
    rewrite !(decide_False (P := EBUSY = OK)) by done. cbn.
    split; rewrite decide_True by set_solver; rewrite Hsame; eexists; reflexivity.
Qed.

Definition demo_taken : world :=
  set_spins {[SMutexHeld (MUser 0)]} (demo_world 2 ANull).

Lemma timedlock_einval_keeps_lock_witness :
  exists w', solo (pthread_mutex_timedlock (MUser 0) (Some (mkTimespec 0 (-1))) (demo_ctx 1) demo_taken)
    = Done EINVAL w' /\
    exists k, solo (__pthread_mutex_unlock (MUser 0) (demo_ctx 0) w') = Susp (RSpin (SMutexLock (MUser 0))) w' k.
Proof.
  destruct (timedlock_einval_keeps_lock (MUser 0) None 0 (mkTimespec 0 (-1)) 1 (demo_ctx 1) demo_taken)
    as (w' & Hw & Hk).
  - done.
  - set_solver.
  - set_solver.
  - done.
  - eapply runs_same; [| |apply (demo_runs 2 ANull 1); lia]; done.
  - exists w'. split; [exact Hw | apply Hk].
Defined.

(** ** Relocking and unlocking by the wrong thread *)

Section Relock.
Context (m : mutex_id) (attr : mutexattr_ptr) (T : gset nat) (ctx : nat -> kctx)
        (R : gmap nat Z -> Prop) (timed : bool).

Abbreviation I := (I m attr T ctx R timed).
Abbreviation triple := (triple I (S timed) E).
Abbreviation at_phase := (at_phase I).

(** C29: the owner of a mutex that records its owner locks it again: whatever
    the other threads do meanwhile, a recursive mutex is then locked one time
    more, and an error-checking one returns EDEADLK and is still locked. *)
Theorem owner_relocks t n u :
  mkind attr <> KBad -> tracked (mkind attr) = true -> (n + 1 < 2 ^ 32)%Z ->
  triple t (at_phase t (Owns n u)) (__pthread_mutex_lock m) (ctx t)
    (fun r γ w => match mkind attr with
       | KRecursive => r = OK /\ at_phase t (Owns (n + 1) u) γ w
       | _ => r = EDEADLK /\ at_phase t (Owns n u) γ w
       end).
Proof.
  intros Hk Htr Hn. eapply triple_weaken; [by apply (relock_spec m attr T ctx R timed Hk) | done |].
  intros r γ w. by destruct (mkind attr).
Qed.
End Relock.

(** The ghost state after [try_enter] by thread 0 of the example: it owns the
    mutex with one lock. *)
Lemma owner_relocks_witness :
  triple (I (MUser 0) ARecursive {[0]} demo_ctx outside false) (S false) E 0
    (at_phase (I (MUser 0) ARecursive {[0]} demo_ctx outside false) 0 (Owns 1 ∅))
    (__pthread_mutex_lock (MUser 0)) (demo_ctx 0)
    (fun r γ w => r = OK /\ at_phase (I (MUser 0) ARecursive {[0]} demo_ctx outside false) 0 (Owns (1 + 1) ∅) γ w).
Proof.
  apply (owner_relocks (MUser 0) ARecursive {[0]} demo_ctx outside false 0 1 ∅).
  - by vm_compute.
  - done.
  - done.
Defined.

(** ** Unlocking *)

Abbreviation mkind_of x := (kind_of (resolve_attr (m_attr x))).

Section Unlock.
Context (m : mutex_id) (x : mutex) (Q : head_id -> list nat) (t : nat) (me : kctx) (w : world).
Context (Hr : runs me t w) (Hm : mutexes w !! m = Some x) (Hl : SMutexLock m ∉ spins w).
Context (Hq : qrep (qh w) Q) (Hmail : forall v, head (Q (HMutex m)) = Some v -> mail w !! v = Some 0).

(** The caller may not unlock it. *)
Definition not_owner : bool := tracked (mkind_of x) && negb (bool_decide (m_owner x = Some t)).

(** The lock is one of several of its owner. *)
Definition locked_again : bool := recursive (mkind_of x) && (0 <? u32 (m_locks x - 1))%Z.

(** The mutex with one lock less, if locks are counted, and the owner [o], if
    owners are recorded. *)
Definition one_unlocked (o : option nat) : mutex :=
  mkMutex (m_attr x) (if tracked (mkind_of x) then o else m_owner x)
    (if recursive (mkind_of x) then u32 (m_locks x - 1) else m_locks x).

Definition put (y : mutex) (s : gset spin_id) (w : world) : world :=
  set_mutexes (<[m := y]> (mutexes w)) (set_spins s w).

Lemma unlock_runs :
  mkind_of x <> KBad ->
  if not_owner then solo (__pthread_mutex_unlock m me w) = Done EPERM w
  else if locked_again
  then solo (__pthread_mutex_unlock m me w) = Done OK (put (one_unlocked (m_owner x)) (spins w) w)
  else match Q (HMutex m) with
       | [] => solo (__pthread_mutex_unlock m me w) =
                 Done OK (put (one_unlocked None) (spins w ∖ {[SMutexHeld m]}) w)
       | v :: _ => exists q, qrep q (qremove v Q) /\
           solo (__pthread_mutex_unlock m me w) =
             Done OK (set_mail (<[v := 1]> (mail w)) (set_qh q (put (one_unlocked (Some v)) (spins w) w)))
       end.
Proof.
  intros Hk. unfold not_owner, locked_again, one_unlocked. destruct x as [attr o n]. cbn [m_attr m_owner m_locks].
  unfold __pthread_mutex_unlock, get_mutex. cbn [mbind M_bind gets bindr]. rewrite Hm. cbn.
  rewrite solo_spin_lock by done. set (k := kind_of (resolve_attr attr)) in *.
  set (w1 := set_spins ({[SMutexLock m]} ∪ spins w) w).
  assert (runs me t w1) as Hr1 by (by eapply runs_same; [| |exact Hr]).
  (* what [disown] stores *)
  set (x1 := mkMutex attr (if tracked k then None else o) (if recursive k then u32 (n - 1) else n)).
  assert (pass_on_at :
    match Q (HMutex m) with
    | [] => solo (pass_on m k me (put x1 ({[SMutexLock m]} ∪ spins w) w)) =
              Done OK (put x1 (spins w ∖ {[SMutexHeld m]}) w)
    | v :: _ => exists q, qrep q (qremove v Q) /\
        solo (pass_on m k me (put x1 ({[SMutexLock m]} ∪ spins w) w)) =
          Done OK (set_mail (<[v := 1]> (mail w)) (set_qh q (put (mkMutex attr (if tracked k then Some v else o) (m_locks x1)) (spins w) w)))
    end).
  { unfold pass_on. cbn. rewrite (qrep_head (qh w) Q) by done.
    destruct (Q (HMutex m)) as [|v l] eqn:HQ; cbn.
    - replace (({[SMutexLock m]} ∪ spins w) ∖ {[SMutexHeld m]} ∖ {[SMutexLock m]}) with (spins w ∖ {[SMutexHeld m]})
        by set_solver. by destruct w.
    - destruct (dequeue_refines (qh w) Q v Hq) as (q & Hq' & Rq); [exists (HMutex m); rewrite HQ; by left|].
      exists q. split; [done|]. erewrite dequeue_some by exact Hq'. cbn. unfold set_owner, get_mutex. 
      destruct (tracked k); cbn; rewrite ?lookup_insert_eq; cbn; rewrite wakeup_empty by (by apply Hmail); cbn;
        unfold put; cbn; rewrite ?insert_insert_eq, spins_cycle by done; by destruct w. }
  assert (forall y, y = mkMutex attr o n -> set_mutexes (<[m := y]> (mutexes w)) w1 = w1) as Hsame.
  { intros y ->. rewrite insert_id by done. by destruct w. }
  rewrite (disown_spec m k attr o n me t w1) by done.
  destruct (tracked k) eqn:Htr; cbn.
  - destruct (decide (o = Some t)) as [Ho | Ho].
    + rewrite bool_decide_eq_true_2 by done. subst x1. cbn in *.
      destruct (recursive k); cbn in *; [|exact pass_on_at].
      destruct (0 <? u32 (n - 1))%Z; cbn; [|exact pass_on_at].
      rewrite spins_cycle by done. by destruct w.
    + rewrite bool_decide_eq_false_2 by done. cbn. rewrite spins_cycle by done. by destruct w.
  - assert (recursive k = false) as Hrec by (by destruct k).
    subst x1. rewrite Hrec in pass_on_at |- *. cbn in *.
    assert (put (mkMutex attr o n) ({[SMutexLock m]} ∪ spins w) w = w1) as Hw by (by apply Hsame).
    rewrite Hw in pass_on_at. exact pass_on_at.
Qed.
End Unlock.

(** C30: unlocking a mutex of any type, on all branches and whatever other threads
    have done before: a thread that is not the owner of a mutex that records its
    owner gets EPERM and nothing changes; a recursive mutex that its owner has locked
    several times has one lock less and stays with him; any other mutex becomes free
    if no thread waits, and else is handed to the first thread of its queue (the one
    that queued up last): this thread is the owner, is taken off the queue and gets
    one message, while the others stay where they are and the mutex stays taken.
    (Waiters have an empty mailbox; the internal lock of the mutex is free.) *)
Theorem unlock_result m x Q t me w :
  runs me t w -> mutexes w !! m = Some x -> mkind_of x <> KBad -> SMutexLock m ∉ spins w ->
  qrep (qh w) Q -> (forall v, head (Q (HMutex m)) = Some v -> mail w !! v = Some 0) ->
  exists r w', solo (__pthread_mutex_unlock m me w) = Done r w' /\
    if tracked (mkind_of x) && negb (bool_decide (m_owner x = Some t)) then r = EPERM /\ w' = w
    else r = OK /\
    let locks := if recursive (mkind_of x) then u32 (m_locks x - 1) else m_locks x in
    if recursive (mkind_of x) && (0 <? locks)%Z then
      w' = set_mutexes (<[m := mkMutex (m_attr x) (m_owner x) locks]> (mutexes w)) w
    else let owner v := if tracked (mkind_of x) then v else m_owner x in
    match Q (HMutex m) with
    | [] => w' = set_mutexes (<[m := mkMutex (m_attr x) (owner None) locks]> (mutexes w))
                   (set_spins (spins w ∖ {[SMutexHeld m]}) w)
    | v :: _ => exists q, qrep q (qremove v Q) /\
        w' = set_mail (<[v := 1]> (mail w)) (set_qh q
               (set_mutexes (<[m := mkMutex (m_attr x) (owner (Some v)) locks]> (mutexes w)) w))
    end.
Proof.
  intros Hr Hm Hk Hl Hq Hmail. pose proof (unlock_runs m x Q t me w Hr Hm Hl Hq Hmail Hk) as H.
  unfold not_owner, locked_again, one_unlocked, put in H. rewrite !set_spins_same in H.
  destruct (tracked (mkind_of x) && _); [by eexists _, _|].
  destruct (recursive (mkind_of x)) eqn:Hrec; cbn [andb] in H |- *.
  - destruct (0 <? u32 (m_locks x - 1))%Z; [eexists _, _; split; [exact H|]; split; [done|]|].
    + by destruct (mkind_of x).
    + destruct (Q (HMutex m)); [by eexists _, _|].
      destruct H as (q & Rq & Hrun). eexists _, _. split; [exact Hrun|]. split; [done|]. by exists q.
  - destruct (Q (HMutex m)); [by eexists _, _|].
    destruct H as (q & Rq & Hrun). eexists _, _. split; [exact Hrun|]. split; [done|]. by exists q.
Qed.

(** Thread 0 owns a recursive mutex with one lock, threads 2 and 1 wait. *)
Definition demo_owned : world :=
  set_mutexes {[MUser 0 := mkMutex ARecursive (Some 0) 1]}
    (set_spins {[SMutexHeld (MUser 0)]} (demo_waiting 3 (HMutex (MUser 0)) [2; 1])).

Lemma unlock_result_witness :
  exists w', solo (__pthread_mutex_unlock (MUser 0) (demo_ctx 0) demo_owned) = Done OK w' /\
    m_owner <$> mutexes w' !! MUser 0 = Some (Some 2) /\ mail w' !! 2 = Some 1 /\ mail w' !! 1 = Some 0.
Proof.
  destruct (unlock_result (MUser 0) (mkMutex ARecursive (Some 0) 1) (<[HMutex (MUser 0) := [2; 1]]> (fun _ => []))
    0 (demo_ctx 0) demo_owned) as (r & w' & Hrun & -> & q & _ & Hw).
  - eapply runs_same; [| |apply (demo_runs 3 ANull 0); lia]; done.
  - done.
  - by vm_compute.
  - set_solver.
  - apply queue_of_rep. by apply (bool_decide_unpack _).
  - rewrite fn_lookup_insert. by intros v [= <-].
  - exists w'. split; [exact Hrun|]. rewrite Hw. split_and!; [by vm_compute..].
Defined.

(** ** A timed lock that loses the mutex *)

(** A thread that finds the mutex taken queues up. *)
Lemma lock_waits m x Q t abstime me w :
  runs me t w -> mutexes w !! m = Some x -> mkind_of x <> KBad ->
  SMutexLock m ∉ spins w -> SMutexHeld m ∈ spins w ->
  (tracked (mkind_of x) = true -> exists o, m_owner x = Some o /\ o <> t) ->
  qrep (qh w) Q -> ~ queued Q t -> bad_abstime abstime = false ->
  exists q, qrep q (<[HMutex m := t :: Q (HMutex m)]> Q) /\
    solo (__pthread_mutex_timedlock_internal m abstime me w) =
    solo (bindr (wait_for_wakeup (SMutexLock m) t abstime CLOCK_REALTIME me (set_qh q w))
      (fun err w => (if decide (err <> OK) then c_assert (bool_decide (err = ETIMEDOUT));; mret err
                     else handed_over m (mkind_of x) t;; mret OK) me w)).
Proof.
  intros Hr Hm Hk Hl Hh Ho Hq Hun Hts.
  destruct (enqueue_refines (qh w) Q (HMutex m) t Hq Hun) as (q & Hq' & Rq). exists q. split; [done|].
  unfold __pthread_mutex_timedlock_internal, get_mutex. cbn. rewrite Hm. cbn. rewrite solo_spin_lock by done. cbn.
  rewrite bool_decide_eq_true_2 by set_solver. rewrite decide_False by done. cbn.
  rewrite set_spins_twice. replace ({[SMutexHeld m]} ∪ ({[SMutexLock m]} ∪ spins w)) with ({[SMutexLock m]} ∪ spins w) by set_solver.
  set (w1 := set_spins _ w). rewrite (pthread_self_runs me t) by (by eapply runs_same; [| |exact Hr]). cbn.
  assert (held_already m (mkind_of x) t me w1 = Done None w1) as ->.
  { unfold held_already, get_mutex. cbn. rewrite Hm. cbn.
    destruct (mkind_of x); [done| | |done]; destruct (Ho eq_refl) as (o & -> & Hne); by rewrite decide_False by congruence. }
  cbn. unfold wait_turn, get_mutex. cbn. rewrite Hm. cbn.
  assert (forall B (f : unit -> world -> res B), bindr (when (tracked (mkind_of x)) (c_assert (bool_decide (is_Some (m_owner x)))) me w1) f = f tt w1) as ->.
  { intros B f. destruct (tracked (mkind_of x)); [|done]. by destruct (Ho eq_refl) as (o & -> & _). }
  rewrite Hts. cbn. erewrite enqueue_some by exact Hq'. cbn.
  replace (({[SMutexLock m]} ∪ spins w) ∖ {[SMutexLock m]}) with (spins w) by set_solver.
  replace (set_spins (spins w) (set_qh q w1)) with (set_qh q w) by (by destruct w). done.
Qed.

(** Nobody can lock the mutex: trylock fails, and a thread that locks it waits. *)
Definition unavailable (m : mutex_id) (me : kctx) (u : nat) (w : world) : Prop :=
  solo (__pthread_mutex_trylock m me w) = Done EBUSY w /\
  exists w' k, solo (__pthread_mutex_lock m me w) = Susp (RRecv u None) w' k /\ mail w' !! u = Some 0.

Lemma taken_unavailable m x Q u me w :
  runs me u w -> mutexes w !! m = Some x -> mkind_of x <> KBad ->
  SMutexLock m ∉ spins w -> SMutexHeld m ∈ spins w ->
  (tracked (mkind_of x) = true -> exists o, m_owner x = Some o /\ o <> u) ->
  qrep (qh w) Q -> ~ queued Q u -> mail w !! u = Some 0 -> unavailable m me u w.
Proof.
  intros Hr Hm Hk Hl Hh Ho Hq Hun Hmail. split.
  - unfold __pthread_mutex_trylock, get_mutex. cbn. rewrite Hm. cbn. rewrite solo_spin_lock by done. cbn.
    rewrite bool_decide_eq_true_2 by set_solver. rewrite decide_False by done. cbn.
    rewrite set_spins_twice. replace ({[SMutexHeld m]} ∪ ({[SMutexLock m]} ∪ spins w)) with ({[SMutexLock m]} ∪ spins w) by set_solver.
    destruct x as [attr o n]. cbn in *.
    rewrite (try_busy_spec m _ attr o n me u) by (done || by eapply runs_same; [| |exact Hr]).
    assert (recursive (kind_of (resolve_attr attr)) && bool_decide (o = Some u) = false) as ->.
    { destruct (kind_of (resolve_attr attr)); [done..| |done]. destruct (Ho eq_refl) as (o' & -> & Hne).
      cbn. rewrite bool_decide_eq_false_2; [done | congruence]. }
    cbn. rewrite spins_cycle by done. by destruct w.
  - destruct (lock_waits m x Q u None me w) as (q & _ & Hrun); [done..|].
    unfold __pthread_mutex_lock. rewrite Hrun. unfold wait_for_wakeup, __pthread_block, mach_msg_receive. cbn.
    by eexists _, _.
Qed.

Section Lost.
Context (m : mutex_id) (x : mutex) (Q : head_id -> list nat) (t v : nat) (met mev : kctx) (ts : timespec) (w : world).

(** [v] owns the mutex with one lock, nobody waits for it, and [t] is about to
    wait until [ts], which is in the future. *)
Record before_race : Prop := {
  br_waiter : runs met t w;
  br_owner : runs mev v w;
  br_differ : t <> v;
  br_mutex : mutexes w !! m = Some x;
  br_kind : mkind_of x <> KBad;
  br_owned : tracked (mkind_of x) = true -> m_owner x = Some v;
  br_once : recursive (mkind_of x) = true -> m_locks x = 1%Z;
  br_held : SMutexHeld m ∈ spins w;
  br_lock : SMutexLock m ∉ spins w;
  br_queues : qrep (qh w) Q;
  br_alone : Q (HMutex m) = [];
  br_idle : ~ queued Q t /\ mail w !! t = Some 0;
  br_time : bad_timespec ts = false /\ time_passed (clock (env w) CLOCK_REALTIME) ts = false;
}.

(** Once [t] is in the queue [v] hands the mutex over to it. *)
Lemma race_unlock q1 :
  before_race -> qrep q1 (<[HMutex m := t :: Q (HMutex m)]> Q) ->
  exists q2, qrep q2 Q /\
    solo (__pthread_mutex_unlock m mev (set_qh q1 w)) =
    Done OK (set_mail (<[t := 1]> (mail w)) (set_qh q2
      (set_mutexes (<[m := one_unlocked x (Some t)]> (mutexes w)) (set_qh q1 w)))).
Proof.
  intros [_ Hrv _ Hm Hk Ho Hc _ Hl _ HQ [Hun Hmail] _] R1.
  set (w1 := set_qh q1 w). set (Q1 := <[HMutex m := t :: Q (HMutex m)]> Q) in *.
  assert (Q1 (HMutex m) = [t]) as HQ1 by (unfold Q1; by rewrite fn_lookup_insert, HQ).
  pose proof (unlock_runs m x Q1 v mev w1) as Hunlock. rewrite HQ1 in Hunlock.
  assert (not_owner x v = false) as Hno.
  { unfold not_owner. destruct (tracked (mkind_of x)) eqn:Htr; [|done]. by rewrite Ho, bool_decide_eq_true_2. }
  assert (locked_again x = false) as Hla.
  { unfold locked_again. destruct (recursive (mkind_of x)) eqn:Hrec; [|done]. by rewrite Hc. }
  rewrite Hno, Hla in Hunlock.
  destruct Hunlock as (q2 & R2 & Hunlock); [by eapply runs_same; [| |exact Hrv]|done..| |done|].
  { by intros ? [= <-]. }
  exists q2. split; [by apply (qrep_proper q2 _ _ (qremove_enqueued (HMutex m) t Q Hun))|].
  unfold put in Hunlock. by rewrite set_spins_same in Hunlock.
Qed.
End Lost.

(** C40: a timed lock whose wait expires just before the owner hands the mutex over
    returns ETIMEDOUT although the mutex is the caller's now, and loses it for
    everybody.  For a mutex of any type: thread [t] waits, its wait expires, and
    before it runs again the owner [v] unlocks the mutex successfully, which makes
    [t] the owner and sends it a message; [t] swallows the message and reports
    ETIMEDOUT.  Then neither [v], whose unlock has returned, nor [t] holds the
    mutex as far as they know, but it is taken, with [t] as its recorded owner:
    every other thread gets EBUSY from trylock and blocks in lock without a message,
    and so does [t] itself if owners are not recorded. *)
Theorem timedlock_loses_mutex m x Q t v met mev ts w :
  before_race m x Q t v met mev ts w ->
  exists ms w1 k1 k2 w2 k3 w3,
    solo (pthread_mutex_timedlock m (Some ts) met w) = Susp (RRecv t (Some ms)) w1 k1 /\
    resume (RRecv t (Some ms)) w1 EMACH_RCV_TIMED_OUT w1 /\ k1 EMACH_RCV_TIMED_OUT w1 = Susp RYield w1 k2 /\
    solo (__pthread_mutex_unlock m mev w1) = Done OK w2 /\ mail w2 !! t = Some 1 /\
    solo (k2 KERN_SUCCESS w2) = Susp (RRecv t None) w2 k3 /\ resume (RRecv t None) w2 KERN_SUCCESS w3 /\
    solo (k3 KERN_SUCCESS w3) = Done ETIMEDOUT w3 /\
    (exists y, mutexes w3 !! m = Some y /\ (tracked (mkind_of x) = true -> m_owner y = Some t)) /\
    SMutexHeld m ∈ spins w3 /\ qrep (qh w3) Q /\ mail w3 = mail w /\
    forall u me, runs me u w -> ~ queued Q u -> mail w !! u = Some 0 ->
      u <> t \/ tracked (mkind_of x) = false -> unavailable m me u w3.
Proof.
  intros Hb. pose proof Hb as [Hrt Hrv Hne Hm Hk Ho Hc Hh Hl Hq HQ [Hun Hmail] [Hts Hnow]].
  destruct (lock_waits m x Q t (Some ts) met w) as (q1 & R1 & Hrun); [done..| |done|done|done|].
  { intros Htr. exists v. by rewrite Ho. }
  destruct (race_unlock m x Q t v met mev ts w q1 Hb R1) as (q2 & Rq2 & Hunlock).
  set (y := one_unlocked x (Some t)) in *. set (w1 := set_qh q1 w) in *. set (w2 := set_mail _ _) in Hunlock.
  set (w3 := set_mail (<[t := 0]> (mail w2)) w2).
  assert (mutexes w3 = <[m := y]> (mutexes w)) as Hm3 by done.
  assert (mail w3 = mail w) as Hmail3.
  { change (<[t := 0]> (<[t := 1]> (mail w)) = mail w). by rewrite insert_insert_eq, insert_id. }
  assert (forall B (f : error_t -> world -> res B), solo (bindr (__pthread_spin_lock (SMutexLock m) met w2) f) =
    solo (f OK (set_spins ({[SMutexLock m]} ∪ spins w) w2))) as Hspin by (intros; by rewrite solo_spin_lock).
  exists (timeout_ms (clock (env w) CLOCK_REALTIME) ts), w1. do 2 eexists. exists w2. eexists. exists w3.
  split_and!.
  - unfold pthread_mutex_timedlock. rewrite Hrun. unfold wait_for_wakeup, __pthread_timedblock. cbn. rewrite Hnow. cbn. reflexivity.
  - by constructor.
  - cbn. unfold __pthread_spin_lock. cbn. reflexivity.
  - exact Hunlock.
  - apply lookup_insert_eq.
  - cbn. rewrite bool_decide_eq_false_2 by done. cbn.
    rewrite decide_True by done. cbn.
    rewrite (proj1 (qrep_not_queued q2 Q t Rq2) Hun), bool_decide_eq_true_2 by done. cbn.
    rewrite spins_cycle by done. reflexivity.
  - apply resume_msg. apply lookup_insert_eq.
  - reflexivity.
  - exists y. split; [by rewrite Hm3, lookup_insert_eq|]. intros Htr. unfold y, one_unlocked. by rewrite Htr.
  - exact Hh.
  - exact Rq2.
  - done.
  - intros u me Hru Hunu Hmu Hu. apply (taken_unavailable m y Q); try done.
    + by rewrite Hm3, lookup_insert_eq.
    + intros Htr. exists t. unfold y, one_unlocked. change (mkind_of y) with (mkind_of x) in Htr. rewrite Htr.
      split; [done|]. destruct Hu as [Hu | Hu]; congruence.
    + by rewrite Hmail3.
Qed.

(** Thread 0 owns an error-checking mutex, which thread 1 tries to lock until 1 s. *)
Definition demo_race : world :=
  set_mutexes {[MUser 0 := mkMutex AErrorcheck (Some 0) 0]}
    (set_spins {[SMutexHeld (MUser 0)]} (demo_world 3 ANull)).

Lemma timedlock_loses_mutex_witness :
  exists w1 w2 w3, solo (__pthread_mutex_unlock (MUser 0) (demo_ctx 0) w1) = Done OK w2 /\
    m_owner <$> mutexes w3 !! MUser 0 = Some (Some 1) /\ unavailable (MUser 0) (demo_ctx 2) 2 w3 /\
    exists k3, solo (k3 KERN_SUCCESS w3) = Done ETIMEDOUT w3.
Proof.
  assert (forall t, t < 3 -> runs (demo_ctx t) t demo_race) as Hr.
  { intros t Ht. eapply runs_same; [| |by apply (demo_runs 3 ANull t)]; done. }
  assert (forall t, ~ queued (fun _ : head_id => []) t) as Hun by (by intros t [h ?%elem_of_nil]).
  destruct (timedlock_loses_mutex (MUser 0) (mkMutex AErrorcheck (Some 0) 0) (fun _ => []) 1 0 (demo_ctx 1) (demo_ctx 0)
    (mkTimespec 1 0) demo_race) as (ms & w1 & k1 & k2 & w2 & k3 & w3 & _ & _ & _ & Hunlock & _ & _ & _ & Hdone & (y & Hy & Ho) & _ & _ & _ & Hall).
  - split; try done; [apply Hr; lia | apply Hr; lia | apply qrep_empty].
  - exists w1, w2, w3. split_and!; [exact Hunlock | rewrite Hy; cbn; f_equal; by apply Ho | | by exists k3].
    apply Hall; [apply Hr; lia | done | done | by left].
Defined.

(** ** A normal mutex locked twice *)

Definition relock_twice : M unit :=
  _ ← __pthread_mutex_lock (MUser 0); _ ← __pthread_mutex_lock (MUser 0); mret tt.

(** A thread that locks a normal mutex twice waits for ever. *)
Theorem normal_relock_deadlocks :
  exists c, rtc cstep (Run (demo_world 1 ANull) (demo_pool [relock_twice])) c /\ stuck c.
Proof.
  exists (run_schedule [(0, false); (0, false); (0, false)]
            (Run (demo_world 1 ANull) (demo_pool [relock_twice]))).
  split; [apply run_schedule_rtc | apply stuckb_sound; by vm_compute].
Qed.
