(* ===== verification/Sem.v ===== *)
(** * Semaphores: sysdeps/generic/sem-*.c

    The operations return zero, or minus one with the error in [errno]. *)
From Stdlib Require Import ZArith Lia.
From S2P Require Import Prelude Queue World Machine Sched Mach Attr.

Definition get_sem (s : nat) : M semaphore := o ← gets (fun w => sems w !! s); deref o.

Definition set_value (s : nat) (v : Z) : M unit :=
  x ← get_sem s;
  modify (fun w => set_sems (<[s := mkSem (sem_pshared x) v]> (sems w)) w).

Definition fail_errno (e : error_t) : M Z := set_errno e;; mret (-1)%Z.

(** sem-init.c.  [SEM_VALUE_MAX] is a macro of the system's headers, which may
    not define it. *)
Definition __sem_init (SEM_VALUE_MAX : option Z) (s : nat) (pshared value : Z) : M Z :=
  if negb (pshared =? 0)%Z then fail_errno EOPNOTSUPP
  else if match SEM_VALUE_MAX with Some max => (max <? value)%Z | None => false end
  then fail_errno EINVAL
  else
  modify (fun w => set_spins (spins w ∖ {[SSem s]}) w);;
  modify (fun w => set_qh (clear_head (HSem s) (qh w)) w);;
  modify (fun w => set_sems (<[s := mkSem pshared (i32 value)]> (sems w)) w);;
  mret 0%Z.

Definition __sem_destroy (s : nat) : M Z :=
  yield;;
  q ← queue_head (HSem s);
  match q with
  | Some _ => fail_errno EBUSY
  | None => mret 0%Z
  end.

Definition __sem_getvalue (s : nat) : M (Z * Z) :=
  __pthread_spin_lock (SSem s);;
  x ← get_sem s;
  __pthread_spin_unlock (SSem s);;
  mret (0, sem_value x)%Z.

Definition __sem_post (s : nat) : M Z :=
  __pthread_spin_lock (SSem s);;
  x ← get_sem s;
  q ← queue_head (HSem s);
  if (0 <? sem_value x)%Z then
    c_assert (bool_decide (q = None));;
    set_value s (i32 (sem_value x + 1));;
    __pthread_spin_unlock (SSem s);;
    mret 0%Z
  else
  match q with
  | None =>
      set_value s 1;;
      __pthread_spin_unlock (SSem s);;
      mret 0%Z
  | Some wakeup =>
      dequeue wakeup;;
      __pthread_spin_unlock (SSem s);;
      __pthread_wakeup wakeup;;
      mret 0%Z
  end.

Definition __sem_timedwait_internal (s : nat) (timeout : option timespec) : M Z :=
  __pthread_spin_lock (SSem s);;
  x ← get_sem s;
  if (0 <? sem_value x)%Z then
    set_value s (sem_value x - 1);;
    __pthread_spin_unlock (SSem s);;
    mret 0%Z
  else
  if bad_abstime timeout then fail_errno EINVAL
  else
  self ← _pthread_self;
  enqueue (HSem s) self;;
  __pthread_spin_unlock (SSem s);;
  err ← wait_for_wakeup (SSem s) self timeout CLOCK_REALTIME;
  if decide (err <> OK) then
    c_assert (bool_decide (err = ETIMEDOUT));;
    fail_errno err
  else mret 0%Z.

Definition __sem_timedwait (s : nat) (timeout : option timespec) : M Z :=
  __sem_timedwait_internal s timeout.

Definition __sem_wait (s : nat) : M Z := __sem_timedwait_internal s None.

Definition __sem_trywait (s : nat) : M Z :=
  __pthread_spin_lock (SSem s);;
  x ← get_sem s;
  if (0 <? sem_value x)%Z then
    set_value s (sem_value x - 1);;
    __pthread_spin_unlock (SSem s);;
    mret 0%Z
  else
  __pthread_spin_unlock (SSem s);;
  fail_errno EAGAIN.

(** Named semaphores are not supported. *)
Definition __sem_open (name : nat) : M (option nat) := set_errno EOPNOTSUPP;; mret None.
Definition __sem_close (s : nat) : M Z := fail_errno EOPNOTSUPP.
Definition __sem_unlink (name : nat) : M Z := fail_errno EOPNOTSUPP.
