(* ===== verification/SemSpec.v ===== *)
(** * Semaphores used by any number of threads

    The units of a semaphore are its value, the grants of Waiting.v, and the units
    that were lost with an expired wait. *)
From Stdlib Require Import ZArith Lia.
From stdpp Require Import relations.
From S2P Require Import Prelude Queue World Machine Sched Mach Demo Waiting Attr Sem.

(** ** Client programs *)

Inductive sem_attempt := ByWait | ByTrywait | ByTimedwait (abstime : timespec).

Definition sem_enter (s : nat) (a : sem_attempt) : M Z :=
  match a with
  | ByWait => __sem_wait s
  | ByTrywait => __sem_trywait s
  | ByTimedwait ts => __sem_timedwait s (Some ts)
  end.

(** Cell 0 of the application memory counts the threads inside, of which there
    may be [N]; the section gives the processor away. *)
Definition sem_section (N : Z) : M unit :=
  inside ← gets (fun w => default 0%Z (umem w !! 0));
  c_assert (inside <? N)%Z;;
  modify (fun w => set_umem (<[0 := Z.succ inside]> (umem w)) w);;
  yield;;
  inside ← gets (fun w => default 0%Z (umem w !! 0));
  modify (fun w => set_umem (<[0 := Z.pred inside]> (umem w)) w).

Fixpoint sem_client (s : nat) (N : Z) (attempts : list sem_attempt) : M unit :=
  match attempts with
  | [] => mret tt
  | a :: attempts =>
      r ← sem_enter s a;
      when (r =? 0)%Z (sem_section N;; _ ← __sem_post s; mret tt);;
      sem_client s N attempts
  end.

(** ** The invariant *)

Inductive sem_state := SIdle | SHolds | SInside.

#[export] Instance sem_state_eq_dec : EqDecision sem_state.
Proof. solve_decision. Defined.

Section SemInv.
Context (s : nat) (ps N : Z) (ti : bool).

Record sem_obj (Q : head_id -> list nat) (P : gmap nat unit) (v : nat -> sem_state)
    (value : Z) (lost : nat) (inside : gset nat) (w : world) : Prop := {
  so_sem : sems w !! s = Some (mkSem ps value);
  so_value : (0 <= value)%Z;
  so_units : (value + Z.of_nat (size P) + Z.of_nat lost = N)%Z;
  so_lost : ti = false -> lost = 0;
  so_queue : Q (HSem s) <> [] -> value = 0%Z;
  so_inside : forall t, t ∈ inside <-> v t = SInside;
  so_mem : default 0%Z (umem w !! 0) = Z.of_nat (size inside);
}.

Definition sem_holds (x : sem_state) : option unit :=
  match x with SIdle => None | _ => Some tt end.

Definition sem_Obj (Q : head_id -> list nat) (P : gmap nat unit) (v : nat -> sem_state)
    (w : world) : Prop :=
  exists value lost inside, sem_obj Q P v value lost inside w.

Lemma sem_Obj_links Q P v w w' : links (SSem s) w w' -> sem_Obj Q P v w -> sem_Obj Q P v w'.
Proof.
  intros [] (value & lost & inside & []). exists value, lost, inside.
  split; try done; congruence.
Qed.

Lemma sem_Obj_leave Q P v w t : sem_Obj Q P v w -> sem_Obj (qremove t Q) P v w.
Proof.
  intros (value & lost & inside & [? ? ? ? Hq ? ?]). exists value, lost, inside.
  split; try done. intros Hr. eapply Hq, qremove_nonempty, Hr.
Qed.

#[local] Instance sem_object : WaitObject unit sem_state.
Proof.
  refine {|
    hd _ := HSem s; olock := SSem s; timed _ := ti; idle := SIdle; holds := sem_holds;
    Obj := sem_Obj; Obj_links := sem_Obj_links; Obj_leave := sem_Obj_leave |}.
  - by intros [] [].
  - done.
Defined.

Context (T : gset nat) (ctx : nat -> kctx).
Context (HN : (N < 2 ^ 31)%Z).

Abbreviation I := (WI (O := sem_object) T ctx).
Abbreviation wp := (wp I WS WE).
Abbreviation triple := (triple I WS WE).
Abbreviation at_phase := (at_phase I).
Abbreviation inv := (inv (O := sem_object) T ctx).
Abbreviation winv := (winv (O := sem_object) T ctx).

(** A thread that gets a unit: from the value of the semaphore, or granted. *)
Lemma obj_take Q P v value lost inside w t w' :
  sem_obj Q P v value lost inside w -> P !! t = None -> (0 < value)%Z -> v t <> SInside ->
  sems w' !! s = Some (mkSem ps (value - 1)) -> umem w' = umem w ->
  sem_obj Q (<[t := tt]> P) (<[t := SHolds]> v) (value - 1) lost inside w'.
Proof.
  intros [H1 H2 H3 H4 H5 H6 H7] HP Hv Hvt Hs Hu. split; [done | lia | | done | | | by rewrite Hu].
  - rewrite map_size_insert_None by done. lia.
  - intros HQ. specialize (H5 HQ). lia.
  - intros u. rewrite H6. destruct (decide (t = u)) as [<- | Hne].
    + by rewrite fn_lookup_insert.
    + by rewrite fn_lookup_insert_ne.
Qed.

(** A change of state that is not about being inside. *)
Lemma obj_state Q P v value lost inside w t y :
  sem_obj Q P v value lost inside w -> v t <> SInside -> y <> SInside ->
  sem_obj Q P (<[t := y]> v) value lost inside w.
Proof.
  intros [] Hv Hy. split; try done. intros u. rewrite so_inside0.
  destruct (decide (t = u)) as [<- | Hne].
  - by rewrite fn_lookup_insert.
  - by rewrite fn_lookup_insert_ne.
Qed.

(** A thread gives up its grant: the unit goes to the value, to another thread,
    or gets lost. *)
Lemma obj_give Q P v value lost inside w t Q' P' value' lost' w' :
  sem_obj Q P v value lost inside w -> v t <> SInside ->
  sems w' !! s = Some (mkSem ps value') -> umem w' = umem w -> (0 <= value')%Z ->
  (value' + Z.of_nat (size P') + Z.of_nat lost' = N)%Z ->
  (ti = false -> lost' = 0) -> (Q' (HSem s) <> [] -> value' = 0)%Z ->
  sem_obj Q' P' (<[t := SIdle]> v) value' lost' inside w'.
Proof.
  intros [H1 H2 H3 H4 H5 H6 H7] Hv Hs Hu H0 HN' Hl HQ. split; try done; [|by rewrite Hu].
  intros u. rewrite H6. destruct (decide (t = u)) as [<- | Hne].
  - by rewrite fn_lookup_insert.
  - by rewrite fn_lookup_insert_ne.
Qed.

Lemma size_delete_grant (P : gmap nat unit) t :
  P !! t = Some tt -> S (size (delete t P)) = size P.
Proof. intros H. rewrite map_size_delete_Some by eauto. 
  assert (size P <> 0); [|lia]. intros Hz%map_size_empty_iff. by subst. Qed.

(** ** The operations *)

Definition enter_post t (r : Z) (γ : nat -> wphase unit sem_state) (w : world) : Prop :=
  if decide (r = 0%Z) then at_phase t (Out SHolds) γ w else at_phase t (Out SIdle) γ w.

(** A thread that finds a unit takes it. *)
Lemma take_unit Q P γ w t value lost inside :
  winv Q P γ w -> sem_obj Q P (view γ) value lost inside w -> t ∈ T -> γ t = Out SIdle ->
  (0 < value)%Z ->
  at_phase t (Out SHolds) γ
    (set_spins (({[SSem s]} ∪ spins w) ∖ {[SSem s]})
      (set_sems (<[s := mkSem ps (value - 1)]> (sems w)) (set_spins ({[SSem s]} ∪ spins w) w))).
Proof.
  intros H Ho HT Hγ Hv. destruct (winv_place _ _ _ _ _ _ _ H HT) as (n & Hn & Hpl).
  rewrite Hγ in Hpl. destruct Hpl as (_ & HP & _).
  exists Q, (<[t := tt]> P). split.
  - rewrite view_insert. exists (value - 1)%Z, lost, inside. cbn.
    eapply obj_take; [exact Ho | done | done | | | done].
    + unfold view. by rewrite Hγ.
    + cbn. by rewrite lookup_insert_eq.
  - eapply winv_state; [exact H | done | eauto | | | done..|].
    + by rewrite lookup_insert_eq.
    + intros u Hu. by rewrite lookup_insert_ne.
    + cbn. pose proof (w_lock _ _ _ _ _ _ H). set_solver.
Qed.

(** A thread that was granted a unit: it keeps it, or drops it. *)
Lemma woken_keep t γ w : t ∈ T -> at_phase t (Woken tt) γ w -> at_phase t (Out SHolds) γ w.
Proof.
  intros HT (Q & P & (value & lost & inside & Ho) & H). exists Q, P.
  destruct (winv_place _ _ _ _ _ _ _ H HT) as (n & Hn & Hpl). rewrite fn_lookup_insert in Hpl.
  rewrite <- (fn_insert_insert γ t _ (Woken tt)). split.
  - rewrite (view_insert t (Out SHolds)). exists value, lost, inside.
    apply obj_state; [done | | done]. unfold view. by rewrite fn_lookup_insert.
  - eapply winv_state; [exact H | done | right; exists tt; by rewrite fn_lookup_insert | | done.. |].
    + apply Hpl.
    + apply H.
Qed.

Lemma woken_lose t γ w :
  t ∈ T -> ti = true -> at_phase t (Woken tt) γ w -> at_phase t (Out SIdle) γ w.
Proof.
  intros HT Hti (Q & P & (value & lost & inside & Ho) & H). exists Q, (delete t P).
  destruct (winv_place _ _ _ _ _ _ _ H HT) as (n & Hn & Hpl). rewrite fn_lookup_insert in Hpl.
  destruct Hpl as (_ & HP & _). pose proof (size_delete_grant _ _ HP).
  rewrite <- (fn_insert_insert γ t _ (Woken tt)). split.
  - rewrite (view_insert t (Out SIdle)). exists value, (Datatypes.S lost), inside.
    pose proof (so_units _ _ _ _ _ _ _ Ho).
    eapply obj_give; [exact Ho | | apply Ho | done | apply Ho | lia | congruence | apply Ho].
    unfold view. by rewrite fn_lookup_insert.
  - eapply winv_state; [exact H | done | right; exists tt; by rewrite fn_lookup_insert | | | done.. |].
    + by rewrite lookup_delete_eq.
    + intros u Hu. by rewrite lookup_delete_ne.
    + apply H.
Qed.

Lemma set_errno_inv Q P γ w me e : inv Q P γ w ->
  inv Q P γ (set_env (set_errnos (<[ktid me := e]> (errnos (env w))) (env w)) w).
Proof.
  intros [Ho H]. split.
  - eapply Obj_links; [|exact Ho]. by split.
  - eapply winv_links; [exact H | done.. |]. apply H.
Qed.

Lemma timedwait_spec t timeout :
  t ∈ T -> bad_abstime timeout = false -> (ti = false -> timeout = None) ->
  triple t (at_phase t (Out SIdle)) (__sem_timedwait_internal s timeout) (ctx t) (enter_post t).
Proof.
  intros HT Hbad Hto γ w HI. unfold __sem_timedwait_internal.
  eapply wp_spin_lock; [|exact HI|apply (WI_lock (O := sem_object) T ctx)|]; [done|].
  intros γ1 w1 Hγ1 (Q & P & (value & lost & inside & Ho) & H).
  unfold get_sem. cbn. rewrite (so_sem _ _ _ _ _ _ _ Ho). cbn.
  destruct (Z.ltb_spec 0 value) as [Hv | Hv].
  - unfold set_value, get_sem. cbn. rewrite (so_sem _ _ _ _ _ _ _ Ho). cbn. apply wp_done.
    unfold enter_post. rewrite decide_True by done. by eapply take_unit.
  - rewrite Hbad. cbn.
    rewrite (pthread_self_runs (ctx t) t) by (eapply runs_same; [| |by apply (w_threads _ _ _ _ _ _ H t)]; done).
    cbn. destruct (winv_can_enqueue (O := sem_object) T ctx Q P γ1 w1 t tt H HT Hγ1) as (q' & Hq').
    erewrite enqueue_some by exact Hq'. cbn.
    eapply wp_bind, wp_mono.
    + apply (granted_wait_spec (O := sem_object) T ctx t tt timeout CLOCK_REALTIME (ctx t) Hto). eexists _, P. split.
      2:{ eapply winv_enqueue; [exact H | done | done | exact Hq' | done..|].
          cbn. pose proof (w_lock _ _ _ _ _ _ H). set_solver. }
      rewrite view_relabel by (unfold view; by rewrite Hγ1).
      eexists value, lost, inside. destruct Ho. split; try done.
      intros _. lia.
    + intros e γ2 w2 [(-> & HW) | (-> & Hti & HW)]; cbn.
      * apply wp_done. unfold enter_post. rewrite decide_True by done. by apply woken_keep.
      * apply wp_done. unfold enter_post. rewrite decide_False by done.
        assert (at_phase t (Out SIdle) γ2 w2) as (Q2 & P2 & H2)
          by (destruct HW; [by apply woken_lose | done]).
        exists Q2, P2. by apply set_errno_inv.
Qed.

Lemma trywait_spec t :
  t ∈ T -> triple t (at_phase t (Out SIdle)) (__sem_trywait s) (ctx t) (enter_post t).
Proof.
  intros HT γ w HI. unfold __sem_trywait.
  eapply wp_spin_lock; [|exact HI|apply (WI_lock (O := sem_object) T ctx)|]; [done|].
  intros γ1 w1 Hγ1 (Q & P & (value & lost & inside & Ho) & H).
  unfold get_sem. cbn. rewrite (so_sem _ _ _ _ _ _ _ Ho). cbn.
  destruct (Z.ltb_spec 0 value) as [Hv | Hv].
  - unfold set_value, get_sem. cbn. rewrite (so_sem _ _ _ _ _ _ _ Ho). cbn. apply wp_done.
    unfold enter_post. rewrite decide_True by done. by eapply take_unit.
  - cbn. apply wp_done. unfold enter_post. rewrite decide_False by done.
    apply at_phase_same; [done|]. exists Q, P.
    rewrite set_spins_twice, spins_cycle, set_spins_same by apply (w_lock _ _ _ _ _ _ H).
    apply set_errno_inv. split; [by eexists _, _, _ | done].
Qed.

(** The unit goes back to the value, or to the thread that queued up last. *)
Lemma post_spec t :
  t ∈ T -> triple t (at_phase t (Out SHolds)) (__sem_post s) (ctx t)
             (fun r γ w => r = 0%Z /\ at_phase t (Out SIdle) γ w).
Proof.
  intros HT γ w HI. unfold __sem_post.
  eapply wp_spin_lock; [|exact HI|apply (WI_lock (O := sem_object) T ctx)|]; [done|].
  intros γ1 w1 Hγ1 (Q & P & (value & lost & inside & Ho) & H).
  destruct (winv_place _ _ _ _ _ _ _ H HT) as (n & Hn & Hpl). rewrite Hγ1 in Hpl.
  destruct Hpl as (_ & HP & _). cbn in HP. pose proof (size_delete_grant _ _ HP) as Hsize.
  pose proof (so_units _ _ _ _ _ _ _ Ho) as Hunits.
  pose proof (so_value _ _ _ _ _ _ _ Ho) as Hvalue.
  pose proof (so_queue _ _ _ _ _ _ _ Ho) as Hqueue.
  assert (view γ1 t <> SInside) as Hview by (unfold view; by rewrite Hγ1).
  assert (forall value' w', sems w' !! s = Some (mkSem ps value') -> umem w' = umem w1 ->
      value' = (value + 1)%Z -> Q (HSem s) = [] -> framed w1 w' -> qh w' = qh w1 ->
      mail w' = mail w1 -> SSem s ∉ spins w' -> at_phase t (Out SIdle) γ1 w') as Hback.
  { intros value' w' Hs Hu -> HQ Hf Hqh Hm Hl. exists Q, (delete t P). split.
    - rewrite view_insert. exists (value + 1)%Z, lost, inside.
      eapply obj_give; [exact Ho | done | done | done | lia | lia | apply Ho | done].
    - eapply winv_state; [exact H | done | eauto | | | done..].
      + by rewrite lookup_delete_eq.
      + intros u Hu'. by rewrite lookup_delete_ne. }
  unfold get_sem. cbn. rewrite (so_sem _ _ _ _ _ _ _ Ho). cbn.
  rewrite (qrep_head (qh w1) Q) by apply H.
  destruct (Z.ltb_spec 0 value) as [Hv | Hv].
  - assert (Q (HSem s) = []) as HQ by (destruct (Q (HSem s)); [done | by rewrite Hqueue in Hv]).
    rewrite HQ. cbn. unfold set_value, get_sem. cbn. rewrite (so_sem _ _ _ _ _ _ _ Ho). cbn.
    apply wp_done. split; [done|].
    eapply (Hback (i32 (value + 1))); cbn; try done.
    + by rewrite lookup_insert_eq.
    + apply wraps_small; lia.
    + pose proof (w_lock _ _ _ _ _ _ H). set_solver.
  - destruct (Q (HSem s)) as [|u l] eqn:HQ; cbn.
    + unfold set_value, get_sem. cbn. rewrite (so_sem _ _ _ _ _ _ _ Ho). cbn.
      apply wp_done. split; [done|]. eapply (Hback 1%Z); cbn; try done.
      * by rewrite lookup_insert_eq.
      * lia.
      * pose proof (w_lock _ _ _ _ _ _ H). set_solver.
    + destruct (winv_queued _ _ _ _ _ _ tt u H) as (HTu & HPu & Hmu & Hγu);
        [cbn; rewrite HQ; set_solver|].
      destruct (dequeue_refines (qh w1) Q u (w_rep _ _ _ _ _ _ H)) as (q' & Hq' & _);
        [exists (HSem s); rewrite HQ; set_solver|].
      erewrite dequeue_some by exact Hq'. cbn. rewrite wakeup_empty by done. cbn.
      apply wp_done. split; [done|]. exists (qremove u Q), (delete t (<[u := tt]> P)).
      assert (t <> u) as Htu by congruence.
      split.
      * rewrite view_insert. exists value, lost, inside.
        eapply obj_give; [exact Ho | done | apply Ho | done | done | | apply Ho |].
        -- rewrite delete_insert_ne by done. rewrite map_size_insert_None; [lia|].
           by rewrite lookup_delete_ne.
        -- intros _. by apply Hqueue.
      * match goal with |- Waiting.winv _ _ _ _ _ ?wf =>
          assert (winv (qremove u Q) (<[u := tt]> P) γ1 wf) as Hg end.
        { eapply winv_grant; [exact H | exact HQ | exact Hq' | done..|].
          cbn. pose proof (w_lock _ _ _ _ _ _ H). set_solver. }
        eapply winv_state; [exact Hg | done | eauto | | | done..|].
        -- by rewrite lookup_delete_eq.
        -- intros v Hv'. by rewrite lookup_delete_ne.
        -- apply Hg.
Qed.


(** ** The section *)

(** The threads inside hold a unit. *)
Lemma inside_grants Q P γ w value lost inside :
  winv Q P γ w -> sem_obj Q P (view γ) value lost inside w -> inside ⊆ dom P.
Proof.
  intros H Ho u Hu. apply (so_inside _ _ _ _ _ _ _ Ho) in Hu. unfold view in Hu.
  destruct (γ u) as [x| | | |] eqn:Hγ; try done. subst x.
  assert (u ∈ T) as HT by (eapply winv_in_T; [exact H | by rewrite Hγ]).
  destruct (winv_place _ _ _ _ _ _ _ H HT) as (n & _ & Hpl). rewrite Hγ in Hpl.
  apply elem_of_dom. exists tt. apply Hpl.
Qed.

(** A thread goes in or comes out. *)
Lemma move_inside Q P γ w value lost inside t x y (inside' : gset nat) z :
  winv Q P γ w -> sem_obj Q P (view γ) value lost inside w -> t ∈ T -> γ t = Out x ->
  sem_holds x = sem_holds y ->
  (forall u, u ∈ inside' <-> (if decide (u = t) then y = SInside else u ∈ inside)) ->
  z = Z.of_nat (size inside') ->
  at_phase t (Out y) γ (set_umem (<[0 := z]> (umem w)) w).
Proof.
  intros H Ho HT Hγ Hxy Hin ->.
  destruct (winv_place _ _ _ _ _ _ _ H HT) as (n & Hn & Hpl). rewrite Hγ in Hpl.
  exists Q, P. split.
  - rewrite view_insert. exists value, lost, inside'.
    destruct Ho as [H1 H2 H3 H4 H5 H6 H7]. split; try done.
    + intros u. rewrite Hin. case_decide as Hut.
      * subst u. by rewrite fn_lookup_insert.
      * by rewrite fn_lookup_insert_ne.
    + cbn. by rewrite lookup_insert_eq.
  - eapply winv_state; [exact H | done | eauto | | done..|].
    + etransitivity; [apply Hpl | exact Hxy].
    + apply H.
Qed.

Lemma section_spec t :
  t ∈ T -> triple t (at_phase t (Out SHolds)) (sem_section N) (ctx t)
             (fun _ => at_phase t (Out SHolds)).
Proof.
  intros HT γ w (Q & P & (value & lost & inside & Ho) & H). unfold sem_section. cbn.
  rewrite (so_mem _ _ _ _ _ _ _ Ho).
  assert (t ∉ inside) as Htin.
  { rewrite (so_inside _ _ _ _ _ _ _ Ho). unfold view. by rewrite fn_lookup_insert. }
  assert (size ({[t]} ∪ inside) <= size P) as Hle.
  { rewrite <- size_dom. apply subseteq_size.
    apply union_subseteq. split; [|by eapply inside_grants].
    intros u ->%elem_of_singleton. apply elem_of_dom. exists tt.
    destruct (winv_place _ _ _ _ _ _ _ H HT) as (n & _ & Hpl).
    rewrite fn_lookup_insert in Hpl. apply Hpl. }
  rewrite size_union, size_singleton in Hle by set_solver.
  pose proof (so_units _ _ _ _ _ _ _ Ho). pose proof (so_value _ _ _ _ _ _ _ Ho).
  destruct (Z.ltb_spec (Z.of_nat (size inside)) N); [|lia]. cbn.
  eapply wp_susp with (g := Out SInside); [done | |].
  { rewrite <- (fn_insert_insert γ t _ (Out SHolds)).
    eapply (move_inside Q P _ w value lost inside t SHolds SInside ({[t]} ∪ inside));
      [exact H | exact Ho | done | by rewrite fn_lookup_insert | done | |].
    - intros u. case_decide; set_solver.
    - rewrite size_union, size_singleton by set_solver. lia. }
  intros γ1 w1 e w2 Hγ1 (Q1 & P1 & (value1 & lost1 & inside1 & Ho1) & Hw1) Hr.
  inversion Hr; subst. apply wp_done. rewrite (so_mem _ _ _ _ _ _ _ Ho1).
  assert (t ∈ inside1) as Htin1.
  { rewrite (so_inside _ _ _ _ _ _ _ Ho1). unfold view. by rewrite Hγ1. }
  eapply (move_inside Q1 P1 _ w2 value1 lost1 inside1 t SInside SHolds (inside1 ∖ {[t]}));
    [exact Hw1 | exact Ho1 | done | done | done | |].
  - intros u. case_decide; [subst; set_solver | set_solver].
  - assert ({[t]} ⊆ inside1) as Hsub by set_solver.
    pose proof (subseteq_size _ _ Hsub) as Hge. rewrite size_difference by done.
    rewrite size_singleton in *. lia.
Qed.

Definition valid_sem_attempt (a : sem_attempt) : Prop :=
  match a with
  | ByTimedwait ts => ti = true /\ bad_timespec ts = false
  | _ => True
  end.

Lemma enter_spec t a :
  t ∈ T -> valid_sem_attempt a ->
  triple t (at_phase t (Out SIdle)) (sem_enter s a) (ctx t) (enter_post t).
Proof.
  intros HT Ha. destruct a as [| |ts]; cbn.
  - by apply timedwait_spec.
  - by apply trywait_spec.
  - destruct Ha as [Hti Hts]. apply timedwait_spec; [done | done | congruence].
Qed.

Lemma sem_client_spec t l :
  t ∈ T -> Forall valid_sem_attempt l ->
  triple t (at_phase t (Out SIdle)) (sem_client s N l) (ctx t) (fun _ => at_phase t (Out SIdle)).
Proof.
  intros HT Hl. induction Hl as [|a l Ha Hl IH]; [by intros γ w|].
  eapply triple_bind; [by apply enter_spec|]. intros r.
  apply triple_bind with (Q := fun _ => at_phase t (Out SIdle)); [|intros ?; exact IH].
  unfold enter_post. case_decide as Hr.
  - subst r. cbn. eapply triple_bind; [by apply section_spec|]. intros ?.
    eapply triple_bind; [by apply post_spec|]. intros r γ w [_ HI]. by apply wp_done.
  - destruct (Z.eqb_spec r 0); [done|]. by intros γ w.
Qed.
End SemInv.

(** ** Programs *)

(** The semaphore was initialised with [N], nobody uses it, and the threads of
    [T] run. *)
Definition sem_fresh (s : nat) (N : Z) (T : gset nat) (ctx : nat -> kctx) (w : world) : Prop :=
  (forall t, t ∈ T -> runs (ctx t) t w /\ mail w !! t = Some 0) /\
  (exists ps, sems w !! s = Some (mkSem ps N)) /\ (0 <= N < 2 ^ 31)%Z /\
  qh w = qheap_empty /\ SSem s ∉ spins w /\ umem w !! 0 = Some 0%Z.

(** Every thread of the pool is a client about to start. *)
Definition sem_pool (s : nat) (N : Z) (T : gset nat) (ctx : nat -> kctx) (ti : bool)
    (p : gmap nat thread_state) : Prop :=
  forall t st, p !! t = Some st -> t ∈ T /\
    exists l, Forall (valid_sem_attempt ti) l /\ st = spawn (ctx t) (sem_client s N l).

Lemma sem_good s N T ctx ti w p c :
  sem_fresh s N T ctx w -> sem_pool s N T ctx ti p -> rtc cstep (Run w p) c ->
  exists ps, good (WI (O := sem_object s ps N ti) T ctx) (WS (O := sem_object s ps N ti))
    (WE (O := sem_object s ps N ti)) c.
Proof.
  intros (Hrun & [ps Hs] & HN & Hq & Hl & Hu) Hp. exists ps.
  eapply adequacy; [intros; by apply (WI_tick (O := sem_object s ps N ti)) | | done].
  apply good_spawn with (fun _ => Out SIdle).
  - exists (fun _ => []), ∅. split.
    + exists N, 0, ∅. split; try done.
      * lia.
      * rewrite map_size_empty. lia.
      * cbn. by rewrite Hu.
    + split; [rewrite Hq; apply qrep_empty | done |]. intros t. split; [| | |done].
      * intros _. split_and!; [intros _; set_solver | done | done].
      * intros HT. by apply Hrun.
      * intros HT. exists 0. split; [by apply Hrun|]. cbn. split_and!; [|done|done].
        intros [h Hh]. set_solver.
  - intros t st Hst. destruct (Hp _ _ Hst) as (HT & l & Hl' & ->).
    eexists _, _. split; [done|]. split; [done|].
    eapply triple_weaken; [apply (sem_client_spec s ps N ti T ctx); [lia | done..] | |].
    + intros γ w' [Hγ HI]. by apply at_phase_same.
    + intros ? γ w' HI. by exists (Out SIdle).
  - done.
Qed.

(** C5: in a program of any number of threads that use wait, trywait, timedwait
    and post of a semaphore with the initial value [N], there are never more than
    [N] threads between a successful wait and the post that follows it, and no
    assertion of the library fails, whatever the interleaving. *)
Theorem sem_bounds_threads_inside s N T ctx w p c f :
  sem_fresh s N T ctx w -> sem_pool s N T ctx true p -> rtc cstep (Run w p) c -> c <> Crashed f.
Proof.
  intros Hf Hp Hc ->. destruct (sem_good _ _ _ _ _ _ _ _ Hf Hp Hc) as (ps & Hg). exact Hg.
Qed.

(** When no wait is timed, and every thread waits or has ended, then the value is
    the initial one. *)
Lemma sem_no_units s ps N T ctx Q P γ w :
  inv (O := sem_object s ps N false) T ctx Q P γ w ->
  (forall t, γ t = Out SIdle \/ exists c, γ t = Blocked c /\ t ∈ Q (HSem s)) ->
  sems w !! s = Some (mkSem ps N) /\ (Q (HSem s) <> [] -> N = 0%Z).
Proof.
  intros [(value & lost & inside & Ho) H] Hγ.
  assert (P = ∅) as ->.
  { apply map_empty. intros t. destruct (decide (t ∈ T)) as [HT | HT].
    - destruct (winv_place _ _ _ _ _ _ _ H HT) as (n & _ & Hpl).
      destruct (Hγ t) as [Hg | (c & Hg & Hin)]; rewrite Hg in Hpl; cbn in Hpl; [tauto|].
      destruct Hpl as [(_ & ? & _) | (Hnq & _)]; [done|]. destruct Hnq. by exists (HSem s).
    - by destruct (t_out _ _ _ _ _ _ _ (w_threads _ _ _ _ _ _ H t) HT) as (_ & ? & _). }
  destruct Ho as [H1 H2 H3 H4 H5 H6 H7]. rewrite map_size_empty, H4 in H3 by done.
  assert (value = N) as -> by lia. done.
Qed.

(** C6: such a program whose waits are not timed never deadlocks if [N] is not
    zero, and when all its threads have ended the semaphore has its initial
    value again. *)
Theorem sem_no_deadlock s N T ctx w p c :
  sem_fresh s N T ctx w -> sem_pool s N T ctx false p -> rtc cstep (Run w p) c -> (0 < N)%Z ->
  ~ stuck c /\ forall w', c = Run w' ∅ -> sem_value <$> sems w' !! s = Some N.
Proof.
  intros Hf Hp Hc HN. destruct (sem_good _ _ _ _ _ _ _ _ Hf Hp Hc) as (ps & Hg). split.
  - intros Hs. destruct c as [w' p'| |]; [|done|done].
    destruct (stuck_queued (O := sem_object s ps N false) T ctx w' p')
      as (γ & Q & P & H & (t & Ht) & Hin & Hout); [done..|].
    destruct (sem_no_units s ps N T ctx Q P γ w' H) as [_ HQ].
    + intros u. destruct (p' !! u) eqn:Hu; [right; apply Hin; congruence | left; auto].
    + destruct (Hin t Ht) as (c & _ & Htq). cbn in Htq.
      assert (Q (HSem s) <> []) as Hne by (intros HQ0; rewrite HQ0 in Htq; set_solver).
      specialize (HQ Hne). lia.
  - intros w' ->. destruct Hg as (γ & (Q & P & H) & _ & Hend).
    destruct (sem_no_units s ps N T ctx Q P γ w' H) as [-> _]; [|done].
    intros u. left. by apply Hend.
Qed.

(** ** Examples *)

(** [n] threads and a semaphore with the value [v]. *)
Definition demo_sem (n : nat) (v : Z) : world := set_sems {[0 := mkSem 0 v]} (demo_world n ANull).

Lemma demo_sem_fresh n v :
  (0 <= v < 2 ^ 31)%Z -> sem_fresh 0 v (list_to_set (seq 0 n)) demo_ctx (demo_sem n v).
Proof.
  intros Hv. split; [|split; [by exists 0%Z|]; split; [done|]; split; [done|];
    split; [set_solver | done]].
  intros t [_ Ht]%elem_of_list_to_set%elem_of_seq. split.
  - by apply (demo_runs n ANull).
  - by apply (demo_mail n ANull).
Qed.

Lemma demo_sem_pool N ti ls :
  Forall (Forall (valid_sem_attempt ti)) ls ->
  sem_pool 0 N (list_to_set (seq 0 (length ls))) demo_ctx ti (demo_pool (map (sem_client 0 N) ls)).
Proof.
  intros Hls t st (b & Hb & ->)%demo_pool_lookup. rewrite list_lookup_fmap in Hb.
  destruct (ls !! t) as [l|] eqn:Hl; [|done]. injection Hb as <-. split.
  - apply elem_of_list_to_set, elem_of_seq. apply lookup_lt_Some in Hl. lia.
  - exists l. split; [by eapply Forall_lookup_1 | done].
Qed.

Definition demo_sem_attempts : list (list sem_attempt) :=
  [[ByWait; ByTrywait]; [ByTimedwait (mkTimespec 1 0); ByWait]; [ByTrywait; ByWait]].

Definition demo_sem_start (ls : list (list sem_attempt)) : config :=
  Run (demo_sem (length ls) 2) (demo_pool (map (sem_client 0 2) ls)).

Lemma sem_bounds_threads_inside_witness :
  run_schedule [(0, false); (1, false); (0, false); (1, false)] (demo_sem_start demo_sem_attempts)
    <> Crashed FAssert.
Proof.
  apply (sem_bounds_threads_inside 0 2 (list_to_set (seq 0 3)) demo_ctx (demo_sem 3 2)
           (demo_pool (map (sem_client 0 2) demo_sem_attempts))).
  - by apply demo_sem_fresh.
  - apply (demo_sem_pool 2 true demo_sem_attempts).
    repeat constructor.
  - apply run_schedule_rtc.
Defined.

Lemma sem_no_deadlock_witness :
  ~ stuck (run_schedule [(0, false); (1, false); (0, false); (1, false)]
             (demo_sem_start [[ByWait]; [ByTrywait; ByWait]; [ByWait]])).
Proof.
  apply (sem_no_deadlock 0 2 (list_to_set (seq 0 3)) demo_ctx (demo_sem 3 2)
           (demo_pool (map (sem_client 0 2) [[ByWait]; [ByTrywait; ByWait]; [ByWait]]))).
  - by apply demo_sem_fresh.
  - apply (demo_sem_pool 2 false [[ByWait]; [ByTrywait; ByWait]; [ByWait]]).
    repeat constructor.
  - apply run_schedule_rtc.
  - done.
Defined.

(** ** A lost unit *)

Definition lost_unit_programs : list (M unit) :=
  [_ ← __sem_post 0; mret tt; _ ← __sem_timedwait 0 (Some (mkTimespec 1 0)); mret tt].

Definition lost_unit_schedule : list (nat * bool) :=
  [(1, false); (1, false); (1, true);     (* 1 queues up, its wait expires *)
   (0, false); (0, false);                (* 0 posts: the unit goes to 1 *)
   (1, false); (1, false)].               (* 1 drains the message: ETIMEDOUT *)

(** What a configuration in which all threads have ended says about semaphore 0
    and the [errno] of thread [t]. *)
Definition sem_outcome (t : nat) (c : config) : option (Z * option error_t) :=
  match c with
  | Run w p =>
      if decide (size p = 0) then
        x ← sems w !! 0; Some (sem_value x, errnos (env w) !! Z.of_nat t)
      else None
  | _ => None
  end.

(** A timed wait that expires just before a post dequeues it swallows the
    unit: the post succeeds, the wait fails with ETIMEDOUT, and the value stays
    zero. *)
Theorem sem_timedwait_loses_unit :
  exists c, rtc cstep (Run (demo_sem 2 0) (demo_pool lost_unit_programs)) c /\
    sem_outcome 1 c = Some (0%Z, Some ETIMEDOUT).
Proof.
  exists (run_schedule lost_unit_schedule (Run (demo_sem 2 0) (demo_pool lost_unit_programs))).
  split; [apply run_schedule_rtc | by vm_compute].
Qed.
