(* ===== verification/Rwlock.v ===== *)
(** * Read/write locks: sysdeps/generic/pt-rwlock-*.c

    [__held] is the spin lock [SRwHeld r], [__lock] is [SRwLock r]; the two
    queues are [HReaders r] and [HWriters r]. *)
From Stdlib Require Import ZArith Lia.
From S2P Require Import Prelude Queue World Machine Sched Mach Attr.

Definition get_rwlock (r : rwlock_id) : M rwlock := o ← gets (fun w => rwlocks w !! r); deref o.

Definition set_readers (r : rwlock_id) (n : Z) : M unit :=
  x ← get_rwlock r;
  modify (fun w => set_rwlocks (<[r := mkRwlock n (rw_attr x)]> (rwlocks w)) w).

(** The three assertions made after [__held] was taken. *)
Definition assert_unused (r : rwlock_id) : M unit :=
  rq ← queue_head (HReaders r);
  c_assert (bool_decide (rq = None));;
  wq ← queue_head (HWriters r);
  c_assert (bool_decide (wq = None));;
  x ← get_rwlock r;
  c_assert (rw_readers x =? 0)%Z.

(** [readers ++] for a lock that readers hold. *)
Definition join_readers (r : rwlock_id) : M error_t :=
  rq ← queue_head (HReaders r);
  c_assert (bool_decide (rq = None));;
  x ← get_rwlock r;
  set_readers r (i32 (rw_readers x + 1));;
  __pthread_spin_unlock (SRwLock r);;
  mret OK.

Definition __pthread_rwlock_timedrdlock_internal (r : rwlock_id) (abstime : option timespec) :
    M error_t :=
  __pthread_spin_lock (SRwLock r);;
  held ← __pthread_spin_trylock (SRwHeld r);
  if decide (held = OK) then
    assert_unused r;;
    set_readers r 1;;
    __pthread_spin_unlock (SRwLock r);;
    mret OK
  else
  x ← get_rwlock r;
  if (0 <? rw_readers x)%Z then join_readers r
  else
  c_assert (rw_readers x =? 0)%Z;;
  if bad_abstime abstime then mret EINVAL
  else
  self ← _pthread_self;
  enqueue (HReaders r) self;;
  __pthread_spin_unlock (SRwLock r);;
  err ← wait_for_wakeup (SRwLock r) self abstime CLOCK_REALTIME;
  if decide (err <> OK) then c_assert (bool_decide (err = ETIMEDOUT));; mret err
  else
  yield;;
  x ← get_rwlock r;
  c_assert (0 <? rw_readers x)%Z;;
  mret OK.

Definition pthread_rwlock_rdlock (r : rwlock_id) : M error_t :=
  __pthread_rwlock_timedrdlock_internal r None.
Definition pthread_rwlock_timedrdlock (r : rwlock_id) (abstime : option timespec) : M error_t :=
  __pthread_rwlock_timedrdlock_internal r abstime.

Definition __pthread_rwlock_timedwrlock_internal (r : rwlock_id) (abstime : option timespec) :
    M error_t :=
  __pthread_spin_lock (SRwLock r);;
  held ← __pthread_spin_trylock (SRwHeld r);
  if decide (held = OK) then
    assert_unused r;;
    __pthread_spin_unlock (SRwLock r);;
    mret OK
  else
  if bad_abstime abstime then mret EINVAL
  else
  self ← _pthread_self;
  enqueue (HWriters r) self;;
  __pthread_spin_unlock (SRwLock r);;
  err ← wait_for_wakeup (SRwLock r) self abstime CLOCK_REALTIME;
  if decide (err <> OK) then c_assert (bool_decide (err = ETIMEDOUT));; mret err
  else
  yield;;
  x ← get_rwlock r;
  c_assert (rw_readers x =? 0)%Z;;
  mret OK.

Definition pthread_rwlock_wrlock (r : rwlock_id) : M error_t :=
  __pthread_rwlock_timedwrlock_internal r None.
Definition pthread_rwlock_timedwrlock (r : rwlock_id) (abstime : option timespec) : M error_t :=
  __pthread_rwlock_timedwrlock_internal r abstime.

Definition pthread_rwlock_tryrdlock (r : rwlock_id) : M error_t :=
  __pthread_spin_lock (SRwLock r);;
  held ← __pthread_spin_trylock (SRwHeld r);
  if decide (held = OK) then
    assert_unused r;;
    set_readers r 1;;
    __pthread_spin_unlock (SRwLock r);;
    mret OK
  else
  x ← get_rwlock r;
  if (0 <? rw_readers x)%Z then join_readers r
  else
  __pthread_spin_unlock (SRwLock r);;
  mret EBUSY.

Definition pthread_rwlock_trywrlock (r : rwlock_id) : M error_t :=
  __pthread_spin_lock (SRwLock r);;
  held ← __pthread_spin_trylock (SRwHeld r);
  if decide (held = OK) then
    assert_unused r;;
    __pthread_spin_unlock (SRwLock r);;
    mret OK
  else
  __pthread_spin_unlock (SRwLock r);;
  mret EBUSY.

(** The lock goes to the waiting readers, all of them. *)
Definition wake_reader (r : rwlock_id) (wakeup : nat) : M unit :=
  x ← get_rwlock r;
  set_readers r (i32 (rw_readers x + 1));;
  __pthread_wakeup wakeup.

Definition pthread_rwlock_unlock (r : rwlock_id) : M error_t :=
  __pthread_spin_lock (SRwLock r);;
  held ← __pthread_spin_trylock (SRwHeld r);
  c_assert (bool_decide (held = EBUSY));;
  x ← get_rwlock r;
  if (1 <? rw_readers x)%Z then
    set_readers r (rw_readers x - 1);;
    __pthread_spin_unlock (SRwLock r);;
    mret OK
  else
  when (rw_readers x =? 1)%Z (set_readers r 0);;
  wq ← queue_head (HWriters r);
  match wq with
  | Some wakeup =>
      dequeue wakeup;;
      __pthread_spin_unlock (SRwLock r);;
      __pthread_wakeup wakeup;;
      mret OK
  | None =>
      rq ← queue_head (HReaders r);
      match rq with
      | Some _ =>
          __pthread_dequeuing_iterate rq (wake_reader r);;
          modify (fun w => set_qh (clear_head (HReaders r) (qh w)) w);;
          __pthread_spin_unlock (SRwLock r);;
          mret OK
      | None =>
          __pthread_spin_unlock (SRwHeld r);;
          __pthread_spin_unlock (SRwLock r);;
          mret OK
      end
  end.

(** pt-rwlock-init.c, with the misplaced parenthesis of the call to [memcmp]. *)
Definition _pthread_rwlock_init (r : rwlock_id) (attr : option rwlockattr) : M error_t :=
  modify (fun w => set_spins (spins w ∖ {[SRwHeld r; SRwLock r]}) w);;
  modify (fun w => set_qh (clear_head (HReaders r) (clear_head (HWriters r) (qh w))) w);;
  modify (fun w => set_rwlocks (<[r := mkRwlock 0 None]> (rwlocks w)) w);;
  match attr with
  | None => mret OK
  | Some a =>
      if negb (memcmp_zero =? 0)%Z then mret OK
      else
      ok ← malloc_ok;
      if negb ok then mret ENOMEM
      else
      modify (fun w => set_rwlocks (<[r := mkRwlock 0 (Some a)]> (rwlocks w)) w);;
      mret OK
  end.

Definition _pthread_rwlock_destroy (r : rwlock_id) : M error_t := mret OK.

#[global] Arguments join_readers : simpl never.
#[global] Arguments assert_unused : simpl never.
#[global] Arguments wake_reader : simpl never.
#[global] Arguments pthread_rwlock_rdlock : simpl never.
#[global] Arguments pthread_rwlock_wrlock : simpl never.
#[global] Arguments pthread_rwlock_unlock : simpl never.

(** ** A lock that nobody else uses *)

Record rwlock_idle (r : rwlock_id) (attr : option rwlockattr) (w : world) : Prop := {
  ri_attr : rwlocks w !! r = Some (mkRwlock 0 attr);
  ri_lock : SRwLock r ∉ spins w;
  ri_held : SRwHeld r ∉ spins w;
  ri_readers : cells (qh w) !! Head (HReaders r) = None;
  ri_writers : cells (qh w) !! Head (HWriters r) = None;
}.

(** The world while a lone thread holds the lock with [n] readers. *)
Definition hold_rwlock (r : rwlock_id) (attr : option rwlockattr) (n : Z) (w : world) : world :=
  set_spins ({[SRwHeld r]} ∪ spins w) (set_rwlocks (<[r := mkRwlock n attr]> (rwlocks w)) w).

Lemma solo_take_held r me w {B} (f : error_t -> world -> res B) (c : error_t -> M error_t) :
  SRwLock r ∉ spins w -> SRwHeld r ∉ spins w ->
  solo (bindr ((__pthread_spin_lock (SRwLock r);; held ← __pthread_spin_trylock (SRwHeld r); c held) me w) f)
  = solo (bindr (c OK me (set_spins ({[SRwHeld r]} ∪ ({[SRwLock r]} ∪ spins w)) w)) f).
Proof.
  intros Hl Hh. cbn. unfold __pthread_spin_lock. cbn.
  rewrite bool_decide_eq_false_2, decide_True by done. cbn.
  by rewrite bool_decide_eq_false_2 by set_solver.
Qed.

Lemma solo_assert_unused r attr me w s :
  rwlock_idle r attr w -> assert_unused r me (set_spins s w) = Done tt (set_spins s w).
Proof.
  intros [Hr _ _ H1 H2]. unfold assert_unused, get_rwlock. cbn. rewrite H1. cbn.
  rewrite H2. cbn. by rewrite Hr.
Qed.

Lemma solo_rdlock r attr me w {B} (f : error_t -> world -> res B) :
  rwlock_idle r attr w ->
  solo (bindr (pthread_rwlock_rdlock r me w) f) = solo (f OK (hold_rwlock r attr 1 w)).
Proof.
  intros H. unfold pthread_rwlock_rdlock, __pthread_rwlock_timedrdlock_internal.
  rewrite solo_take_held by apply H. rewrite decide_True by done. cbn.
  rewrite (solo_assert_unused r attr) by done. destruct H as [Hr Hl Hh _ _].
  unfold set_readers, get_rwlock, hold_rwlock. cbn. rewrite Hr. cbn.
  same_spins.
Qed.

Lemma solo_wrlock r attr me w {B} (f : error_t -> world -> res B) :
  rwlock_idle r attr w ->
  solo (bindr (pthread_rwlock_wrlock r me w) f) = solo (f OK (hold_rwlock r attr 0 w)).
Proof.
  intros H. unfold pthread_rwlock_wrlock, __pthread_rwlock_timedwrlock_internal.
  rewrite solo_take_held by apply H. rewrite decide_True by done. cbn.
  rewrite (solo_assert_unused r attr) by done. destruct H as [Hr Hl Hh _ _].
  unfold hold_rwlock. cbn. rewrite (insert_id (rwlocks w)) by done.
  destruct w; cbn in *. same_spins.
Qed.

(** The only reader, or the writer, leaves. *)
Lemma solo_rwlock_unlock r attr n me w {B} (f : error_t -> world -> res B) :
  rwlocks w !! r = Some (mkRwlock n attr) -> (n = 0 \/ n = 1)%Z ->
  SRwLock r ∉ spins w -> SRwHeld r ∈ spins w ->
  cells (qh w) !! Head (HReaders r) = None -> cells (qh w) !! Head (HWriters r) = None ->
  solo (bindr (pthread_rwlock_unlock r me w) f) =
  solo (f OK (set_spins (spins w ∖ {[SRwHeld r]})
                (set_rwlocks (<[r := mkRwlock 0 attr]> (rwlocks w)) w))).
Proof.
  intros Hr Hn Hl Hh H1 H2. unfold pthread_rwlock_unlock, get_rwlock. cbn.
  unfold __pthread_spin_lock. cbn. rewrite bool_decide_eq_false_2, decide_True by done. cbn.
  rewrite (bool_decide_eq_true_2 (SRwHeld r ∈ _)) by set_solver. cbn.
  rewrite bool_decide_eq_true_2 by done. cbn. rewrite Hr. cbn.
  unfold set_readers, get_rwlock.
  destruct Hn as [-> | ->]; cbn; rewrite ?Hr; cbn; rewrite H2; cbn; rewrite H1; cbn.
  - rewrite (insert_id (rwlocks w)) by done. destruct w; cbn in *. same_spins.
  - same_spins.
Qed.

(** Taking and dropping the lock leaves no trace. *)
Lemma hold_rwlock_undo r attr n w :
  rwlock_idle r attr w ->
  set_spins (spins (hold_rwlock r attr n w) ∖ {[SRwHeld r]})
    (set_rwlocks (<[r := mkRwlock 0 attr]> (rwlocks (hold_rwlock r attr n w))) (hold_rwlock r attr n w)) = w.
Proof.
  intros [Hr Hl Hh _ _]. unfold hold_rwlock. cbn.
  rewrite insert_insert_eq, insert_id, spins_cycle by done. by destruct w.
Qed.
