(* ===== verification/RwlockSpec.v ===== *)
(** * Read/write locks used by any number of threads

    An instance of Waiting.v with the two classes of readers and writers. *)
From Stdlib Require Import ZArith Lia.
From stdpp Require Import relations.
From S2P Require Import Prelude Queue World Machine Sched Mach Demo Waiting Attr Rwlock.

(** ** Client programs *)

Inductive rw_attempt := ByRdlock | ByTryrdlock | ByWrlock | ByTrywrlock
  | ByTimedwrlock (abstime : timespec).

Definition rw_enter (r : rwlock_id) (a : rw_attempt) : M error_t :=
  match a with
  | ByRdlock => pthread_rwlock_rdlock r
  | ByTryrdlock => pthread_rwlock_tryrdlock r
  | ByWrlock => pthread_rwlock_wrlock r
  | ByTrywrlock => pthread_rwlock_trywrlock r
  | ByTimedwrlock ts => pthread_rwlock_timedwrlock r (Some ts)
  end.

Definition is_read (a : rw_attempt) : bool :=
  match a with ByRdlock | ByTryrdlock => true | _ => false end.

(** Cells 0 and 1 of the application memory count the readers and the writers
    inside; both sections give the processor away. *)
Definition cell (w : world) (i : nat) : Z := default 0%Z (umem w !! i).

Definition rw_section (read : bool) : M unit :=
  readers ← gets (fun w => cell w 0);
  writers ← gets (fun w => cell w 1);
  c_assert (bool_decide (writers = 0%Z) && (read || bool_decide (readers = 0%Z)));;
  let i := if read then 0 else 1 in
  modify (fun w => set_umem (<[i := Z.succ (cell w i)]> (umem w)) w);;
  yield;;
  modify (fun w => set_umem (<[i := Z.pred (cell w i)]> (umem w)) w).

Fixpoint rw_client (r : rwlock_id) (attempts : list rw_attempt) : M unit :=
  match attempts with
  | [] => mret tt
  | a :: attempts =>
      err ← rw_enter r a;
      when (bool_decide (err = OK)) (rw_section (is_read a);; _ ← pthread_rwlock_unlock r; mret tt);;
      rw_client r attempts
  end.

(** ** The invariant *)

Inductive rw_class := Reader | Writer.
Inductive rw_state := RwIdle | RwHolds (c : rw_class) | RwInside (c : rw_class).

#[export] Instance rw_class_eq_dec : EqDecision rw_class.
Proof. solve_decision. Defined.
#[export] Instance rw_state_eq_dec : EqDecision rw_state.
Proof. solve_decision. Defined.

Definition class_of (read : bool) : rw_class := if read then Reader else Writer.
Definition cell_of (c : rw_class) : nat := match c with Reader => 0 | Writer => 1 end.

Definition rw_holds (x : rw_state) : option rw_class :=
  match x with RwIdle => None | RwHolds c | RwInside c => Some c end.

Section RwInv.
Context (r : rwlock_id) (ti : bool).

Definition rw_head (c : rw_class) : head_id :=
  match c with Reader => HReaders r | Writer => HWriters r end.

(** [readers] counts the readers; a writer that was granted the lock, or one such
    grant that got lost with an expired wait, excludes readers and other writers. *)
Record rw_obj (Q : head_id -> list nat) (P : gmap nat rw_class) (v : nat -> rw_state)
    (lost : nat) (inside : rw_class -> gset nat) (w : world) : Prop := {
  ro_lock : exists attr, rwlocks w !! r = Some (mkRwlock (Z.of_nat (granted Reader P)) attr);
  ro_writers : granted Writer P + lost <= 1;
  ro_excl : 0 < granted Reader P -> granted Writer P + lost = 0;
  ro_held : SRwHeld r ∈ spins w <-> 0 < granted Reader P + granted Writer P + lost;
  ro_lost : ti = false -> lost = 0;
  ro_rqueue : Q (HReaders r) <> [] -> 0 < granted Writer P + lost;
  ro_wqueue : Q (HWriters r) <> [] -> 0 < granted Reader P + granted Writer P + lost;
  ro_inside : forall t c, t ∈ inside c <-> v t = RwInside c;
  ro_mem : forall c, cell w (cell_of c) = Z.of_nat (size (inside c));
}.

Definition rw_Obj (Q : head_id -> list nat) (P : gmap nat rw_class) (v : nat -> rw_state)
    (w : world) : Prop :=
  exists lost inside, rw_obj Q P v lost inside w.

Lemma rw_obj_frame Q P v lost inside w Q' w' :
  rw_obj Q P v lost inside w -> (forall h, Q' h <> [] -> Q h <> []) ->
  rwlocks w' !! r = rwlocks w !! r -> (SRwHeld r ∈ spins w' <-> SRwHeld r ∈ spins w) ->
  umem w' = umem w -> rw_obj Q' P v lost inside w'.
Proof.
  intros [] HQ Hr Hs Hu. unfold cell in *. split; try done; rewrite ?Hr, ?Hs, ?Hu; auto.
  unfold cell. by rewrite Hu.
Qed.

Lemma rw_Obj_links Q P v w w' : links (SRwLock r) w w' -> rw_Obj Q P v w -> rw_Obj Q P v w'.
Proof.
  intros [] (lost & inside & H). exists lost, inside.
  eapply rw_obj_frame; [exact H | done | by rewrite lk_rwlocks | by apply lk_spins | done].
Qed.

Lemma rw_Obj_leave Q P v w t : rw_Obj Q P v w -> rw_Obj (qremove t Q) P v w.
Proof.
  intros (lost & inside & H). exists lost, inside. eapply rw_obj_frame; [exact H | | done..].
  intros h. apply qremove_nonempty.
Qed.

(** Waits for writing may be timed if [ti] says so; those for reading are not. *)
#[local] Instance rw_object : WaitObject rw_class rw_state.
Proof.
  refine {|
    hd := rw_head; olock := SRwLock r; timed c := match c with Reader => false | Writer => ti end;
    idle := RwIdle; holds := rw_holds;
    Obj := rw_Obj; Obj_links := rw_Obj_links; Obj_leave := rw_Obj_leave |}.
  - by intros [] [].
  - done.
Defined.

Context (T : gset nat) (ctx : nat -> kctx).
Context (HT31 : (Z.of_nat (size T) < 2 ^ 31)%Z).

Abbreviation I := (WI (O := rw_object) T ctx).
Abbreviation wp := (wp I WS WE).
Abbreviation triple := (triple I WS WE).
Abbreviation at_phase := (at_phase I).
Abbreviation inv := (inv (O := rw_object) T ctx).
Abbreviation winv := (winv (O := rw_object) T ctx).

(** ** Steps of the invariant *)

Definition outside (x : rw_state) : Prop := forall c, x <> RwInside c.

(** A change that is not about being inside. *)
Lemma rw_obj_step Q P v lost inside w t y Q' P' lost' w' :
  rw_obj Q P v lost inside w -> outside (v t) -> outside y -> umem w' = umem w ->
  (exists attr, rwlocks w' !! r = Some (mkRwlock (Z.of_nat (granted Reader P')) attr)) ->
  granted Writer P' + lost' <= 1 ->
  (0 < granted Reader P' -> granted Writer P' + lost' = 0) ->
  (SRwHeld r ∈ spins w' <-> 0 < granted Reader P' + granted Writer P' + lost') ->
  (ti = false -> lost' = 0) ->
  (Q' (HReaders r) <> [] -> 0 < granted Writer P' + lost') ->
  (Q' (HWriters r) <> [] -> 0 < granted Reader P' + granted Writer P' + lost') ->
  rw_obj Q' P' (<[t := y]> v) lost' inside w'.
Proof.
  intros [] Hv Hy Hu Hr Hw He Hh Hl Hrq Hwq. split; try done.
  - intros u c. rewrite ro_inside0. destruct (decide (t = u)) as [<- | Hne].
    + rewrite fn_lookup_insert. split; intros Hc; [by destruct (Hv c) | by destruct (Hy c)].
    + by rewrite fn_lookup_insert_ne.
  - intros c. unfold cell. rewrite Hu. apply ro_mem0.
Qed.

Lemma view_outside (γ : nat -> wphase rw_class rw_state) t :
  (exists x, γ t = Out x /\ outside x) \/ (exists c, γ t = Woken c) ->
  outside (view (O := rw_object) γ t).
Proof. unfold view. intros [(x & -> & Hx) | [c ->]] c'; [apply Hx | done]. Qed.

(** The counts of a lock that is free. *)
Lemma obj_free Q P v lost inside w :
  rw_obj Q P v lost inside w -> SRwHeld r ∉ spins w ->
  granted Reader P = 0 /\ granted Writer P = 0 /\ lost = 0 /\
  Q (HReaders r) = [] /\ Q (HWriters r) = [].
Proof.
  intros [] Hs. rewrite ro_held0 in Hs.
  destruct (Q (HReaders r)); [|by assert (0 < granted Writer P + lost) by auto; lia].
  destruct (Q (HWriters r)); [|by assert (0 < granted Reader P + granted Writer P + lost) by auto; lia].
  split_and!; [lia.. | done | done].
Qed.

Lemma assert_unused_spec Q attr me w :
  qrep (qh w) Q -> Q (HReaders r) = [] -> Q (HWriters r) = [] ->
  rwlocks w !! r = Some (mkRwlock 0 attr) -> assert_unused r me w = Done tt w.
Proof.
  intros R H1 H2 Hr. unfold assert_unused, get_rwlock. cbn.
  rewrite (qrep_head _ _ (HReaders r) R), H1. cbn.
  rewrite (qrep_head _ _ (HWriters r) R), H2. cbn. by rewrite Hr.
Qed.

(** [t] gets the lock in class [c]: it was free, or other readers share it. *)
Lemma rw_take Q P γ w t c lost inside w' :
  winv Q P γ w -> rw_obj Q P (view (O := rw_object) γ) lost inside w -> t ∈ T -> γ t = Out RwIdle ->
  match c with
  | Reader => granted Writer P + lost = 0 /\ Q (HReaders r) = []
  | Writer => granted Reader P = 0 /\ granted Writer P + lost = 0
  end ->
  (exists attr, rwlocks w' !! r =
    Some (mkRwlock (Z.of_nat (granted Reader P + match c with Reader => 1 | _ => 0 end)) attr)) ->
  SRwHeld r ∈ spins w' -> SRwLock r ∉ spins w' -> umem w' = umem w -> framed w w' ->
  qh w' = qh w -> mail w' = mail w ->
  at_phase t (Out (RwHolds c)) γ w'.
Proof.
  intros H Ho HT Hγ Hc Hr Hh Hl Hu Hf Hq Hm.
  destruct (winv_place _ _ _ _ _ _ _ H HT) as (n & Hn & Hpl).
  rewrite Hγ in Hpl. destruct Hpl as (_ & HP & _). cbn in HP.
  exists Q, (<[t := c]> P). split.
  - rewrite view_insert. exists lost, inside.
    pose proof (granted_insert Reader c P t HP) as HgR.
    pose proof (granted_insert Writer c P t HP) as HgW.
    pose proof Ho as [? ? ? ? ? Hrq Hwq ? ?].
    eapply rw_obj_step; [exact Ho | | done | done | ..];
      [apply view_outside; left; by exists RwIdle | ..]; rewrite ?HgR, ?HgW;
      destruct c; repeat case_decide; try done; rewrite ?Nat.add_0_r in *; try tauto; try lia.
    + split; [lia | done].
    + split; [lia | done].
  - eapply winv_state; [exact H | done | eauto | | | done..].
    + by rewrite lookup_insert_eq.
    + intros u Hu'. by rewrite lookup_insert_ne.
Qed.

(** ** Acquiring *)

Definition rw_post t (c : rw_class) (e : error_t) (γ : nat -> wphase rw_class rw_state) (w : world) : Prop :=
  if decide (e = OK) then at_phase t (Out (RwHolds c)) γ w
  else at_phase t (Out RwIdle) γ w.

(** The state of the lock behind its spin lock. *)
Abbreviation locked w := (set_spins ({[SRwLock r]} ∪ spins w) w).

Lemma rw_start t x {B} (f : M B) γ w Q :
  at_phase t (Out x) γ w ->
  (forall γ1 w1 Q1 P lost inside, γ1 t = Out x -> winv Q1 P γ1 w1 ->
     rw_obj Q1 P (view (O := rw_object) γ1) lost inside w1 ->
     wp t (f (ctx t) (locked w1)) γ1 Q) ->
  wp t ((__pthread_spin_lock (SRwLock r);; f) (ctx t) w) γ Q.
Proof.
  intros HI Hk. eapply wp_spin_lock; [|exact HI|apply (WI_lock (O := rw_object) T ctx)|]; [done|].
  intros γ1 w1 Hγ1 (Q1 & P & (lost & inside & Ho) & H). eauto.
Qed.

(** The attempt to get [__held]. *)
Lemma trylock_held me w1 :
  __pthread_spin_trylock (SRwHeld r) me (locked w1) =
  Done (if decide (SRwHeld r ∈ spins w1) then EBUSY else OK)
       (set_spins ({[SRwHeld r]} ∪ ({[SRwLock r]} ∪ spins w1)) w1).
Proof.
  unfold __pthread_spin_trylock. cbn. repeat case_decide; try done;
    case_bool_decide; try done; set_solver.
Qed.

Lemma held_same w1 :
  SRwHeld r ∈ spins w1 ->
  set_spins ({[SRwHeld r]} ∪ ({[SRwLock r]} ∪ spins w1)) w1 = locked w1.
Proof. intros H. f_equal. set_solver. Qed.

(** The lock was free. *)
Lemma take_free_read Q P γ w t lost inside :
  winv Q P γ w -> rw_obj Q P (view (O := rw_object) γ) lost inside w -> t ∈ T -> γ t = Out RwIdle ->
  SRwHeld r ∉ spins w ->
  wp t ((assert_unused r;; set_readers r 1;; __pthread_spin_unlock (SRwLock r);; mret OK) (ctx t)
          (set_spins ({[SRwHeld r]} ∪ ({[SRwLock r]} ∪ spins w)) w)) γ (rw_post t Reader).
Proof.
  intros H Ho HT Hγ Hs. destruct (obj_free _ _ _ _ _ _ Ho Hs) as (HR & HW & -> & HQr & HQw).
  destruct (ro_lock _ _ _ _ _ _ Ho) as [attr Hr]. rewrite HR in Hr. cbn.
  erewrite assert_unused_spec; [|apply H | done | done | exact Hr].
  unfold set_readers, get_rwlock. cbn. rewrite Hr. cbn. apply wp_done.
  unfold rw_post. rewrite decide_True by done.
  eapply rw_take; [exact H | exact Ho | done | done | | | | | done..].
  - split; [lia | done].
  - exists attr. cbn. rewrite lookup_insert_eq. do 2 f_equal. lia.
  - cbn. set_solver.
  - cbn. pose proof (w_lock _ _ _ _ _ _ H). set_solver.
Qed.

Lemma take_free_write Q P γ w t lost inside :
  winv Q P γ w -> rw_obj Q P (view (O := rw_object) γ) lost inside w -> t ∈ T -> γ t = Out RwIdle ->
  SRwHeld r ∉ spins w ->
  wp t ((assert_unused r;; __pthread_spin_unlock (SRwLock r);; mret OK) (ctx t)
          (set_spins ({[SRwHeld r]} ∪ ({[SRwLock r]} ∪ spins w)) w)) γ (rw_post t Writer).
Proof.
  intros H Ho HT Hγ Hs. destruct (obj_free _ _ _ _ _ _ Ho Hs) as (HR & HW & -> & HQr & HQw).
  destruct (ro_lock _ _ _ _ _ _ Ho) as [attr Hr]. rewrite HR in Hr. cbn.
  erewrite assert_unused_spec; [|apply H | done | done | exact Hr]. cbn. apply wp_done.
  unfold rw_post. rewrite decide_True by done.
  eapply rw_take; [exact H | exact Ho | done | done | | | | | done..].
  - split; lia.
  - exists attr. cbn. rewrite Hr. do 2 f_equal. lia.
  - cbn. set_solver.
  - cbn. pose proof (w_lock _ _ _ _ _ _ H). set_solver.
Qed.

(** The number of readers fits the C integer. *)
Lemma granted_bound Q P γ w : winv Q P γ w -> (Z.of_nat (granted Reader P) < 2 ^ 31)%Z.
Proof.
  intros H. assert (size P <= size T).
  { rewrite <- size_dom. apply subseteq_size. intros t [c Ht]%elem_of_dom.
    destruct (decide (t ∈ T)) as [|HT]; [done|].
    destruct (t_out _ _ _ _ _ _ _ (w_threads _ _ _ _ _ _ H t) HT) as (_ & ? & _). congruence. }
  pose proof (granted_le Reader P). lia.
Qed.

Lemma grant_fits Q P γ w t :
  winv Q P γ w -> t ∈ T -> P !! t = None -> (Z.of_nat (granted Reader P) + 1 < 2 ^ 31)%Z.
Proof.
  intros H HT HP.
  assert (S (size P) <= size T).
  { rewrite <- (map_size_insert_None t Reader P HP). rewrite <- size_dom.
    apply subseteq_size. intros u [c Hu]%elem_of_dom.
    destruct (decide (u ∈ T)) as [|HTu]; [done|].
    destruct (t_out _ _ _ _ _ _ _ (w_threads _ _ _ _ _ _ H u) HTu) as (_ & HPu & _).
    rewrite lookup_insert_ne in Hu by (intros ->; done). congruence. }
  pose proof (granted_le Reader P). lia.
Qed.

(** Readers hold the lock: [t] joins them. *)
Lemma join_spec Q P γ w t lost inside :
  winv Q P γ w -> rw_obj Q P (view (O := rw_object) γ) lost inside w -> t ∈ T -> γ t = Out RwIdle ->
  0 < granted Reader P ->
  wp t (join_readers r (ctx t) (locked w)) γ (rw_post t Reader).
Proof.
  intros H Ho HT Hγ HR. pose proof Ho as [[attr Hr] _ He Hh _ Hrq _ _ _].
  assert (Q (HReaders r) = []) as HQ.
  { destruct (Q (HReaders r)); [done|]. specialize (He HR). assert (0 < granted Writer P + lost) by auto. lia. }
  destruct (winv_place _ _ _ _ _ _ _ H HT) as (n & Hn & Hpl). rewrite Hγ in Hpl.
  pose proof (grant_fits _ _ _ _ _ H HT (proj1 (proj2 Hpl))) as Hfit.
  unfold join_readers, set_readers, get_rwlock. cbn.
  rewrite (qrep_head (qh w) Q) by apply H. rewrite HQ. cbn. rewrite Hr. cbn. rewrite Hr. cbn.
  apply wp_done. unfold rw_post. rewrite decide_True by done.
  eapply rw_take; [exact H | exact Ho | done | done | | | | | done..].
  - split; [by apply He | done].
  - exists attr. cbn. rewrite lookup_insert_eq. do 2 f_equal. rewrite wraps_small; lia.
  - cbn. assert (SRwHeld r ∈ spins w) by (apply Hh; lia). set_solver.
  - cbn. pose proof (w_lock _ _ _ _ _ _ H). set_solver.
Qed.

(** *** Waiting *)

(** Queueing up in class [c]. *)
Lemma rw_queue_up Q P γ w t c lost inside :
  winv Q P γ w -> rw_obj Q P (view (O := rw_object) γ) lost inside w -> t ∈ T -> γ t = Out RwIdle ->
  SRwHeld r ∈ spins w -> (c = Reader -> granted Reader P = 0) ->
  exists q', __pthread_enqueue (rw_head c) t (qh w) = Some q' /\
    at_phase t (Blocked c) γ (set_spins (({[SRwLock r]} ∪ spins w) ∖ {[SRwLock r]}) (set_qh q' (locked w))).
Proof.
  intros H Ho HT Hγ Hs Hc.
  destruct (winv_can_enqueue (O := rw_object) T ctx Q P γ w t c H HT Hγ) as (q' & Hq').
  exists q'. split; [exact Hq'|]. eexists _, P. split.
  2:{ eapply winv_enqueue; [exact H | done | done | exact Hq' | done..|].
      cbn. pose proof (w_lock _ _ _ _ _ _ H). set_solver. }
  rewrite view_relabel by (unfold view; by rewrite Hγ). cbn.
  exists lost, inside. pose proof Ho as [? ? ? Hh ? ? ? ? ?]. pose proof (proj1 Hh Hs) as Hpos.
  split; try done; cbn.
  - rewrite <- Hh. set_solver.
  - destruct (decide (c = Reader)) as [-> | Hne]; cbn.
    + intros _. specialize (Hc eq_refl). lia.
    + rewrite fn_lookup_insert_ne by (by destruct c). done.
Qed.

Lemma rw_runs_locked Q P γ w t s : winv Q P γ w -> t ∈ T -> runs (ctx t) t (set_spins s w).
Proof. intros H HT. eapply runs_same; [| |by apply (w_threads _ _ _ _ _ _ H t)]; done. Qed.

(** A woken thread gives the processor away and looks at the lock. *)
Lemma woken_spec t c γ w :
  at_phase t (Woken c) γ w ->
  wp t ((yield;; x ← get_rwlock r;
         c_assert (match c with Reader => (0 <? rw_readers x)%Z | Writer => (rw_readers x =? 0)%Z end);;
         mret OK) (ctx t) w) γ (rw_post t c).
Proof.
  intros HI. cbn. eapply wp_susp; [by instantiate (1 := Woken c) | done |].
  intros γ1 w1 e w2 Hγ1 (Q & P & (lost & inside & Ho) & H) Hr. inversion Hr; subst w2.
  assert (t ∈ T) as HT by (eapply winv_in_T; [exact H | by rewrite Hγ1]).
  destruct (winv_place _ _ _ _ _ _ _ H HT) as (n & Hn & Hpl). rewrite Hγ1 in Hpl.
  destruct Hpl as (_ & HP & _). pose proof (granted_pos c P t HP) as Hpos.
  pose proof Ho as [[attr Hrw] _ He _ _ _ _ _ _]. unfold get_rwlock. cbn. rewrite Hrw. cbn.
  assert (at_phase t (Out (RwHolds c)) γ1 w1) as Hpost.
  { exists Q, P. split.
    - rewrite view_insert. exists lost, inside.
      eapply rw_obj_step; [exact Ho | | done | done | apply Ho..].
      apply view_outside. eauto.
    - eapply winv_state; [exact H | done | eauto | done | done.. | apply H]. }
  destruct c; cbn.
  - destruct (Z.ltb_spec 0 (Z.of_nat (granted Reader P))); [|lia]. apply wp_done.
    unfold rw_post. by rewrite decide_True.
  - destruct (Z.eqb_spec (Z.of_nat (granted Reader P)) 0).
    + apply wp_done. unfold rw_post. by rewrite decide_True.
    + assert (granted Writer P + lost = 0) by (apply He; lia). lia.
Qed.

(** A writer whose wait expired drops the lock it was granted: it is lost. *)
Lemma rw_woken_lose t γ w :
  ti = true -> at_phase t (Woken Writer) γ w -> at_phase t (Out RwIdle) γ w.
Proof.
  intros Hti (Q & P & (lost & inside & Ho) & H).
  assert (t ∈ T) as HT by (eapply winv_in_T; [exact H | by rewrite fn_lookup_insert]).
  destruct (winv_place _ _ _ _ _ _ _ H HT) as (n & Hn & Hpl). rewrite fn_lookup_insert in Hpl.
  destruct Hpl as (_ & HP & _).
  pose proof (granted_delete Reader Writer P t HP) as HgR.
  pose proof (granted_delete Writer Writer P t HP) as HgW.
  repeat case_decide; try done. rewrite Nat.add_0_r in HgR.
  exists Q, (delete t P). rewrite <- (fn_insert_insert γ t _ (Woken Writer)). split.
  - rewrite (view_insert t (Out RwIdle)). exists (S lost), inside.
    pose proof Ho as [? ? ? ? ? ? ? ? ?].
    eapply rw_obj_step; [exact Ho | | done | done | ..]; rewrite <- ?HgR.
    + apply view_outside. right. exists Writer. by rewrite fn_lookup_insert.
    + done.
    + lia.
    + intros HR. specialize (ro_excl0 HR). lia.
    + rewrite ro_held0. lia.
    + congruence.
    + intros HQ. specialize (ro_rqueue0 HQ). lia.
    + intros HQ. specialize (ro_wqueue0 HQ). lia.
  - eapply winv_state; [exact H | done | right; exists Writer; by rewrite fn_lookup_insert | | | done.. |].
    + by rewrite lookup_delete_eq.
    + intros u Hu. by rewrite lookup_delete_ne.
    + apply H.
Qed.

(** After the wait in the queue of class [c]. *)
Lemma after_wait_spec t c e γ w :
  wait_post (O := rw_object) T ctx t c e γ w ->
  wp t ((if decide (e <> OK) then c_assert (bool_decide (e = ETIMEDOUT));; mret e
         else yield;; x ← get_rwlock r;
           c_assert (match c with Reader => (0 <? rw_readers x)%Z | Writer => (rw_readers x =? 0)%Z end);;
           mret OK) (ctx t) w) γ (rw_post t c).
Proof.
  intros [(-> & HW) | (-> & Hti & HW)].
  - rewrite decide_False by tauto. by apply woken_spec.
  - rewrite decide_True by done. cbn. apply wp_done. unfold rw_post. rewrite decide_False by done.
    destruct c; [done|]. destruct HW as [HW|HW]; [by apply rw_woken_lose | done].
Qed.

(** *** The operations *)

Lemma rdlock_spec t :
  t ∈ T -> triple t (at_phase t (Out RwIdle)) (pthread_rwlock_rdlock r) (ctx t) (rw_post t Reader).
Proof.
  intros HT γ w HI. apply (rw_start t RwIdle); [exact HI|].
  intros γ1 w1 Q P lost inside Hγ H Ho. cbn -[__pthread_spin_trylock].
  rewrite trylock_held. destruct (decide (SRwHeld r ∈ spins w1)) as [Hs | Hs].
  - rewrite held_same by done. cbn. rewrite decide_False by done. cbn. pose proof Ho as [[attr Hr] _ _ _ _ _ _ _ _].
    unfold get_rwlock. cbn. rewrite Hr. cbn.
    destruct (Z.ltb_spec 0 (Z.of_nat (granted Reader P))) as [Hpos | Hz]; cbn.
    + eapply join_spec; [exact H | exact Ho | done | done | lia].
    + destruct (Z.eqb_spec (Z.of_nat (granted Reader P)) 0); [|lia]. cbn.
      rewrite (pthread_self_runs (ctx t) t) by (by eapply rw_runs_locked). cbn.
      destruct (rw_queue_up Q P γ1 w1 t Reader lost inside H Ho HT Hγ Hs) as (q' & Hq' & HB); [lia|].
      cbn in Hq'. erewrite enqueue_some by exact Hq'. cbn.
      eapply wp_bind, wp_mono; [by apply (granted_wait_spec (O := rw_object) T ctx t Reader)|].
      intros err γ2 w2 He. by apply (after_wait_spec t Reader).
  - cbn. rewrite decide_True by done. by eapply take_free_read.
Qed.

Lemma wrlock_spec t abstime :
  t ∈ T -> bad_abstime abstime = false -> (ti = false -> abstime = None) ->
  triple t (at_phase t (Out RwIdle)) (__pthread_rwlock_timedwrlock_internal r abstime) (ctx t)
    (rw_post t Writer).
Proof.
  intros HT Hbad Hto γ w HI. apply (rw_start t RwIdle); [exact HI|].
  intros γ1 w1 Q P lost inside Hγ H Ho. cbn -[__pthread_spin_trylock].
  rewrite trylock_held. destruct (decide (SRwHeld r ∈ spins w1)) as [Hs | Hs].
  - rewrite held_same by done. cbn. rewrite decide_False by done. cbn. rewrite Hbad. cbn.
    rewrite (pthread_self_runs (ctx t) t) by (by eapply rw_runs_locked). cbn.
    destruct (rw_queue_up Q P γ1 w1 t Writer lost inside H Ho HT Hγ Hs) as (q' & Hq' & HB); [done|].
    cbn in Hq'. erewrite enqueue_some by exact Hq'. cbn.
    eapply wp_bind, wp_mono; [by apply (granted_wait_spec (O := rw_object) T ctx t Writer)|].
    intros err γ2 w2 He. by apply (after_wait_spec t Writer).
  - cbn. rewrite decide_True by done. by eapply take_free_write.
Qed.

Lemma locked_same Q P γ w :
  winv Q P γ w -> set_spins (({[SRwLock r]} ∪ spins w) ∖ {[SRwLock r]}) (locked w) = w.
Proof.
  intros H. rewrite set_spins_twice, spins_cycle, set_spins_same; [done|].
  apply (w_lock _ _ _ _ _ _ H).
Qed.

Lemma tryrdlock_spec t :
  t ∈ T -> triple t (at_phase t (Out RwIdle)) (pthread_rwlock_tryrdlock r) (ctx t) (rw_post t Reader).
Proof.
  intros HT γ w HI. apply (rw_start t RwIdle); [exact HI|].
  intros γ1 w1 Q P lost inside Hγ H Ho. cbn -[__pthread_spin_trylock].
  rewrite trylock_held. destruct (decide (SRwHeld r ∈ spins w1)) as [Hs | Hs].
  - rewrite held_same by done. cbn. rewrite decide_False by done. cbn. pose proof Ho as [[attr Hr] _ _ _ _ _ _ _ _].
    unfold get_rwlock. cbn. rewrite Hr. cbn.
    destruct (Z.ltb_spec 0 (Z.of_nat (granted Reader P))) as [Hpos | Hz]; cbn.
    + eapply join_spec; [exact H | exact Ho | done | done | lia].
    + apply wp_done. unfold rw_post. rewrite decide_False by done.
      apply at_phase_same; [done|]. rewrite (locked_same _ _ _ _ H).
      exists Q, P. split; [by exists lost, inside | done].
  - cbn. rewrite decide_True by done. by eapply take_free_read.
Qed.

Lemma trywrlock_spec t :
  t ∈ T -> triple t (at_phase t (Out RwIdle)) (pthread_rwlock_trywrlock r) (ctx t) (rw_post t Writer).
Proof.
  intros HT γ w HI. apply (rw_start t RwIdle); [exact HI|].
  intros γ1 w1 Q P lost inside Hγ H Ho. cbn -[__pthread_spin_trylock].
  rewrite trylock_held. destruct (decide (SRwHeld r ∈ spins w1)) as [Hs | Hs].
  - rewrite held_same by done. cbn. rewrite decide_False by done. cbn. apply wp_done. unfold rw_post. rewrite decide_False by done.
    apply at_phase_same; [done|]. rewrite (locked_same _ _ _ _ H).
    exists Q, P. split; [by exists lost, inside | done].
  - cbn. rewrite decide_True by done. by eapply take_free_write.
Qed.

(** *** Unlocking *)

Definition wake_reader_step (u : nat) (w : world) : option world :=
  match rwlocks w !! r, mail w !! u with
  | Some x, Some 0 =>
      Some (set_mail (<[u := 1]> (mail w))
        (set_rwlocks (<[r := mkRwlock (i32 (rw_readers x + 1)) (rw_attr x)]> (rwlocks w)) w))
  | _, _ => None
  end.

Lemma quiet_wake_reader me : quiet me (wake_reader r) wake_reader_step.
Proof.
  intros t w w'. unfold wake_reader_step, wake_reader, set_readers, get_rwlock. cbn.
  destruct (rwlocks w !! r) as [x|] eqn:Hr; [|done].
  destruct (mail w !! t) as [[|n]|] eqn:Hm; [|done..]. intros [= <-]. split; [|done].
  cbn. rewrite Hr. cbn. by rewrite wakeup_empty.
Qed.

Lemma drain_readers l n attr w :
  NoDup l -> (forall t, t ∈ l -> mail w !! t = Some 0) ->
  rwlocks w !! r = Some (mkRwlock (Z.of_nat n) attr) -> (Z.of_nat (n + length l) < 2 ^ 31)%Z ->
  exists x, drain_list wake_reader_step l w =
      Some (set_qh (foldl (fun q t => unlink t q) (qh w) l)
              (set_mail (post_all l (mail w)) (set_rwlocks x w))) /\
    x !! r = Some (mkRwlock (Z.of_nat (n + length l)) attr).
Proof.
  revert n w. induction l as [|t l IH]; intros n w Hnd Hm Hr Hn; cbn.
  - exists (rwlocks w). split; [by destruct w | by rewrite Nat.add_0_r].
  - apply NoDup_cons in Hnd as [Ht Hnd]. unfold wake_reader_step. cbn.
    rewrite Hr, (Hm t) by set_solver. cbn in *.
    destruct (IH (S n) (set_mail (<[t := 1]> (mail w)) (set_rwlocks
        (<[r := mkRwlock (i32 (Z.of_nat n + 1)) attr]> (rwlocks w)) (set_qh (unlink t (qh w)) w))))
      as (x & Hx & Hxr); cbn.
    + done.
    + intros u Hu. rewrite lookup_insert_ne by (intros ->; done). apply Hm. set_solver.
    + rewrite lookup_insert_eq, wraps_small by lia. do 2 f_equal. lia.
    + lia.
    + exists x. split; [exact Hx|]. rewrite Hxr. do 2 f_equal. lia.
Qed.

Definition unlock_post t (e : error_t) (γ : nat -> wphase rw_class rw_state) (w : world) : Prop :=
  e = OK /\ at_phase t (Out RwIdle) γ w.

(** The counts when the last holder leaves. *)
Lemma last_holder Q P v lost inside w t c :
  rw_obj Q P v lost inside w -> P !! t = Some c -> granted Reader P <= 1 ->
  granted Reader (delete t P) = 0 /\ granted Writer (delete t P) = 0 /\ lost = 0.
Proof.
  intros [] HP Hle.
  pose proof (granted_delete Reader c P t HP) as HgR.
  pose proof (granted_delete Writer c P t HP) as HgW.
  destruct c; repeat case_decide; try done; lia.
Qed.

(** [t] gives the lock up and the grants become [P']. *)
Lemma rw_give Q P γ w t c lost inside Q' P' w' :
  winv Q P γ w -> rw_obj Q P (view (O := rw_object) γ) lost inside w ->
  γ t = Out (RwHolds c) -> lost = 0 ->
  winv Q' (<[t := c]> P') γ w' -> P' !! t = None -> umem w' = umem w ->
  (exists attr, rwlocks w' !! r = Some (mkRwlock (Z.of_nat (granted Reader P')) attr)) ->
  granted Writer P' <= 1 -> (0 < granted Reader P' -> granted Writer P' = 0) ->
  (SRwHeld r ∈ spins w' <-> 0 < granted Reader P' + granted Writer P') ->
  (Q' (HReaders r) <> [] -> 0 < granted Writer P') ->
  (Q' (HWriters r) <> [] -> 0 < granted Reader P' + granted Writer P') ->
  at_phase t (Out RwIdle) γ w'.
Proof.
  intros H Ho Hγ -> Hw HP Hu Hr HW He Hh HQr HQw.
  assert (t ∈ T) as HT by (eapply winv_in_T; [exact H | by rewrite Hγ]).
  exists Q', P'. split.
  - rewrite view_insert. exists 0, inside.
    eapply rw_obj_step; [exact Ho | | done | done | done | ..]; rewrite ?Nat.add_0_r; try done.
    apply view_outside. left. by exists (RwHolds c).
  - eapply winv_state; [exact Hw | done | eauto | | | done..| apply Hw].
    + by rewrite HP.
    + intros u Hu'. by rewrite lookup_insert_ne.
Qed.

(** The last holder of the lock, whose [readers] is already zero, passes it on:
    to the first waiting writer, to all waiting readers, or to nobody. *)
Definition rw_pass_on : M error_t :=
  wq ← queue_head (HWriters r);
  match wq with
  | Some wakeup =>
      dequeue wakeup;;
      __pthread_spin_unlock (SRwLock r);;
      __pthread_wakeup wakeup;;
      mret OK
  | None =>
      rq ← queue_head (HReaders r);
      match rq with
      | Some _ =>
          __pthread_dequeuing_iterate rq (wake_reader r);;
          modify (fun w => set_qh (clear_head (HReaders r) (qh w)) w);;
          __pthread_spin_unlock (SRwLock r);;
          mret OK
      | None =>
          __pthread_spin_unlock (SRwHeld r);;
          __pthread_spin_unlock (SRwLock r);;
          mret OK
      end
  end.

Section PassOn.
Context (Q : head_id -> list nat) (P : gmap nat rw_class) (γ : nat -> wphase rw_class rw_state).
Context (w : world) (t : nat) (c : rw_class) (lost : nat) (inside : rw_class -> gset nat).
Context (H : winv Q P γ w) (Ho : rw_obj Q P (view (O := rw_object) γ) lost inside w).
Context (Hγ : γ t = Out (RwHolds c)) (HP : P !! t = Some c) (Hle : granted Reader P <= 1).
(** The memory of the lock after [readers] was set to zero. *)
Context (x : gmap rwlock_id rwlock) (attr : option rwlockattr) (Hx : x !! r = Some (mkRwlock 0 attr)).
Context (Hheld : SRwHeld r ∈ spins w).

Let w0 := set_rwlocks x (locked w).

Lemma pass_to_writer u l :
  Q (HWriters r) = u :: l -> wp t (rw_pass_on (ctx t) w0) γ (unlock_post t).
Proof.
  intros HQ. destruct (last_holder _ _ _ _ _ _ _ _ Ho HP Hle) as (HR & HW & Hl0).
  destruct (winv_queued (O := rw_object) T ctx _ _ _ _ Writer u H) as (HTu & HPu & Hmu & Hγu);
    [cbn; rewrite HQ; set_solver|].
  destruct (dequeue_refines (qh w) Q u (w_rep _ _ _ _ _ _ H)) as (q' & Hq' & _);
    [exists (HWriters r); rewrite HQ; set_solver|].
  unfold rw_pass_on. cbn. rewrite (qrep_head (qh w) Q) by apply H. rewrite HQ. cbn.
  erewrite dequeue_some by exact Hq'. cbn. rewrite wakeup_empty by done. cbn.
  apply wp_done. split; [done|].
  assert (t <> u) as Htu by congruence.
  assert (delete t P !! u = None) as HPu' by (by rewrite lookup_delete_ne).
  pose proof (granted_insert Reader Writer _ _ HPu') as HgR.
  pose proof (granted_insert Writer Writer _ _ HPu') as HgW. repeat case_decide; try done.
  eapply (rw_give Q P γ w t c lost inside (qremove u Q) (<[u := Writer]> (delete t P)));
    [done.. | | | done | | | | | |]; rewrite ?HgR, ?HgW, ?HR, ?HW; cbn; try lia.
  - rewrite insert_insert_ne, insert_delete_id by done.
    eapply (winv_grant (O := rw_object) T ctx Q P γ w Writer u l q'); [exact H | exact HQ | exact Hq' | done..|].
    cbn. pose proof (w_lock _ _ _ _ _ _ H). set_solver.
  - by rewrite lookup_insert_ne, lookup_delete_eq.
  - exists attr. by rewrite Hx.
  - split; [lia|]. set_solver.
Qed.

Lemma pass_to_readers u l :
  Q (HWriters r) = [] -> Q (HReaders r) = u :: l -> wp t (rw_pass_on (ctx t) w0) γ (unlock_post t).
Proof.
  intros HQw HQ. destruct (last_holder _ _ _ _ _ _ _ _ Ho HP Hle) as (HR & HW & Hl0).
  pose proof (w_rep _ _ _ _ _ _ H) as R. pose proof (qrep_nodup _ _ R (HReaders r)) as Hnd.
  assert (forall v, v ∈ Q (HReaders r) -> v ∈ T /\ P !! v = None /\ mail w !! v = Some 0) as Hqs.
  { intros v Hv. destruct (winv_queued (O := rw_object) T ctx _ _ _ _ Reader v H Hv). tauto. }
  assert (t ∉ Q (HReaders r)) as Htq by (intros (_ & ? & _)%Hqs; congruence).
  assert (Z.of_nat (0 + length (Q (HReaders r))) < 2 ^ 31)%Z as Hlen.
  { assert (length (Q (HReaders r)) <= size T); [|lia].
    rewrite <- (size_list_to_set (C := gset nat)) by done. apply subseteq_size.
    intros v Hv%elem_of_list_to_set. by apply Hqs. }
  destruct (drain_readers (Q (HReaders r)) 0 attr w0) as (y & Hy & Hyr);
    [done | intros v Hv; by apply Hqs | exact Hx | done |].
  unfold rw_pass_on. cbn. rewrite (qrep_head (qh w) Q (HWriters r)), HQw by apply H. cbn.
  rewrite (qrep_head (qh w) Q (HReaders r)), HQ by apply H. cbn.
  assert (chain (qh w0) (Some u) (Q (HReaders r))) as Hchain.
  { assert (Some u = cells (qh w0) !! Head (HReaders r)) as ->
      by (cbn; by rewrite (qrep_head (qh w) Q (HReaders r)), HQ by done).
    apply qseg_chain, (qrep_seg _ _ R (HReaders r)). }
  rewrite (dequeuing_iterate_spec (ctx t) (wake_reader r) wake_reader_step (Q (HReaders r))
             (Some u) w0 _ (quiet_wake_reader _) Hchain Hnd Hy).
  cbn. apply wp_done. split; [done|].
  assert (forall v, v ∈ Q (HReaders r) -> delete t P !! v = None) as Hnone.
  { intros v Hv. rewrite lookup_delete_ne by (intros ->; done). by apply Hqs. }
  pose proof (granted_grant_all Reader Reader _ (delete t P) Hnd Hnone) as HgR.
  pose proof (granted_grant_all Writer Reader _ (delete t P) Hnd Hnone) as HgW.
  repeat case_decide; try done. rewrite HR in HgR. rewrite HW in HgW. cbn in HgR, HgW.
  assert (0 < length (Q (HReaders r))) as Hpos by (rewrite HQ; cbn; lia).
  eapply (rw_give Q P γ w t c lost inside (<[HReaders r := []]> Q)
           (grant_all Reader (Q (HReaders r)) (delete t P)));
    [done.. | | | done | | | | | |]; rewrite ?HgR, ?HgW; cbn; try lia.
  - assert (<[t := c]> (grant_all Reader (Q (HReaders r)) (delete t P))
            = grant_all Reader (Q (HReaders r)) P) as ->.
    { apply map_eq. intros v. destruct (decide (t = v)) as [<- | Hne].
      - by rewrite lookup_insert_eq, lookup_grant_all, decide_False.
      - rewrite lookup_insert_ne, !lookup_grant_all, lookup_delete_ne by done. done. }
    apply (winv_grant_all (O := rw_object) T ctx Q P γ w Reader _ H); [| done | |].
    + apply unlink_all_refines, R.
    + intros v. apply lookup_post_all.
    + cbn. pose proof (w_lock _ _ _ _ _ _ H). set_solver.
  - by rewrite lookup_grant_all, decide_False, lookup_delete_eq.
  - exists attr. by rewrite Hyr.
  - split; [lia|]. set_solver.
  - rewrite fn_lookup_insert. done.
Qed.

Lemma pass_to_nobody :
  Q (HWriters r) = [] -> Q (HReaders r) = [] -> wp t (rw_pass_on (ctx t) w0) γ (unlock_post t).
Proof.
  intros HQw HQ. destruct (last_holder _ _ _ _ _ _ _ _ Ho HP Hle) as (HR & HW & Hl0).
  unfold rw_pass_on. cbn. rewrite (qrep_head (qh w) Q (HWriters r)), HQw by apply H. cbn.
  rewrite (qrep_head (qh w) Q (HReaders r)), HQ by apply H. cbn.
  apply wp_done. split; [done|].
  eapply (rw_give Q P γ w t c lost inside Q (delete t P));
    [done.. | | | done | | | | | |]; rewrite ?HR, ?HW, ?HQ, ?HQw; cbn; try done; try lia.
  - rewrite insert_delete_id by done. eapply winv_links; [exact H | done..|].
    cbn. pose proof (w_lock _ _ _ _ _ _ H). set_solver.
  - apply lookup_delete_eq.
  - by exists attr.
  - split; [set_solver | lia].
Qed.

Lemma rw_pass_on_spec : wp t (rw_pass_on (ctx t) w0) γ (unlock_post t).
Proof.
  destruct (Q (HWriters r)) as [|u l] eqn:HQw; [|by eapply pass_to_writer].
  destruct (Q (HReaders r)) as [|u l] eqn:HQ; [by apply pass_to_nobody|].
  by eapply pass_to_readers.
Qed.
End PassOn.

(** One of several readers leaves. *)
Lemma reader_leaves Q P γ w t c lost inside attr :
  winv Q P γ w -> rw_obj Q P (view (O := rw_object) γ) lost inside w ->
  γ t = Out (RwHolds c) -> 1 < granted Reader P -> SRwHeld r ∈ spins w ->
  at_phase t (Out RwIdle) γ
    (set_spins (({[SRwLock r]} ∪ spins w) ∖ {[SRwLock r]})
      (set_rwlocks (<[r := mkRwlock (Z.of_nat (granted Reader P) - 1) attr]> (rwlocks w)) (locked w))).
Proof.
  intros H Ho Hγ HR Hs. pose proof Ho as [_ _ He Hh _ Hrq Hwq _ _].
  assert (t ∈ T) as HT by (eapply winv_in_T; [exact H | by rewrite Hγ]).
  destruct (winv_place _ _ _ _ _ _ _ H HT) as (n & _ & Hpl). rewrite Hγ in Hpl.
  destruct Hpl as (_ & HP & _). cbn in HP. assert (0 < granted Reader P) as Hpos by lia.
  specialize (He Hpos).
  assert (c = Reader) as ->.
  { destruct c; [done|]. pose proof (granted_pos Writer P t HP). lia. }
  pose proof (granted_delete Reader Reader P t HP) as HgR.
  pose proof (granted_delete Writer Reader P t HP) as HgW. repeat case_decide; try done.
  eapply (rw_give Q P γ w t Reader lost inside Q (delete t P)); [done.. | lia | | | done | | | | | |].
  - rewrite insert_delete_id by done. eapply winv_links; [exact H | done..|].
    cbn. pose proof (w_lock _ _ _ _ _ _ H). set_solver.
  - apply lookup_delete_eq.
  - exists attr. cbn. rewrite lookup_insert_eq. do 2 f_equal. lia.
  - lia.
  - lia.
  - cbn. split; [lia | set_solver].
  - intros HQ. specialize (Hrq HQ). lia.
  - intros HQ. lia.
Qed.

Lemma rw_unlock_spec t c :
  triple t (at_phase t (Out (RwHolds c))) (pthread_rwlock_unlock r) (ctx t) (unlock_post t).
Proof.
  intros γ w HI. apply (rw_start t (RwHolds c)); [exact HI|].
  intros γ1 w1 Q P lost inside Hγ H Ho. cbn -[__pthread_spin_trylock].
  assert (t ∈ T) as HT by (eapply winv_in_T; [exact H | by rewrite Hγ]).
  destruct (winv_place _ _ _ _ _ _ _ H HT) as (n & _ & Hpl). rewrite Hγ in Hpl.
  destruct Hpl as (_ & HP & _). cbn in HP.
  pose proof Ho as [[attr Hr] _ _ Hh _ _ _ _ _].
  assert (SRwHeld r ∈ spins w1) as Hs.
  { apply Hh. pose proof (granted_pos c P t HP). destruct c; lia. }
  rewrite trylock_held, held_same, decide_True by done. cbn. rewrite bool_decide_eq_true_2 by done. cbn.
  unfold get_rwlock. cbn. rewrite Hr. cbn.
  destruct (Z.ltb_spec 1 (Z.of_nat (granted Reader P))) as [H1 | H1]; cbn.
  - unfold set_readers, get_rwlock. cbn. rewrite Hr. cbn. apply wp_done. split; [done|].
    eapply reader_leaves; [done | done | done | lia | done].
  - assert (exists x, when (Z.of_nat (granted Reader P) =? 1)%Z (set_readers r 0) (ctx t) (locked w1)
              = Done tt (set_rwlocks x (locked w1)) /\ x !! r = Some (mkRwlock 0 attr)) as (x & Hx & Hxr).
    { unfold set_readers, get_rwlock. destruct (Z.eqb_spec (Z.of_nat (granted Reader P)) 1) as [E|E]; cbn.
      - rewrite Hr. cbn. eexists. split; [done|]. by rewrite lookup_insert_eq.
      - exists (rwlocks w1). split; [by destruct w1|]. rewrite Hr. do 2 f_equal. lia. }
    rewrite Hx. cbn. eapply (rw_pass_on_spec Q P γ1 w1 t c lost inside); try done. lia.
Qed.

(** ** The sections *)

Lemma inside_granted Q P γ w lost inside c (X : gset nat) :
  winv Q P γ w -> rw_obj Q P (view (O := rw_object) γ) lost inside w ->
  (forall u, u ∈ X -> u ∈ inside c \/ P !! u = Some c) -> size X <= granted c P.
Proof.
  intros H Ho HX. unfold granted. rewrite <- size_dom. apply subseteq_size.
  intros u Hu. apply elem_of_dom. exists c. apply map_lookup_filter_Some. split; [|done].
  destruct (HX u Hu) as [Hin|]; [|done]. apply (ro_inside _ _ _ _ _ _ Ho) in Hin.
  unfold view in Hin. destruct (γ u) as [x| | | |] eqn:Hγ; try done. subst x.
  assert (u ∈ T) as HT by (eapply winv_in_T; [exact H | by rewrite Hγ]).
  destruct (winv_place _ _ _ _ _ _ _ H HT) as (n & _ & Hpl). rewrite Hγ in Hpl. apply Hpl.
Qed.

(** A thread goes in or comes out. *)
Lemma rw_move Q P γ w lost inside t c x y (X : gset nat) :
  winv Q P γ w -> rw_obj Q P (view (O := rw_object) γ) lost inside w -> γ t = Out x ->
  rw_holds x = Some c -> rw_holds y = Some c ->
  (forall u, u ∈ X <-> (if decide (u = t) then y = RwInside c else u ∈ inside c)) ->
  at_phase t (Out y) γ (set_umem (<[cell_of c := Z.of_nat (size X)]> (umem w)) w).
Proof.
  intros H Ho Hγ Hx Hy HX.
  assert (t ∈ T) as HT by (eapply winv_in_T; [exact H | rewrite Hγ; intros [= ->]; done]).
  destruct (winv_place _ _ _ _ _ _ _ H HT) as (n & Hn & Hpl). rewrite Hγ in Hpl.
  assert (forall c', c' <> c -> x <> RwInside c' /\ y <> RwInside c') as Hc
    by (intros c' Hne; split; intros ->; cbn in *; congruence).
  exists Q, P. split.
  - rewrite view_insert. exists lost, (fun c' => if decide (c' = c) then X else inside c').
    destruct Ho as [? ? ? ? ? ? ? Hin Hmem]. split; try done.
    + intros u c'. destruct (decide (t = u)) as [<- | Hne].
      * rewrite fn_lookup_insert. cbn. case_decide as Hc'.
        -- subst c'. rewrite HX, decide_True by done. done.
        -- rewrite Hin. unfold view. rewrite Hγ. destruct (Hc c' Hc'). done.
      * rewrite fn_lookup_insert_ne by done. rewrite <- Hin. case_decide as Hc'; [|done].
        subst c'. by rewrite HX, decide_False by done.
    + intros c'. unfold cell. cbn. case_decide as Hc'.
      * subst c'. by rewrite lookup_insert_eq.
      * rewrite lookup_insert_ne by (by destruct c, c'). apply Hmem.
  - eapply winv_state; [exact H | done | eauto | | done..|].
    + etransitivity; [apply Hpl|]. cbn. congruence.
    + apply H.
Qed.

Lemma rw_section_spec t read :
  let c := class_of read in
  triple t (at_phase t (Out (RwHolds c))) (rw_section read) (ctx t)
    (fun _ => at_phase t (Out (RwHolds c))).
Proof.
  intros c γ w HI. destruct HI as (Q & P & (lost & inside & Ho) & H).
  assert (t ∈ T) as HT by (eapply winv_in_T; [exact H | by rewrite fn_lookup_insert]).
  destruct (winv_place _ _ _ _ _ _ _ H HT) as (n & _ & Hpl). rewrite fn_lookup_insert in Hpl.
  destruct Hpl as (_ & HP & _). cbn in HP. pose proof (granted_pos c P t HP) as Hpos.
  pose proof Ho as [_ HW He _ _ _ _ Hin Hmem].
  assert (t ∉ inside c) as Htin.
  { rewrite Hin. unfold view. by rewrite fn_lookup_insert. }
  assert (size ({[t]} ∪ inside c) <= granted c P) as Hle.
  { eapply inside_granted; [exact H | exact Ho |]. set_solver. }
  rewrite size_union, size_singleton in Hle by set_solver.
  assert (forall c', size (inside c') <= granted c' P) as Hall.
  { intros c'. eapply inside_granted; [exact H | exact Ho |]. auto. }
  pose proof (Hall Reader) as HallR. pose proof (Hall Writer) as HallW.
  pose proof (Hmem Reader) as HmR. pose proof (Hmem Writer) as HmW. cbn in HmR, HmW.
  unfold rw_section. cbn. rewrite HmR, HmW.
  assert (bool_decide (Z.of_nat (size (inside Writer)) = 0%Z)
          && (read || bool_decide (Z.of_nat (size (inside Reader)) = 0%Z)) = true) as ->.
  { unfold c in *. destruct read; cbn in *.
    - specialize (He Hpos). rewrite bool_decide_eq_true_2 by lia. done.
    - rewrite !bool_decide_eq_true_2; [done | | lia]. destruct (granted Reader P); [lia|].
      assert (granted Writer P + lost = 0) by (apply He; lia). lia. }
  cbn. assert ((if read then 0 else 1) = cell_of c) as Hcell by (unfold c; by destruct read).
  rewrite Hcell, Hmem.
  eapply wp_susp with (g := Out (RwInside c)); [done | |].
  { rewrite <- (fn_insert_insert γ t _ (Out (RwHolds c))).
    replace (Z.succ (Z.of_nat (size (inside c)))) with (Z.of_nat (size ({[t]} ∪ inside c)))
      by (rewrite size_union, size_singleton by set_solver; lia).
    eapply (rw_move Q P _ w lost inside t c (RwHolds c) (RwInside c));
      [exact H | exact Ho | by rewrite fn_lookup_insert | done | done |].
    intros u. case_decide; set_solver. }
  intros γ1 w1 e w2 Hγ1 (Q1 & P1 & (lost1 & inside1 & Ho1) & Hw1) Hr.
  inversion Hr; subst w2. apply wp_done. rewrite (ro_mem _ _ _ _ _ _ Ho1).
  assert ({[t]} ⊆ inside1 c) as Hsub.
  { apply singleton_subseteq_l. rewrite (ro_inside _ _ _ _ _ _ Ho1). unfold view. by rewrite Hγ1. }
  pose proof (subseteq_size _ _ Hsub) as Hge. rewrite size_singleton in Hge.
  replace (Z.pred (Z.of_nat (size (inside1 c)))) with (Z.of_nat (size (inside1 c ∖ {[t]})))
    by (rewrite size_difference, size_singleton by done; lia).
  eapply (rw_move Q1 P1 _ w1 lost1 inside1 t c (RwInside c) (RwHolds c));
    [exact Hw1 | exact Ho1 | done | done | done |].
  intros u. case_decide; [subst; set_solver | set_solver].
Qed.

Definition valid_rw_attempt (a : rw_attempt) : Prop :=
  match a with ByTimedwrlock ts => ti = true /\ bad_timespec ts = false | _ => True end.

Lemma rw_enter_spec t a :
  t ∈ T -> valid_rw_attempt a ->
  triple t (at_phase t (Out RwIdle)) (rw_enter r a) (ctx t) (rw_post t (class_of (is_read a))).
Proof.
  intros HT Ha. destruct a as [| | | |ts]; cbn.
  - by apply rdlock_spec.
  - by apply tryrdlock_spec.
  - by apply wrlock_spec.
  - by apply trywrlock_spec.
  - destruct Ha as [Hti Hts]. apply wrlock_spec; [done | done | congruence].
Qed.

Lemma rw_client_spec t l :
  t ∈ T -> Forall valid_rw_attempt l ->
  triple t (at_phase t (Out RwIdle)) (rw_client r l) (ctx t) (fun _ => at_phase t (Out RwIdle)).
Proof.
  intros HT Hl. induction Hl as [|a l Ha Hl IH]; [by intros γ w|].
  eapply triple_bind; [by apply rw_enter_spec|]. intros err.
  apply triple_bind with (Q := fun _ => at_phase t (Out RwIdle)); [|intros ?; exact IH].
  unfold rw_post. case_decide as Hr.
  - rewrite bool_decide_eq_true_2 by done. eapply triple_bind; [by apply rw_section_spec|]. intros ?.
    eapply triple_bind; [by apply rw_unlock_spec|]. intros e γ w [_ HI]. by apply wp_done.
  - rewrite bool_decide_eq_false_2 by done. by intros γ w.
Qed.
End RwInv.

(** ** Programs *)

(** The lock was initialised, nobody uses it, and the threads of [T] run. *)
Definition rw_fresh (r : rwlock_id) (T : gset nat) (ctx : nat -> kctx) (w : world) : Prop :=
  (forall t, t ∈ T -> runs (ctx t) t w /\ mail w !! t = Some 0) /\
  (Z.of_nat (size T) < 2 ^ 31)%Z /\
  (exists attr, rwlocks w !! r = Some (mkRwlock 0 attr)) /\
  qh w = qheap_empty /\ SRwLock r ∉ spins w /\ SRwHeld r ∉ spins w /\
  cell w 0 = 0%Z /\ cell w 1 = 0%Z.

Definition rw_pool (r : rwlock_id) (T : gset nat) (ctx : nat -> kctx) (ti : bool)
    (p : gmap nat thread_state) : Prop :=
  forall t st, p !! t = Some st -> t ∈ T /\
    exists l, Forall (valid_rw_attempt ti) l /\ st = spawn (ctx t) (rw_client r l).

Lemma rw_good r T ctx ti w p c :
  rw_fresh r T ctx w -> rw_pool r T ctx ti p -> rtc cstep (Run w p) c ->
  good (WI (O := rw_object r ti) T ctx) (WS (O := rw_object r ti)) (WE (O := rw_object r ti)) c.
Proof.
  intros (Hrun & HT31 & Hr & Hq & Hl & Hh & H0 & H1) Hp.
  eapply adequacy; [intros; by apply (WI_tick (O := rw_object r ti)) |].
  apply good_spawn with (fun _ => Out RwIdle).
  - exists (fun _ => []), ∅. split.
    + exists 0, (fun _ => ∅). split; rewrite ?granted_empty; try done; try lia.
      * split; [done | lia].
      * by intros [].
    + split; [rewrite Hq; apply qrep_empty | done |]. intros t. split; [| | |done].
      * intros _. split_and!; [intros ?; set_solver | done | done].
      * intros HT. by apply Hrun.
      * intros HT. exists 0. split; [by apply Hrun|]. cbn. split_and!; [|done|done].
        intros [h Hin]. set_solver.
  - intros t st Hst. destruct (Hp _ _ Hst) as (HT & l & Hl' & ->).
    eexists _, _. split; [done|]. split; [done|].
    eapply triple_weaken; [by apply (rw_client_spec r ti T ctx)| |].
    + intros γ w' [Hγ HI]. by apply at_phase_same.
    + intros ? γ w' HI. by exists (Out RwIdle).
  - done.
Qed.

(** C3: in a program of any number of threads that use a read/write lock, timed
    waits for writing included, a thread inside a writer's section is alone, no
    reader is inside while a writer is, and no assertion of the library fails,
    whatever the interleaving. *)
Theorem rwlock_excludes_writers r T ctx w p c f :
  rw_fresh r T ctx w -> rw_pool r T ctx true p -> rtc cstep (Run w p) c -> c <> Crashed f.
Proof. intros Hf Hp Hc ->. exact (rw_good _ _ _ _ _ _ _ Hf Hp Hc). Qed.

(** C4: such a program without timed waits never deadlocks. *)
Theorem rwlock_no_deadlock r T ctx w p c :
  rw_fresh r T ctx w -> rw_pool r T ctx false p -> rtc cstep (Run w p) c -> ~ stuck c.
Proof.
  intros Hf Hp Hc Hs. pose proof (rw_good _ _ _ _ _ _ _ Hf Hp Hc) as Hg.
  destruct c as [w' p'| |]; [|done|done].
  destruct (stuck_queued (O := rw_object r false) T ctx w' p')
    as (γ & Q & P & [(lost & inside & Ho) H] & (t & Ht) & Hin & Hout); [by intros []|done..|].
  assert (P = ∅) as ->.
  { apply map_empty. intros u. destruct (decide (u ∈ T)) as [HT | HT].
    - destruct (winv_place _ _ _ _ _ _ _ H HT) as (n & _ & Hpl).
      destruct (p' !! u) as [su|] eqn:Hu.
      + destruct (Hin u) as (c & Hγ & Huq); [congruence|]. rewrite Hγ in Hpl.
        destruct Hpl as [(_ & ? & _) | (Hnq & _)]; [done|]. destruct Hnq. by eexists.
      + rewrite (Hout u Hu) in Hpl. apply Hpl.
    - by destruct (t_out _ _ _ _ _ _ _ (w_threads _ _ _ _ _ _ H u) HT) as (_ & ? & _). }
  destruct (Hin t Ht) as (c & _ & Htq).
  pose proof (ro_lost _ _ _ _ _ _ _ _ Ho eq_refl) as ->.
  pose proof (ro_rqueue _ _ _ _ _ _ _ _ Ho) as HR.
  pose proof (ro_wqueue _ _ _ _ _ _ _ _ Ho) as HW. rewrite !granted_empty in *.
  destruct c; cbn in Htq; [assert (0 < 0); [apply HR | lia] | assert (0 < 0); [apply HW | lia]];
    intros E; rewrite E in Htq; set_solver.
Qed.

(** ** Examples *)

Definition demo_rw (n : nat) : world :=
  set_rwlocks {[RUser 0 := mkRwlock 0 None]} (demo_world n ANull).

Lemma demo_rw_fresh n :
  n < 1000 -> rw_fresh (RUser 0) (list_to_set (seq 0 n)) demo_ctx (demo_rw n).
Proof.
  intros Hn. split; [|split; [|split; [by exists None|]; split; [done|]; split; [set_solver|];
    split; [set_solver | by split]]].
  - intros t [_ Ht]%elem_of_list_to_set%elem_of_seq. split.
    + by apply (demo_runs n ANull).
    + by apply (demo_mail n ANull).
  - rewrite size_list_to_set, length_seq by apply NoDup_seq. lia.
Qed.

Lemma demo_rw_pool ti ls :
  Forall (Forall (valid_rw_attempt ti)) ls ->
  rw_pool (RUser 0) (list_to_set (seq 0 (length ls))) demo_ctx ti
    (demo_pool (map (rw_client (RUser 0)) ls)).
Proof.
  intros Hls t st (b & Hb & ->)%demo_pool_lookup. rewrite list_lookup_fmap in Hb.
  destruct (ls !! t) as [l|] eqn:Hl; [|done]. injection Hb as <-. split.
  - apply elem_of_list_to_set, elem_of_seq. apply lookup_lt_Some in Hl. lia.
  - exists l. split; [by eapply Forall_lookup_1 | done].
Qed.

Definition demo_rw_start (ls : list (list rw_attempt)) : config :=
  Run (demo_rw (length ls)) (demo_pool (map (rw_client (RUser 0)) ls)).

Lemma rwlock_excludes_writers_witness :
  run_schedule [(0, false); (1, false); (0, false); (1, false); (2, false)]
    (demo_rw_start [[ByRdlock; ByWrlock]; [ByTryrdlock]; [ByTimedwrlock (mkTimespec 1 0)]])
    <> Crashed FAssert.
Proof.
  apply (rwlock_excludes_writers (RUser 0) (list_to_set (seq 0 3)) demo_ctx (demo_rw 3)
    (demo_pool (map (rw_client (RUser 0))
      [[ByRdlock; ByWrlock]; [ByTryrdlock]; [ByTimedwrlock (mkTimespec 1 0)]]))).
  - apply demo_rw_fresh. lia.
  - apply (demo_rw_pool true [[ByRdlock; ByWrlock]; [ByTryrdlock]; [ByTimedwrlock (mkTimespec 1 0)]]).
    repeat constructor.
  - apply run_schedule_rtc.
Defined.

Lemma rwlock_no_deadlock_witness :
  ~ stuck (run_schedule [(0, false); (1, false); (0, false); (1, false); (2, false)]
    (demo_rw_start [[ByRdlock; ByWrlock]; [ByTryrdlock]; [ByWrlock]])).
Proof.
  apply (rwlock_no_deadlock (RUser 0) (list_to_set (seq 0 3)) demo_ctx (demo_rw 3)
    (demo_pool (map (rw_client (RUser 0)) [[ByRdlock; ByWrlock]; [ByTryrdlock]; [ByWrlock]]))).
  - apply demo_rw_fresh. lia.
  - apply (demo_rw_pool false [[ByRdlock; ByWrlock]; [ByTryrdlock]; [ByWrlock]]).
    repeat constructor.
  - apply run_schedule_rtc.
Defined.
