(* ===== verification/Barrier.v ===== *)
(** * Barriers and one-time initialisation

    sysdeps/generic/pt-barrier-*.c and pt-once.c. *)
From Stdlib Require Import ZArith Lia.
From S2P Require Import Prelude Queue World Machine Sched Mach Attr.

Definition PTHREAD_BARRIER_SERIAL_THREAD : Z := -1.

Definition get_barrier (b : nat) : M barrier := o ← gets (fun w => barriers w !! b); deref o.

Definition put_barrier (b : nat) (x : barrier) : M unit :=
  modify (fun w => set_barriers (<[b := x]> (barriers w)) w).

Definition set_pending (b : nat) (n : Z) : M unit :=
  x ← get_barrier b; put_barrier b (mkBarrier n (b_count x) (b_attr x)).

Definition pthread_barrier_init (b : nat) (attr : option barrierattr) (count : Z) : M error_t :=
  if (count =? 0)%Z then mret EINVAL
  else
  modify (fun w => set_spins (spins w ∖ {[SBarrier b]}) w);;
  modify (fun w => set_qh (clear_head (HBarrier b) (qh w)) w);;
  put_barrier b (mkBarrier count count None);;
  match attr with
  | None => mret OK
  | Some a =>
      if negb (memcmp_zero =? 0)%Z then mret OK
      else
      ok ← malloc_ok;
      if negb ok then mret ENOMEM
      else put_barrier b (mkBarrier count count (Some a));; mret OK
  end.

Definition pthread_barrier_destroy (b : nat) : M error_t := mret OK.

(** The last thread of a round decouples the queue from the barrier and wakes
    its threads; with a count of one it returns with the lock held. *)
Definition pthread_barrier_wait (b : nat) : M Z :=
  __pthread_spin_lock (SBarrier b);;
  x ← get_barrier b;
  let pending := u32 (b_pending x - 1) in
  set_pending b pending;;
  if (pending =? 0)%Z then
    set_pending b (b_count x);;
    (if (1 <? b_count x)%Z then
       wakeup ← queue_head (HBarrier b);
       modify (fun w => set_qh (clear_head (HBarrier b) (qh w)) w);;
       __pthread_spin_unlock (SBarrier b);;
       __pthread_dequeuing_iterate wakeup __pthread_wakeup
     else mret tt);;
    mret PTHREAD_BARRIER_SERIAL_THREAD
  else
    self ← _pthread_self;
    enqueue (HBarrier b) self;;
    __pthread_spin_unlock (SBarrier b);;
    __pthread_block self;;
    mret 0%Z.

(** ** pt-once.c

    [onces w !! o] is the member [run]; it is read without the lock first. *)
Definition get_run (o : once_id) : M Z := x ← gets (fun w => onces w !! o); deref x.

Definition pthread_once (o : once_id) (init_routine : M unit) : M error_t :=
  yield;;
  run ← get_run o;
  (if (run =? 0)%Z then
     __pthread_spin_lock (SOnce o);;
     run ← get_run o;
     (if (run =? 0)%Z then
        init_routine;;
        modify (fun w => set_onces (<[o := 1%Z]> (onces w)) w)
      else mret tt);;
     __pthread_spin_unlock (SOnce o);;
     mret tt
   else mret tt);;
  mret OK.
