(* ===== verification/OnceSpec.v ===== *)
(** * One-time initialisation in a program of any number of threads *)
From Stdlib Require Import ZArith Lia.
From stdpp Require Import relations.
From S2P Require Import Prelude Queue World Machine Sched Mach Demo Attr Barrier.

(** ** The programs *)

(** An initialisation routine that gives the processor away [n] times and counts
    its runs in cell 0 of the application memory. *)
Fixpoint initialise (n : nat) : M unit :=
  match n with
  | 0 => modify (fun w => set_umem (<[0 := Z.succ (default 0%Z (umem w !! 0))]> (umem w)) w)
  | S n => yield;; initialise n
  end.

Definition initialised : M unit :=
  runs ← gets (fun w => umem w !! 0); c_assert (bool_decide (runs = Some 1%Z)).

(** A thread that calls [pthread_once] [k] times and counts on the
    initialisation after each call. *)
Fixpoint once_client (o : once_id) (n k : nat) : M unit :=
  match k with
  | 0 => mret tt
  | S k =>
      _ ← pthread_once o (initialise n);
      initialised;;
      once_client o n k
  end.

(** ** The invariant *)

(** [Ready]: not inside the spin lock; [Trying]: waits for it; [Running]: runs the
    initialisation. *)
Inductive once_phase := Ready | Trying | Running.

#[export] Instance once_phase_eq_dec : EqDecision once_phase.
Proof. solve_decision. Defined.

Section Once.
Context (o : once_id).

(** The control word and the count agree, and one thread at most is at work,
    which holds the lock. *)
Record OI (γ : nat -> once_phase) (w : world) : Prop := {
  o_run : exists b : bool, onces w !! o = Some (Z.b2z b) /\ umem w !! 0 = Some (Z.b2z b) /\
            (b = true -> forall t, γ t <> Running);
  o_lock : SOnce o ∈ spins w <-> exists t, γ t = Running;
  o_one : forall t u, γ t = Running -> γ u = Running -> t = u;
}.

Definition OS (t : nat) (g : once_phase) (r : reason) : Prop :=
  match g, r with
  | Ready, RYield | Running, RYield => True
  | Trying, RSpin l => l = SOnce o
  | _, _ => False
  end.

Definition OE (t : nat) (g : once_phase) : Prop := g = Ready.

(** Only who is [Running] matters. *)
Lemma OI_phase γ γ' w : (forall t, γ t = Running <-> γ' t = Running) -> OI γ w -> OI γ' w.
Proof.
  intros Hγ [Hr Hl Ho]. split.
  - destruct Hr as (b & H1 & H2 & H3). exists b. split_and!; [done..|].
    intros Hb t. rewrite <- Hγ. by apply H3.
  - rewrite Hl. by setoid_rewrite Hγ.
  - intros t u. rewrite <- !Hγ. apply Ho.
Qed.

Lemma OI_self t g γ w : γ t <> Running -> g <> Running -> OI γ w -> OI (<[t := g]> γ) w.
Proof.
  intros H1 H2. apply OI_phase. intros u. destruct (decide (t = u)) as [<- | Hne].
  - by rewrite fn_lookup_insert.
  - by rewrite fn_lookup_insert_ne.
Qed.

(** A thread takes the free lock. *)
Lemma OI_acquire t γ w :
  onces w !! o = Some 0%Z -> OI γ w -> SOnce o ∉ spins w ->
  OI (<[t := Running]> γ) (set_spins ({[SOnce o]} ∪ spins w) w).
Proof.
  intros Hrun [Hr Hl Ho] Hs. assert (forall u, γ u <> Running) as Hn by naive_solver.
  split; cbn.
  - destruct Hr as (b & H1 & H2 & H3). rewrite H1 in Hrun.
    destruct b; [done|]. exists false. done.
  - split; [|set_solver]. intros _. exists t. by rewrite fn_lookup_insert.
  - intros u v Hu Hv. destruct (decide (t = u)), (decide (t = v)); subst; try done;
      rewrite ?fn_lookup_insert_ne in * by done; by edestruct Hn.
Qed.

(** The initialisation is done: the count and the control word become one. *)
Lemma OI_finish t γ w :
  OI γ w -> γ t = Running ->
  OI (<[t := Ready]> γ)
    (set_spins (spins w ∖ {[SOnce o]})
      (set_onces (<[o := 1%Z]> (onces w))
        (set_umem (<[0 := Z.succ (default 0%Z (umem w !! 0))]> (umem w)) w))).
Proof.
  intros [Hr Hl Ho] Ht.
  assert (forall u, <[t := Ready]> γ u <> Running) as Hn.
  { intros u. destruct (decide (t = u)) as [<- | Hne]; [by rewrite fn_lookup_insert|].
    rewrite fn_lookup_insert_ne by done. intros Hu. by apply Hne, Ho. }
  split; cbn.
  - destruct Hr as (b & H1 & H2 & H3). destruct b; [by edestruct H3|].
    exists true. rewrite H2, !lookup_insert_eq. done.
  - split; [set_solver|]. intros [u Hu]. by edestruct Hn.
  - intros u v Hu. by edestruct Hn.
Qed.

(** ** The specification of a call *)

Abbreviation at_phase := (at_phase OI).
Abbreviation wp := (wp OI OS OE).
Abbreviation triple := (triple OI OS OE).

Lemma initialise_spec t n me γ w :
  at_phase t Running γ w ->
  wp t (initialise n me w) γ (fun _ γ' w' => exists w0, at_phase t Running γ' w0 /\
    w' = set_umem (<[0 := Z.succ (default 0%Z (umem w0 !! 0))]> (umem w0)) w0).
Proof.
  revert γ w. induction n as [|n IH]; intros γ w HI; cbn.
  - apply wp_done. by exists w.
  - eapply wp_susp with (g := Running); [done | done |].
    intros γ' w' e w'' Ht' HI' Hr. inversion Hr; subst. cbn. apply IH. by apply at_phase_same.
Qed.

(** The call has returned. *)
Definition After t (γ : nat -> once_phase) (w : world) : Prop :=
  at_phase t Ready γ w /\ umem w !! 0 = Some 1%Z.

(** The code under the lock. *)
Definition once_locked (n : nat) : M unit :=
  run ← get_run o;
  (if (run =? 0)%Z then
     initialise n;;
     modify (fun w => set_onces (<[o := 1%Z]> (onces w)) w)
   else mret tt);;
  __pthread_spin_unlock (SOnce o);;
  mret tt.

Lemma once_locked_spec t n me γ w :
  γ t <> Running -> OI γ w -> SOnce o ∉ spins w ->
  wp t (once_locked n me (set_spins ({[SOnce o]} ∪ spins w) w)) γ (fun _ => After t).
Proof.
  intros Ht HI Hs. unfold once_locked, get_run. cbn.
  destruct (o_run _ _ HI) as (b & Hrun & Hu & _). rewrite Hrun. destruct b; cbn.
  - apply wp_done. split; [|done]. rewrite set_spins_twice, spins_cycle, set_spins_same by done.
    by apply OI_self.
  - eapply wp_bind, wp_bind, wp_mono; [apply initialise_spec; by apply OI_acquire|].
    intros _ γ' w' (w0 & H0 & ->). cbn. apply wp_done. split.
    + unfold Sched.at_phase. rewrite <- (fn_insert_insert γ' t Ready Running).
      apply (OI_finish t _ w0 H0). by rewrite fn_lookup_insert.
    + cbn. rewrite lookup_insert_eq.
      destruct (o_run _ _ H0) as (b & _ & -> & H3). destruct b; [|done].
      edestruct (H3 eq_refl t). by rewrite fn_lookup_insert.
Qed.

(** A thread that takes the lock, spinning if it is held. *)
Lemma once_lock_spec t n me γ w :
  at_phase t Ready γ w ->
  wp t ((__pthread_spin_lock (SOnce o);; once_locked n) me w) γ (fun _ => After t).
Proof.
  intros HI. unfold __pthread_spin_lock. cbn -[once_locked].
  eapply wp_susp; [by instantiate (1 := Ready) | done |].
  intros γ1 w1 e1 w1' Ht1 HI1 Hr1. inversion Hr1; subst w1'. cbn -[once_locked].
  case_bool_decide as Hs; cbn -[once_locked].
  - assert (set_spins ({[SOnce o]} ∪ spins w1) w1 = w1) as ->.
    { rewrite subseteq_union_1_L by set_solver. apply set_spins_same. }
    eapply wp_susp; [by instantiate (1 := Trying) | by apply OI_self; rewrite ?Ht1 |].
    intros γ2 w2 e2 w2' Ht2 HI2 Hr2. inversion Hr2; subst. cbn -[once_locked].
    apply once_locked_spec; [congruence | done | done].
  - apply once_locked_spec; [congruence | done | done].
Qed.

Lemma pthread_once_spec t n me γ w :
  at_phase t Ready γ w -> wp t (pthread_once o (initialise n) me w) γ (fun r γ' w' => r = OK /\ After t γ' w').
Proof.
  intros HI. unfold pthread_once. cbn.
  eapply wp_susp; [by instantiate (1 := Ready) | done |].
  intros γ1 w1 e1 w1' Ht1 HI1 Hr1. inversion Hr1; subst w1'. unfold get_run. cbn.
  destruct (o_run _ _ HI1) as (b & Hrun & Hu & _). rewrite Hrun. cbn.
  apply wp_bind. eapply wp_mono with (Q := fun _ => After t).
  - destruct b; cbn.
    + apply wp_done. split; [|done]. by apply at_phase_same.
    + apply (once_lock_spec t n me γ1 w1). by apply at_phase_same.
  - intros ? γ2 w2 HA. by apply wp_done.
Qed.

Lemma once_client_spec t n k me :
  triple t (at_phase t Ready) (once_client o n k) me (fun _ => at_phase t Ready).
Proof.
  induction k as [|k IH]; intros γ w HI; [by apply wp_done|].
  apply wp_bind. eapply wp_mono; [by apply pthread_once_spec|].
  intros r γ1 w1 (-> & HI1 & Hu). cbn. rewrite bool_decide_eq_true_2 by done. cbn. by apply IH.
Qed.

Lemma OI_tick γ c w : OI γ w -> OI γ (tick c w).
Proof. by intros []. Qed.
End Once.

(** The control word has its initial value and the lock is free. *)
Definition once_fresh (o : once_id) (w : world) : Prop :=
  onces w !! o = Some 0%Z /\ SOnce o ∉ spins w /\ umem w !! 0 = Some 0%Z.

Definition once_pool (o : once_id) (p : gmap nat thread_state) : Prop :=
  forall t s, p !! t = Some s -> exists me n k, s = spawn me (once_client o n k).

Lemma once_good o w p c :
  once_fresh o w -> once_pool o p -> rtc cstep (Run w p) c -> good (OI o) (OS o) OE c.
Proof.
  intros (Hr & Hs & Hu) Hp. apply adequacy; [intros; by apply OI_tick|].
  apply good_spawn with (fun _ => Ready).
  - split; [|split; [done | by intros [? ?]] | done]. by exists false.
  - intros t s Ht. destruct (Hp _ _ Ht) as (me & n & k & ->). eexists _, _. split; [done|].
    split; [done|]. eapply triple_weaken; [apply once_client_spec | |].
    + intros γ w' [Hγ HI]. by apply at_phase_same.
    + intros ? γ w' HI. by exists Ready.
  - done.
Qed.

(** C9: whatever the interleaving of any number of threads that call
    [pthread_once] with one control any number of times, the initialisation runs
    exactly once and is complete when any of the calls returns; no access or
    assertion fails. *)
Theorem once_runs_exactly_once o w p c f :
  once_fresh o w -> once_pool o p -> rtc cstep (Run w p) c -> c <> Crashed f.
Proof. intros Hf Hp Hc ->. exact (once_good _ _ _ _ Hf Hp Hc). Qed.

(** C10: such a program never deadlocks, in spite of the spin lock that is held
    during the initialisation. *)
Theorem once_no_deadlock o w p c :
  once_fresh o w -> once_pool o p -> rtc cstep (Run w p) c -> ~ stuck c.
Proof.
  intros Hf Hp Hc Hs. pose proof (once_good _ _ _ _ Hf Hp Hc) as Hg.
  destruct c as [w' p'| |]; [|done|done]. destruct Hs as [Hne Hs].
  destruct Hg as (γ & HI & Hok & Hend).
  assert (forall t s, p' !! t = Some s -> γ t = Trying /\ SOnce o ∈ spins w') as Hb.
  { intros t [r k] Ht. destruct (Hok _ _ Ht) as [HS _]. cbn in HS. specialize (Hs _ _ _ Ht).
    destruct r as [l|u x|]; [| by destruct (γ t) | by edestruct Hs; constructor].
    destruct (γ t) eqn:Hγ; try done. cbn in HS. subst l. split; [done|].
    destruct (decide (SOnce o ∈ spins w')); [done|]. by edestruct Hs; constructor. }
  apply map_choose in Hne as (t & s & Ht). destruct (Hb _ _ Ht) as [Hγ Hl].
  apply (o_lock _ _ _ HI) in Hl as [u Hu]. destruct (p' !! u) as [su|] eqn:Hpu.
  - destruct (Hb _ _ Hpu). congruence.
  - pose proof (Hend _ Hpu). unfold OE in *. congruence.
Qed.

(** ** Examples *)

Definition demo_once : world := set_onces {[OUser 0 := 0%Z]} (demo_world 2 ANull).
Definition demo_once_pool := demo_pool [once_client (OUser 0) 2 2; once_client (OUser 0) 1 1].

Lemma demo_once_fresh : once_fresh (OUser 0) demo_once.
Proof. split; [done|]. split; [set_solver | done]. Qed.

Lemma demo_once_pool_ok : once_pool (OUser 0) demo_once_pool.
Proof.
  intros t s (b & Hb & ->)%demo_pool_lookup. destruct t as [|[|t]]; [| |done]; injection Hb as <-.
  - by exists (demo_ctx 0), 2, 2.
  - by exists (demo_ctx 1), 1, 1.
Qed.

Lemma once_runs_exactly_once_witness :
  run_schedule [(0, false); (1, false); (0, false); (0, false); (1, false)]
    (Run demo_once demo_once_pool) <> Crashed FAssert.
Proof.
  apply (once_runs_exactly_once (OUser 0) demo_once demo_once_pool).
  - apply demo_once_fresh.
  - apply demo_once_pool_ok.
  - apply run_schedule_rtc.
Defined.

Lemma once_no_deadlock_witness :
  ~ stuck (run_schedule [(0, false); (1, false); (0, false); (0, false); (1, false)]
    (Run demo_once demo_once_pool)).
Proof.
  apply (once_no_deadlock (OUser 0) demo_once demo_once_pool).
  - apply demo_once_fresh.
  - apply demo_once_pool_ok.
  - apply run_schedule_rtc.
Defined.
