(* ===== verification/BarrierSpec.v ===== *)
(** * Barriers used by as many threads as they are for *)
From Stdlib Require Import ZArith Lia.
From stdpp Require Import relations.
From S2P Require Import Prelude Queue World Machine Sched Mach Demo Attr Barrier.

(** ** Client programs

    In each round a thread notes the round in its cell of the application memory,
    waits, and then relies on every thread [u] of [T] having done so.  The one
    that is told to be the serial thread counts the round in cell [n]. *)

Definition round_of (w : world) (u : nat) : Z := default 0%Z (umem w !! u).

Definition all_arrived (n : nat) (k : nat) : M unit :=
  ok ← gets (fun w => forallb (fun u => Z.of_nat k <=? round_of w u)%Z (seq 0 n));
  c_assert ok.

Definition count_serial (n : nat) (ret : Z) : M unit :=
  when (ret =? PTHREAD_BARRIER_SERIAL_THREAD)%Z
    (modify (fun w => set_umem (<[n := Z.succ (round_of w n)]> (umem w)) w)).

(** The rounds [k + 1] to [k + rounds]. *)
Fixpoint barrier_client (b n t k rounds : nat) : M unit :=
  match rounds with
  | 0 => mret tt
  | S rounds =>
      modify (fun w => set_umem (<[t := Z.of_nat (S k)]> (umem w)) w);;
      ret ← pthread_barrier_wait b;
      all_arrived n (S k);;
      count_serial n ret;;
      barrier_client b n t (S k) rounds
  end.

(** ** The invariant *)

(** [At k]: the thread has passed [k] rounds; [Arriving k]: it has noted round
    [k + 1] and goes for the spin lock; [Waiting k]: it waits in round [k + 1]. *)
Inductive bphase := At (k : nat) | Arriving (k : nat) | Waiting (k : nat).

Section BarrierInv.
Context (b n : nat) (attr : option barrierattr) (ctx : nat -> kctx).
Context (Hn : 1 < n) (Hn32 : (Z.of_nat n < 2 ^ 32)%Z).

(** In round [R] (from zero) the threads of the queue have arrived; a thread
    that still waits in the round before has its message.  [s] rounds have had a
    serial thread. *)
Definition bplace (g : bphase) (R : nat) (q : Prop) (m : nat) : Prop :=
  match g with
  | At k | Arriving k => k = R /\ ~ q /\ m = 0
  | Waiting k => (k = R /\ q /\ m = 0) \/ (S k = R /\ ~ q /\ m = 1)
  end.

(** The round a thread has noted. *)
Definition noted (g : bphase) : nat :=
  match g with At k => k | Arriving k | Waiting k => S k end.

Record binv (Q : head_id -> list nat) (R s : nat) (γ : nat -> bphase) (w : world) : Prop := {
  b_obj : barriers w !! b =
    Some (mkBarrier (Z.of_nat (n - length (Q (HBarrier b)))) (Z.of_nat n) attr);
  b_full : length (Q (HBarrier b)) < n;
  b_rep : qrep (qh w) Q;
  b_lock : SBarrier b ∉ spins w;
  b_queue : forall t, t ∈ Q (HBarrier b) -> t < n;
  b_only : forall t h, t < n -> t ∈ Q h -> h = HBarrier b;
  b_runs : forall t, t < n -> runs (ctx t) t w;
  b_place : forall t, t < n -> exists m, mail w !! t = Some m /\
              bplace (γ t) R (t ∈ Q (HBarrier b)) m;
  b_noted : forall t, t < n -> round_of w t = Z.of_nat (noted (γ t));
  b_serial : round_of w n = Z.of_nat s;
}.

Definition BI (γ : nat -> bphase) (w : world) : Prop := exists Q R, binv Q R R γ w.

(** The number of rounds. *)
Context (K : nat).

Definition BS (t : nat) (g : bphase) (r : reason) : Prop :=
  t < n /\
  match g, r with
  | At _, RYield | Arriving _, RYield => True
  | Waiting k, RRecv t' None => t' = t /\ k < K
  | _, _ => False
  end.

(** A thread that has ended has passed all [K] rounds. *)
Definition BE (t : nat) (g : bphase) : Prop := t < n -> g = At K.

Abbreviation wp := (wp BI BS BE).
Abbreviation triple := (triple BI BS BE).
Abbreviation at_phase := (at_phase BI).

Lemma BI_tick γ c w : BI γ w -> BI γ (tick c w).
Proof. intros (Q & R & []). exists Q, R. by split. Qed.

Lemma BI_lock γ w : BI γ w -> SBarrier b ∉ spins w.
Proof. intros (Q & R & H). apply H. Qed.

(** A step of [t] that leaves the queues and the round alone. *)
Lemma binv_self Q R s γ w t g w' :
  binv Q R s γ w -> t < n -> framed w w' -> qh w' = qh w -> barriers w' = barriers w ->
  SBarrier b ∉ spins w' -> (forall u, u <> t -> mail w' !! u = mail w !! u) ->
  (forall u, u <> t -> round_of w' u = round_of w u) -> round_of w' t = Z.of_nat (noted g) ->
  (exists m, mail w' !! t = Some m /\ bplace g R (t ∈ Q (HBarrier b)) m) ->
  binv Q R s (<[t := g]> γ) w'.
Proof.
  intros [] Ht [Hp Hg] Hq Hb Hl Hm Hu Hut Hpl. split; try done.
  - by rewrite Hb.
  - by rewrite Hq.
  - intros u Hun. eapply runs_same; [done | done |]. by apply b_runs0.
  - intros u Hun. destruct (decide (t = u)) as [<- | Hne].
    + by rewrite fn_lookup_insert.
    + rewrite fn_lookup_insert_ne, Hm by done. by apply b_place0.
  - intros u Hun. destruct (decide (t = u)) as [<- | Hne].
    + by rewrite fn_lookup_insert.
    + rewrite fn_lookup_insert_ne, Hu by done. by apply b_noted0.
  - rewrite Hu by lia. done.
Qed.

(** The phase of [t] names the round. *)
Lemma binv_round Q R s γ w t k :
  binv Q R s γ w -> t < n -> γ t = At k \/ γ t = Arriving k ->
  k = R /\ t ∉ Q (HBarrier b) /\ mail w !! t = Some 0.
Proof.
  intros H Ht Hγ. destruct (b_place _ _ _ _ _ H t Ht) as (m & Hm & Hpl).
  destruct Hγ as [Hγ | Hγ]; rewrite Hγ in Hpl; cbn in Hpl; destruct Hpl as (-> & Hq & ->); done.
Qed.

Lemma binv_mail Q R s γ w :
  binv Q R s γ w -> forall u, u ∈ Q (HBarrier b) -> mail w !! u = Some 0.
Proof.
  intros H u Hu. destruct (b_place _ _ _ _ _ H u (b_queue _ _ _ _ _ H u Hu)) as (m & -> & Hpl).
  destruct (γ u); cbn in Hpl; [tauto | tauto |].
  by destruct Hpl as [(_ & _ & ->) | (_ & ? & _)].
Qed.

(** All threads have noted the rounds up to the current one. *)
Lemma binv_all Q R s γ w u : binv Q R s γ w -> u < n -> (Z.of_nat R <= round_of w u)%Z.
Proof.
  intros H Hu. rewrite (b_noted _ _ _ _ _ H) by done.
  destruct (b_place _ _ _ _ _ H u Hu) as (m & _ & Hpl).
  destruct (γ u); cbn in *; lia.
Qed.

Lemma all_arrived_spec Q R s γ w t :
  binv Q R s γ w -> all_arrived n R (ctx t) w = Done tt w.
Proof.
  intros H. unfold all_arrived. cbn.
  assert (forallb (fun u => (Z.of_nat R <=? round_of w u)%Z) (seq 0 n) = true) as ->; [|done].
  apply forallb_forall. intros u Hu%in_seq. apply Z.leb_le. eapply binv_all; [done | lia].
Qed.

(** Noting the next round. *)
Lemma note_round t k γ w :
  t < n -> at_phase t (At k) γ w ->
  at_phase t (Arriving k) γ (set_umem (<[t := Z.of_nat (S k)]> (umem w)) w).
Proof.
  intros Ht (Q & R & H). exists Q, R. rewrite <- (fn_insert_insert γ t _ (At k)).
  assert (<[t := At k]> γ t = At k) as Hγ by (by rewrite fn_lookup_insert).
  destruct (binv_round _ _ _ _ _ _ k H Ht) as (-> & Hq & Hm); [by left|].
  eapply binv_self; [exact H | done.. | apply H | done | | |]; unfold round_of; cbn.
  - intros u Hu. by rewrite lookup_insert_ne.
  - by rewrite lookup_insert_eq.
  - exists 0. done.
Qed.

(** ** The last thread of a round *)

(** All the others are in the queue. *)
Lemma last_all_queued Q R s γ w t :
  binv Q R s γ w -> t < n -> t ∉ Q (HBarrier b) -> length (Q (HBarrier b)) = n - 1 ->
  forall u, u < n -> u <> t -> u ∈ Q (HBarrier b).
Proof.
  intros H Ht Hq Hlen u Hu Hne. pose proof (qrep_nodup _ _ (b_rep _ _ _ _ _ H) (HBarrier b)) as Hnd.
  assert ((list_to_set (Q (HBarrier b)) : gset nat) ≡ list_to_set (seq 0 n) ∖ {[t]}) as Heq.
  { apply set_subseteq_size_equiv.
    - intros v Hv%elem_of_list_to_set. apply elem_of_difference. split.
      + apply elem_of_list_to_set, elem_of_seq. split; [lia|]. by apply (b_queue _ _ _ _ _ H).
      + intros ->%elem_of_singleton. done.
    - rewrite size_difference.
      + rewrite !size_list_to_set, size_singleton, length_seq by (done || apply NoDup_seq). lia.
      + apply singleton_subseteq_l, elem_of_list_to_set, elem_of_seq. lia. }
  apply (elem_of_list_to_set (C := gset nat)). rewrite Heq.
  apply elem_of_difference. split; [apply elem_of_list_to_set, elem_of_seq; lia|].
  by intros ->%elem_of_singleton.
Qed.

(** The round ends: the queue is emptied and every thread of it gets a message. *)
Lemma end_round Q R γ w t w' :
  binv Q R R γ w -> t < n -> γ t = Arriving R -> length (Q (HBarrier b)) = n - 1 ->
  framed w w' -> umem w' = umem w -> SBarrier b ∉ spins w' ->
  barriers w' !! b = Some (mkBarrier (Z.of_nat n) (Z.of_nat n) attr) ->
  qrep (qh w') (<[HBarrier b := []]> Q) ->
  (forall u, mail w' !! u = if decide (u ∈ Q (HBarrier b)) then Some 1 else mail w !! u) ->
  binv (<[HBarrier b := []]> Q) (S R) R (<[t := At (S R)]> γ) w'.
Proof.
  intros H Ht Hγ Hlen [Hp Hg] Hu Hl Hb Rq Hm.
  destruct (binv_round _ _ _ _ _ _ R H Ht) as (_ & Hq & Hmt); [by right|].
  pose proof (last_all_queued _ _ _ _ _ _ H Ht Hq Hlen) as Hall.
  assert (forall v, round_of w' v = round_of w v) as Hround by (intros v; unfold round_of; by rewrite Hu).
  split; try done; rewrite ?fn_lookup_insert.
  - by rewrite Hb, Nat.sub_0_r.
  - cbn. lia.
  - set_solver.
  - intros u h Hun. destruct (decide (HBarrier b = h)) as [<- | Hne]; [done|].
    rewrite fn_lookup_insert_ne by done. by apply (b_only _ _ _ _ _ H).
  - intros u Hun. eapply runs_same; [done | done |]. by apply H.
  - intros u Hun. destruct (decide (t = u)) as [<- | Hne].
    + rewrite fn_lookup_insert, Hm, decide_False by done. exists 0. split; [done|]. cbn. set_solver.
    + rewrite fn_lookup_insert_ne by done.
      assert (u ∈ Q (HBarrier b)) as Huq by auto.
      rewrite Hm, decide_True by done. exists 1. split; [done|].
      destruct (b_place _ _ _ _ _ H u Hun) as (m & _ & Hpl).
      destruct (γ u) as [k|k|k]; cbn in *; [tauto | tauto |].
      destruct Hpl as [(-> & _) | (_ & ? & _)]; [|done]. right. set_solver.
  - intros u Hun. rewrite Hround. destruct (decide (t = u)) as [<- | Hne].
    + rewrite fn_lookup_insert, (b_noted _ _ _ _ _ H), Hγ by done. done.
    + rewrite fn_lookup_insert_ne by done. by apply H.
  - rewrite Hround. apply H.
Qed.

(** A thread that is not the last one queues up. *)
Lemma queue_up Q R γ w t w' q' :
  binv Q R R γ w -> t < n -> γ t = Arriving R -> length (Q (HBarrier b)) <> n - 1 ->
  __pthread_enqueue (HBarrier b) t (qh w) = Some q' -> qh w' = q' ->
  framed w w' -> umem w' = umem w -> mail w' = mail w -> SBarrier b ∉ spins w' ->
  barriers w' !! b =
    Some (mkBarrier (Z.of_nat (n - length (Q (HBarrier b)) - 1)) (Z.of_nat n) attr) ->
  binv (<[HBarrier b := t :: Q (HBarrier b)]> Q) R R (<[t := Waiting R]> γ) w'.
Proof.
  intros H Ht Hγ Hlen Hq Hqh [Hp Hg] Hu Hm Hl Hb.
  destruct (binv_round _ _ _ _ _ _ R H Ht) as (_ & Htq & Hmt); [by right|].
  assert (~ queued Q t) as Hnq by (intros [h Hh]; by rewrite (b_only _ _ _ _ _ H t h Ht Hh) in Hh).
  destruct (enqueue_refines (qh w) Q (HBarrier b) t (b_rep _ _ _ _ _ H) Hnq) as (q & Hq1 & Rq).
  assert (q = q') as -> by congruence. pose proof (b_full _ _ _ _ _ H) as Hfull.
  assert (forall v, round_of w' v = round_of w v) as Hround by (intros v; unfold round_of; by rewrite Hu).
  split; rewrite ?fn_lookup_insert; try done.
  - rewrite Hb. do 2 f_equal. cbn. lia.
  - cbn. lia.
  - by rewrite Hqh.
  - intros u [-> | Hin]%elem_of_cons; [done|]. by apply (b_queue _ _ _ _ _ H).
  - intros u h Hun. destruct (decide (HBarrier b = h)) as [<- | Hne]; [done|].
    rewrite fn_lookup_insert_ne by done. by apply (b_only _ _ _ _ _ H).
  - intros u Hun. eapply runs_same; [done | done |]. by apply H.
  - intros u Hun. rewrite Hm. destruct (decide (t = u)) as [<- | Hne].
    + rewrite fn_lookup_insert. exists 0. split; [done|]. left. set_solver.
    + rewrite fn_lookup_insert_ne by done. destruct (b_place _ _ _ _ _ H u Hun) as (m & Hmu & Hpl).
      exists m. split; [done|]. destruct (γ u); cbn in *; set_solver.
  - intros u Hun. rewrite Hround. destruct (decide (t = u)) as [<- | Hne].
    + rewrite fn_lookup_insert, (b_noted _ _ _ _ _ H), Hγ by done. done.
    + rewrite fn_lookup_insert_ne by done. by apply H.
  - rewrite Hround. apply H.
Qed.

(** ** The wait *)

(** One round more has passed, and one serial thread has been told per round. *)
Definition wait_post t k (ret : Z) (γ : nat -> bphase) (w : world) : Prop :=
  exists Q s, binv Q (S k) s (<[t := At (S k)]> γ) w /\
    s = if (ret =? PTHREAD_BARRIER_SERIAL_THREAD)%Z then k else S k.

Lemma receive_round t k me γ w :
  t < n -> k < K -> at_phase t (Waiting k) γ w ->
  wp t ((__pthread_block t;; mret 0%Z) me w) γ (wait_post t k).
Proof.
  intros Ht Hk HI. unfold __pthread_block, mach_msg_receive. cbn.
  eapply wp_susp; [by instantiate (1 := Waiting k) | done |].
  intros γ1 w1 e w2 Hγ (Q & R & H) Hr.
  destruct (b_place _ _ _ _ _ H t Ht) as (m & Hm & Hpl). rewrite Hγ in Hpl.
  inversion Hr as [ | |? ? j ? Hj|? ? ? Hj|? ? ? Hj]; subst; cbn; [|congruence].
  rewrite Hm in Hj. injection Hj as ->.
  destruct Hpl as [(_ & _ & ?) | (<- & Hq & [= ->])]; [done|].
  apply wp_done. exists Q, (S k). split; [|done].
  eapply binv_self; [exact H | done.. | apply H | | done | | ].
  - intros u Hu. cbn. by rewrite lookup_insert_ne.
  - unfold round_of. cbn. pose proof (b_noted _ _ _ _ _ H t Ht) as Hround. by rewrite Hγ in Hround.
  - exists 0. cbn. by rewrite lookup_insert_eq.
Qed.

Lemma barrier_wait_spec t k γ w :
  t < n -> k < K -> at_phase t (Arriving k) γ w -> wp t (pthread_barrier_wait b (ctx t) w) γ (wait_post t k).
Proof.
  intros Ht Hk HI. unfold pthread_barrier_wait.
  eapply wp_spin_lock; [|exact HI|apply BI_lock|]; [done|].
  intros γ1 w1 Hγ (Q & R & H).
  destruct (binv_round _ _ _ _ _ _ k H Ht) as (-> & Hq & Hm); [by right|].
  pose proof (b_obj _ _ _ _ _ H) as Hb. pose proof (b_full _ _ _ _ _ H) as Hfull.
  pose proof (b_rep _ _ _ _ _ H) as Rq. pose proof (b_lock _ _ _ _ _ H) as Hl.
  unfold set_pending, get_barrier. cbn. rewrite Hb. cbn. rewrite Hb. cbn.
  rewrite wrapu_small by lia.
  destruct (Z.eqb_spec (Z.of_nat (n - length (Q (HBarrier b))) - 1) 0) as [Hz | Hz]; cbn.
  - rewrite lookup_insert_eq. cbn.
    destruct (Z.ltb_spec 1 (Z.of_nat n)); [|lia]. cbn.
    assert (length (Q (HBarrier b)) = n - 1) as Hlen by lia.
    match goal with |- context [__pthread_dequeuing_iterate _ _ _ ?w0] => set (w2 := w0) end.
    assert (chain (qh w2) (cells (qh w1) !! Head (HBarrier b)) (Q (HBarrier b))) as Hchain.
    { pose proof (qseg_chain _ _ _ (qrep_seg _ _ Rq (HBarrier b))) as Hc.
      destruct (Q (HBarrier b)) as [|u l]; [exact Hc|]. destruct Hc as [Hc1 Hc2]. split; [done|].
      eapply qseg_frame, Hc2; cbn.
      - by rewrite lookup_delete_ne.
      - intros v _. by rewrite lookup_delete_ne. }
    rewrite (dequeuing_iterate_spec (ctx t) __pthread_wakeup wake (Q (HBarrier b)) _ w2 _
               (quiet_wakeup _) Hchain (qrep_nodup _ _ Rq _)
               (drain_wake _ w2 (qrep_nodup _ _ Rq _) (binv_mail _ _ _ _ _ H))).
    cbn. apply wp_done. exists (<[HBarrier b := []]> Q), R. split; [|done].
    eapply end_round; [exact H | done | done | done | done | done | | | |].
    + cbn. set_solver.
    + cbn. by rewrite !lookup_insert_eq.
    + cbn. assert (forall l q, foldl (fun q u => unlink u q) (clear_head (HBarrier b) q) l
                     = clear_head (HBarrier b) (foldl (fun q u => unlink u q) q l)) as ->.
      { intros l. induction l as [|u l IH]; intros q; cbn; [done|]. by rewrite <- IH. }
      by apply unlink_all_refines.
    + intros u. apply lookup_post_all.
  - rewrite (pthread_self_runs (ctx t) t)
      by (eapply runs_same; [| |by apply (b_runs _ _ _ _ _ H t)]; done). cbn.
    assert (~ queued Q t) as Hnq by (intros [h Hh]; by rewrite (b_only _ _ _ _ _ H t h Ht Hh) in Hh).
    destruct (enqueue_refines (qh w1) Q (HBarrier b) t Rq Hnq) as (q' & Hq' & _).
    erewrite enqueue_some by exact Hq'. cbn. apply (receive_round t R (ctx t)); [done..|].
    eexists _, R. eapply queue_up; [exact H | done | done | lia | exact Hq' | done..| |].
    + cbn. set_solver.
    + cbn. rewrite lookup_insert_eq. do 2 f_equal. lia.
Qed.

(** The serial thread counts the round. *)
Lemma count_serial_spec t k ret γ w :
  t < n -> wait_post t k ret γ w ->
  exists w', count_serial n ret (ctx t) w = Done tt w' /\ at_phase t (At (S k)) γ w'.
Proof.
  intros Ht (Q & s & H & ->). unfold count_serial.
  destruct (ret =? PTHREAD_BARRIER_SERIAL_THREAD)%Z; cbn.
  - eexists. split; [done|]. exists Q, (S k). destruct H. split; try done.
    + intros u Hu. unfold round_of. cbn. rewrite lookup_insert_ne by lia. by apply b_noted0.
    + unfold round_of in *. cbn. rewrite lookup_insert_eq. cbn. rewrite b_serial0. lia.
  - eexists. split; [done|]. by exists Q, (S k).
Qed.

Lemma barrier_client_spec t k rounds :
  t < n -> k + rounds <= K ->
  triple t (at_phase t (At k)) (barrier_client b n t k rounds) (ctx t)
    (fun _ => at_phase t (At (k + rounds))).
Proof.
  intros Ht. revert k. induction rounds as [|rounds IH]; intros k Hk γ w HI.
  { rewrite Nat.add_0_r. by apply wp_done. }
  cbn -[pthread_barrier_wait all_arrived count_serial].
  eapply wp_bind, wp_mono.
  - apply (barrier_wait_spec t k); [done | lia |]. by apply note_round.
  - intros ret γ1 w1 HP. pose proof HP as (Q & s & H & Hs).
    rewrite (all_arrived_spec _ _ _ _ _ t H). cbn -[count_serial].
    destruct (count_serial_spec t k ret γ1 w1 Ht HP) as (w2 & -> & HI2). cbn.
    replace (k + S rounds) with (S k + rounds) by lia. apply IH; [lia | done].
Qed.
End BarrierInv.

(** ** Programs *)

(** The barrier was initialised for [n] threads, nobody waits, and the threads
    below [n] run. *)
Definition barrier_fresh (b n : nat) (ctx : nat -> kctx) (w : world) : Prop :=
  (Z.of_nat n < 2 ^ 32)%Z /\
  (forall t, t < n -> runs (ctx t) t w /\ mail w !! t = Some 0 /\ round_of w t = 0%Z) /\
  (exists attr, barriers w !! b = Some (mkBarrier (Z.of_nat n) (Z.of_nat n) attr)) /\
  qh w = qheap_empty /\ SBarrier b ∉ spins w /\ round_of w n = 0%Z.

(** The pool of the [n] threads, which all pass [rounds] rounds. *)
Definition barrier_pool (b n rounds : nat) (ctx : nat -> kctx) (p : gmap nat thread_state) : Prop :=
  forall t, p !! t = if decide (t < n) then Some (spawn (ctx t) (barrier_client b n t 0 rounds)) else None.

Lemma barrier_good b n rounds ctx w p c :
  1 < n -> barrier_fresh b n ctx w -> barrier_pool b n rounds ctx p -> rtc cstep (Run w p) c ->
  exists attr, good (BI b n attr ctx) (BS n rounds) (BE n rounds) c.
Proof.
  intros Hn (Hn32 & Ht & [attr Hb] & Hq & Hl & Hs) Hp. exists attr.
  eapply adequacy; [intros; by apply BI_tick | | done].
  apply good_spawn with (fun _ => At 0).
  - exists (fun _ => []), 0. split; try done; cbn.
    + by rewrite Nat.sub_0_r.
    + lia.
    + rewrite Hq. apply qrep_empty.
    + set_solver.
    + set_solver.
    + intros t Htn. by apply Ht.
    + intros t Htn. exists 0. split; [by apply Ht | set_solver].
    + intros t Htn. by apply Ht.
  - intros t st Hst. rewrite Hp in Hst. case_decide as Htn; [|done]. injection Hst as <-.
    eexists _, _. split; [done|]. split; [done|].
    eapply triple_weaken; [by apply (barrier_client_spec b n attr ctx Hn Hn32 rounds t 0 rounds)| |].
    + intros γ w' [Hγ HI]. by apply at_phase_same.
    + intros ? γ w' HI. by exists (At rounds).
  - intros t Hpt. rewrite Hp in Hpt. case_decide; [done|]. by intros ?.
Qed.

(** C7: when [n] threads, two at least, use a barrier for [n] threads any number of times, no
    thread leaves a round before all of them have entered it, and no assertion of
    the library fails, whatever the interleaving. *)
Theorem barrier_synchronises b n rounds ctx w p c f :
  1 < n -> barrier_fresh b n ctx w -> barrier_pool b n rounds ctx p -> rtc cstep (Run w p) c ->
  c <> Crashed f.
Proof.
  intros Hn Hf Hp Hc ->. by destruct (barrier_good _ _ _ _ _ _ _ Hn Hf Hp Hc) as (attr & Hg).
Qed.

(** C8: when [n] threads, two at least, use a barrier for [n] threads any number of
    times, the program never deadlocks, and when it has ended exactly one thread was
    told to be the serial one in each round.  (With a count of one this is false:
    [barrier_of_one_keeps_lock] below shows that the first wait keeps the lock of
    the barrier and the next one spins for ever.) *)
Theorem barrier_no_deadlock b n rounds ctx w p c :
  1 < n -> barrier_fresh b n ctx w -> barrier_pool b n rounds ctx p -> rtc cstep (Run w p) c ->
  ~ stuck c /\ forall w', c = Run w' ∅ -> round_of w' n = Z.of_nat rounds.
Proof.
  intros Hn Hf Hp Hc. destruct (barrier_good _ _ _ _ _ _ _ Hn Hf Hp Hc) as (attr & Hg). split.
  - intros Hs. destruct c as [w' p'| |]; [|done|done]. destruct Hs as [Hne Hs].
    destruct Hg as (γ & (Q & R & H) & Hok & Hend).
    assert (forall t, p' !! t <> None -> t < n /\ R < rounds /\ t ∈ Q (HBarrier b)) as Hw.
    { intros t Hpt. destruct (p' !! t) as [[r k]|] eqn:Ht; [|done].
      destruct (Hok _ _ Ht) as [[Htn HS] _]. cbn in HS. specialize (Hs _ _ _ Ht).
      destruct r as [l|t' o|]; [by destruct (γ t) | | by edestruct Hs; constructor].
      destruct (b_place _ _ _ _ _ _ _ _ _ H t Htn) as (m & Hm & Hpl).
      destruct (γ t) as [j|j|j] eqn:Hγ; try done. destruct o; [done|]. destruct HS as [-> Hj].
      destruct Hpl as [(-> & Hin & _) | (_ & _ & ->)]; [done|]. by edestruct Hs; constructor. }
    apply map_choose in Hne as (t0 & s0 & Ht0). destruct (Hw t0) as (_ & HR & _); [congruence|].
    assert (forall t, t < n -> t ∈ Q (HBarrier b)) as Hall.
    { intros t Htn. destruct (p' !! t) as [s'|] eqn:Ht; [apply Hw; congruence|].
      pose proof (Hend t Ht Htn) as Hγ.
      destruct (b_place _ _ _ _ _ _ _ _ _ H t Htn) as (m & _ & Hpl). rewrite Hγ in Hpl.
      destruct Hpl as (? & _). lia. }
    pose proof (b_full _ _ _ _ _ _ _ _ _ H) as Hfull.
    assert (n <= length (Q (HBarrier b))); [|lia].
    rewrite <- (length_seq n 0) at 1. apply NoDup_incl_length; [apply NoDup_ListNoDup, NoDup_seq|].
    intros t Ht%in_seq. apply list_elem_of_In, Hall. lia.
  - intros w' ->. destruct Hg as (γ & (Q & R & H) & _ & Hend).
    rewrite (b_serial _ _ _ _ _ _ _ _ _ H).
    destruct (b_place _ _ _ _ _ _ _ _ _ H 0 ltac:(lia)) as (m & _ & Hpl).
    rewrite (Hend 0 (lookup_empty _) ltac:(lia)) in Hpl. destruct Hpl as (-> & _). done.
Qed.

(** ** Examples *)

Definition demo_barrier (n : nat) : world :=
  set_umem ∅ (set_barriers {[0 := mkBarrier (Z.of_nat n) (Z.of_nat n) None]} (demo_world n ANull)).

Lemma demo_barrier_fresh n : n < 1000 -> barrier_fresh 0 n demo_ctx (demo_barrier n).
Proof.
  intros Hn. split; [lia|]. split; [|split; [by exists None|]; split; [done|];
    split; [set_solver | done]].
  intros t Ht. split_and!; [by apply (demo_runs n ANull) | by apply (demo_mail n ANull) | done].
Qed.

Definition demo_barrier_pool (n rounds : nat) : gmap nat thread_state :=
  demo_pool (map (fun t => barrier_client 0 n t 0 rounds) (seq 0 n)).

Lemma demo_barrier_pool_ok n rounds : barrier_pool 0 n rounds demo_ctx (demo_barrier_pool n rounds).
Proof.
  intros t. unfold demo_barrier_pool, demo_pool. rewrite length_map, length_seq.
  rewrite zip_with_fmap_r, zip_with_diag. case_decide as Ht.
  - by apply (lookup_table (fun t => spawn (demo_ctx t) (barrier_client 0 n t 0 rounds))).
  - apply not_elem_of_list_to_map_1. rewrite <- list_fmap_compose.
    intros (x & -> & Hx%elem_of_seq)%list_elem_of_fmap. cbn in Ht. lia.
Qed.

Lemma barrier_synchronises_witness :
  run_schedule [(0, false); (1, false); (0, false); (1, false); (2, false); (2, false)]
    (Run (demo_barrier 3) (demo_barrier_pool 3 2)) <> Crashed FAssert.
Proof.
  apply (barrier_synchronises 0 3 2 demo_ctx (demo_barrier 3) (demo_barrier_pool 3 2)).
  - lia.
  - apply demo_barrier_fresh. lia.
  - apply demo_barrier_pool_ok.
  - apply run_schedule_rtc.
Defined.

Lemma barrier_no_deadlock_witness :
  ~ stuck (run_schedule [(0, false); (1, false); (0, false); (1, false); (2, false); (2, false)]
    (Run (demo_barrier 3) (demo_barrier_pool 3 2))).
Proof.
  apply (barrier_no_deadlock 0 3 2 demo_ctx (demo_barrier 3) (demo_barrier_pool 3 2)).
  - lia.
  - apply demo_barrier_fresh. lia.
  - apply demo_barrier_pool_ok.
  - apply run_schedule_rtc.
Defined.

(** ** A barrier for one thread *)

(** A wait on a barrier for one thread returns at once but with the lock of
    the barrier held, so that the next wait spins for ever. *)
Theorem barrier_of_one_keeps_lock b attr me w :
  barriers w !! b = Some (mkBarrier 1 1 attr) -> SBarrier b ∉ spins w ->
  exists w', solo (pthread_barrier_wait b me w) = Done PTHREAD_BARRIER_SERIAL_THREAD w' /\
    barriers w' !! b = Some (mkBarrier 1 1 attr) /\
    forall me', exists k, solo (pthread_barrier_wait b me' w') = Susp (RSpin (SBarrier b)) w' k.
Proof.
  intros Hb Hl. exists (set_barriers (<[b := mkBarrier 1 1 attr]> (barriers w))
                          (set_spins ({[SBarrier b]} ∪ spins w) w)).
  unfold pthread_barrier_wait, get_barrier, __pthread_spin_lock. split_and!.
  - cbn. rewrite bool_decide_eq_false_2, decide_True by done. cbn. rewrite Hb. cbn.
    unfold set_pending, get_barrier. cbn. rewrite Hb. cbn.
    assert (u32 (1 - 1) = 0%Z) as -> by done. cbn. rewrite lookup_insert_eq. cbn.
    by rewrite insert_insert_eq.
  - cbn. by rewrite lookup_insert_eq.
  - intros me'. cbn. rewrite bool_decide_eq_true_2 by set_solver. rewrite decide_False by done.
    cbn. rewrite decide_True by set_solver.
    assert ({[SBarrier b]} ∪ ({[SBarrier b]} ∪ spins w) = {[SBarrier b]} ∪ spins w) as -> by set_solver.
    eexists. reflexivity.
Qed.

Lemma barrier_of_one_keeps_lock_witness :
  exists w', solo (pthread_barrier_wait 0 (demo_ctx 0) (demo_barrier 1))
    = Done PTHREAD_BARRIER_SERIAL_THREAD w' /\ SBarrier 0 ∈ spins w'.
Proof.
  destruct (barrier_of_one_keeps_lock 0 None (demo_ctx 0) (demo_barrier 1)) as (w' & Hw & _ & Hk).
  - done.
  - set_solver.
  - exists w'. split; [exact Hw|]. destruct (decide (SBarrier 0 ∈ spins w')) as [|Hn]; [done|].
    injection Hw as <-. set_solver.
Defined.
