(* ===== verification/Cond.v ===== *)
(** * Condition variables without the wait: pt-cond-*.c of sysdeps/generic

    [__lock] is the spin lock [SCond c], [__queue] the head [HCond c].  The waits
    are in CondWait.v, as they can end the thread. *)
From Stdlib Require Import ZArith Lia.
From S2P Require Import Prelude Queue World Machine Sched Mach Demo Attr.

Definition get_cond (c : cond_id) : M cond := o ← gets (fun w => conds w !! c); deref o.

Definition put_cond (c : cond_id) (x : cond) : M unit :=
  modify (fun w => set_conds (<[c := x]> (conds w)) w).

(** pt-cond-init.c, with the misplaced parenthesis of the call to [memcmp]. *)
Definition __pthread_cond_init (c : cond_id) (attr : option condattr) : M error_t :=
  modify (fun w => set_spins (spins w ∖ {[SCond c]}) w);;
  modify (fun w => set_qh (clear_head (HCond c) (qh w)) w);;
  put_cond c (mkCond None);;
  match attr with
  | None => mret OK
  | Some a =>
      if negb (memcmp_zero =? 0)%Z then mret OK
      else
      ok ← malloc_ok;
      if negb ok then mret ENOMEM
      else put_cond c (mkCond (Some a));; mret OK
  end.

Definition __pthread_cond_destroy (c : cond_id) : M error_t := mret OK.

Definition __pthread_cond_signal (c : cond_id) : M error_t :=
  __pthread_spin_lock (SCond c);;
  wakeup ← queue_head (HCond c);
  match wakeup with Some t => dequeue t | None => mret tt end;;
  __pthread_spin_unlock (SCond c);;
  match wakeup with Some t => __pthread_wakeup t | None => mret tt end;;
  mret OK.

Definition __pthread_cond_broadcast (c : cond_id) : M error_t :=
  __pthread_spin_lock (SCond c);;
  q ← queue_head (HCond c);
  __pthread_dequeuing_iterate q __pthread_wakeup;;
  modify (fun w => set_qh (clear_head (HCond c) (qh w)) w);;
  __pthread_spin_unlock (SCond c);;
  mret OK.

(** The hook of pt-cond-timedwait.c, which [pthread_cancel] calls. *)
Definition run_cancel_hook (ctx : cancel_ctx) : M unit :=
  let wakeup := ctx_wakeup ctx in
  let c := ctx_cond ctx in
  __pthread_spin_lock (SCond c);;
  p ← get_prevp wakeup;
  let unblock := bool_decide (is_Some p) in
  when unblock (dequeue wakeup);;
  __pthread_spin_unlock (SCond c);;
  when unblock (__pthread_wakeup wakeup).

(** ** Specifications *)

(** The threads of the queue in order, the messages of the others untouched. *)
Lemma broadcast_drains c Q me w :
  qrep (qh w) Q -> SCond c ∉ spins w -> (forall t, t ∈ Q (HCond c) -> mail w !! t = Some 0) ->
  solo (__pthread_cond_broadcast c me w) =
  Done OK (set_qh (clear_head (HCond c) (foldl (fun q t => unlink t q) (qh w) (Q (HCond c))))
             (set_mail (post_all (Q (HCond c)) (mail w)) w)).
Proof.
  intros R Hl Hm. unfold __pthread_cond_broadcast. cbn. rewrite solo_spin_lock by done.
  cbn.
  rewrite (dequeuing_iterate_spec me __pthread_wakeup wake (Q (HCond c)) _
             (set_spins ({[SCond c]} ∪ spins w) w) _
             (quiet_wakeup me) (qseg_chain _ _ _ (qrep_seg _ _ R (HCond c))) (qrep_nodup _ _ R _)
             (drain_wake _ (set_spins _ w) (qrep_nodup _ _ R _) Hm)).
  cbn. rewrite spins_cycle by done. by destruct w.
Qed.

(** A broadcast wakes every thread that waits on the condition variable,
    sending each exactly one message, and no other thread; the queue is empty
    afterwards, the other queues are as they were, and so is the rest of the
    memory. *)
Theorem broadcast_wakes_all c Q me w :
  qrep (qh w) Q -> SCond c ∉ spins w -> (forall t, t ∈ Q (HCond c) -> mail w !! t = Some 0) ->
  exists q b, solo (__pthread_cond_broadcast c me w) = Done OK (set_qh q (set_mail b w)) /\
    qrep q (<[HCond c := []]> Q) /\
    forall t, b !! t = if decide (t ∈ Q (HCond c)) then Some 1 else mail w !! t.
Proof.
  intros R Hl Hm. eexists _, _. split; [by apply broadcast_drains|]. split.
  - by apply unlink_all_refines.
  - intros t. apply lookup_post_all.
Qed.

(** A signal dequeues the thread that queued up last and wakes it, and has no
    effect when nobody waits. *)
Theorem signal_wakes_one c Q me w :
  qrep (qh w) Q -> SCond c ∉ spins w ->
  (forall t l, Q (HCond c) = t :: l -> mail w !! t = Some 0) ->
  match Q (HCond c) with
  | [] => solo (__pthread_cond_signal c me w) = Done OK w
  | t :: l => exists q,
      solo (__pthread_cond_signal c me w) = Done OK (set_qh q (set_mail (<[t := 1]> (mail w)) w)) /\
      qrep q (qremove t Q) /\ qremove t Q (HCond c) = l
  end.
Proof.
  intros R Hl Hm. unfold __pthread_cond_signal. cbn.
  pose proof (qrep_head _ _ (HCond c) R) as Hh.
  destruct (Q (HCond c)) as [|t l] eqn:HQ; cbn in Hh.
  - rewrite solo_spin_lock by done. cbn. rewrite Hh. cbn. rewrite spins_cycle by done.
    by destruct w.
  - destruct (dequeue_refines (qh w) Q t) as (q & Hq & Rq).
    { done. } { exists (HCond c). rewrite HQ. set_solver. }
    exists q. split; [|split; [done|]].
    + rewrite solo_spin_lock by done. cbn. rewrite Hh. cbn.
      rewrite (dequeue_some t me _ q) by exact Hq. cbn.
      rewrite (wakeup_empty t me) by (by eapply Hm). cbn.
      rewrite spins_cycle by done. by destruct w.
    + apply qremove_head; [done|]. apply R.
Qed.

(** The cancelation hook of a wait dequeues and wakes the thread if it is
    still queued, and does nothing to a thread that was already woken, so that
    a thread gets at most one message for a wait. *)
Theorem cancel_hook_wakes_once ctx Q me w :
  qrep (qh w) Q -> SCond (ctx_cond ctx) ∉ spins w ->
  (queued Q (ctx_wakeup ctx) -> mail w !! ctx_wakeup ctx = Some 0) ->
  exists q b, solo (run_cancel_hook ctx me w) = Done tt (set_qh q (set_mail b w)) /\
    qrep q (qremove (ctx_wakeup ctx) Q) /\
    forall t, b !! t = if decide (t = ctx_wakeup ctx /\ is_Some (prevp (qh w) !! t))
                      then Some 1 else mail w !! t.
Proof.
  intros R Hl Hm. destruct ctx as [t c]. cbn in *. unfold run_cancel_hook. cbn.
  pose proof (qrep_queued _ _ t R) as Hq. destruct (prevp (qh w) !! t) as [x|] eqn:Hp.
  - destruct (dequeue_refines (qh w) Q t R) as (q & Hdq & Rq); [apply Hq; eauto|].
    exists q, (<[t := 1]> (mail w)). split; [|split; [done|]].
    + rewrite solo_spin_lock by done. cbn. rewrite Hp. cbn.
      rewrite (dequeue_some t me _ q) by exact Hdq. cbn.
      rewrite (wakeup_empty t me) by (apply Hm, Hq; eauto). cbn.
      rewrite spins_cycle by done. by destruct w.
    + intros u. case_decide as Hu.
      * destruct Hu as [-> _]. apply lookup_insert_eq.
      * apply lookup_insert_ne. intros ->. apply Hu. split; [done|]. by rewrite Hp.
  - exists (qh w), (mail w). split; [|split].
    + rewrite solo_spin_lock by done. cbn. rewrite Hp. cbn. rewrite spins_cycle by done.
      by destruct w.
    + rewrite qremove_not_queued; [done|]. rewrite Hq. by intros [].
    + intros u. rewrite decide_False; [done|]. intros [-> Hs]. rewrite Hp in Hs. by destruct Hs.
Qed.

(** ** Examples *)

Lemma demo_waiting_rep h : qrep (qh (demo_waiting 3 h [2; 0])) (<[h := [2; 0]]> (fun _ => [])).
Proof. apply queue_of_rep. by apply (bool_decide_unpack _). Qed.

Lemma broadcast_wakes_all_witness :
  exists q b, solo (__pthread_cond_broadcast (CUser 0) (demo_ctx 1) (demo_waiting 3 (HCond (CUser 0)) [2; 0]))
    = Done OK (set_qh q (set_mail b (demo_waiting 3 (HCond (CUser 0)) [2; 0]))) /\
    b !! 0 = Some 1 /\ b !! 1 = Some 0 /\ b !! 2 = Some 1.
Proof.
  destruct (broadcast_wakes_all (CUser 0) _ (demo_ctx 1) _ (demo_waiting_rep (HCond (CUser 0))))
    as (q & b & Hs & _ & Hb).
  - set_solver.
  - intros t. rewrite fn_lookup_insert, !elem_of_cons, elem_of_nil.
    by intros [-> | [-> | []]].
  - exists q, b. split; [exact Hs|]. by rewrite !Hb, fn_lookup_insert.
Defined.

Lemma signal_wakes_one_witness :
  exists q, solo (__pthread_cond_signal (CUser 0) (demo_ctx 1) (demo_waiting 3 (HCond (CUser 0)) [2; 0]))
    = Done OK (set_qh q (set_mail (<[2 := 1]> (mail (demo_world 3 ANull)))
                           (demo_waiting 3 (HCond (CUser 0)) [2; 0]))).
Proof.
  pose proof (signal_wakes_one (CUser 0) _ (demo_ctx 1) _ (demo_waiting_rep (HCond (CUser 0)))) as H.
  rewrite fn_lookup_insert in H. destruct H as (q & Hq & _).
  - set_solver.
  - intros t l [= <- <-]. done.
  - by exists q.
Defined.

Lemma cancel_hook_wakes_once_witness :
  exists q b, solo (run_cancel_hook (mkCancelCtx 0 (CUser 0)) (demo_ctx 1)
                      (demo_waiting 3 (HCond (CUser 0)) [2; 0]))
    = Done tt (set_qh q (set_mail b (demo_waiting 3 (HCond (CUser 0)) [2; 0]))) /\ b !! 0 = Some 1.
Proof.
  destruct (cancel_hook_wakes_once (mkCancelCtx 0 (CUser 0)) _ (demo_ctx 1) _
              (demo_waiting_rep (HCond (CUser 0)))) as (q & b & Hs & _ & Hb).
  - set_solver.
  - done.
  - exists q, b. split; [exact Hs|]. rewrite Hb. by rewrite decide_True by (split; [done | by eexists]).
Defined.
