(* ===== verification/Kernel.v ===== *)
(** * Kernel threads, stacks and signal state: sysdeps/mach

    The requests to the kernel are recorded in [klog]; whether one succeeds is
    up to the environment.  A [struct __pthread *] stored in memory is the number
    of the thread. *)
From Stdlib Require Import ZArith Lia.
From S2P Require Import Prelude Queue World Machine Platform Sched Mach Attr.
Local Open Scope Z_scope.

Definition get_glob {A} (f : globals -> A) : M A := gets (fun w => f (glob w)).
Definition put_glob (f : globals -> globals) : M unit := modify (fun w => set_glob (f (glob w)) w).

(** A port name or an address that was not in use. *)
Definition fresh_port : M Z := fun _ w =>
  Done (next_port (env w)) (set_env (set_next_port (next_port (env w) + 1) (env w)) w).

(** [__mach_thread_self] *)
Definition mach_thread_self : M Z := fun me w => Done (ktid me) w.

Definition update_thread (t : nat) (f : pthread -> pthread) : M unit :=
  p ← get_thread t; put_thread t (f p).

Definition with_thread (t : nat) (p : pthread) (w : world) : world := set_pthreads (<[t := p]> (pthreads w)) w.

Lemma update_thread_at t f p me w :
  pthreads w !! t = Some p -> update_thread t f me w = Done tt (with_thread t (f p) w).
Proof. intros Hp. unfold update_thread, get_thread. cbn. by rewrite Hp. Qed.

Lemma get_thread_at t p me w : pthreads w !! t = Some p -> get_thread t me w = Done p w.
Proof. intros Hp. unfold get_thread. cbn. by rewrite Hp. Qed.

(** ** pt-thread-alloc.c and its kin *)

Definition create_wakeupmsg (thread : nat) : M error_t :=
  ok ← kernel_request (KPortAllocate thread);
  if negb ok then mret EAGAIN
  else
  modify (fun w => set_mail (<[thread := 0%nat]> (mail w)) w);;
  ok ← kernel_request (KPortInsertRight thread);
  if negb ok then
    _ ← kernel_request (KPortDestroy thread);
    modify (fun w => set_mail (delete thread (mail w)) w);;
    mret EAGAIN
  else mret OK.

Definition __pthread_thread_alloc (thread : nat) : M error_t :=
  p ← get_thread thread;
  if have_kernel_resources p then mret OK
  else
  err ← create_wakeupmsg thread;
  if decide (err <> OK) then mret err
  else
  num ← get_glob num_threads;
  if num =? 1 then
    total ← get_glob pthread_total;
    c_assert (total =? 0);;
    k ← mach_thread_self;
    update_thread thread (with_kernel_thread k);;
    update_thread thread (with_have_kernel_resources true);;
    mret OK
  else
    k ← fresh_port;
    ok ← kernel_request (KThreadCreate k);
    if negb ok then mret EAGAIN
    else
    update_thread thread (with_kernel_thread k);;
    update_thread thread (with_have_kernel_resources true);;
    mret OK.

(** The port goes, [have_kernel_resources] stays as it is. *)
Definition __pthread_thread_dealloc (thread : nat) : M unit :=
  _ ← kernel_request (KPortDestroy thread);
  modify (fun w => set_mail (delete thread (mail w)) w).

Definition __pthread_thread_start (thread : nat) : M error_t :=
  num ← get_glob num_threads;
  p ← get_thread thread;
  if num =? 1 then
    total ← get_glob pthread_total;
    c_assert (total =? 1);;
    k ← mach_thread_self;
    c_assert (kernel_thread p =? k);;
    mret OK
  else
    ok ← kernel_request (KThreadResume (kernel_thread p));
    c_assert ok;;
    mret OK.

(** A thread that terminates itself does not return. *)
Definition __pthread_thread_halt (thread : nat) : M unit :=
  p ← get_thread thread;
  ok ← kernel_request (KThreadTerminate (kernel_thread p));
  c_assert ok;;
  k ← mach_thread_self;
  if kernel_thread p =? k then halt_self else mret tt.

(** ** Stacks: pt-stack-alloc.c *)

Section Stack.
  Context `{Platform}.

(** The loop over [base], a 32-bit address. *)
Fixpoint find_stack (fuel : nat) (base size : Z) : M Z :=
  if base <? VM_MAX_ADDRESS then
    match fuel with
    | O => fail FFuel
    | S fuel =>
        ok ← kernel_request (KVmAllocate base size);
        if (ok : bool) then mret base else find_stack fuel (u32 (base + size)) size
    end
  else mret base.

Definition stack_fuel (size : Z) : nat := Z.to_nat (VM_MAX_ADDRESS / size + 1).

Definition __pthread_stack_alloc (size : Z) : M (error_t * option Z) :=
  default ← get_glob default_stacksize;
  if negb (size =? default) then mret (EINVAL, None)
  else
  next ← get_glob next_stack_base;
  base ← find_stack (stack_fuel size) next size;
  base ← (if VM_MAX_ADDRESS <=? base then
            put_glob (set_next_stack_base VM_MIN_ADDRESS);;
            find_stack (stack_fuel size) VM_MIN_ADDRESS size
          else mret base);
  if VM_MAX_ADDRESS <=? base then mret (EAGAIN, None)
  else
  put_glob (set_next_stack_base (u32 (base + size)));;
  mret (OK, Some base).

Definition __pthread_stack_dealloc (addr size : Z) : M unit :=
  _ ← kernel_request (KVmDeallocate addr size); mret tt.
End Stack.

(** ** The machine context: hurd/i386/pt-setup.c and pt-machdep.c *)

(** The descriptor of HURD_TLS_DESC_DECL: a 4 GB data segment based at [tcb]. *)
Definition tls_desc (tcb : Z) : Z * Z :=
  (u32 (Z.lor 0xffff (Z.shiftl (u32 tcb) 16)),
   u32 (Z.lor (Z.lor (Z.lor (Z.lor (Z.land (Z.shiftr (u32 tcb) 16) 0xff)
     (Z.shiftl (Z.lor (Z.lor 0x12 0x60) 0x80) 8)) (Z.shiftl 0xf 16))
     (Z.shiftl (Z.lor 4 8) 20)) (Z.land (u32 tcb) 0xff000000))).

Section Setup.
  Context `{Platform}.

(** The result tells whether all requests succeeded. *)
Definition __thread_set_pcsptp (k : Z) (ip sp tp : option Z) : M bool :=
  ok ← kernel_request (KThreadGetState k);
  if negb ok then mret false
  else
  gs ← match tp with
       | None => mret (Some None)
       | Some tp =>
           let '(lo, hi) := tls_desc tp in
           if negb (Z.land self_gs 4 =? 0)
           then ok ← kernel_request (KSetLdt k self_gs lo hi);
                mret (if (ok : bool) then Some (Some self_gs) else None)
           else ok ← kernel_request (KSetGdt k self_gs lo hi);
                mret (if (ok : bool) then Some (Some gdt_sel) else None)
       end;
  match gs with
  | None => mret false
  | Some gs => kernel_request (KThreadSetState k ip sp gs)
  end.

Definition write_stack (addr v : Z) : M unit :=
  modify (fun w => set_env (set_stack_mem (<[addr := v]> (stack_mem (env w))) (env w)) w).

Definition stack_setup (thread : nat) (start_routine arg : Z) : M Z :=
  p ← get_thread thread;
  let bottom := p_stackaddr p in
  let top := u32 (bottom + p_stacksize p) in
  let top := u32 (top - 4 * hurd_threadvar_max) in
  top ← (if negb (start_routine =? 0) then
           let top := Z.land (u32 (top - 12)) (u32 (Z.lnot 0xf)) in
           write_stack (top + 8) arg;;
           write_stack (top + 4) start_routine;;
           write_stack top (Z.of_nat thread);;
           let top := u32 (top - 4) in
           write_stack top 0;;
           mret top
         else mret top);
  (if negb (p_guardsize p =? 0) then
     ok ← kernel_request (KVmProtect bottom (p_guardsize p)); c_assert ok
   else mret tt);;
  mret top.

Definition set_tcb_self (tcb self : Z) : M unit :=
  o ← gets (fun w => tcbs (env w) !! tcb);
  x ← deref o;
  modify (fun w => set_env (set_tcbs (<[tcb := mkTcb (tcb_tcb x) self]> (tcbs (env w))) (env w)) w).

Definition __pthread_setup (thread : nat) (entry_point start_routine arg : Z) : M error_t :=
  update_thread thread (with_mc_pc entry_point);;
  sp ← stack_setup thread start_routine arg;
  update_thread thread (with_mc_sp sp);;
  p ← get_thread thread;
  tcb ← deref (p_tcb p);
  set_tcb_self tcb (kernel_thread p);;
  k ← mach_thread_self;
  (if negb (kernel_thread p =? k) then
     ok ← __thread_set_pcsptp (kernel_thread p) (Some (mc_pc p)) (Some (mc_sp p)) (Some tcb);
     c_assert ok
   else mret tt);;
  mret OK.

(** ** Signal state: hurd/pt-sigstate*.c *)

(** The signal word of the thread's stack is cleared. *)
Definition __pthread_sigstate_init (thread : nat) : M error_t :=
  p ← get_thread thread;
  write_stack (threadvar_location (p_stackaddr p)) 0;;
  mret OK.

Definition __pthread_sigstate_destroy (thread : nat) : M unit := mret tt.
End Setup.

(** glibc makes the signal state of a kernel thread when it is first asked for. *)
Definition hurd_thread_sigstate (k : Z) : M hurd_sigstate :=
  gets (fun w => default (fresh_sigstate (env w)) (sigstates (env w) !! k)).

Definition put_sigstate (k : Z) (ss : hurd_sigstate) : M unit :=
  modify (fun w => set_env (set_sigstates (<[k := ss]> (sigstates (env w))) (env w)) w).

(** sigprocmask's constants, of the C library. *)
Definition SIG_BLOCK : Z := 1.
Definition SIG_UNBLOCK : Z := 2.
Definition SIG_SETMASK : Z := 3.

(** The mask [blocked] changed as [how] says; [None]: no such operation. *)
Definition change_mask (how blocked set : Z) : option Z :=
  if how =? SIG_BLOCK then Some (Z.lor blocked set)
  else if how =? SIG_SETMASK then Some set
  else if how =? SIG_UNBLOCK then Some (Z.land blocked (u32 (Z.lnot set)))
  else None.

Definition __pthread_sigstate (thread : nat) (how : Z) (set : option Z) (clear_pending : bool) :
    M (error_t * Z) :=
  p ← get_thread thread;
  let k := kernel_thread p in
  __pthread_spin_lock (SSigstate (Z.to_nat k));;
  ss ← hurd_thread_sigstate k;
  let oset := ss_blocked ss in
  let '(err, blocked) := match set with
    | None => (OK, ss_blocked ss)
    | Some s => match change_mask how (ss_blocked ss) s with
                | Some b => (OK, b)
                | None => (EINVAL, ss_blocked ss)
                end
    end in
  let pending := if bool_decide (err = OK) && clear_pending then 0 else ss_pending ss in
  put_sigstate k (mkSigstate blocked pending (ss_cancel ss) (ss_cancel_hook ss) (ss_intr_port ss));;
  __pthread_spin_unlock (SSigstate (Z.to_nat k));;
  mret (err, oset).

(** pthread/pt-sigmask.c *)
Definition pthread_sigmask (how : Z) (set : option Z) : M (error_t * Z) :=
  self ← _pthread_self;
  __pthread_sigstate self how set false.
