(* ===== verification/KernelFacts.v ===== *)
(** * Stacks, machine contexts and signal masks *)
From Stdlib Require Import ZArith Lia.
From S2P Require Import Prelude Queue World Machine Platform Sched Mach Demo Attr Kernel.
Local Open Scope Z_scope.

(** ** The search for a stack *)

(** The request [c] was made and granted. *)
Definition requested (c : kcall) (w : world) : world := set_env (set_klog (c :: klog (env w)) (env w)) w.

Lemma kernel_request_granted c me w :
  answers (env w) = [] -> kernel_request c me w = Done true (requested c w).
Proof. intros Ha. unfold kernel_request, ask. cbn. by rewrite Ha. Qed.

#[global] Arguments kernel_request : simpl never.

Section Stack.
  Context `{Platform}.
  Context (size : Z) (Hsize : 0 < size) (Hmax : VM_MAX_ADDRESS + size <= 2 ^ 32).

(** The addresses that a search from [base] on tries if the kernel refuses all. *)
Definition slots (base : Z) : nat := Z.to_nat ((VM_MAX_ADDRESS - base + size - 1) / size).
Definition candidates (base : Z) : list Z := (fun i => base + Z.of_nat i * size) <$> seq 0 (slots base).

(** The world after the kernel was asked for stacks at the addresses [l]. *)
Definition tried (l : list Z) (w : world) : world :=
  set_env (set_klog (reverse ((fun b => KVmAllocate b size) <$> l) ++ klog (env w))
    (set_answers (drop (length l) (answers (env w))) (env w))) w.

(** The answers to come; requests without an answer are granted. *)
Definition answer (w : world) (i : nat) : bool := default true (answers (env w) !! i).

(** The first of [l] that the kernel accepts. *)
Definition accepts_at (l : list Z) (w : world) (i : nat) : Prop :=
  answer w i = true /\ (i < length l)%nat /\ forall j, (j < i)%nat -> answer w j = false.

Definition refuses_all (l : list Z) (w : world) : Prop := forall i, (i < length l)%nat -> answer w i = false.

Lemma slots_below base : base < VM_MAX_ADDRESS -> slots base = S (slots (base + size)).
Proof.
  intros Hb. unfold slots. rewrite <- Z2Nat.inj_succ.
  - f_equal. replace (VM_MAX_ADDRESS - base + size - 1) with (VM_MAX_ADDRESS - (base + size) + size - 1 + 1 * size) by lia.
    rewrite Z.div_add by lia. lia.
  - apply Z.div_pos; lia.
Qed.

Lemma slots_above base : VM_MAX_ADDRESS <= base -> slots base = 0%nat.
Proof.
  intros Hb. unfold slots. destruct (decide (base = VM_MAX_ADDRESS)) as [-> | Hne].
  - rewrite Z.div_small; lia.
  - pose proof (Z.div_lt_upper_bound (VM_MAX_ADDRESS - base + size - 1) size 1). lia.
Qed.

Lemma candidates_below base : base < VM_MAX_ADDRESS -> candidates base = base :: candidates (base + size).
Proof.
  intros Hb. unfold candidates. rewrite slots_below by done. cbn [seq fmap list_fmap]. f_equal; [lia|].
  rewrite <- fmap_S_seq, <- list_fmap_compose. apply list_fmap_ext. intros i j _. cbn. lia.
Qed.

Lemma candidates_above base : VM_MAX_ADDRESS <= base -> candidates base = [].
Proof. intros Hb. unfold candidates. by rewrite slots_above. Qed.

Lemma tried_nil w : tried [] w = w.
Proof. destruct w as [? ? ? ? ? ? ? ? ? ? ? [] ?]. done. Qed.

Lemma tried_tried l1 l2 w : tried l2 (tried l1 w) = tried (l1 ++ l2) w.
Proof.
  unfold tried. cbn. by rewrite drop_drop, length_app, fmap_app, reverse_app, <- app_assoc.
Qed.

Lemma tried_answer l w i : answer (tried l w) i = answer w (length l + i).
Proof. unfold answer, tried. cbn. by rewrite lookup_drop. Qed.

Lemma request_tried base me w :
  kernel_request (KVmAllocate base size) me w = Done (answer w 0) (tried [base] w).
Proof.
  unfold kernel_request, ask, answer, tried. cbn.
  destruct w as [? ? ? ? ? ? ? ? ? ? ? [? a ? ? ? ? ? ? ? ? ? ?] ?]. cbn. by destruct a as [|b a].
Qed.

(** The search tries the addresses one after the other, up to the first that
    is accepted. *)
Lemma find_stack_spec me fuel base w :
  0 <= base -> (slots base <= fuel)%nat ->
  (exists i b, accepts_at (candidates base) w i /\ candidates base !! i = Some b /\
     find_stack fuel base size me w = Done b (tried (take (S i) (candidates base)) w)) \/
  (refuses_all (candidates base) w /\ exists b, VM_MAX_ADDRESS <= b /\
     find_stack fuel base size me w = Done b (tried (candidates base) w)).
Proof.
  revert base w. induction fuel as [|fuel IH]; intros base w Hb Hf;
    (destruct (Z.ltb_spec base VM_MAX_ADDRESS) as [Hlt | Hge];
      [rewrite slots_below in Hf by done|
       right; rewrite candidates_above by done; split; [by intros i ?%Nat.nlt_0_r|]; exists base;
         split; [done|]; cbn; rewrite (proj2 (Z.ltb_ge _ _)) by done; by rewrite tried_nil]).
  { lia. }
  rewrite candidates_below by done. cbn [find_stack]. rewrite (proj2 (Z.ltb_lt _ _)) by done.
  cbn [mbind M_bind]. rewrite request_tried. cbn [bindr]. destruct (answer w 0) eqn:Ha.
  { left. exists 0%nat, base. split; [|done]. split; [done|]. split; [cbn; lia | lia]. }
  rewrite wrapu_small by lia.
  destruct (IH (base + size) (tried [base] w)) as [(i & b & (Hi & Hlen & Hbefore) & Hl & ->) | (Hall & b & Hge & ->)]; [lia..| |].
  - left. exists (S i), b. split; [split; [by rewrite tried_answer in Hi|]; split; [cbn; lia|]|split; [done|]].
    + intros [|j] Hj; [done|]. rewrite <- (Hbefore j) by lia. by rewrite tried_answer.
    + by rewrite tried_tried.
  - right. split; [|exists b; split; [done | by rewrite tried_tried]].
    intros [|i] Hi; [done|]. cbn in Hi. rewrite <- (Hall i) by lia. by rewrite tried_answer.
Qed.

Lemma candidate_range base i b : 0 <= base -> candidates base !! i = Some b -> 0 <= b < VM_MAX_ADDRESS.
Proof.
  intros Hb. unfold candidates. rewrite list_lookup_fmap. intros (j & Hj & ->)%fmap_Some. apply lookup_seq in Hj as [-> Hj]. cbn.
  split; [nia|]. unfold slots in Hj.
  pose proof (Z.mul_div_le (VM_MAX_ADDRESS - base + size - 1) size Hsize) as Hdiv.
  set (q := (VM_MAX_ADDRESS - base + size - 1) / size) in *. clearbody q.
  assert (size * (Z.of_nat i + 1) <= size * q) by (apply Z.mul_le_mono_nonneg_l; lia). lia.
Qed.

Lemma stack_fuel_enough base : 0 <= base -> 0 <= VM_MAX_ADDRESS -> (slots base <= stack_fuel size)%nat.
Proof.
  intros Hb Hv. unfold slots, stack_fuel. 
  enough ((VM_MAX_ADDRESS - base + size - 1) / size <= VM_MAX_ADDRESS / size + 1) by lia.
  replace (VM_MAX_ADDRESS / size + 1) with ((VM_MAX_ADDRESS + 1 * size) / size) by (apply Z.div_add; lia).
  apply Z.div_le_mono; lia.
Qed.

(** All addresses that an allocation tries: from the one after the last stack up
    to the top, and then all from the bottom. *)
Definition search_order (w : world) : list Z :=
  candidates (next_stack_base (glob w)) ++ candidates VM_MIN_ADDRESS.

Definition stack_base_moved (b : Z) (w : world) : world := set_glob (set_next_stack_base b (glob w)) w.

(** C36: the allocation of a stack always comes to an end.  It fails with EINVAL,
    and without asking the kernel, exactly for a size other than the default one.
    Otherwise it asks the kernel for the whole size at one address after the
    other, from the end of the last stack up to VM_MAX_ADDRESS and then all over
    from VM_MIN_ADDRESS; the stack is at the first address that the kernel
    accepts, and the next search starts behind it.  It fails with EAGAIN only
    when the kernel has refused all these addresses, and then starts at
    VM_MIN_ADDRESS the next time.  (The addresses do not wrap around as long as a
    stack at VM_MAX_ADDRESS would end below 2^32.) *)
Theorem stack_alloc_result me w :
  0 <= VM_MIN_ADDRESS -> 0 <= VM_MAX_ADDRESS -> 0 <= next_stack_base (glob w) ->
  let l := search_order w in
  exists r w', __pthread_stack_alloc size me w = Done r w' /\
    match r with
    | (OK, Some base) =>
        size = default_stacksize (glob w) /\
        exists i, accepts_at l w i /\ l !! i = Some base /\ base < VM_MAX_ADDRESS /\
          w' = stack_base_moved (base + size) (tried (take (S i) l) w)
    | (EINVAL, None) => size <> default_stacksize (glob w) /\ w' = w
    | (EAGAIN, None) =>
        size = default_stacksize (glob w) /\ refuses_all l w /\
        w' = stack_base_moved VM_MIN_ADDRESS (tried l w)
    | _ => False
    end.
Proof.
  intros Hmin Hvm Hnext. unfold __pthread_stack_alloc, get_glob. cbn.
  destruct (Z.eqb_spec size (default_stacksize (glob w))) as [Hs | Hs]; cbn;
    [|eexists _, _; split; [done|]; done].
  set (l1 := candidates (next_stack_base (glob w))). set (l2 := candidates VM_MIN_ADDRESS).
  destruct (find_stack_spec me (stack_fuel size) (next_stack_base (glob w)) w)
    as [(i & b & Hacc & Hb & ->) | (Hall & b & Hge & ->)]; [done | by apply stack_fuel_enough | |]; cbn.
  - fold l1 in Hacc, Hb. destruct (candidate_range _ _ _ Hnext Hb) as [Hb0 Hlt].
    rewrite (proj2 (Z.leb_gt _ _)) by done. cbn. rewrite (proj2 (Z.leb_gt _ _)) by done. cbn.
    eexists _, _. split; [done|]. cbn. split; [done|]. exists i. rewrite wrapu_small by lia.
    pose proof Hacc as (Hi & Hlen & Hbefore). split_and!.
    + split; [done|]. split; [unfold search_order; rewrite length_app; fold l1; lia | done].
    + unfold search_order. fold l1. by rewrite lookup_app_l.
    + done.
    + unfold search_order. fold l1. rewrite take_app_le by lia. done.
  - rewrite (proj2 (Z.leb_le _ _)) by done. cbn. set (w2 := set_glob _ _).
    assert (forall i, answer w2 i = answer w (length l1 + i)) as Hans.
    { intros i. unfold w2. by rewrite <- tried_answer. }
    destruct (find_stack_spec me (stack_fuel size) VM_MIN_ADDRESS w2)
      as [(i & b' & Hacc & Hb & ->) | (Hall2 & b' & Hge' & ->)]; [done | by apply stack_fuel_enough | |]; cbn.
    + fold l2 in Hacc, Hb. destruct (candidate_range _ _ _ Hmin Hb) as [Hb0 Hlt].
      rewrite (proj2 (Z.leb_gt _ _)) by done. cbn.
      eexists _, _. split; [done|]. cbn. split; [done|]. exists (length l1 + i)%nat. rewrite wrapu_small by lia.
      pose proof Hacc as (Hi & Hlen & Hbefore). split_and!.
      * split; [by rewrite <- Hans|]. split; [unfold search_order; rewrite length_app; fold l1 l2; lia|]. intros j Hj.
        destruct (decide (j < length l1)%nat) as [Hj1 | Hj1]; [by apply Hall|].
        replace j with (length l1 + (j - length l1))%nat by lia. rewrite <- Hans. apply Hbefore. lia.
      * unfold search_order. fold l1 l2. rewrite lookup_app_r by lia. by rewrite Nat.add_comm, Nat.add_sub.
      * done.
      * unfold search_order. fold l1 l2. rewrite <- Nat.add_succ_r, take_app_add, <- tried_tried. done.
    + rewrite (proj2 (Z.leb_le _ _)) by done. cbn. eexists _, _. split; [done|]. cbn. split; [done|]. split.
      * intros i Hi. unfold search_order in Hi. rewrite length_app in Hi. fold l1 l2 in Hi.
        destruct (decide (i < length l1)%nat) as [Hi1 | Hi1]; [by apply Hall|].
        replace i with (length l1 + (i - length l1))%nat by lia. rewrite <- Hans. apply Hall2. fold l2. lia.
      * unfold search_order. fold l1 l2. by rewrite <- tried_tried.
Qed.
End Stack.

(** The kernel refuses the first two addresses. *)
Definition demo_refusing : world :=
  set_env (set_answers [false; false] (env (demo_world 1 ANull))) (demo_world 1 ANull).

Lemma stack_alloc_result_witness :
  exists w', __pthread_stack_alloc (H := demo_platform) 2097152 (demo_ctx 0) demo_refusing
    = Done (OK, Some 4194304) w' /\ next_stack_base (glob w') = 6291456.
Proof.
  destruct (stack_alloc_result (H := demo_platform) 2097152 ltac:(lia) ltac:(cbn; lia)
              (demo_ctx 0) demo_refusing) as (r & w' & Hr & Hs); [cbn; lia..|].
  assert (r = (OK, Some 4194304)) as ->.
  { vm_compute in Hr. by injection Hr as <- _. }
  exists w'. split; [exact Hr|]. by destruct Hs as (_ & i & _ & _ & _ & ->).
Defined.

(** ** The first frame of a thread *)

(** The mask [~0xf] rounds an address down. *)
Lemma align16 z : 0 <= z < 2 ^ 32 -> Z.land z (u32 (Z.lnot 0xf)) = 16 * (z / 16).
Proof.
  intros Hz. replace (u32 (Z.lnot 15)) with (Z.shiftl (Z.ones 28) 4) by done.
  assert (Z.land z (Z.shiftl (Z.ones 28) 4) = Z.shiftl (Z.land (Z.shiftr z 4) (Z.ones 28)) 4) as ->.
  { apply Z.bits_inj'. intros i Hi. rewrite !Z.land_spec. destruct (Z.le_gt_cases 4 i).
    - rewrite !Z.shiftl_spec, Z.land_spec, Z.shiftr_spec by lia. do 2 f_equal; lia.
    - rewrite !Z.shiftl_spec_low by lia. apply andb_false_r. }
  rewrite Z.land_ones, Z.shiftr_div_pow2, Z.shiftl_mul_pow2 by lia.
  change (2 ^ 4) with 16. rewrite Z.mod_small; [lia|]. Z.to_euclidean_division_equations. lia.
Qed.

Definition stack_word (w : world) (addr : Z) : option Z := stack_mem (env w) !! addr.

(** Four words from the address [sp] upwards. *)
Definition frame (sp x1 x2 x3 : Z) (m : gmap Z Z) : gmap Z Z :=
  <[sp := 0]> (<[sp + 4 := x1]> (<[sp + 8 := x2]> (<[sp + 12 := x3]> m))).

Lemma frame_words sp x1 x2 x3 m :
  frame sp x1 x2 x3 m !! sp = Some 0 /\ frame sp x1 x2 x3 m !! (sp + 4) = Some x1 /\
  frame sp x1 x2 x3 m !! (sp + 8) = Some x2 /\ frame sp x1 x2 x3 m !! (sp + 12) = Some x3.
Proof.
  unfold frame. split_and!; repeat first [rewrite lookup_insert_eq | rewrite lookup_insert_ne by lia]; done.
Qed.

Section Frame.
  Context `{Platform}.

(** The world after the frame was written. *)
Definition framed_stack (thread : nat) (start arg sp : Z) (p : pthread) (w : world) : world :=
  set_env (set_klog ((if p_guardsize p =? 0 then [] else [KVmProtect (p_stackaddr p) (p_guardsize p)]) ++ klog (env w))
    (set_stack_mem (frame sp (Z.of_nat thread) start arg (stack_mem (env w))) (env w))) w.

Lemma stack_setup_at thread start arg p me w :
  let bottom := p_stackaddr p in
  let top := bottom + p_stacksize p - 4 * hurd_threadvar_max in
  pthreads w !! thread = Some p -> start <> 0 -> answers (env w) = [] ->
  0 <= bottom -> 0 <= hurd_threadvar_max -> bottom + p_stacksize p < 2 ^ 32 ->
  32 + 4 * hurd_threadvar_max <= p_stacksize p ->
  exists sp, stack_setup thread start arg me w = Done sp (framed_stack thread start arg sp p w) /\
    (16 | sp + 4) /\ bottom <= sp /\ sp + 16 <= top.
Proof.
  intros bottom top Hp Hstart Ha Hb Hv Hov Hbig. unfold stack_setup, get_thread. cbn. rewrite Hp. cbn.
  rewrite (proj2 (Z.eqb_neq start 0)) by done. cbn.
  rewrite (wrapu_small 32 (p_stackaddr p + p_stacksize p)) by lia.
  rewrite (wrapu_small 32 (p_stackaddr p + p_stacksize p - _)) by lia.
  rewrite (wrapu_small 32 (_ - 12)) by lia. rewrite align16 by lia.
  set (args := 16 * ((p_stackaddr p + p_stacksize p - 4 * hurd_threadvar_max - 12) / 16)).
  assert (top - 28 < args <= top - 12) as Hargs
    by (unfold args, top, bottom; Z.to_euclidean_division_equations; lia).
  rewrite (wrapu_small 32 (args - 4)) by (unfold top, bottom in *; lia).
  exists (args - 4). split.
  - unfold framed_stack, frame. replace (args - 4 + 4) with args by lia.
    replace (args - 4 + 8) with (args + 4) by lia. replace (args - 4 + 12) with (args + 8) by lia.
    destruct (p_guardsize p =? 0); cbn; unfold kernel_request, ask; cbn; rewrite ?Ha; done.
  - split_and!.
    + exists ((p_stackaddr p + p_stacksize p - 4 * hurd_threadvar_max - 12) / 16). unfold args. lia.
    + unfold top, bottom in *. lia.
    + lia.
Qed.

(** The stack of a new thread is set up for the entry point like a call of a
    function with three arguments on the i386: from the stack pointer upwards
    there are a null return address, the thread, the start routine and its
    argument; the arguments begin at a multiple of 16, all words lie inside the
    stack and below the threadvars at its top, and the guard pages are protected. *)
Theorem stack_setup_frame thread start arg p me w :
  let bottom := p_stackaddr p in
  let top := bottom + p_stacksize p - 4 * hurd_threadvar_max in
  pthreads w !! thread = Some p -> start <> 0 -> answers (env w) = [] ->
  0 <= bottom -> 0 <= hurd_threadvar_max -> bottom + p_stacksize p < 2 ^ 32 ->
  32 + 4 * hurd_threadvar_max <= p_stacksize p ->
  exists sp w', stack_setup thread start arg me w = Done sp w' /\
    stack_word w' sp = Some 0 /\ stack_word w' (sp + 4) = Some (Z.of_nat thread) /\
    stack_word w' (sp + 8) = Some start /\ stack_word w' (sp + 12) = Some arg /\
    (16 | sp + 4) /\ bottom <= sp /\ sp + 16 <= top /\
    klog (env w') = (if p_guardsize p =? 0 then [] else [KVmProtect bottom (p_guardsize p)]) ++ klog (env w).
Proof.
  intros bottom top Hp Hstart Ha Hb Hv Hov Hbig.
  destruct (stack_setup_at thread start arg p me w) as (sp & Hrun & Hal & Hlow & Hhigh); [done..|].
  eexists sp, _. split; [exact Hrun|]. unfold stack_word. cbn.
  destruct (frame_words sp (Z.of_nat thread) start arg (stack_mem (env w))) as (-> & -> & -> & ->).
  by split_and!.
Qed.
End Frame.

Definition demo_stack_world : world :=
  set_pthreads {[1%nat := with_p_stackaddr 0x100000 (with_p_stacksize 0x200000 (demo_pthread 1))]}
    (demo_world 2 ANull).

Lemma stack_setup_frame_witness :
  exists sp w', stack_setup (H := demo_platform) 1 0x8048000 42 (demo_ctx 0) demo_stack_world = Done sp w' /\
    stack_word w' (sp + 8) = Some 0x8048000 /\ (16 | sp + 4).
Proof.
  destruct (stack_setup_frame (H := demo_platform) 1 0x8048000 42
              (with_p_stackaddr 0x100000 (with_p_stacksize 0x200000 (demo_pthread 1)))
              (demo_ctx 0) demo_stack_world) as (sp & w' & Hs & _ & _ & Hstart & _ & Hal & _).
  - done.
  - done.
  - done.
  - done.
  - done.
  - done.
  - done.
  - by exists sp, w'.
Defined.

(** ** The segment of the TLS *)

(** What the processor reads from a descriptor: base, limit, and the access
    and flag bits. *)
Definition desc_base (d : Z * Z) : Z :=
  Z.lor (Z.shiftr d.1 16) (Z.lor (Z.shiftl (Z.land d.2 0xff) 16) (Z.land d.2 0xff000000)).
Definition desc_limit (d : Z * Z) : Z :=
  Z.lor (Z.land d.1 0xffff) (Z.land d.2 0xf0000).
Definition desc_access (d : Z * Z) : Z := Z.land (Z.shiftr d.2 8) 0xf0ff.

Lemma u32_testbit z i : 0 <= i -> Z.testbit (u32 z) i = (i <? 32) && Z.testbit z i.
Proof.
  intros Hi. unfold wrapu. destruct (Z.ltb_spec i 32).
  - by rewrite Z.mod_pow2_bits_low.
  - by rewrite Z.mod_pow2_bits_high by lia.
Qed.

Lemma high_testbit k c i : 0 <= c < 2 ^ k -> 0 <= k <= i -> Z.testbit c i = false.
Proof. intros Hc Hi. rewrite <- (Z.mod_small c (2 ^ k)) by done. apply Z.mod_pow2_bits_high. lia. Qed.

(** Numbers with the same low 32 bits and no others are equal. *)
Lemma bits32_inj x y :
  (forall n, (n < 32)%nat -> Z.testbit x (Z.of_nat n) = Z.testbit y (Z.of_nat n)) ->
  (forall i, 32 <= i -> Z.testbit x i = false) -> (forall i, 32 <= i -> Z.testbit y i = false) -> x = y.
Proof.
  intros H Hx Hy. apply Z.bits_inj'. intros i Hi. destruct (Z.lt_ge_cases i 32).
  - rewrite <- (Z2Nat.id i) by lia. apply H. lia.
  - by rewrite Hx, Hy by lia.
Qed.

(** Compares two numbers bit by bit. *)
Ltac solve_bits :=
  intros n Hn;
  do 32 (destruct n as [|n];
    [clear Hn; cbn [Z.of_nat Pos.of_succ_nat Pos.succ];
     repeat first [rewrite Z.lor_spec | rewrite Z.land_spec | rewrite Z.shiftr_spec by lia
       | rewrite Z.shiftl_spec by lia | rewrite u32_testbit by lia]; cbn;
     rewrite ?andb_true_r, ?andb_false_r, ?orb_false_r, ?orb_true_r; reflexivity | ]); lia.

(** C37: the descriptor of the thread pointer describes, for every 32-bit
    address, a present, writable data segment of user privilege with that base
    and the limit of four gigabytes in pages. *)
Theorem tls_desc_segment tcb :
  let d := tls_desc tcb in
  desc_base d = u32 tcb /\ desc_limit d = 0xfffff /\ desc_access d = 0xc0f2.
Proof.
  cbn zeta. set (d := tls_desc tcb). unfold desc_base, desc_limit, desc_access.
  assert (forall i, 32 <= i -> Z.testbit d.1 i = false /\ Z.testbit d.2 i = false) as Hd.
  { intros i Hi. unfold d, tls_desc. cbn [fst snd]. rewrite !u32_testbit by lia.
    by rewrite (proj2 (Z.ltb_ge i 32)) by lia. }
  split_and!; apply bits32_inj.
  - unfold d, tls_desc. cbn [fst snd]. generalize (u32 tcb). intros t. solve_bits.
  - intros i Hi. rewrite !Z.lor_spec, Z.shiftr_spec, Z.shiftl_spec, !Z.land_spec by lia.
    rewrite (proj1 (Hd (i + 16) ltac:(lia))), (proj2 (Hd i Hi)), (high_testbit 8 255) by lia.
    by rewrite andb_false_r.
  - intros i Hi. rewrite u32_testbit by lia. by rewrite (proj2 (Z.ltb_ge i 32)) by lia.
  - unfold d, tls_desc. cbn [fst snd]. generalize (u32 tcb). intros t. solve_bits.
  - intros i Hi. rewrite Z.lor_spec, !Z.land_spec.
    by rewrite (proj1 (Hd i Hi)), (proj2 (Hd i Hi)).
  - intros i Hi. apply (high_testbit 20); lia.
  - unfold d, tls_desc. cbn [fst snd]. generalize (u32 tcb). intros t. solve_bits.
  - intros i Hi. rewrite Z.land_spec, (high_testbit 16 0xf0ff) by lia. apply andb_false_r.
  - intros i Hi. apply (high_testbit 16); lia.
Qed.

(** ** Signal masks *)

(** The new mask, signal by signal. *)
Definition masked (how : Z) (blocked set : Z) (i : Z) : bool :=
  if how =? SIG_BLOCK then Z.testbit blocked i || Z.testbit set i
  else if how =? SIG_UNBLOCK then Z.testbit blocked i && negb (Z.testbit set i)
  else Z.testbit set i.

Lemma change_mask_bits how blocked set b i :
  0 <= i < 32 -> change_mask how blocked set = Some b -> Z.testbit b i = masked how blocked set i.
Proof.
  intros Hi. unfold change_mask, masked, SIG_BLOCK, SIG_UNBLOCK, SIG_SETMASK.
  destruct (Z.eqb_spec how 1) as [-> | H1]; [intros [= <-]; apply Z.lor_spec|].
  destruct (Z.eqb_spec how 3) as [-> | H3]; [by intros [= <-]|].
  destruct (Z.eqb_spec how 2) as [-> | H2]; [|done]. intros [= <-].
  rewrite Z.land_spec, u32_testbit, Z.lnot_spec by lia.
  by rewrite (proj2 (Z.ltb_lt i 32)) by lia.
Qed.

(** A change of the signal mask of a thread returns the old mask and blocks
    or unblocks exactly the signals of the set (or makes the set the mask); an
    operation that does not exist gives EINVAL and leaves the mask as it is; on
    success the pending signals are cleared if asked for, and nothing else of the
    signal state changes. *)
Theorem sigstate_result thread how set clear p me w :
  let k := kernel_thread p in
  let ss := default (fresh_sigstate (env w)) (sigstates (env w) !! k) in
  pthreads w !! thread = Some p -> SSigstate (Z.to_nat k) ∉ spins w ->
  exists err ss' w', solo (__pthread_sigstate thread how set clear me w) = Done (err, ss_blocked ss) w' /\
    w' = set_env (set_sigstates (<[k := ss']> (sigstates (env w))) (env w)) w /\
    err = (match set with
           | Some _ => if bool_decide (how = SIG_BLOCK \/ how = SIG_UNBLOCK \/ how = SIG_SETMASK)
                       then OK else EINVAL
           | None => OK end) /\
    (forall i, 0 <= i < 32 -> Z.testbit (ss_blocked ss') i =
       match set with
       | Some s => if decide (err = OK) then masked how (ss_blocked ss) s i else Z.testbit (ss_blocked ss) i
       | None => Z.testbit (ss_blocked ss) i end) /\
    ss_pending ss' = (if decide (err = OK) then if clear then 0 else ss_pending ss else ss_pending ss) /\
    (ss_cancel ss', ss_cancel_hook ss', ss_intr_port ss') = (ss_cancel ss, ss_cancel_hook ss, ss_intr_port ss).
Proof.
  intros k ss Hp Hl. unfold __pthread_sigstate, get_thread. cbn. rewrite Hp. cbn.
  rewrite solo_spin_lock by done. cbn. fold k ss.
  set (r := match set with None => (OK, ss_blocked ss) | Some s =>
              match change_mask how (ss_blocked ss) s with Some b => (OK, b) | None => (EINVAL, ss_blocked ss) end end).
  assert (r.1 = match set with
           | Some _ => if bool_decide (how = SIG_BLOCK \/ how = SIG_UNBLOCK \/ how = SIG_SETMASK)
                       then OK else EINVAL
           | None => OK end /\
    forall i, 0 <= i < 32 -> Z.testbit r.2 i =
       match set with
       | Some s => if decide (r.1 = OK) then masked how (ss_blocked ss) s i else Z.testbit (ss_blocked ss) i
       | None => Z.testbit (ss_blocked ss) i end) as [He Hb].
  { unfold r. destruct set as [s|]; [|done]. destruct (change_mask how (ss_blocked ss) s) as [b|] eqn:Hc; cbn.
    - split.
      + rewrite bool_decide_eq_true_2; [done|]. unfold change_mask in Hc.
        repeat case_match; try done; lia.
      + intros i Hi. rewrite decide_True by done. by apply change_mask_bits.
    - split; [|done]. rewrite bool_decide_eq_false_2; [done|]. unfold change_mask in Hc.
      repeat case_match; try done. lia. }
  destruct r as [err b]. cbn in *.
  eexists err, (mkSigstate b _ _ _ _), _. split; [done|].
  rewrite spins_cycle by done. split; [by destruct w|]. split; [done|]. cbn. split; [done|].
  split; [|done]. case_decide; [subst err | ]; destruct clear; cbn; try done;
    by rewrite ?bool_decide_eq_true_2, ?bool_decide_eq_false_2 by done.
Qed.

Lemma sigstate_result_witness :
  exists w', solo (__pthread_sigstate 1 SIG_BLOCK (Some 4) false (demo_ctx 0) (demo_world 2 ANull))
    = Done (OK, 0) w' /\ 0 = 0.
Proof.
  destruct (sigstate_result 1 SIG_BLOCK (Some 4) false (demo_pthread 1) (demo_ctx 0) (demo_world 2 ANull))
    as (err & ss' & w' & Hs & _ & He & _).
  - done.
  - set_solver.
  - exists w'. split; [|done]. rewrite Hs, He. done.
Defined.

(** ** Kernel resources of a thread *)

(** A thread structure that is used again gets no port: after the resources
    were deallocated [have_kernel_resources] is still set, so that allocating
    them succeeds without a request, and the next wakeup of the thread fails
    its assertion. *)
Theorem recycled_thread_has_no_port t p me w :
  pthreads w !! t = Some p -> have_kernel_resources p = true ->
  exists w', (__pthread_thread_dealloc t;; __pthread_thread_alloc t) me w = Done OK w' /\
    mail w' !! t = None /\ __pthread_wakeup t me w' = Fault FAssert.
Proof.
  intros Hp Hh. unfold __pthread_thread_dealloc. cbn.
  unfold kernel_request, ask. cbn. destruct (answers (env w));
    unfold __pthread_thread_alloc, get_thread; cbn; rewrite Hp; cbn; rewrite Hh; eexists;
    (split; [done|]); cbn; rewrite lookup_delete_eq; (split; [done|]);
    unfold __pthread_wakeup, mach_msg_send; cbn; by rewrite lookup_delete_eq.
Qed.

Lemma recycled_thread_has_no_port_witness :
  exists w', (__pthread_thread_dealloc 1;; __pthread_thread_alloc 1) (demo_ctx 0) (demo_world 2 ANull)
    = Done OK w' /\ mail w' !! 1%nat = None.
Proof.
  destruct (recycled_thread_has_no_port 1 (demo_pthread 1) (demo_ctx 0) (demo_world 2 ANull))
    as (w' & Hw & Hm & _).
  - done.
  - done.
  - by exists w'.
Defined.
