(* ===== verification/Keys.v ===== *)
(** * Thread specific data: sysdeps/hurd/pt-key*, pt-*specific.c

    The values of a thread are in a table of libihash.  All but the two accessors
    run under the recursive mutex [__pthread_key_lock]. *)
From Stdlib Require Import ZArith Lia.
From S2P Require Import Prelude Queue World Machine Platform Sched Mach Attr Mutex Rwlock Barrier Kernel.
Local Open Scope Z_scope.

Section Keys.
  Context `{Platform} `{IHash}.

(** ** The array of destructors *)

Definition get_keys : M keys_t := get_glob keys.
Definition put_keys (k : keys_t) : M unit := put_glob (set_keys k).

Definition valid_key (k : keys_t) (key : Z) : bool :=
  (0 <=? key) && (key <? key_count k) &&
  negb (bool_decide (key_destructors k !! key = Some KeyInvalid)).

(** pt-key.h *)
Definition do_init : M unit :=
  let '(err, attr) := pthread_mutexattr_init (mkMutexattr 0 0 0 0) in
  c_assert (bool_decide (err = OK));;
  let '(err, attr) := pthread_mutexattr_settype attr PTHREAD_MUTEX_RECURSIVE in
  c_assert (bool_decide (err = OK));;
  err ← _pthread_mutex_init MKeyLock (Some attr);
  c_assert (bool_decide (err = OK));;
  let '(err, _) := pthread_mutexattr_destroy attr in
  c_assert (bool_decide (err = OK)).

Definition __pthread_key_lock_ready : M unit := _ ← pthread_once OKeyReady do_init; mret tt.

(** ** pt-key-create.c *)

(** The loop of [do_search], from [index]; the keys up to [key_count] have
    elements in the array. *)
Fixpoint search_slot (fuel : nat) (k : keys_t) (index : Z) : option Z :=
  if index <? key_count k then
    if decide (key_destructors k !! index = Some KeyInvalid) then Some index
    else match fuel with O => None | S fuel => search_slot fuel k (index + 1) end
  else Some index.

Definition search_fuel (k : keys_t) : nat := Z.to_nat (key_count k).

Definition set_slot (k : keys_t) (i : Z) (d : destructor) : gmap Z destructor :=
  <[i := d]> (key_destructors k).

(** The body under the lock; [rounds] bounds the jumps to [do_search]. *)
Fixpoint key_create_locked (rounds : nat) (k : keys_t) (d : destructor) : M (error_t * Z) :=
  match search_slot (search_fuel k) k (key_index k) with
  | None => fail FFuel
  | Some index =>
      if index <? key_count k then
        c_assert (bool_decide (key_destructors k !! index = Some KeyInvalid));;
        c_assert (0 <? key_invalid_count k);;
        put_keys (mkKeys (set_slot k index d) (key_size k) (key_count k)
                    (key_invalid_count k - 1) (index + 1));;
        mret (OK, index)
      else
      c_assert (index =? key_count k);;
      if (key_size k =? key_count k) && (4 <? key_invalid_count k)
         && (key_size k ÷ 8 <? key_invalid_count k) then
        match rounds with
        | O => fail FFuel
        | S rounds =>
            let k := mkKeys (key_destructors k) (key_size k) (key_count k) (key_invalid_count k) 0 in
            put_keys k;;
            key_create_locked rounds k d
        end
      else
      r ← (if key_size k =? key_count k then
             let newsize := if key_size k =? 0 then 8 else key_size k * 2 in
             ok ← malloc_ok;
             mret (if (ok : bool) then Some newsize else None)
           else mret (Some (key_size k)));
      match r with
      | None =>
          put_keys (mkKeys (key_destructors k) (key_size k) (key_count k) (key_invalid_count k) index);;
          mret (ENOMEM, 0)
      | Some size =>
          put_keys (mkKeys (set_slot k index d) size (key_count k + 1) (key_invalid_count k)
                      (index + 1));;
          mret (OK, index)
      end
  end.

(** The size doubles only when all its keys are in use, so that it stays far below
    the 2^31 at which the [int] of the source would overflow: a table of 2^30
    destructors does not fit into memory. *)
Definition pthread_key_create (d : destructor) : M (error_t * Z) :=
  __pthread_key_lock_ready;;
  _ ← __pthread_mutex_lock MKeyLock;
  k ← get_keys;
  r ← key_create_locked 1 k d;
  _ ← __pthread_mutex_unlock MKeyLock;
  mret r.

(** ** pt-key-delete.c *)

Definition remove_key_of (key : Z) (t : nat) : M unit :=
  p ← get_thread t;
  match thread_specifics p with
  | None => mret tt
  | Some h => _ ← hurd_ihash_remove h key; mret tt
  end.

(** The loop over the table of threads. *)
Fixpoint remove_key_all (key : Z) (threads : list (option nat)) : M unit :=
  match threads with
  | [] => mret tt
  | None :: threads => remove_key_all key threads
  | Some t :: threads => remove_key_of key t;; remove_key_all key threads
  end.

Definition used_threads (g : globals) : list (option nat) :=
  take (Z.to_nat (num_threads g)) (default [] (threads_tab g)).

Definition pthread_key_delete (key : Z) : M error_t :=
  __pthread_key_lock_ready;;
  _ ← __pthread_mutex_lock MKeyLock;
  k ← get_keys;
  err ← (if negb (valid_key k key) then mret EINVAL
         else
         put_keys (mkKeys (set_slot k key KeyInvalid) (key_size k) (key_count k)
                     (key_invalid_count k + 1) (key_index k));;
         _ ← pthread_rwlock_rdlock RThreadsLock;
         threads ← get_glob used_threads;
         remove_key_all key threads;;
         _ ← pthread_rwlock_unlock RThreadsLock;
         mret OK);
  _ ← __pthread_mutex_unlock MKeyLock;
  mret err.

(** ** The accessors; a null pointer is [0] *)

Definition pthread_getspecific (key : Z) : M Z :=
  yield;;
  k ← get_keys;
  if negb (valid_key k key) then mret 0
  else
  self ← _pthread_self;
  p ← get_thread self;
  match thread_specifics p with
  | None => mret 0
  | Some h => hurd_ihash_find h key
  end.

Definition pthread_setspecific (key value : Z) : M error_t :=
  self ← _pthread_self;
  yield;;
  k ← get_keys;
  if negb (valid_key k key) then mret EINVAL
  else
  p ← get_thread self;
  table ← match thread_specifics p with
          | Some h => mret (Some h)
          | None =>
              h ← hurd_ihash_create;
              match h with
              | Some h => update_thread self (with_thread_specifics (Some h));; mret (Some h)
              | None => mret None
              end
          end;
  match table with
  | None => mret ENOMEM
  | Some h =>
      err ← hurd_ihash_add h key value;
      if decide (err = OK) then mret OK else mret ENOMEM
  end.

Definition __pthread_init_specific (thread : nat) : M error_t :=
  update_thread thread (with_thread_specifics None);; mret OK.

(** ** pt-destroy-specific.c *)

(** One iteration: the result tells whether a destructor was called. *)
Definition destroy_key (h i : Z) : M bool :=
  k ← get_keys;
  d ← deref (key_destructors k !! i);
  if decide (d = KeyInvalid) then mret false
  else
  value ← hurd_ihash_find h i;
  if value =? 0 then mret false
  else
  removed ← hurd_ihash_remove h i;
  c_assert (removed =? 1);;
  (* The destructor is read again, the element cannot have changed since. *)
  match d with
  | KeyFn f => _ ← call f value; mret true
  | _ => mret false
  end.

Fixpoint destroy_keys (fuel : nat) (h i : Z) (seen_one : bool) : M bool :=
  k ← get_keys;
  if i <? key_count k then
    match fuel with
    | O => fail FFuel
    | S fuel =>
        seen ← destroy_key h i;
        destroy_keys fuel h (i + 1) (seen_one || seen)
    end
  else mret seen_one.

Fixpoint destroy_rounds (fuel : nat) (h : Z) : M unit :=
  match fuel with
  | O => fail FFuel
  | S fuel =>
      _ ← __pthread_mutex_lock MKeyLock;
      seen_one ← destroy_keys loop_fuel h 0 false;
      _ ← __pthread_mutex_unlock MKeyLock;
      if negb seen_one then mret tt
      else yield;; destroy_rounds fuel h
  end.

Definition __pthread_destroy_specific (thread : nat) : M unit :=
  p ← get_thread thread;
  match thread_specifics p with
  | None => mret tt
  | Some h =>
      __pthread_key_lock_ready;;
      destroy_rounds loop_fuel h;;
      hurd_ihash_free h;;
      update_thread thread (with_thread_specifics None)
  end.

End Keys.
