(* ===== verification/Threads.v ===== *)
(** * Thread structures: pt-alloc.c, pt-dealloc.c, pt-exit.c and cancellation

    The table of thread IDs is the list of the entries that have been set, so
    that an access beyond them is one to memory nobody wrote.  The structures are
    never freed but put on the queue [HFreeThreads]. *)
From Stdlib Require Import ZArith Lia.
From S2P Require Import Prelude Queue World Machine Platform Sched Mach Attr Mutex Rwlock Barrier Cond Kernel Keys.
Local Open Scope Z_scope.

Section Threads.
  Context `{Platform} `{IHash}.

(** ** The table of thread IDs: pt-internal.h *)

Definition table_get (tab : option (list (option nat))) (i : Z) : option (option nat) :=
  if i <? 0 then None
  else match tab with Some l => l !! Z.to_nat i | None => None end.

(** [None] is a store outside the table. *)
Definition table_set (tab : option (list (option nat))) (i : Z) (t : option nat) :
    option (list (option nat)) :=
  if i <? 0 then None
  else match tab with
       | Some l => if decide (Z.to_nat i < length l)%nat then Some (<[Z.to_nat i := t]> l) else None
       | None => None
       end.

Definition __pthread_getid (thread : Z) : M (option nat) :=
  _ ← pthread_rwlock_rdlock RThreadsLock;
  tab ← get_glob threads_tab;
  t ← deref (table_get tab (thread - 1));
  _ ← pthread_rwlock_unlock RThreadsLock;
  mret t.

Definition store_id (thread : Z) (t : option nat) : M unit :=
  tab ← get_glob threads_tab;
  tab ← deref (table_set tab (thread - 1) t);
  put_glob (set_threads_tab (Some tab)).

Definition __pthread_setid (thread : Z) (t : option nat) : M unit :=
  _ ← pthread_rwlock_wrlock RThreadsLock;
  store_id thread t;;
  _ ← pthread_rwlock_unlock RThreadsLock;
  mret tt.

(** ** TLS, from the dynamic linker *)

Definition _dl_allocate_tls : M (option Z) :=
  tcb ← fresh_port;
  ok ← kernel_request (KTlsAllocate tcb);
  if negb ok then mret None
  else
  modify (fun w => set_env (set_tcbs (<[tcb := mkTcb 0 0]> (tcbs (env w))) (env w)) w);;
  mret (Some tcb).

Definition _dl_deallocate_tls (tcb : Z) : M unit :=
  _ ← kernel_request (KTlsDeallocate tcb);
  modify (fun w => set_env (set_tcbs (delete tcb (tcbs (env w))) (env w)) w).

(** ** pt-alloc.c *)

Definition PTHREAD_CANCEL_DISABLE : Z := 0.
Definition PTHREAD_CANCEL_ENABLE : Z := 1.
Definition PTHREAD_CANCEL_DEFERRED : Z := 0.
Definition PTHREAD_CANCEL_ASYNCHRONOUS : Z := 1.
Definition PTHREAD_CANCELED : Z := -1.

(** The assignment of PTHREAD_MUTEX_INITIALIZER. *)
Definition clear_mutex (m : mutex_id) : M unit :=
  modify (fun w => set_spins (spins w ∖ {[SMutexHeld m; SMutexLock m]}) w);;
  modify (fun w => set_qh (clear_head (HMutex m) (qh w)) w);;
  put_mutex m (mkMutex ANull None 0).

(** The assignment of PTHREAD_COND_INITIALIZER. *)
Definition clear_cond (c : cond_id) : M unit :=
  modify (fun w => set_spins (spins w ∖ {[SCond c]}) w);;
  modify (fun w => set_qh (clear_head (HCond c) (qh w)) w);;
  put_cond c (mkCond None).

Definition initialize_pthread (new : nat) (recycling : bool) : M error_t :=
  err ← __pthread_init_specific new;
  if decide (err <> OK) then mret err
  else
  clear_mutex (MCancelLock new);;
  update_thread new (fun p => with_cancel_hook None
    (with_cancel_state PTHREAD_CANCEL_ENABLE
      (with_cancel_type PTHREAD_CANCEL_DEFERRED (with_cancel_pending 0 p))));;
  if recycling then mret OK
  else
  update_thread new (with_p_stack false);;
  clear_mutex (MStateLock new);;
  clear_cond (CStateCond new);;
  update_thread new (fun p => with_cancelation_handlers [] (with_p_tcb None p));;
  modify (fun w => set_qh (mkQheap (delete (Next new) (cells (qh w)))
                                   (delete new (prevp (qh w)))) w);;
  mret OK.

(** The search of the free list. *)
Fixpoint find_terminated (fuel : nat) (new : option nat) : M (option nat) :=
  match new with
  | None => mret None
  | Some t =>
      p ← get_thread t;
      if decide (p_state p = PTHREAD_TERMINATED) then dequeue t;; mret (Some t)
      else
      match fuel with
      | O => fail FFuel
      | S fuel =>
          next ← gets (fun w => cells (qh w) !! Next t);
          find_terminated fuel next
      end
  end.

(** [malloc] of a structure; [free] of it. *)
Definition new_structure : M (option nat) :=
  ok ← malloc_ok;
  if negb ok then mret None
  else
  t ← get_glob next_thread;
  put_glob (set_next_thread (S t));;
  g ← gets (fun w => garbage (env w));
  put_thread t g;;
  mret (Some t).

Definition free_structure (t : nat) : M unit :=
  modify (fun w => set_pthreads (delete t (pthreads w)) w).

(** The next ID; its entry of the table becomes null. *)
Definition take_id (new : nat) : M unit :=
  n ← get_glob num_threads;
  update_thread new (with_p_thread (1 + n));;
  put_glob (set_num_threads (i32 (n + 1)));;
  tab ← get_glob threads_tab;
  put_glob (set_threads_tab (Some (default [] tab ++ [None]))).

Definition _POSIX_THREAD_THREADS_MAX : Z := 64.

(** The code from [retry] on: the result of the call, or none if it jumps back
    because another thread enlarged the table. *)
Definition alloc_try (new : nat) : M (option (error_t * option nat)) :=
  _ ← pthread_rwlock_wrlock RThreadsLock;
  n ← get_glob num_threads;
  max ← get_glob max_threads;
  if n <? max then
    take_id new;;
    _ ← pthread_rwlock_unlock RThreadsLock;
    mret (Some (OK, Some new))
  else if match PTHREAD_THREADS_MAX with Some lim => lim <=? n | None => false end then
    _ ← pthread_rwlock_unlock RThreadsLock;
    free_structure new;;
    mret (Some (EAGAIN, None))
  else
  _ ← pthread_rwlock_unlock RThreadsLock;
  let new_max := if 0 <? max then i32 (max * 2) else _POSIX_THREAD_THREADS_MAX in
  ok ← malloc_ok;
  if negb ok then free_structure new;; mret (Some (ENOMEM, None))
  else
  _ ← pthread_rwlock_wrlock RThreadsLock;
  max' ← get_glob max_threads;
  if negb (max =? max') then
    _ ← pthread_rwlock_unlock RThreadsLock;
    mret None
  else
  put_glob (set_max_threads new_max);;
  take_id new;;
  _ ← pthread_rwlock_unlock RThreadsLock;
  mret (Some (OK, Some new)).

(** [fuel] bounds the jumps back. *)
Fixpoint alloc_id (fuel : nat) (new : nat) : M (error_t * option nat) :=
  r ← alloc_try new;
  match r with
  | Some r => mret r
  | None => match fuel with O => fail FFuel | S fuel => alloc_id fuel new end
  end.

Definition __pthread_alloc : M (error_t * option nat) :=
  _ ← __pthread_mutex_lock MFreeThreadsLock;
  q ← queue_head HFreeThreads;
  fuel ← gets (fun w => size (cells (qh w)));
  new ← find_terminated fuel q;
  _ ← __pthread_mutex_unlock MFreeThreadsLock;
  match new with
  | Some new =>
      __pthread_thread_halt new;;
      p ← get_thread new;
      match p_tcb p with
      | Some tcb => _dl_deallocate_tls tcb;; update_thread new (with_p_tcb None)
      | None => mret tt
      end;;
      err ← initialize_pthread new true;
      mret (err, if decide (err = OK) then Some new else None)
  | None =>
      new ← new_structure;
      match new with
      | None => mret (ENOMEM, None)
      | Some new =>
          err ← initialize_pthread new false;
          if decide (err <> OK) then free_structure new;; mret (err, None)
          else alloc_id loop_fuel new
      end
  end.

(** ** pt-dealloc.c *)

Definition __pthread_dealloc (t : nat) : M unit :=
  p ← get_thread t;
  c_assert (bool_decide (p_state p <> PTHREAD_TERMINATED));;
  __pthread_setid (p_thread p) None;;
  _ ← __pthread_mutex_lock (MStateLock t);
  p ← get_thread t;
  (if decide (p_state p <> PTHREAD_EXITED)
   then _ ← __pthread_cond_broadcast (CStateCond t); mret tt else mret tt);;
  _ ← __pthread_mutex_unlock (MStateLock t);
  _ ← __pthread_mutex_lock MFreeThreadsLock;
  enqueue HFreeThreads t;;
  _ ← __pthread_mutex_unlock MFreeThreadsLock;
  yield;;
  update_thread t (with_p_state PTHREAD_TERMINATED).

(** ** Cancelation state *)

(** pt-setcancelstate.c: the result and the old state. *)
Definition __pthread_setcancelstate (state : Z) : M (error_t * Z) :=
  self ← _pthread_self;
  if negb ((state =? PTHREAD_CANCEL_ENABLE) || (state =? PTHREAD_CANCEL_DISABLE))
  then mret (EINVAL, 0)
  else
  _ ← __pthread_mutex_lock (MCancelLock self);
  p ← get_thread self;
  put_thread self (with_cancel_state state p);;
  _ ← __pthread_mutex_unlock (MCancelLock self);
  mret (OK, cancel_state p).

(** pt-setcanceltype.c *)
Definition __pthread_setcanceltype (type : Z) : M (error_t * Z) :=
  self ← _pthread_self;
  if negb ((type =? PTHREAD_CANCEL_DEFERRED) || (type =? PTHREAD_CANCEL_ASYNCHRONOUS))
  then mret (EINVAL, 0)
  else
  _ ← __pthread_mutex_lock (MCancelLock self);
  p ← get_thread self;
  put_thread self (with_cancel_type type p);;
  _ ← __pthread_mutex_unlock (MCancelLock self);
  mret (OK, cancel_type p).

(** A pending request the thread has to act on. *)
Definition cancelled (p : pthread) : bool :=
  (cancel_state p =? PTHREAD_CANCEL_ENABLE) && negb (cancel_pending p =? 0).

(** ** Cleanup handlers: bits/cancelation.h *)

Definition run_handler (h : cancelation_handler) : M unit :=
  match h with
  | HandlerMutexUnlock m => _ ← __pthread_mutex_unlock m; mret tt
  | HandlerUser f arg => _ ← call f arg; mret tt
  end.

Definition __pthread_cleanup_push (h : cancelation_handler) : M unit :=
  self ← _pthread_self;
  update_thread self (fun p => with_cancelation_handlers (h :: cancelation_handlers p) p).

Definition __pthread_cleanup_pop (execute : bool) : M unit :=
  self ← _pthread_self;
  p ← get_thread self;
  match cancelation_handlers p with
  | [] => fail FSegv
  | h :: rest =>
      when execute (run_handler h);;
      update_thread self (with_cancelation_handlers rest)
  end.

(** The loop of [__pthread_exit]: every handler runs, then leaves the stack. *)
Fixpoint run_handlers (fuel : nat) (self : nat) : M unit :=
  p ← get_thread self;
  match cancelation_handlers p with
  | [] => mret tt
  | h :: _ =>
      match fuel with
      | O => fail FFuel
      | S fuel =>
          run_handler h;;
          update_thread self (fun p => with_cancelation_handlers (tail (cancelation_handlers p)) p);;
          run_handlers fuel self
      end
  end.

(** ** pt-exit.c *)

(** [__atomic_dec_and_test] of bits/pt-atomic.h, on [__pthread_total]. *)
Definition atomic_dec_total : M bool :=
  n ← get_glob pthread_total;
  put_glob (set_pthread_total (i32 (n - 1)));;
  mret (i32 (n - 1) =? 0).

(** The end, when the thread has run all it has to run. *)
Definition end_thread {A} (self : nat) (status : Z) : M A :=
  is_last ← atomic_dec_total;
  if (is_last : bool) then exit 0
  else
  _ ← __pthread_mutex_lock (MStateLock self);
  p ← get_thread self;
  let status := if cancelled p then PTHREAD_CANCELED else status in
  match p_state p return M unit with
  | PTHREAD_DETACHED =>
      _ ← __pthread_mutex_unlock (MStateLock self);
      __pthread_dealloc self
  | PTHREAD_JOINABLE =>
      update_thread self (fun p => with_p_status status (with_p_state PTHREAD_EXITED p));;
      _ ← __pthread_cond_broadcast (CStateCond self);
      _ ← __pthread_mutex_unlock (MStateLock self);
      mret tt
  | _ => fail FAssert
  end;;
  (__pthread_thread_halt self : M unit);;
  fail FAbort.

Definition __pthread_exit {A} (status : Z) : M A :=
  self ← _pthread_self;
  old ← __pthread_setcancelstate PTHREAD_CANCEL_DISABLE;
  p ← get_thread self;
  run_handlers (length (cancelation_handlers p) + loop_fuel) self;;
  _ ← __pthread_setcancelstate old.2;
  __pthread_destroy_specific self;;
  __pthread_sigstate_destroy self;;
  end_thread self status.

(** pt-testcancel.c *)
Definition pthread_testcancel : M unit :=
  self ← _pthread_self;
  _ ← __pthread_mutex_lock (MCancelLock self);
  p ← get_thread self;
  _ ← __pthread_mutex_unlock (MCancelLock self);
  if cancelled p then __pthread_exit PTHREAD_CANCELED else mret tt.

End Threads.
