(* ===== verification/CondWait.v ===== *)
(** * Waiting on condition variables

    sysdeps/generic/pt-cond-timedwait.c, pt-cond-wait.c, and the versions of
    sysdeps/mach/hurd that hurd_thread_cancel interrupts. *)
From Stdlib Require Import ZArith Lia.
From S2P Require Import Prelude Queue World Machine Platform Sched Mach Attr Mutex Cond Kernel Threads.
Local Open Scope Z_scope.

Section CondWait.
  Context `{Platform} `{IHash}.

(** The clock of the wait: that of the attributes, if the condition variable
    has any. *)
Definition cond_clock (x : cond) : Z :=
  match c_attr x with Some a => cn_clock a | None => cn_clock __pthread_default_condattr end.

(** The first critical section: unless a request is pending, install the hook,
    switch to deferred cancellation and queue up.  The result is whether a
    request is pending, the old type and the clock. *)
Definition prepare_wait (c : cond_id) (self : nat) : M (bool * Z * Z) :=
  _ ← __pthread_mutex_lock (MCancelLock self);
  p ← get_thread self;
  r ← (if cancelled p then mret (true, 0, cn_clock __pthread_default_condattr)
       else
       update_thread self (with_cancel_hook (Some (mkCancelCtx self c)));;
       (if negb (cancel_type p =? PTHREAD_CANCEL_DEFERRED)
        then update_thread self (with_cancel_type PTHREAD_CANCEL_DEFERRED) else mret tt);;
       __pthread_spin_lock (SCond c);;
       enqueue (HCond c) self;;
       x ← get_cond c;
       __pthread_spin_unlock (SCond c);;
       mret (false, cancel_type p, cond_clock x));
  _ ← __pthread_mutex_unlock (MCancelLock self);
  mret r.

(** What follows the block, whose result is [err], up to the drain. *)
Definition leave_queue (c : cond_id) (self : nat) (err : error_t) : M error_t :=
  __pthread_spin_lock (SCond c);;
  p ← get_prevp self;
  drain ← match p with
          | None =>
              if decide (err = OK) then mret false
              else c_assert (bool_decide (err = ETIMEDOUT));; mret true
          | Some _ =>
              c_assert (bool_decide (err = ETIMEDOUT));;
              dequeue self;;
              mret false
          end;
  __pthread_spin_unlock (SCond c);;
  when drain (__pthread_block self);;
  mret err.

Definition cond_block (c : cond_id) (self : nat) (abstime : option timespec) (clock_id : Z) :
    M error_t :=
  err ← match abstime with
        | Some ts => __pthread_timedblock self ts clock_id
        | None => __pthread_block self;; mret OK
        end;
  leave_queue c self err.

(** The last critical section: remove the hook, restore the type, and look for
    a request again. *)
Definition finish_wait (self : nat) (oldtype : Z) : M bool :=
  _ ← __pthread_mutex_lock (MCancelLock self);
  update_thread self (fun p => with_cancel_hook None (with_cancel_type oldtype p));;
  p ← get_thread self;
  _ ← __pthread_mutex_unlock (MCancelLock self);
  mret (cancelled p).

Definition __pthread_cond_timedwait_internal (c : cond_id) (m : mutex_id)
    (abstime : option timespec) : M error_t :=
  if bad_abstime abstime then mret EINVAL
  else
  self ← _pthread_self;
  r ← prepare_wait c self;
  let '(pending, oldtype, clock_id) := (r : bool * Z * Z) in
  if pending then __pthread_exit PTHREAD_CANCELED
  else
  _ ← __pthread_mutex_unlock m;
  err ← cond_block c self abstime clock_id;
  pending ← finish_wait self oldtype;
  _ ← __pthread_mutex_lock m;
  if (pending : bool) then __pthread_exit PTHREAD_CANCELED else mret err.

Definition __pthread_cond_wait (c : cond_id) (m : mutex_id) : M error_t :=
  __pthread_cond_timedwait_internal c m None.

Definition __pthread_cond_timedwait (c : cond_id) (m : mutex_id) (abstime : option timespec) :
    M error_t :=
  __pthread_cond_timedwait_internal c m abstime.

(** ** sysdeps/mach/hurd *)

(** [ss] of the caller, and its lock. *)
Definition self_sigstate : M Z := mach_thread_self.
Definition lock_sigstate (k : Z) : M unit := _ ← __pthread_spin_lock (SSigstate (Z.to_nat k)); mret tt.
Definition unlock_sigstate (k : Z) : M unit :=
  _ ← __pthread_spin_unlock (SSigstate (Z.to_nat k)); mret tt.

Definition set_ss_cancel (k v : Z) : M unit :=
  ss ← hurd_thread_sigstate k;
  put_sigstate k (mkSigstate (ss_blocked ss) (ss_pending ss) v (ss_cancel_hook ss) (ss_intr_port ss)).

Definition set_ss_hook (k : Z) (h : option cancel_ctx) : M unit :=
  ss ← hurd_thread_sigstate k;
  put_sigstate k (mkSigstate (ss_blocked ss) (ss_pending ss) (ss_cancel ss) h (ss_intr_port ss)).

(** Under both locks: leave if cancelled already, else queue up and name the
    hook, which does what [run_cancel_hook] does. *)
Definition hurd_prepare (c : cond_id) (self : nat) (k : Z) : M (bool * Z) :=
  lock_sigstate k;;
  __pthread_spin_lock (SCond c);;
  ss ← hurd_thread_sigstate k;
  r ← (if negb (ss_cancel ss =? 0) then
         set_ss_cancel k 0;;
         mret (true, cn_clock __pthread_default_condattr)
       else
         enqueue (HCond c) self;;
         x ← get_cond c;
         set_ss_hook k (Some (mkCancelCtx self c));;
         mret (false, cond_clock x));
  __pthread_spin_unlock (SCond c);;
  unlock_sigstate k;;
  mret r.

(** The block, up to the drain, which happens with the signal state locked. *)
Definition hurd_block (c : cond_id) (self : nat) (k : Z) (abstime : option timespec)
    (clock_id : Z) : M error_t :=
  err ← match abstime with
        | Some ts => __pthread_timedblock self ts clock_id
        | None => __pthread_block self;; mret OK
        end;
  lock_sigstate k;;
  __pthread_spin_lock (SCond c);;
  p ← get_prevp self;
  drain ← match p with
          | None => mret (bool_decide (err <> OK))
          | Some _ => dequeue self;; mret false
          end;
  __pthread_spin_unlock (SCond c);;
  when drain (__pthread_block self);;
  mret err.

Definition __pthread_hurd_cond_timedwait_internal (c : cond_id) (m : mutex_id)
    (abstime : option timespec) : M error_t :=
  k ← self_sigstate;
  self ← _pthread_self;
  ss ← hurd_thread_sigstate k;
  c_assert (ss_intr_port ss =? 0);;
  if bad_abstime abstime then mret EINVAL
  else
  r ← hurd_prepare c self k;
  let '(cancel, clock_id) := (r : bool * Z) in
  err ← (if cancel then lock_sigstate k;; mret OK
         else
         _ ← __pthread_mutex_unlock m;
         hurd_block c self k abstime clock_id);
  set_ss_hook k None;;
  ss ← hurd_thread_sigstate k;
  let cancel' := cancel || negb (ss_cancel ss =? 0) in
  set_ss_cancel k 0;;
  unlock_sigstate k;;
  (if cancel then mret OK else __pthread_mutex_lock m);;
  if cancel' then mret EINTR
  else if decide (err <> OK) then c_assert (bool_decide (err = ETIMEDOUT));; mret err
  else mret OK.

Definition __pthread_hurd_cond_timedwait_np (c : cond_id) (m : mutex_id)
    (abstime : option timespec) : M error_t :=
  __pthread_hurd_cond_timedwait_internal c m abstime.

(** pt-hurd-cond-wait.c: one if the wait was interrupted. *)
Definition __pthread_hurd_cond_wait_np (c : cond_id) (m : mutex_id) : M Z :=
  err ← __pthread_hurd_cond_timedwait_internal c m None;
  mret (if decide (err = EINTR) then 1 else 0).

End CondWait.
