(* ===== verification/ThreadOps.v ===== *)
(** * Operations on threads

    pthread/pt-create.c, pt-join.c, pt-detach.c, pt-cancel.c and the smaller
    files of pthread/ and sysdeps/ that concern threads. *)
From Stdlib Require Import ZArith Lia.
From S2P Require Import Prelude Queue World Machine Platform Sched Mach Attr Mutex Rwlock Barrier Cond Kernel Keys Threads CondWait.
Local Open Scope Z_scope.

Section ThreadOps.
  Context `{Platform} `{IHash}.

(** The global [__pthread_default_attr], whose stack size init_routine may set. *)
Definition default_attr : M pthread_attr :=
  size ← get_glob default_stacksize;
  mret (set_stacksize size (__pthread_default_attr pagesize)).

(** ** pt-create.c *)

Definition __pthread_startup : M unit := mret tt.

(** What a new thread runs. *)
Definition entry_point (start_routine arg : Z) : M unit :=
  __pthread_startup;;
  status ← call start_routine arg;
  __pthread_exit status.

(** The cleanup code, from the last label to the first. *)
Definition failed_stack_alloc (t : nat) : M unit := __pthread_dealloc t.

Definition failed_thread_alloc (t : nat) : M unit :=
  p ← get_thread t;
  __pthread_stack_dealloc (p_stackaddr p) (p_stacksize p);;
  update_thread t (with_p_stack false);;
  failed_stack_alloc t.

Definition failed_thread_tls_alloc (t : nat) : M unit :=
  __pthread_thread_dealloc t;;
  __pthread_thread_halt t;;
  failed_thread_alloc t.

Definition failed_setup (t : nat) : M unit :=
  p ← get_thread t;
  tcb ← deref (p_tcb p);
  _dl_deallocate_tls tcb;;
  update_thread t (with_p_tcb None);;
  failed_thread_tls_alloc t.

Definition failed_sigstate (t : nat) : M unit :=
  __pthread_sigstate_destroy t;; failed_setup t.

Definition failed_starting (t : nat) : M unit :=
  p ← get_thread t;
  __pthread_setid (p_thread p) None;;
  n ← get_glob pthread_total;
  put_glob (set_pthread_total (i32 (n - 1)));;
  failed_sigstate t.

(** The stack: reuse the old one of the structure or allocate one. *)
Definition find_thread_stack (t : nat) (setup default : pthread_attr) : M error_t :=
  p ← get_thread t;
  if p_stack p then
    (if negb (stackaddr setup =? stackaddr default) then
       __pthread_stack_dealloc (p_stackaddr p) (p_stacksize p);;
       update_thread t (fun p => with_p_stackaddr (stackaddr setup)
                                   (with_p_stacksize (stacksize setup) p))
     else mret tt);;
    mret OK
  else
    r ← __pthread_stack_alloc (stacksize setup);
    match r with
    | (OK, Some base) =>
        update_thread t (fun p => with_p_stackaddr base
          (with_p_stacksize (stacksize setup) (with_p_stack true p)));;
        mret OK
    | (err, _) => mret err
    end.

(** The signal mask of the creator. *)
Definition inherited_mask : M Z :=
  n ← get_glob num_threads;
  if n =? 1 then
    mask ← gets (fun w => proc_sigmask (env w));
    ok ← ask;
    c_assert ok;;
    mret mask
  else
    self ← _pthread_self;
    r ← __pthread_sigstate self 0 None false;
    c_assert (bool_decide (r.1 = OK));;
    mret r.2.

(** The last part: the signal mask, the table entry, and the start. *)
Definition launch (t : nat) : M (error_t * option nat) :=
  sigset ← inherited_mask;
  r ← __pthread_sigstate t SIG_SETMASK (Some sigset) true;
  c_assert (bool_decide (r.1 = OK));;
  total ← get_glob pthread_total;
  put_glob (set_pthread_total (i32 (total + 1)));;
  _ ← pthread_rwlock_rdlock RThreadsLock;
  p ← get_thread t;
  store_id (p_thread p) (Some t);;
  _ ← pthread_rwlock_unlock RThreadsLock;
  err ← __pthread_thread_start t;
  if decide (err <> OK) then failed_starting t;; mret (err, Some t)
  else mret (OK, Some t).

(** The result is the error and what was stored in [*thread], if anything. *)
Definition __pthread_create_internal (attr : option pthread_attr) (start_routine arg : Z)
    (entry : Z) : M (error_t * option nat) :=
  r ← __pthread_alloc;
  match r with
  | (OK, Some t) =>
      default ← default_attr;
      let setup := match attr with Some a => a | None => default end in
      update_thread t (fun p =>
        with_p_state (if detachstate setup =? PTHREAD_CREATE_DETACHED
                      then PTHREAD_DETACHED else PTHREAD_JOINABLE)
          (with_p_guardsize (if negb (stackaddr setup =? 0) then 0
                             else if guardsize setup <=? stacksize setup
                                  then guardsize setup else stacksize setup) p));;
      err ← find_thread_stack t setup default;
      if decide (err <> OK) then failed_stack_alloc t;; mret (err, None)
      else
      err ← __pthread_thread_alloc t;
      if decide (err <> OK) then failed_thread_alloc t;; mret (err, None)
      else
      tcb ← _dl_allocate_tls;
      update_thread t (with_p_tcb tcb);;
      match tcb with
      | None => failed_thread_tls_alloc t;; mret (OK, None)      (* [err] is still zero *)
      | Some a =>
          modify (fun w => set_env (set_tcbs (<[a := mkTcb a 0]> (tcbs (env w))) (env w)) w);;
          err ← __pthread_setup t entry start_routine arg;
          if decide (err <> OK) then failed_setup t;; mret (err, None)
          else
          err ← __pthread_sigstate_init t;
          if decide (err <> OK) then failed_sigstate t;; mret (err, None)
          else launch t
      end
  | (err, _) => mret (err, None)
  end.

(** The caller's variable [pthread] is not initialised when nothing is stored in
    it. *)
Definition pthread_create (attr : option pthread_attr) (start_routine arg entry : Z) :
    M (error_t * option Z) :=
  r ← __pthread_create_internal attr start_routine arg entry;
  match r with
  | (OK, t) => t ← deref t; p ← get_thread t; mret (OK, Some (p_thread p))
  | (ENOMEM, _) => mret (EAGAIN, None)
  | (err, _) => mret (err, None)
  end.

(** ** pt-join.c and pt-detach.c *)

(** What both do with a thread that has exited. *)
Definition reap (t : nat) : M unit :=
  __pthread_thread_halt t;;
  p ← get_thread t;
  c_assert (p_stack p);;
  __pthread_stack_dealloc (p_stackaddr p) (p_stacksize p);;
  update_thread t (with_p_stack false);;
  __pthread_thread_dealloc t;;
  __pthread_dealloc t.

(** The loop that waits for the end of a joinable thread. *)
Fixpoint join_wait (fuel : nat) (t : nat) : M unit :=
  p ← get_thread t;
  if decide (p_state p = PTHREAD_JOINABLE) then
    match fuel with
    | O => fail FFuel
    | S fuel =>
        _ ← __pthread_cond_wait (CStateCond t) (MStateLock t);
        join_wait fuel t
    end
  else mret tt.

(** The code after the loop: the error and the exit status, if one is stored. *)
Definition finish_join (t : nat) : M (error_t * option Z) :=
  __pthread_cleanup_pop false;;
  p ← get_thread t;
  match p_state p with
  | PTHREAD_EXITED =>
      _ ← __pthread_mutex_unlock (MStateLock t);
      yield;;
      p ← get_thread t;
      reap t;;
      mret (OK, Some (p_status p))
  | PTHREAD_TERMINATED =>
      _ ← __pthread_mutex_unlock (MStateLock t); mret (ESRCH, None)
  | _ => _ ← __pthread_mutex_unlock (MStateLock t); mret (EINVAL, None)
  end.

Definition pthread_join (thread : Z) : M (error_t * option Z) :=
  t ← __pthread_getid thread;
  match t with
  | None => mret (ESRCH, None)
  | Some t =>
      _ ← __pthread_mutex_lock (MStateLock t);
      __pthread_cleanup_push (HandlerMutexUnlock (MStateLock t));;
      join_wait loop_fuel t;;
      finish_join t
  end.

Definition pthread_detach (thread : Z) : M error_t :=
  t ← __pthread_getid thread;
  match t with
  | None => mret ESRCH
  | Some t =>
      _ ← __pthread_mutex_lock (MStateLock t);
      p ← get_thread t;
      match p_state p with
      | PTHREAD_JOINABLE =>
          update_thread t (with_p_state PTHREAD_DETACHED);;
          _ ← __pthread_cond_broadcast (CStateCond t);
          _ ← __pthread_mutex_unlock (MStateLock t);
          mret OK
      | PTHREAD_EXITED =>
          _ ← __pthread_mutex_unlock (MStateLock t);
          yield;;
          reap t;;
          mret OK
      | PTHREAD_TERMINATED => _ ← __pthread_mutex_unlock (MStateLock t); mret ESRCH
      | PTHREAD_DETACHED => _ ← __pthread_mutex_unlock (MStateLock t); mret EINVAL
      end
  end.

(** ** Cancellation: pt-cancel.c and hurd/pt-docancel.c *)

Definition call_exit : M unit := __pthread_exit 0.

(** Another thread is suspended, made to call [call_exit], whose address is
    [call_exit_pc], and resumed. *)
Definition __pthread_do_cancel (t : nat) (call_exit_pc : Z) : M error_t :=
  p ← get_thread t;
  c_assert (cancel_pending p =? 1);;
  c_assert (cancel_state p =? PTHREAD_CANCEL_ENABLE);;
  _ ← __pthread_mutex_unlock (MCancelLock t);
  ktid ← mach_thread_self;
  if kernel_thread p =? ktid then call_exit;; mret OK
  else
  ok ← kernel_request (KThreadSuspend (kernel_thread p)); c_assert ok;;
  ok ← kernel_request (KThreadAbort (kernel_thread p)); c_assert ok;;
  ok ← __thread_set_pcsptp (kernel_thread p) (Some call_exit_pc) None None; c_assert ok;;
  ok ← kernel_request (KThreadResume (kernel_thread p)); c_assert ok;;
  mret OK.

Definition pthread_cancel (thread call_exit_pc : Z) : M error_t :=
  t ← __pthread_getid thread;
  match t with
  | None => mret ESRCH
  | Some t =>
      _ ← __pthread_mutex_lock (MCancelLock t);
      p ← get_thread t;
      if negb (cancel_pending p =? 0) then
        _ ← __pthread_mutex_unlock (MCancelLock t); mret OK
      else
      put_thread t (with_cancel_pending 1 p);;
      if negb (cancel_state p =? PTHREAD_CANCEL_ENABLE) then
        _ ← __pthread_mutex_unlock (MCancelLock t); mret OK
      else if cancel_type p =? PTHREAD_CANCEL_ASYNCHRONOUS then
        __pthread_do_cancel t call_exit_pc
      else
        match cancel_hook p with
        | Some ctx => run_cancel_hook ctx
        | None => mret tt
        end;;
        _ ← __pthread_mutex_unlock (MCancelLock t);
        mret OK
  end.

(** ** Smaller operations *)

Definition __pthread_self : M Z :=
  self ← _pthread_self; p ← get_thread self; mret (p_thread p).

Definition __pthread_equal (t1 t2 : Z) : bool := t1 =? t2.

(** pt-getattr.c *)
Definition pthread_getattr_np (thread : Z) : M (error_t * option pthread_attr) :=
  t ← __pthread_getid thread;
  match t with
  | None => mret (ESRCH, None)
  | Some t =>
      default ← default_attr;
      yield;;
      p ← get_thread t;
      mret (OK, Some
        (set_detachstate (if decide (p_state p = PTHREAD_DETACHED)
                          then PTHREAD_CREATE_DETACHED else PTHREAD_CREATE_JOINABLE)
          (set_guardsize (p_guardsize p)
            (set_stacksize (p_stacksize p) (set_stackaddr (p_stackaddr p) default)))))
  end.

Definition pthread_getconcurrency : M Z := get_glob concurrency.

Definition pthread_setconcurrency (new_level : Z) : M error_t :=
  if new_level <? 0 then mret EINVAL
  else put_glob (set_concurrency new_level);; mret OK.

(** The clock is stored only if the C library has one for threads. *)
Definition pthread_getcpuclockid (CLOCK_THREAD_CPUTIME_ID : option Z) (thread : Z) :
    M (error_t * option Z) :=
  match CLOCK_THREAD_CPUTIME_ID with
  | Some c => mret (OK, Some c)
  | None => mret (ENOSYS, None)
  end.

Definition __pthread_getschedparam (thread : Z) : M error_t := mret ENOSYS.
Definition __pthread_setschedparam (thread policy param : Z) : M error_t := mret ENOSYS.
Definition pthread_setschedprio (thread prio : Z) : M error_t := mret ENOSYS.

(** sysdeps/hurd/pt-kill.c: glibc raises the signal [sig] in the thread. *)
Definition pthread_kill (thread sig : Z) : M error_t :=
  t ← __pthread_getid thread;
  match t with
  | None => mret ESRCH
  | Some t =>
      p ← get_thread t;
      if sig =? 0 then mret OK
      else _ ← kernel_request (KRaiseSignal (kernel_thread p) sig); mret OK
  end.

(** pt-mutex-transfer-np.c *)
Definition __pthread_mutex_transfer_np (m : mutex_id) (tid : Z) : M error_t :=
  self ← _pthread_self;
  x ← get_mutex m;
  c_assert (bool_decide (m_owner x = Some self));;
  t ← __pthread_getid tid;
  let attr := resolve_attr (m_attr x) in
  match t with
  | None => mret ESRCH
  | Some t =>
      if decide (t = self) then mret OK
      else
      x ← get_mutex m;
      if decide (kind_of attr = KErrorcheck) then
        if decide (m_owner x <> Some self) then mret EPERM
        else set_owner m (Some t);; set_owner m (Some t);; mret OK
      else
        when (tracked (kind_of attr)) (set_owner m (Some t));; mret OK
  end.

(** hurd/pt-sysdep.c: the start-up code.  [stack_default_size] is the variable
    [__pthread_stack_default_size] if the program defines it.  The result is the
    stack pointer of the main thread. *)
Definition init_routine (stack_default_size : option Z) (pthread_init : M unit) : M (nat * Z) :=
  match stack_default_size with
  | Some size => put_glob (set_default_stacksize size)
  | None => mret tt
  end;;
  pthread_init;;
  r ← __pthread_create_internal None 0 0 0;
  c_assert (bool_decide (r.1 = OK));;
  t ← deref r.2;
  total ← get_glob pthread_total;
  put_glob (set_pthread_total (i32 (total - 1)));;
  p ← get_thread t;
  mret (t, mc_sp p).

End ThreadOps.
