(* ===== verification/AtFork.v ===== *)
(** * Fork handlers: forward.c and sysdeps/generic/pt-atfork.c

    The handlers of [pthread_atfork] are in a list that is linked in both
    directions.  A structure is named by a number, a null function pointer is
    [None].  [__register_atfork] holds [atfork_lock], a lock of the C library,
    while it changes the list; the hooks of [fork] read the ends of the list under
    the lock and walk along it without. *)
From Stdlib Require Import ZArith Lia.
From S2P Require Import Prelude Queue.

Record atfork := mkAtfork {
  prepare : option Z;
  parent : option Z;
  child : option Z;
  af_prev : option nat;
  af_next : option nat;
}.

(** The variables of forward.c, and the structures. *)
Record atfork_state := mkAtforkState {
  fork_handlers : option nat;
  fork_last_handler : option nat;
  structs : gmap nat atfork;
}.

Definition no_handlers : atfork_state := mkAtforkState None None ∅.

Definition with_af_prev x (a : atfork) : atfork := mkAtfork (prepare a) (parent a) (child a) x (af_next a).

(** [malloced] is the fresh structure, none if [malloc] fails with ENOMEM. *)
Definition __register_atfork (malloced : option nat) (prep par chi : option Z) (s : atfork_state) :
    error_t * atfork_state :=
  match malloced with
  | None => (ENOMEM, s)
  | Some new =>
      let m := match fork_handlers s with
               | Some h => alter (with_af_prev (Some new)) h (structs s)
               | None => structs s
               end in
      let m := <[new := mkAtfork prep par chi None (fork_handlers s)]> m in
      (OK, mkAtforkState (Some new)
             (match fork_last_handler s with Some l => Some l | None => Some new end) m)
  end.

Definition pthread_atfork := __register_atfork.

(** The functions that are called, in order; [None]: the walk leaves the list
    through a null or dangling pointer, or does not end within the fuel. *)
Fixpoint walk_back (fuel : nat) (s : atfork_state) (last_handler : nat) (handlers : option nat) :
    option (list Z) :=
  match fuel with
  | O => None
  | S fuel =>
      a ← structs s !! last_handler;
      let call := match prepare a with Some f => [f] | None => [] end in
      if decide (Some last_handler = handlers) then Some call
      else
      prev ← af_prev a;
      rest ← walk_back fuel s prev handlers;
      Some (call ++ rest)
  end.

Definition atfork_pthread_prepare (s : atfork_state) : option (list Z) :=
  match fork_last_handler s with
  | None => Some []
  | Some l => walk_back (Datatypes.S (size (structs s))) s l (fork_handlers s)
  end.

Fixpoint walk_on (fuel : nat) (f : atfork -> option Z) (s : atfork_state) (handlers : option nat) :
    option (list Z) :=
  match handlers with
  | None => Some []
  | Some h =>
      match fuel with
      | O => None
      | S fuel =>
          a ← structs s !! h;
          rest ← walk_on fuel f s (af_next a);
          Some (match f a with Some f => [f] | None => [] end ++ rest)
      end
  end.

Definition atfork_pthread_parent (s : atfork_state) : option (list Z) :=
  walk_on (size (structs s)) parent s (fork_handlers s).
Definition atfork_pthread_child (s : atfork_state) : option (list Z) :=
  walk_on (size (structs s)) child s (fork_handlers s).

(** ** The order of the calls *)

Record registration := mkRegistration { r_prepare : option Z; r_parent : option Z; r_child : option Z }.

(** Registrations [0], [1], ... one after the other. *)
Definition register_all (l : list registration) : atfork_state :=
  foldl (fun s '(i, r) => snd (__register_atfork (Some i) (r_prepare r) (r_parent r) (r_child r) s))
    no_handlers (zip (seq 0 (length l)) l).

(** The structures after the registrations [l]: number [i] is linked to its
    neighbours. *)
Definition linked (l : list registration) (s : atfork_state) : Prop :=
  let n := length l in
  fork_handlers s = (if decide (n = 0) then None else Some (n - 1)) /\
  fork_last_handler s = (if decide (n = 0) then None else Some 0) /\
  forall i, structs s !! i = (fun r => mkAtfork (r_prepare r) (r_parent r) (r_child r)
    (if decide (S i < n) then Some (S i) else None) (if decide (i = 0) then None else Some (i - 1))) <$> l !! i.

Lemma register_all_snoc l r :
  register_all (l ++ [r]) =
  snd (__register_atfork (Some (length l)) (r_prepare r) (r_parent r) (r_child r) (register_all l)).
Proof.
  unfold register_all. rewrite length_app, Nat.add_comm. cbn [length Nat.add].
  rewrite seq_S, zip_with_app, foldl_app by (by rewrite length_seq). done.
Qed.

Lemma register_all_linked l : linked l (register_all l).
Proof.
  induction l as [|r l IH] using rev_ind.
  { split_and!; try done. }
  rewrite register_all_snoc. destruct IH as (Hh & Hl & Hm).
  unfold __register_atfork. rewrite Hh, Hl. remember (length l) as n eqn:Hn.
  unfold linked. rewrite length_app. cbn. replace (length l + 1) with (S n) by lia. split_and!.
  - rewrite decide_False by lia. f_equal. lia.
  - rewrite (decide_False (P := S n = 0)) by lia. by destruct (decide (n = 0)) as [->|].
  - intros i. destruct (decide (i = n)) as [-> | Hne].
    + rewrite lookup_insert_eq, list_lookup_middle by done. cbn.
      rewrite (decide_False (P := S n < S n)) by lia. by destruct (decide (n = 0)) as [->|].
    + rewrite lookup_insert_ne by done. destruct (decide (n = 0)) as [H0|H0].
      { rewrite Hm, !lookup_ge_None_2 by (rewrite ?length_app; cbn; lia); done. }
      destruct (decide (i = n - 1)) as [-> | Hi].
      * rewrite lookup_alter_eq, Hm, lookup_app_l by lia. destruct (l !! (n - 1)); [|done]. cbn.
        unfold with_af_prev. cbn. rewrite (decide_True (P := S (n - 1) < S n)) by lia.
        by replace (S (n - 1)) with n by lia.
      * rewrite lookup_alter_ne, Hm by done. destruct (decide (i < n)) as [Hlt|Hge].
        -- rewrite lookup_app_l by lia. destruct (l !! i); [|done]. cbn.
           by rewrite (decide_True (P := S i < n)), (decide_True (P := S i < S n)) by lia.
        -- rewrite !lookup_ge_None_2 by (rewrite ?length_app; cbn; lia); done.
Qed.

Lemma linked_size l s : linked l s -> size (structs s) = length l.
Proof.
  intros (_ & _ & Hm). rewrite <- size_dom.
  replace (dom (structs s)) with (set_seq (C := gset nat) 0 (length l)); [apply size_set_seq|].
  apply set_eq. intros i. rewrite elem_of_set_seq, elem_of_dom, Hm, fmap_is_Some, lookup_lt_is_Some. lia.
Qed.

(** The calls of the functions [f], without the null ones. *)
Definition calls (f : registration -> option Z) (l : list registration) : list Z := omap f l.

Lemma walk_back_from l s i fuel :
  linked l s -> i < length l -> length l - i <= fuel ->
  walk_back fuel s i (fork_handlers s) = Some (calls r_prepare (drop i l)).
Proof.
  intros (Hh & _ & Hm) Hi. revert i Hi. induction fuel as [|fuel IH]; intros i Hi Hf; [lia|].
  destruct (lookup_lt_is_Some_2 l i Hi) as [r Hr]. cbn [walk_back]. rewrite Hm, Hr. cbn.
  rewrite Hh, (decide_False (P := length l = 0)) by lia. rewrite (drop_S l r i) by done.
  unfold calls. cbn. fold (calls r_prepare (drop (S i) l)).
  destruct (decide (Some i = Some (length l - 1))) as [[= He]|Hne].
  - rewrite drop_ge by lia. cbn. by destruct (r_prepare r).
  - assert (S i < length l) as Hlt by (destruct (decide (S i < length l)); [done|]; exfalso; apply Hne; f_equal; lia).
    rewrite decide_True by done. cbn.
    specialize (IH (S i) Hlt). rewrite Hh, (decide_False (P := length l = 0)) in IH by lia.
    rewrite IH by lia. cbn. by destruct (r_prepare r).
Qed.

Lemma walk_on_from l s g f n fuel :
  linked l s -> (forall p q r c w, f (mkAtfork p q c r w) = g (mkRegistration p q c)) ->
  n <= length l -> n <= fuel ->
  walk_on fuel f s (if decide (n = 0) then None else Some (n - 1)) =
  Some (calls g (reverse (take n l))).
Proof.
  intros (_ & _ & Hm) Hfg. revert n. induction fuel as [|fuel IH]; intros n Hn Hf.
  { by assert (n = 0) as -> by lia. }
  destruct (decide (n = 0)) as [-> | H0]; [done|].
  destruct (lookup_lt_is_Some_2 l (n - 1)) as [r Hr]; [lia|]. cbn [walk_on]. rewrite Hm, Hr. cbn.
  rewrite (IH (n - 1)) by lia. cbn.
  replace (take n l) with (take (S (n - 1)) l) by (f_equal; lia).
  rewrite (take_S_r l (n - 1) r), reverse_app, Hfg by done.
  destruct r as [p q c]. cbn. by destruct (g _).
Qed.

(** C35: the handlers that [fork] calls are all the handlers registered, each once:
    those to prepare in the order of the registrations, those for the parent and
    the child in the reverse order.  This is the opposite of what the comment on
    pthread_atfork in include/pthread/pthread.h (lines 702 to 707) promises and
    POSIX asks for: to prepare in the reverse order, parent and child in the order
    of the registrations. *)
Theorem atfork_order l :
  atfork_pthread_prepare (register_all l) = Some (calls r_prepare l) /\
  atfork_pthread_parent (register_all l) = Some (calls r_parent (reverse l)) /\
  atfork_pthread_child (register_all l) = Some (calls r_child (reverse l)).
Proof.
  pose proof (register_all_linked l) as H. pose proof (linked_size l _ H) as Hsize.
  pose proof H as (Hh & Hl & _). split_and!.
  - unfold atfork_pthread_prepare. rewrite Hl. destruct (decide (length l = 0)) as [H0|H0].
    + by destruct l.
    + rewrite (walk_back_from l) by (done || lia). done.
  - unfold atfork_pthread_parent. rewrite Hh, Hsize, (walk_on_from l _ r_parent) by (done || lia).
    by rewrite take_ge by lia.
  - unfold atfork_pthread_child. rewrite Hh, Hsize, (walk_on_from l _ r_child) by (done || lia).
    by rewrite take_ge by lia.
Qed.
