(* ===== verification/Libc.v ===== *)
(** * The library and the C library

    forward.c is part of the C library: its entry points call the functions of
    libpthread through the table [__libc_pthread_functions] once libpthread has
    filled it in (pt-initialize.c, libc_pthread_init.c), and before do nothing.
    A pointer of the table that is not set is [None].  forward.c also has the
    handlers of [pthread_atfork]; cthreads-compat.c has the old names.

    Attribute objects are passed and returned as in Attr.v; a getter that is not
    forwarded stores no value. *)
From Stdlib Require Import ZArith Lia.
From S2P Require Import Prelude Queue World Machine Platform Sched Mach Attr Mutex Cond Kernel Keys Threads CondWait ThreadOps.
Local Open Scope Z_scope.

(** ** pthread-functions.h *)

Record pthread_functions := mkPthreadFunctions {
  ptr_pthread_attr_destroy : option (pthread_attr -> error_t * pthread_attr);
  ptr_pthread_attr_init : option (pthread_attr -> error_t * pthread_attr);
  ptr_pthread_attr_getdetachstate : option (pthread_attr -> error_t * Z);
  ptr_pthread_attr_setdetachstate : option (pthread_attr -> Z -> error_t * pthread_attr);
  ptr_pthread_attr_getinheritsched : option (pthread_attr -> error_t * Z);
  ptr_pthread_attr_setinheritsched : option (pthread_attr -> Z -> error_t * pthread_attr);
  ptr_pthread_attr_getschedparam : option (pthread_attr -> error_t * Z);
  ptr_pthread_attr_setschedparam : option (pthread_attr -> Z -> error_t * pthread_attr);
  ptr_pthread_attr_getschedpolicy : option (pthread_attr -> error_t * Z);
  ptr_pthread_attr_setschedpolicy : option (pthread_attr -> Z -> error_t * pthread_attr);
  ptr_pthread_attr_getscope : option (pthread_attr -> error_t * Z);
  ptr_pthread_attr_setscope : option (pthread_attr -> Z -> error_t * pthread_attr);
  ptr_pthread_condattr_destroy : option (condattr -> error_t * condattr);
  ptr_pthread_condattr_init : option (condattr -> error_t * condattr);
  ptr_pthread_cond_broadcast : option (cond_id -> M error_t);
  ptr_pthread_cond_destroy : option (cond_id -> M error_t);
  ptr_pthread_cond_init : option (cond_id -> option condattr -> M error_t);
  ptr_pthread_cond_signal : option (cond_id -> M error_t);
  ptr_pthread_cond_wait : option (cond_id -> mutex_id -> M error_t);
  ptr_pthread_cond_timedwait : option (cond_id -> mutex_id -> option timespec -> M error_t);
  ptr_pthread_equal : option (Z -> Z -> bool);
  ptr_pthread_exit : option (Z -> M unit);
  ptr_pthread_getschedparam : option (Z -> M error_t);
  ptr_pthread_setschedparam : option (Z -> Z -> Z -> M error_t);
  ptr_pthread_mutex_destroy : option (mutex_id -> M error_t);
  ptr_pthread_mutex_init : option (mutex_id -> option mutexattr -> M error_t);
  ptr_pthread_mutex_lock : option (mutex_id -> M error_t);
  ptr_pthread_mutex_trylock : option (mutex_id -> M error_t);
  ptr_pthread_mutex_unlock : option (mutex_id -> M error_t);
  ptr_pthread_self : option (M Z);
  ptr_pthread_setcancelstate : option (Z -> M (error_t * Z));
  ptr_pthread_setcanceltype : option (Z -> M (error_t * Z));
  ptr_pthread_get_cleanup_stack : option (M nat);
}.

(** The table before the library is initialised. *)
Definition no_functions : pthread_functions :=
  mkPthreadFunctions None None None None None None None None None None None None None None None
    None None None None None None None None None None None None None None None None None None.

Section Table.
  Context `{Platform} `{IHash}.

(** pt-cleanup.c: the stack of the cleanup handlers of the calling thread, named
    by the thread. *)
Definition __pthread_get_cleanup_stack : M nat := _pthread_self.

(** pt-initialize.c; [default] is the value of [__pthread_default_attr]. *)
Definition the_pthread_functions (default : pthread_attr) : pthread_functions := {|
  ptr_pthread_attr_destroy := Some __pthread_attr_destroy;
  ptr_pthread_attr_init := Some (__pthread_attr_init default);
  ptr_pthread_attr_getdetachstate := Some __pthread_attr_getdetachstate;
  ptr_pthread_attr_setdetachstate := Some __pthread_attr_setdetachstate;
  ptr_pthread_attr_getinheritsched := Some __pthread_attr_getinheritsched;
  ptr_pthread_attr_setinheritsched := Some __pthread_attr_setinheritsched;
  ptr_pthread_attr_getschedparam := Some __pthread_attr_getschedparam;
  ptr_pthread_attr_setschedparam := Some (__pthread_attr_setschedparam default);
  ptr_pthread_attr_getschedpolicy := Some __pthread_attr_getschedpolicy;
  ptr_pthread_attr_setschedpolicy := Some __pthread_attr_setschedpolicy;
  ptr_pthread_attr_getscope := Some __pthread_attr_getscope;
  ptr_pthread_attr_setscope := Some (__pthread_attr_setscope default);
  ptr_pthread_condattr_destroy := Some __pthread_condattr_destroy;
  ptr_pthread_condattr_init := Some __pthread_condattr_init;
  ptr_pthread_cond_broadcast := Some __pthread_cond_broadcast;
  ptr_pthread_cond_destroy := Some __pthread_cond_destroy;
  ptr_pthread_cond_init := Some __pthread_cond_init;
  ptr_pthread_cond_signal := Some __pthread_cond_signal;
  ptr_pthread_cond_wait := Some __pthread_cond_wait;
  ptr_pthread_cond_timedwait := Some __pthread_cond_timedwait;
  ptr_pthread_equal := Some __pthread_equal;
  ptr_pthread_exit := Some __pthread_exit;
  ptr_pthread_getschedparam := Some __pthread_getschedparam;
  ptr_pthread_setschedparam := Some __pthread_setschedparam;
  ptr_pthread_mutex_destroy := Some _pthread_mutex_destroy;
  ptr_pthread_mutex_init := Some _pthread_mutex_init;
  ptr_pthread_mutex_lock := Some __pthread_mutex_lock;
  ptr_pthread_mutex_trylock := Some __pthread_mutex_trylock;
  ptr_pthread_mutex_unlock := Some __pthread_mutex_unlock;
  ptr_pthread_self := Some __pthread_self;
  ptr_pthread_setcancelstate := Some __pthread_setcancelstate;
  ptr_pthread_setcanceltype := Some __pthread_setcanceltype;
  ptr_pthread_get_cleanup_stack := Some __pthread_get_cleanup_stack;
|}.

(** The table after the call, in a shared library or not. *)
Definition __libc_pthread_init (shared : bool) (functions table : pthread_functions) :
    pthread_functions := if shared then functions else table.

(** The functions on the hook [__pthread_init] run in turn, after the table is
    set. *)
Definition __pthread_init (shared : bool) (default : pthread_attr) (hook : list (M unit))
    (table : pthread_functions) : M pthread_functions :=
  foldr (fun f c => f;; c) (mret tt) hook;;
  mret (__libc_pthread_init shared (the_pthread_functions default) table).
End Table.

(** ** forward.c *)

Section Forward.
  Context (table : pthread_functions).

(** The macros: the function [f] if it is there, else the default. *)
Definition FORWARD2 {A} (f : option A) (defaction : A) : A :=
  match f with Some f => f | None => defaction end.

Definition FORWARD {A} (f : option (M A)) (defretval : A) : M A := FORWARD2 f (mret defretval).

(** A setter or getter of attributes: the value stored, if one is. *)
Definition FORWARD_set {A} (f : option (A -> error_t * A)) (attr : A) : error_t * A :=
  FORWARD2 f (fun attr => (OK, attr)) attr.
Definition FORWARD_set1 {A} (f : option (A -> Z -> error_t * A)) (attr : A) (v : Z) : error_t * A :=
  FORWARD2 f (fun attr _ => (OK, attr)) attr v.
Definition FORWARD_get (f : option (pthread_attr -> error_t * Z)) (attr : pthread_attr) :
    error_t * option Z :=
  match f with Some f => let '(e, v) := f attr in (e, Some v) | None => (OK, None) end.

Definition fwd_attr_destroy := FORWARD_set (ptr_pthread_attr_destroy table).
Definition fwd_attr_init := FORWARD_set (ptr_pthread_attr_init table).
Definition fwd_attr_getdetachstate := FORWARD_get (ptr_pthread_attr_getdetachstate table).
Definition fwd_attr_setdetachstate := FORWARD_set1 (ptr_pthread_attr_setdetachstate table).
Definition fwd_attr_getinheritsched := FORWARD_get (ptr_pthread_attr_getinheritsched table).
Definition fwd_attr_setinheritsched := FORWARD_set1 (ptr_pthread_attr_setinheritsched table).
Definition fwd_attr_getschedparam := FORWARD_get (ptr_pthread_attr_getschedparam table).
Definition fwd_attr_setschedparam := FORWARD_set1 (ptr_pthread_attr_setschedparam table).
Definition fwd_attr_getschedpolicy := FORWARD_get (ptr_pthread_attr_getschedpolicy table).
Definition fwd_attr_setschedpolicy := FORWARD_set1 (ptr_pthread_attr_setschedpolicy table).
Definition fwd_attr_getscope := FORWARD_get (ptr_pthread_attr_getscope table).
Definition fwd_attr_setscope := FORWARD_set1 (ptr_pthread_attr_setscope table).
Definition fwd_condattr_destroy := FORWARD_set (ptr_pthread_condattr_destroy table).
Definition fwd_condattr_init := FORWARD_set (ptr_pthread_condattr_init table).

Definition fwd_cond_broadcast (c : cond_id) : M error_t :=
  FORWARD ((fun f => f c) <$> ptr_pthread_cond_broadcast table) OK.
Definition fwd_cond_destroy (c : cond_id) : M error_t :=
  FORWARD ((fun f => f c) <$> ptr_pthread_cond_destroy table) OK.
Definition fwd_cond_init (c : cond_id) (attr : option condattr) : M error_t :=
  FORWARD ((fun f => f c attr) <$> ptr_pthread_cond_init table) OK.
Definition fwd_cond_signal (c : cond_id) : M error_t :=
  FORWARD ((fun f => f c) <$> ptr_pthread_cond_signal table) OK.
Definition fwd_cond_wait (c : cond_id) (m : mutex_id) : M error_t :=
  FORWARD ((fun f => f c m) <$> ptr_pthread_cond_wait table) OK.
Definition fwd_cond_timedwait (c : cond_id) (m : mutex_id) (abstime : option timespec) : M error_t :=
  FORWARD ((fun f => f c m abstime) <$> ptr_pthread_cond_timedwait table) OK.
Definition fwd_equal (thread1 thread2 : Z) : bool :=
  FORWARD2 (ptr_pthread_equal table) (fun _ _ => true) thread1 thread2.
Definition fwd_exit (retval : Z) : M unit :=
  FORWARD2 (ptr_pthread_exit table) (fun _ => exit 0) retval.
Definition fwd_getschedparam (thread : Z) : M error_t :=
  FORWARD ((fun f => f thread) <$> ptr_pthread_getschedparam table) OK.
Definition fwd_setschedparam (thread policy param : Z) : M error_t :=
  FORWARD ((fun f => f thread policy param) <$> ptr_pthread_setschedparam table) OK.
Definition fwd_mutex_destroy (m : mutex_id) : M error_t :=
  FORWARD ((fun f => f m) <$> ptr_pthread_mutex_destroy table) OK.
Definition fwd_mutex_init (m : mutex_id) (attr : option mutexattr) : M error_t :=
  FORWARD ((fun f => f m attr) <$> ptr_pthread_mutex_init table) OK.
Definition fwd_mutex_lock (m : mutex_id) : M error_t :=
  FORWARD ((fun f => f m) <$> ptr_pthread_mutex_lock table) OK.
Definition fwd_mutex_unlock (m : mutex_id) : M error_t :=
  FORWARD ((fun f => f m) <$> ptr_pthread_mutex_unlock table) OK.
Definition fwd_self : M Z := FORWARD (ptr_pthread_self table) 0.

(** The old state is stored only if the call is forwarded. *)
Definition fwd_setcancelstate (state : Z) : M (error_t * option Z) :=
  match ptr_pthread_setcancelstate table with
  | Some f => r ← f state; mret (r.1, Some r.2)
  | None => mret (OK, None)
  end.
Definition fwd_setcanceltype (type : Z) : M (error_t * option Z) :=
  match ptr_pthread_setcanceltype table with
  | Some f => r ← f type; mret (r.1, Some r.2)
  | None => mret (OK, None)
  end.

(** [None]: the variable [dummy_list]. *)
Definition fwd_get_cleanup_stack : M (option nat) :=
  match ptr_pthread_get_cleanup_stack table with
  | Some f => t ← f; mret (Some t)
  | None => mret None
  end.
End Forward.

(** ** pthread/cthreads-compat.c *)

Section Cthreads.
  Context `{Platform} `{IHash}.

Definition CTHREAD_KEY_INVALID : Z := -1.

Definition cthread_detach (thread : Z) : M unit :=
  err ← pthread_detach thread; c_assert (bool_decide (err = OK)).

(** The variable [thread] is not initialised if nothing is stored in it. *)
Definition cthread_fork (func arg entry : Z) : M (option Z) :=
  r ← pthread_create None func arg entry;
  c_assert (bool_decide (r.1 = OK));;
  mret r.2.

(** The result and the key. *)
Definition cthread_keycreate : M (Z * Z) :=
  r ← pthread_key_create KeyNull;
  if decide (r.1 <> OK) then set_errno r.1;; mret (-1, CTHREAD_KEY_INVALID)
  else mret (0, r.2).

Definition cthread_getspecific (key : Z) : M (Z * Z) :=
  val ← pthread_getspecific key; mret (0, val).

Definition __libc_getspecific (key : Z) : M Z := pthread_getspecific key.

Definition cthread_setspecific (key val : Z) : M Z :=
  err ← pthread_setspecific key val;
  if decide (err <> OK) then set_errno err;; mret (-1) else mret 0.

Definition __mutex_lock_solid (m : mutex_id) : M unit := _ ← __pthread_mutex_lock m; mret tt.

(** A mutex begins with [__held]. *)
Definition __mutex_unlock_solid (m : mutex_id) : M unit :=
  e ← __pthread_spin_trylock (SMutexHeld m);
  if decide (e <> OK) then mret tt
  else _ ← __pthread_mutex_unlock m; mret tt.
End Cthreads.
