(* ===== verification/ThreadFacts.v ===== *)
(** * Thread IDs *)
From Stdlib Require Import ZArith Lia.
From S2P Require Import Prelude Queue World Machine Platform Sched Mach Demo Attr Mutex Rwlock Cond Kernel Threads ThreadOps.
Local Open Scope Z_scope.

(** ** The table of thread IDs *)

Lemma solo_getid attr thread o me w {B} (f : option nat -> world -> res B) :
  rwlock_idle RThreadsLock attr w -> table_get (threads_tab (glob w)) (thread - 1) = Some o ->
  solo (bindr (__pthread_getid thread me w) f) = solo (f o w).
Proof.
  intros Hr Ht. unfold __pthread_getid. cbn [mbind M_bind].
  rewrite bindr_assoc, (solo_rdlock RThreadsLock attr) by done. cbn. rewrite Ht. cbn.
  rewrite bindr_assoc, (solo_rwlock_unlock RThreadsLock attr 1); try apply Hr; [|apply lookup_insert_eq|by right|..].
  - by rewrite hold_rwlock_undo.
  - destruct Hr. cbn. set_solver.
  - cbn. set_solver.
Qed.

(** The world after the entry of an ID is set. *)
Definition with_id (thread : Z) (t : option nat) (w : world) : world :=
  set_glob (set_threads_tab (table_set (threads_tab (glob w)) (thread - 1) t) (glob w)) w.

Lemma solo_setid attr thread t tab me w {B} (f : unit -> world -> res B) :
  rwlock_idle RThreadsLock attr w -> table_set (threads_tab (glob w)) (thread - 1) t = Some tab ->
  solo (bindr (__pthread_setid thread t me w) f) = solo (f tt (with_id thread t w)).
Proof.
  intros Hr Ht. unfold __pthread_setid, with_id, store_id. cbn [mbind M_bind].
  rewrite bindr_assoc, (solo_wrlock RThreadsLock attr) by done. cbn. rewrite Ht. cbn.
  rewrite bindr_assoc, (solo_rwlock_unlock RThreadsLock attr 0); try apply Hr; [|apply lookup_insert_eq|by left|..].
  - change (set_spins _ _) with (set_glob (set_threads_tab (Some tab) (glob w))
      (set_spins (spins (hold_rwlock RThreadsLock attr 0 w) ∖ {[SRwHeld RThreadsLock]})
        (set_rwlocks (<[RThreadsLock := mkRwlock 0 attr]> (rwlocks (hold_rwlock RThreadsLock attr 0 w)))
          (hold_rwlock RThreadsLock attr 0 w)))).
    by rewrite hold_rwlock_undo.
  - destruct Hr. cbn. set_solver.
  - cbn. set_solver.
Qed.

(** The IDs that have been given out: 1, 2, ... *)
Definition known_id (thread : Z) (w : world) : Prop :=
  exists o, table_get (threads_tab (glob w)) (thread - 1) = Some o.

Lemma table_set_known tab i t o :
  table_get tab i = Some o -> exists tab', table_set tab i t = Some tab' /\
    forall j, table_get (Some tab') j = if decide (j = i) then Some t else table_get tab j.
Proof.
  unfold table_get, table_set. destruct (Z.ltb_spec i 0) as [|Hi]; [done|].
  destruct tab as [l|]; [|done]. intros Hl.
  assert (Z.to_nat i < length l)%nat as Hlt by (by apply lookup_lt_is_Some; exists o).
  rewrite decide_True by done. eexists. split; [done|]. intros j. destruct (decide (j = i)) as [-> | Hne].
  - destruct (Z.ltb_spec i 0); [lia|]. by apply list_lookup_insert_eq.
  - destruct (Z.ltb_spec j 0); [done|]. apply list_lookup_insert_ne. lia.
Qed.

(** What [__pthread_setid] stores for an ID is what [__pthread_getid] finds
    for it, other IDs are looked up as before, and an ID that was never given out
    is not found by a null pointer but read from outside the table. *)
Theorem setid_getid attr thread t thread' me w :
  rwlock_idle RThreadsLock attr w -> known_id thread w ->
  exists w', solo (__pthread_setid thread t me w) = Done tt w' /\
    solo (__pthread_getid thread' me w') =
    if decide (thread' = thread) then Done t w'
    else match table_get (threads_tab (glob w)) (thread' - 1) with
         | Some o => Done o w'
         | None => Fault FSegv
         end.
Proof.
  intros Hr [o Ho]. destruct (table_set_known _ _ t o Ho) as (tab & Htab & Hget).
  exists (with_id thread t w). split.
  - rewrite <- (bindr_ret (__pthread_setid _ _ _ _)). by rewrite (solo_setid attr thread t tab).
  - assert (rwlock_idle RThreadsLock attr (with_id thread t w)) as Hr' by (by destruct Hr; split).
    assert (table_get (threads_tab (glob (with_id thread t w))) (thread' - 1) =
            if decide (thread' = thread) then Some t
            else table_get (threads_tab (glob w)) (thread' - 1)) as Hl.
    { unfold with_id. cbn. rewrite Htab, Hget.
      destruct (decide (thread' = thread)) as [-> | Hne];
        [by rewrite decide_True | by rewrite decide_False by lia]. }
    destruct (decide (thread' = thread)) as [-> | Hne];
      [|destruct (table_get (threads_tab (glob w)) (thread' - 1)) as [o'|] eqn:Ho'].
    + rewrite <- (bindr_ret (__pthread_getid _ _ _)). by erewrite (solo_getid attr).
    + rewrite <- (bindr_ret (__pthread_getid _ _ _)). by erewrite (solo_getid attr).
    + unfold __pthread_getid. cbn [mbind M_bind]. rewrite (solo_rdlock RThreadsLock attr) by done.
      cbn in Hl |- *. by rewrite Hl.
Qed.

(** ** New IDs *)

(** The entries of the table are those of the IDs given out, and fit into it. *)
Record table_ok (w : world) : Prop := {
  to_length : Z.of_nat (length (default [] (threads_tab (glob w)))) = num_threads (glob w);
  to_max : num_threads (glob w) <= max_threads (glob w) < 2 ^ 31;
}.

Section Alloc.
Context `{Platform}.

(** The structure [new] gets the next ID. *)
Definition id_taken (new : nat) (p : pthread) (max : Z) (w : world) : world :=
  let n := num_threads (glob w) in
  set_glob (set_threads_tab (Some (default [] (threads_tab (glob w)) ++ [None]))
             (set_num_threads (n + 1) (set_max_threads max (glob w))))
    (set_pthreads (<[new := with_p_thread (1 + n) p]> (pthreads w)) w).

Lemma take_id_at new p me w :
  pthreads w !! new = Some p -> 0 <= num_threads (glob w) < 2 ^ 31 - 1 ->
  take_id new me w = Done tt (id_taken new p (max_threads (glob w)) w).
Proof.
  intros Hp Hn. unfold take_id, update_thread, get_thread. cbn. rewrite Hp. cbn.
  rewrite wraps_small by (cbn; lia). unfold id_taken. by destruct w as [? ? ? ? ? ? ? ? ? ? []].
Qed.

(** ... while the lock of the table is held. *)
Lemma solo_take_id attr new p me w {B} (f : error_t -> world -> res B) :
  rwlock_idle RThreadsLock attr w -> pthreads w !! new = Some p ->
  0 <= num_threads (glob w) < 2 ^ 31 - 1 ->
  solo (bindr (take_id new me (hold_rwlock RThreadsLock attr 0 w))
    (fun _ w' => bindr (pthread_rwlock_unlock RThreadsLock me w') f)) =
  solo (f OK (id_taken new p (max_threads (glob w)) w)).
Proof.
  intros Hr Hp Hn. rewrite (take_id_at new p) by done. cbn [bindr].
  rewrite (solo_rwlock_unlock RThreadsLock attr 0); try apply Hr; [|apply lookup_insert_eq|by left|..].
  - change (set_spins _ _) with (id_taken new p (max_threads (glob w))
      (set_spins (spins (hold_rwlock RThreadsLock attr 0 w) ∖ {[SRwHeld RThreadsLock]})
        (set_rwlocks (<[RThreadsLock := mkRwlock 0 attr]> (rwlocks (hold_rwlock RThreadsLock attr 0 w)))
          (hold_rwlock RThreadsLock attr 0 w)))).
    by rewrite hold_rwlock_undo.
  - destruct Hr. cbn. set_solver.
  - cbn. set_solver.
Qed.

(** An ID was given to [new], the structure [p], or not. *)
Definition id_given (new : nat) (p : pthread) (e : error_t) (o : option nat) (w w' : world) : Prop :=
  let n := num_threads (glob w) in
  if decide (e = OK)
  then o = Some new /\ num_threads (glob w') = n + 1 /\
       pthreads w' = <[new := with_p_thread (n + 1) p]> (pthreads w) /\
       table_get (threads_tab (glob w')) n = Some None /\
       forall i, i < n -> table_get (threads_tab (glob w')) i = table_get (threads_tab (glob w)) i
  else o = None /\ pthreads w' = delete new (pthreads w) /\ glob w' = glob w /\
       (e = ENOMEM \/ exists lim, e = EAGAIN /\ PTHREAD_THREADS_MAX = Some lim /\ lim <= n).

(** The answer of [malloc], and the world after it. *)
Lemma ask_at me w : exists b l, ask me w = Done b (set_env (set_answers l (env w)) w).
Proof.
  unfold ask. destruct (answers (env w)) as [|b l] eqn:Ha; [|by exists b, l].
  exists true, []. f_equal. rewrite <- Ha. by destruct w as [? ? ? ? ? ? ? ? ? ? ? []].
Qed.

Lemma id_taken_given new p max w :
  table_ok w -> num_threads (glob w) < max < 2 ^ 31 ->
  table_ok (id_taken new p max w) /\ id_given new p OK (Some new) w (id_taken new p max w).
Proof.
  intros [Hl Hm] Hmax. split; [split|].
  - cbn. rewrite length_app. cbn. lia.
  - cbn. lia.
  - unfold id_given. rewrite decide_True by done. split_and!; [done|done|cbn; by rewrite Z.add_comm| |].
    + unfold table_get. cbn. destruct (Z.ltb_spec (num_threads (glob w)) 0); [lia|].
      rewrite <- Hl, Nat2Z.id. by apply list_lookup_middle.
    + intros i Hi. unfold table_get. cbn. destruct (Z.ltb_spec i 0); [done|].
      rewrite lookup_app_l by lia. by destruct (threads_tab (glob w)).
Qed.

Lemma alloc_try_at attr new p me w :
  rwlock_idle RThreadsLock attr w -> pthreads w !! new = Some p -> table_ok w ->
  max_threads (glob w) < 2 ^ 30 ->
  exists e o w', solo (alloc_try new me w) = Done (Some (e, o)) w' /\
    table_ok w' /\ id_given new p e o w w'.
Proof.
  intros Hr Hp Hok Hbound. pose proof Hok as [Hl Hm]. pose proof Hr as [_ Hsl Hsh Hq1 Hq2].
  unfold alloc_try. cbn [mbind M_bind]. rewrite (solo_wrlock RThreadsLock attr) by done.
  cbn [get_glob gets bindr]. change (glob (hold_rwlock _ _ _ w)) with (glob w).
  destruct (Z.ltb_spec (num_threads (glob w)) (max_threads (glob w))) as [Hlt | Hge].
  - cbn [mbind M_bind]. rewrite (solo_take_id attr new p) by (done || lia).
    do 3 eexists. split; [done|]. apply id_taken_given; [done|lia].
  - destruct (match PTHREAD_THREADS_MAX with Some lim => _ | None => false end) eqn:Hlim; cbn [mbind M_bind].
    + rewrite (solo_rwlock_unlock RThreadsLock attr 0); try apply Hr; [|apply lookup_insert_eq|by left|cbn; set_solver..].
      rewrite hold_rwlock_undo by done. do 3 eexists. split; [done|]. split; [by split|].
      unfold id_given. rewrite decide_False by done. split_and!; [done..|]. right.
      destruct PTHREAD_THREADS_MAX as [lim|]; [|done]. apply Z.leb_le in Hlim. by exists lim.
    + rewrite (solo_rwlock_unlock RThreadsLock attr 0); try apply Hr; [|apply lookup_insert_eq|by left|cbn; set_solver..].
      rewrite hold_rwlock_undo by done. cbn zeta beta. cbn [mbind M_bind].
      destruct (ask_at me w) as (b & l & Hask). unfold malloc_ok. rewrite Hask. cbn [bindr].
      destruct b; cbn [negb].
      * cbn [mbind M_bind]. rewrite (solo_wrlock RThreadsLock attr) by (by destruct Hr; split).
        cbn [get_glob gets bindr]. change (glob (hold_rwlock _ _ _ _)) with (glob w).
        rewrite Z.eqb_refl. cbn [negb mbind M_bind put_glob modify bindr].
        set (mx := if 0 <? max_threads (glob w) then _ else _).
        set (w1 := set_glob (set_max_threads mx (glob w)) (set_env (set_answers l (env w)) w)).
        change (set_glob _ (hold_rwlock RThreadsLock attr 0 _)) with (hold_rwlock RThreadsLock attr 0 w1).
        assert (num_threads (glob w) < mx < 2 ^ 31) as Hmx.
        { unfold mx, _POSIX_THREAD_THREADS_MAX.
          destruct (Z.ltb_spec 0 (max_threads (glob w))); [rewrite wraps_small by (cbn; lia)|]; lia. }
        rewrite (solo_take_id attr new p) by (done || (by destruct Hr; split) || (cbn; lia)).
        do 3 eexists. split; [done|]. apply (id_taken_given new p mx w1); [by split; [|cbn; lia]|done].
      * do 3 eexists. split; [done|]. split; [by split|].
        unfold id_given. rewrite decide_False by done. split_and!; [done..|]. by left.
Qed.

End Alloc.

(** ** Concrete threads *)

(** [n] threads, and the locks of the library. *)
Definition demo_threads (n : nat) : world :=
  set_rwlocks {[RThreadsLock := mkRwlock 0 None]}
    (set_mutexes (list_to_map (map (fun t => (MCancelLock t, mkMutex ANull None 0)) (seq 0 n)))
      (demo_world n ANull)).

Lemma demo_threads_idle n : rwlock_idle RThreadsLock None (demo_threads n).
Proof. by split. Qed.

(** The entry of thread 1 becomes null. *)
Lemma setid_getid_witness :
  exists w', solo (__pthread_setid 2 None (demo_ctx 0) (demo_threads 2)) = Done tt w' /\
    solo (__pthread_getid 1 (demo_ctx 0) w') = Done (Some 0%nat) w'.
Proof.
  destruct (setid_getid None 2 None 1 (demo_ctx 0) (demo_threads 2)) as (w' & Hs & Hg).
  - apply demo_threads_idle.
  - by eexists.
  - exists w'. split; [exact Hs|]. exact Hg.
Defined.


Definition no_ihash : IHash := {|
  hurd_ihash_create := mret None; hurd_ihash_free _ := mret tt; hurd_ihash_find _ _ := mret 0;
  hurd_ihash_add _ _ _ := mret ENOMEM; hurd_ihash_remove _ _ := mret 0 |}.
