(* ===== verification/CondSpec.v ===== *)
(** * The waits on condition variables

    The whole way of a thread through pthread_cond_timedwait: what it leaves
    behind when it blocks, and how it comes back from any later state in which
    the locks it needs are free. *)
From Stdlib Require Import ZArith Lia.
From S2P Require Import Prelude Queue World Machine Platform Sched Mach Demo Attr Mutex Cond Kernel Threads CondWait ThreadFacts.
Local Open Scope Z_scope.

#[local] Arguments cancelled : simpl never.
#[local] Arguments update_thread : simpl never.

Lemma enqueue_other_head h h' t q q' :
  __pthread_enqueue h t q = Some q' -> h <> h' -> cells q' !! Head (H := head_id) h' = cells q !! Head h'.
Proof.
  unfold __pthread_enqueue. destruct (prevp q !! t); [done|]. intros [= <-] Hne. cbn.
  rewrite lookup_insert_ne by congruence. by rewrite lookup_upd_ne by done.
Qed.

Lemma dequeue_head t q q' h :
  __pthread_dequeue t q = Some q' -> prevp q !! t <> Some (Head (H := head_id) h) ->
  cells q' !! Head h = cells q !! Head h.
Proof.
  unfold __pthread_dequeue. destruct (prevp q !! t) as [d|]; [|done]. intros [= <-] Hne. cbn.
  rewrite lookup_upd_ne by congruence. done.
Qed.

(** ** The parts of a wait *)

Section Wait.
Context `{Platform} `{IHash}.
Context (me : kctx) (t : nat) (c : cond_id) (m : mutex_id).

(** The thread [t] is [p] and runs, and the locks of its cancelation and of [c]
    are free. *)
Record at_cond (p : pthread) (x : cond) (w : world) : Prop := {
  ac_runs : runs me t w;
  ac_thread : pthreads w !! t = Some p;
  ac_cancel : mutex_idle (MCancelLock t) w;
  ac_cond : conds w !! c = Some x;
  ac_lock : SCond c ∉ spins w;
}.

(** What the other threads see of [t] while it waits. *)
Definition waiting (p : pthread) : pthread :=
  with_cancel_hook (Some (mkCancelCtx t c)) (with_cancel_type PTHREAD_CANCEL_DEFERRED p).

Lemma prepare_at p x w q {B} (f : bool * Z * Z -> world -> res B) :
  at_cond p x w -> cancelled p = false -> __pthread_enqueue (HCond c) t (qh w) = Some q ->
  solo (bindr (prepare_wait c t me w) f) =
  solo (f (false, cancel_type p, cond_clock x) (set_qh q (with_thread t (waiting p) w))).
Proof.
  intros [Hr Hp Hc Hx Hl] Hn Hq. unfold prepare_wait. cbn [mbind M_bind].
  rewrite bindr_assoc, solo_mutex_lock by done. unfold get_thread at 1. cbn. rewrite Hp. cbn.
  rewrite Hn. cbn. rewrite (update_thread_at t _ p) by done. cbn.
  set (p1 := with_cancel_hook _ p). set (w1 := with_thread t p1 (hold_mutex (MCancelLock t) w)).
  assert ((if negb (cancel_type p =? PTHREAD_CANCEL_DEFERRED)
           then update_thread t (with_cancel_type PTHREAD_CANCEL_DEFERRED) else M_ret unit tt) me w1 =
          Done tt (with_thread t (waiting p) (hold_mutex (MCancelLock t) w))) as ->.
  { destruct (Z.eqb_spec (cancel_type p) PTHREAD_CANCEL_DEFERRED) as [He|Hne]; cbn.
    - unfold w1, p1, waiting. rewrite <- He. by destruct p.
    - rewrite (update_thread_at t _ p1) by apply lookup_insert_eq.
      unfold w1, with_thread. cbn. by rewrite insert_insert_eq. }
  cbn. rewrite !bindr_assoc, solo_spin_lock by (cbn; set_solver). cbn.
  erewrite enqueue_some by exact Hq. cbn. rewrite Hx. cbn.
  destruct Hc as [(o & n & Hm) Hml Hmh Hmq].
  rewrite bindr_assoc, (solo_mutex_unlock _ o n);
    [|done|cbn; set_solver|cbn; by rewrite (enqueue_other_head (HCond c) _ t (qh w))].
  unfold with_thread, hold_mutex. cbn. rewrite !spins_cycle by set_solver. by destruct w.
Qed.

(** The critical section at the end, with the result whether a request is pending. *)
Lemma finish_at p oldtype w {B} (f : bool -> world -> res B) :
  pthreads w !! t = Some p -> mutex_idle (MCancelLock t) w ->
  solo (bindr (finish_wait t oldtype me w) f) =
  solo (f (cancelled p) (with_thread t (with_cancel_hook None (with_cancel_type oldtype p)) w)).
Proof.
  intros Hp Hc. pose proof Hc as [(o & n & Hm) Hl Hh Hq]. unfold finish_wait. cbn [mbind M_bind].
  rewrite bindr_assoc, solo_mutex_lock by done. cbn. rewrite (update_thread_at t _ p) by done. cbn.
  rewrite lookup_insert_eq. cbn.
  rewrite bindr_assoc, (solo_mutex_unlock _ o n); [|done|cbn; set_solver|done]. cbn.
  rewrite spins_cycle by done. unfold with_thread. cbn. by destruct w.
Qed.

(** After the block, with the result [err]: the thread was dequeued, or not. *)
Lemma leave_dequeued w {B} (f : error_t -> world -> res B) :
  SCond c ∉ spins w -> prevp (qh w) !! t = None ->
  solo (bindr (leave_queue c t OK me w) f) = solo (f OK w) /\
  solo (bindr (leave_queue c t ETIMEDOUT me w) f) =
  solo (bindr (__pthread_block t me w) (fun _ w' => f ETIMEDOUT w')).
Proof.
  intros Hl Hp.
  assert (forall w', w' = w -> set_spins (({[SCond c]} ∪ spins w) ∖ {[SCond c]})
    (set_spins ({[SCond c]} ∪ spins w) w') = w) as Hw.
  { intros ? ->. rewrite spins_cycle by done. by destruct w. }
  split; unfold leave_queue; cbn; rewrite !bindr_assoc, solo_spin_lock by done; cbn; rewrite Hp; cbn.
  - rewrite decide_True by done. cbn. by rewrite Hw.
  - rewrite decide_False by done. cbn. rewrite bool_decide_eq_true_2 by done. cbn. rewrite Hw by done. by rewrite bindr_assoc.
Qed.

Lemma leave_queued w q d {B} (f : error_t -> world -> res B) :
  SCond c ∉ spins w -> prevp (qh w) !! t = Some d -> __pthread_dequeue t (qh w) = Some q ->
  solo (bindr (leave_queue c t ETIMEDOUT me w) f) = solo (f ETIMEDOUT (set_qh q w)).
Proof.
  intros Hl Hp Hq. unfold leave_queue. cbn. rewrite !bindr_assoc, solo_spin_lock by done. cbn.
  rewrite Hp. cbn. rewrite bool_decide_eq_true_2 by done. cbn. erewrite dequeue_some by exact Hq. cbn.
  rewrite spins_cycle by done. by destruct w.
Qed.

(** The thread can return to its caller: the locks it needs are free and it is
    not cancelled. *)
Record can_return (p : pthread) (x : cond) (w : world) : Prop := {
  cr_cond : at_cond p x w;
  cr_cancelled : cancelled p = false;
  cr_mutex : mutex_idle m w;
}.

(** It holds the mutex again, its hook is removed and its type restored. *)
Definition returned (oldtype : Z) (p : pthread) (w : world) : world :=
  hold_mutex m (with_thread t (with_cancel_hook None (with_cancel_type oldtype p)) w).

(** The code after the block. *)
Definition after_block (oldtype : Z) (err : error_t) : world -> res error_t := fun w =>
  bindr (finish_wait t oldtype me w) (fun (pending : bool) w =>
    bindr (__pthread_mutex_lock m me w) (fun _ w =>
      (if pending then __pthread_exit PTHREAD_CANCELED else mret err) me w)).

Lemma after_block_at oldtype err p x w :
  can_return p x w -> solo (after_block oldtype err w) = Done err (returned oldtype p w).
Proof.
  intros [[Hr Hp Hc Hx Hl] Hn [Hm1 Hm2 Hm3 Hm4]]. unfold after_block.
  rewrite (finish_at p) by done. rewrite Hn. by rewrite solo_mutex_lock by done.
Qed.

Lemma block_at w {B} (f : unit -> world -> res B) :
  bindr (__pthread_block t me w) f =
  Susp (RRecv t None) w (fun e w' => bindr (c_assert (bool_decide (e = KERN_SUCCESS)) me w') f).
Proof. done. Qed.

(** The wait up to the block: the thread has queued up and then released the
    mutex. *)
Lemma wait_blocks abstime p x w q o n :
  at_cond p x w -> cancelled p = false -> bad_abstime abstime = false ->
  mutexes w !! m = Some (mkMutex ANull o n) -> SMutexLock m ∉ spins w ->
  cells (qh w) !! Head (HMutex m) = None ->
  __pthread_enqueue (HCond c) t (qh w) = Some q ->
  solo (__pthread_cond_timedwait_internal c m abstime me w) =
  solo (bindr (cond_block c t abstime (cond_clock x) me
    (set_spins (spins w ∖ {[SMutexHeld m]}) (set_qh q (with_thread t (waiting p) w))))
    (after_block (cancel_type p))).
Proof.
  intros Hw Hn Hb Hm Hml Hmq Hq. unfold __pthread_cond_timedwait_internal. rewrite Hb. cbn [mbind M_bind].
  rewrite (pthread_self_runs me t) by apply Hw. cbn [bindr].
  rewrite (prepare_at p x w q) by done. cbn [bindr mbind M_bind].
  rewrite (solo_mutex_unlock m o n); [done..|]. cbn. by rewrite (enqueue_other_head (HCond c) _ t (qh w)).
Qed.

(** What the thread waits for: a message, until [abstime] if there is one. *)
Definition block_request (abstime : option timespec) (x : cond) (w : world) : reason :=
  RRecv t (option_map (timeout_ms (clock (env w) (cond_clock x))) abstime).

Definition not_passed (abstime : option timespec) (x : cond) (w : world) : Prop :=
  match abstime with Some ts => time_passed (clock (env w) (cond_clock x)) ts = false | None => True end.

Lemma cond_block_at abstime x w :
  not_passed abstime x w ->
  exists k, cond_block c t abstime (cond_clock x) me w = Susp (block_request abstime x w) w k /\
    (forall w', k KERN_SUCCESS w' = leave_queue c t OK me w') /\
    (abstime <> None -> forall w', k EMACH_RCV_TIMED_OUT w' = leave_queue c t ETIMEDOUT me w').
Proof.
  unfold cond_block, block_request. destruct abstime as [ts|]; cbn; intros Hp.
  - unfold __pthread_timedblock. cbn. rewrite Hp. cbn. by eexists.
  - by eexists.
Qed.

(** The world in which the thread waits: it is queued up, has its hook, and the
    mutex is free. *)
Definition released (q : qheap_w) (p : pthread) (w : world) : world :=
  set_spins (spins w ∖ {[SMutexHeld m]}) (set_qh q (with_thread t (waiting p) w)).

Lemma can_return_dequeued p x w q d :
  can_return p x w -> prevp (qh w) !! t = Some d -> __pthread_dequeue t (qh w) = Some q ->
  (forall m', d <> Head (HMutex m')) -> can_return p x (set_qh q w).
Proof.
  intros [[Hr Hp [Hc1 Hc2 Hc3 Hc4] Hx Hl] Hn [Hm1 Hm2 Hm3 Hm4]] Hd Hq Hne.
  assert (forall m', prevp (qh w) !! t <> Some (Head (HMutex m'))) as Hne'.
  { intros m'. rewrite Hd. intros [= He]. by apply (Hne m'). }
  split; [split; try done| |]; try done; split; try done; cbn; by rewrite (dequeue_head t (qh w)) by done.
Qed.
End Wait.

(** C23: A thread that waits on a condition variable queues up before it lets go of
    the mutex, so that it blocks as a member of the queue with the mutex free,
    deferred cancelation and its hook in place.  Whatever the other threads did
    until then, once it resumes with the locks it needs free it comes back with
    the mutex held, without the hook, with its old cancelation type, and not
    queued: with 0 when it was woken up, with ETIMEDOUT when its time ran out
    while it was queued, and if it was woken up at that very moment it first
    takes the message, so that the next wait does not find it. *)
Theorem cond_wait_cycle `{Platform} `{IHash} me t c m abstime p x w q o n :
  at_cond me t c p x w -> cancelled p = false ->
  bad_abstime abstime = false -> not_passed abstime x w ->
  mutexes w !! m = Some (mkMutex ANull o n) -> SMutexLock m ∉ spins w ->
  cells (qh w) !! Head (HMutex m) = None ->
  __pthread_enqueue (HCond c) t (qh w) = Some q ->
  exists k,
    solo (__pthread_cond_timedwait_internal c m abstime me w) =
    Susp (block_request t abstime x w) (released t c m q p w) k /\
    forall p2 x2 w2, can_return me t c m p2 x2 w2 ->
      (prevp (qh w2) !! t = None ->
       solo (k KERN_SUCCESS w2) = Done OK (returned t m (cancel_type p) p2 w2)) /\
      (abstime <> None -> forall d q2, prevp (qh w2) !! t = Some d -> (forall m', d <> Head (HMutex m')) ->
       __pthread_dequeue t (qh w2) = Some q2 ->
       solo (k EMACH_RCV_TIMED_OUT w2) = Done ETIMEDOUT (returned t m (cancel_type p) p2 (set_qh q2 w2))) /\
      (abstime <> None -> prevp (qh w2) !! t = None ->
       exists k', solo (k EMACH_RCV_TIMED_OUT w2) = Susp (RRecv t None) w2 k' /\
         forall p3 x3 w3, can_return me t c m p3 x3 w3 ->
           solo (k' KERN_SUCCESS w3) = Done ETIMEDOUT (returned t m (cancel_type p) p3 w3)).
Proof.
  intros Hw Hn Hb Ht Hm Hml Hmq Hq. rewrite (wait_blocks me t c m abstime p x w q o n) by done.
  destruct (cond_block_at me t c abstime x (released t c m q p w)) as (k & Hk & Hok & Hto); [done|].
  unfold released in Hk. rewrite Hk. cbn [bindr solo].
  eexists. split; [done|]. intros p2 x2 w2 Hr. pose proof Hr as [[_ _ _ _ Hl] _ _]. split_and!.
  - intros Hp. rewrite Hok. destruct (leave_dequeued me t c w2 (after_block me t m (cancel_type p)) Hl Hp) as [-> _].
    by apply (after_block_at me t c m _ _ _ x2).
  - intros Ha d q2 Hd Hne Hq2. rewrite Hto by done. rewrite (leave_queued me t c w2 q2 d) by done.
    apply (after_block_at me t c m _ _ _ x2). by eapply can_return_dequeued.
  - intros Ha Hp. rewrite Hto by done.
    destruct (leave_dequeued me t c w2 (after_block me t m (cancel_type p)) Hl Hp) as [_ ->].
    rewrite block_at. cbn [solo]. eexists. split; [done|]. intros p3 x3 w3 Hr3.
    by apply (after_block_at me t c m _ _ _ x3).
Qed.

(** ** A wait and a signal *)

(** Thread 0 holds mutex 0, and there is a condition variable without
    attributes. *)
Definition demo_cond_world : world :=
  set_spins {[SMutexHeld (MUser 0)]}
    (set_conds {[CUser 0 := mkCond None]}
      (set_mutexes (<[MUser 0 := mkMutex ANull None 0]> (mutexes (demo_threads 2))) (demo_threads 2))).

Definition demo_released : world :=
  released 0 (CUser 0) (MUser 0) (queue_of (HCond (CUser 0)) [0%nat]) (demo_pthread 0) demo_cond_world.

(** What thread 1 leaves behind when it signals the condition variable. *)
Definition demo_signalled : world :=
  set_qh (default qheap_empty (__pthread_dequeue 0 (qh demo_released)))
    (set_mail (<[0%nat := 1%nat]> (mail demo_released)) demo_released).

Lemma demo_signal_wakes :
  solo (__pthread_cond_signal (CUser 0) (demo_ctx 1) demo_released) = Done OK demo_signalled.
Proof. by vm_compute. Qed.

Lemma cond_wait_cycle_witness :
  exists k,
    solo (@__pthread_cond_timedwait_internal demo_platform no_ihash (CUser 0) (MUser 0)
            (Some (mkTimespec 2 0)) (demo_ctx 0) demo_cond_world) =
    Susp (RRecv 0 (Some 2000)) demo_released k /\
    solo (k KERN_SUCCESS demo_signalled) =
    Done OK (returned 0 (MUser 0) 0 (waiting 0 (CUser 0) (demo_pthread 0)) demo_signalled).
Proof.
  destruct (@cond_wait_cycle demo_platform no_ihash (demo_ctx 0) 0 (CUser 0) (MUser 0)
    (Some (mkTimespec 2 0)) (demo_pthread 0) (mkCond None) demo_cond_world
    (queue_of (HCond (CUser 0)) [0%nat]) None 0) as (k & Hk & Hback).
  - split; [by apply demo_runs with (n := 2%nat); lia|done|split; [by do 2 eexists|by vm_compute..]|done|by vm_compute].
  - done.
  - done.
  - done.
  - done.
  - by vm_compute.
  - done.
  - done.
  - exists k. split; [exact Hk|].
    assert (can_return (demo_ctx 0) 0 (CUser 0) (MUser 0) (waiting 0 (CUser 0) (demo_pthread 0))
      (mkCond None) demo_signalled) as Hr.
    { assert (runs (demo_ctx 0) 0 demo_signalled) as Hruns.
      { split; [by eexists|]. split; [done|]. by eexists. }
      assert (forall m, m = MUser 0 \/ m = MCancelLock 0 -> mutex_idle m demo_signalled) as Hm.
      { intros m [-> | ->]; (split; [by do 2 eexists|by vm_compute..]). }
      split; [split|done|]; auto; by vm_compute. }
    destruct (Hback _ _ _ Hr) as [Hs _]. by apply Hs.
Defined.
