(* ===== verification/MonitorInv.v ===== *)
(** * The invariant of a monitor: one mutex and one condition variable

    Any number of threads use a mutex with default attributes and wait on a
    condition variable with it.  Besides the mutex and the condition variable
    the invariant covers what a wait touches of its own thread: the lock of the
    cancelation state, the cancelation type and the hook.  Monitor.v proves the
    operations from the transitions of this file. *)
From Stdlib Require Import ZArith Lia.
From S2P Require Import Prelude Queue World Machine Sched Mach Attr Mutex Cond Kernel Threads CondWait.

(** Where a thread is.  [Idle d]: outside, and [d] says that it has brought about
    the fact [D] below; [Owns u b]: it holds the mutex, the application memory is
    [u], and the monitor invariant holds if [b]; [Blocked], [Woken]: it waits for
    the mutex, or was handed it and has the message; [Queued u]: it holds the
    mutex and has queued up at the condition variable; [Waits]: it has released
    the mutex; [Expired]: its wait expired and it goes for the spin lock;
    [Drains]: it was woken up after its wait expired and waits for the message. *)
Inductive mode :=
  | Idle (d : bool) | Owns (u : gmap nat Z) (b : bool) | Blocked | Woken
  | Queued (u : gmap nat Z) | Waits | Expired | Drains.

(** The mode, and whether the thread holds the lock of its cancelation state. *)
Abbreviation ghost := (mode * bool)%type.

(** What the mode says about being in the queue of the mutex, in that of the
    condition variable, being the holder, and the number of messages. *)
Definition mplace (g : mode) (qm qc o : Prop) (n : nat) : Prop :=
  match g with
  | Idle _ => ~ qm /\ ~ qc /\ ~ o /\ n = 0
  | Owns _ _ | Woken => ~ qm /\ ~ qc /\ o /\ n = 0
  | Blocked => ~ qc /\ ((qm /\ ~ o /\ n = 0) \/ (~ qm /\ o /\ n = 1))
  | Queued _ => ~ qm /\ o /\ ((qc /\ n = 0) \/ (~ qc /\ n = 1))
  | Waits | Expired => ~ qm /\ ~ o /\ ((qc /\ n = 0) \/ (~ qc /\ n = 1))
  | Drains => ~ qm /\ ~ qc /\ ~ o /\ n = 1
  end.

#[export] Instance mplace_proper g : Proper (iff ==> iff ==> iff ==> eq ==> iff) (mplace g).
Proof. intros q q' Hq c c' Hc o o' Ho n n' ->. destruct g; cbn; by rewrite ?Hq, ?Hc, ?Ho. Qed.

(** A mutex with default attributes: its memory never changes. *)
Definition plain_mutex : mutex := mkMutex ANull None 0.

(** What the holder knows of the memory. *)
Definition knows (hold : option nat) (γ : nat -> ghost) : option (gmap nat Z * bool) :=
  match hold with
  | Some t => match (γ t).1 with
              | Owns u b => Some (u, b)
              | Queued u => Some (u, true)
              | _ => None
              end
  | None => None
  end.

Lemma knows_other hold γ t g : hold <> Some t -> knows hold (<[t := g]> γ) = knows hold γ.
Proof.
  intros Hne. destruct hold as [t'|]; [|done]. cbn.
  rewrite fn_lookup_insert_ne; [done | congruence].
Qed.

(** What is asked of the mutex and of the monitor invariant: the mutex is not one
    of the library's own, and waking threads does not break the invariant. *)
Class MonitorLaws (m : mutex_id) (R : list nat -> gmap nat Z -> Prop) : Prop := {
  own_mutex : forall u, m <> MCancelLock u;
  wake_keeps : forall l l' u, l' ⊆ l -> R l u -> R l' u;
}.

Section MonitorInv.
Context (m : mutex_id) (c : cond_id) (x : cond).
(** The threads and the kernel threads that run them. *)
Context (T : gset nat) (ctx : nat -> kctx).
(** The monitor invariant relates the threads that wait to the memory. *)
Context (R : list nat -> gmap nat Z -> Prop).
(** A fact that stays true once it is. *)
Context (D : gmap nat Z -> Prop).
(** Whether timed waits are used. *)
Context (timed : bool).

(** The clauses about a thread of [T]. *)
Record tin (Q : head_id -> list nat) (hold : option nat) (w : world) (t : nat) (g : ghost) : Prop := {
  t_runs : runs (ctx t) t w;
  t_pending : exists p, pthreads w !! t = Some p /\ cancel_pending p = 0%Z;
  t_heads : forall h, t ∈ Q h -> h = HMutex m \/ h = HCond c;
  t_place : exists n, mail w !! t = Some n /\
    mplace g.1 (t ∈ Q (HMutex m)) (t ∈ Q (HCond c)) (hold = Some t) n;
  t_lock : SMutexLock (MCancelLock t) ∉ spins w;
  t_held : SMutexHeld (MCancelLock t) ∈ spins w <-> g.2 = true;
  t_done : g.1 = Idle true -> D (umem w);
  t_timed : timed = false -> g.1 <> Expired /\ g.1 <> Drains;
}.

Definition tinv (Q : head_id -> list nat) (hold : option nat) (w : world) (t : nat) (g : ghost) : Prop :=
  if decide (t ∈ T) then tin Q hold w t g
  else g = (Idle false, false) /\ t ∉ Q (HMutex m) /\ t ∉ Q (HCond c) /\ hold <> Some t.

(** The clauses about the monitor. *)
Record ginv (Q : head_id -> list nat) (hold : option nat)
    (k : option (gmap nat Z * bool)%type) (w : world) : Prop := {
  g_mutexes : forall m', m' = m \/ (exists t, t ∈ T /\ m' = MCancelLock t) ->
    mutexes w !! m' = Some plain_mutex;
  g_cond : conds w !! c = Some x;
  g_rep : qrep (qh w) Q;
  g_lock : SMutexLock m ∉ spins w;
  g_spin : SCond c ∉ spins w;
  g_held : SMutexHeld m ∈ spins w <-> hold <> None;
  g_full : Q (HMutex m) <> [] -> hold <> None;
  g_private : forall t, t ∈ T -> Q (HMutex (MCancelLock t)) = [];
  g_mem : match k with
          | Some (u, b) => umem w = u /\ (b = true -> R (Q (HCond c)) u)
          | None => R (Q (HCond c)) (umem w)
          end;
}.

Definition inv Q hold (γ : nat -> ghost) (w : world) : Prop :=
  ginv Q hold (knows hold γ) w /\ forall t, tinv Q hold w t (γ t).

Definition I (γ : nat -> ghost) (w : world) : Prop := exists Q hold, inv Q hold γ w.

(** The waits of each mode. *)
Definition S (t : nat) (g : ghost) (r : reason) : Prop :=
  match g.1, r with
  | Idle _, RYield | Owns _ _, RYield | Queued _, RYield | Woken, RYield | Expired, RYield => True
  | Waits, RRecv t' o => t' = t /\ (timed = false -> o = None)
  | Blocked, RRecv t' None | Drains, RRecv t' None => t' = t
  | _, _ => False
  end.

Context `{Hmon : !MonitorLaws m R}.

(** ** Moving one thread *)

Implicit Types (Q : head_id -> list nat) (hold : option nat) (γ : nat -> ghost) (w : world).

Lemma mon_tin Q hold γ w t : inv Q hold γ w -> t ∈ T -> tin Q hold w t (γ t).
Proof. intros [_ H] HT. specialize (H t). unfold tinv in H. by rewrite decide_True in H. Qed.

Lemma mon_place Q hold γ w t :
  inv Q hold γ w -> t ∈ T -> exists n, mail w !! t = Some n /\
    mplace (γ t).1 (t ∈ Q (HMutex m)) (t ∈ Q (HCond c)) (hold = Some t) n.
Proof. intros H HT. by apply (mon_tin _ _ _ _ _ H HT). Qed.

(** Only the threads of [T] are queued or hold the mutex. *)
Lemma mon_in_T Q hold γ w t :
  inv Q hold γ w -> t ∈ Q (HMutex m) \/ t ∈ Q (HCond c) \/ hold = Some t -> t ∈ T.
Proof.
  intros [_ H] Hc. specialize (H t). unfold tinv in H. case_decide; [done|]. naive_solver.
Qed.

(** A step of thread [t] as the others see it. *)
Record step_of (t : nat) (w w' : world) : Prop := {
  so_threads : forall u, u <> t -> pthreads w' !! u = pthreads w !! u;
  so_tab : threads_tab (glob w') = threads_tab (glob w);
  so_mail : forall u, u <> t -> mail w' !! u = mail w !! u;
  so_mutexes : mutexes w' = mutexes w;
  so_conds : conds w' = conds w;
  so_spins : forall l, l <> SMutexHeld m -> l <> SMutexHeld (MCancelLock t) ->
    l ∈ spins w' <-> l ∈ spins w;
  so_fact : D (umem w) -> D (umem w');
}.

(** What a thread knows of the world is the same. *)
Record same_for (u : nat) (w w' : world) : Prop := {
  sf_thread : pthreads w' !! u = pthreads w !! u;
  sf_tab : threads_tab (glob w') = threads_tab (glob w);
  sf_mail : mail w' !! u = mail w !! u;
  sf_lock : SMutexLock (MCancelLock u) ∈ spins w' <-> SMutexLock (MCancelLock u) ∈ spins w;
  sf_held : SMutexHeld (MCancelLock u) ∈ spins w' <-> SMutexHeld (MCancelLock u) ∈ spins w;
  sf_fact : D (umem w) -> D (umem w');
}.

Lemma mon_frame Q hold w Q' hold' w' u g :
  tinv Q hold w u g -> same_for u w w' ->
  (forall h, u ∈ Q' h <-> u ∈ Q h) -> (hold' = Some u <-> hold = Some u) ->
  tinv Q' hold' w' u g.
Proof.
  intros H [] HQ Hh. unfold tinv in *. case_decide; [|by rewrite !HQ, Hh].
  destruct H as [(Htab & Htls & p & Hp & Hk) (p' & Hp' & Hc) Hheads (n & Hn & Hpl) Hl Hheld Hd Ht].
  split; rewrite ?sf_lock0, ?sf_held0; try done.
  - split; [by rewrite sf_tab0|]. split; [done|]. exists p. by rewrite sf_thread0.
  - exists p'. by rewrite sf_thread0.
  - intros h. rewrite HQ. apply Hheads.
  - exists n. rewrite sf_mail0 by done. split; [done|]. by rewrite !HQ, Hh.
  - auto.
Qed.

Lemma step_same t w w' u : step_of t w w' -> u <> t -> same_for u w w'.
Proof. intros [] Hne. pose proof (own_mutex u). split; auto; apply so_spins0; congruence. Qed.

(** What the step leaves of [t] itself. *)
Lemma mon_step Q hold γ w t g' Q' hold' w' :
  inv Q hold γ w -> t ∈ T -> step_of t w w' ->
  (forall u, u <> t -> (forall h, u ∈ Q' h <-> u ∈ Q h) /\ (hold' = Some u <-> hold = Some u)) ->
  tin Q' hold' w' t g' ->
  ginv Q' hold' (knows hold' (<[t := g']> γ)) w' ->
  inv Q' hold' (<[t := g']> γ) w'.
Proof.
  intros [_ H] HT Hs Hoth Ht Hg. split; [done|]. intros u.
  destruct (decide (t = u)) as [<- | Hne].
  - rewrite fn_lookup_insert. unfold tinv. by rewrite decide_True.
  - rewrite fn_lookup_insert_ne by done. destruct (Hoth u) as [HQ Hh]; [done|].
    eapply mon_frame; [apply H | by eapply step_same | done..].
Qed.

(** The step leaves the queues and the holder alone. *)
Lemma mon_self Q hold γ w t g' w' :
  inv Q hold γ w -> t ∈ T -> step_of t w w' -> qh w' = qh w -> umem w' = umem w ->
  (SMutexHeld m ∈ spins w' <-> SMutexHeld m ∈ spins w) ->
  knows hold (<[t := g']> γ) = knows hold γ -> tin Q hold w' t g' ->
  inv Q hold (<[t := g']> γ) w'.
Proof.
  intros H HT Hs Hq Hu Hh Hk Ht. eapply mon_step; [exact H | done | done | done | done |].
  rewrite Hk. destruct H as [[] _], Hs.
  split; rewrite ?so_mutexes0, ?so_conds0, ?Hq, ?Hu, ?Hh; try done;
    by (rewrite so_spins0; [done | congruence..]).
Qed.

Lemma knows_same hold γ t g : (γ t).1 = g.1 -> knows hold (<[t := g]> γ) = knows hold γ.
Proof.
  intros He. destruct hold as [u|]; [|done]. cbn. destruct (decide (t = u)) as [<- | Hne].
  - rewrite fn_lookup_insert. by rewrite He.
  - by rewrite fn_lookup_insert_ne.
Qed.

(** A thread that does not hold the mutex and does not take it. *)
Lemma knows_unheld hold γ t g :
  (hold = Some t -> (forall u b, (γ t).1 <> Owns u b) /\ (forall u, (γ t).1 <> Queued u)) ->
  (forall u b, g.1 <> Owns u b) -> (forall u, g.1 <> Queued u) ->
  knows hold (<[t := g]> γ) = knows hold γ.
Proof.
  intros Hh Hg1 Hg2. destruct hold as [u|]; [|done]. cbn. destruct (decide (t = u)) as [<- | Hne].
  - rewrite fn_lookup_insert. destruct Hh as [Ho Hq]; [done|]. destruct (γ t) as [[] ?], g as [[] ?]; cbn in *; naive_solver.
  - by rewrite fn_lookup_insert_ne.
Qed.

(** A step on what belongs to the thread alone: its structure and the lock of
    its cancelation state. *)
Lemma mon_local Q hold γ w t g b b' w' :
  inv Q hold γ w -> t ∈ T -> γ t = (g, b) -> step_of t w w' ->
  mail w' = mail w -> qh w' = qh w -> umem w' = umem w ->
  (forall l, l <> SMutexHeld (MCancelLock t) -> l ∈ spins w' <-> l ∈ spins w) ->
  (SMutexHeld (MCancelLock t) ∈ spins w' <-> b' = true) ->
  (exists p, pthreads w' !! t = Some p /\ kernel_thread p = ktid (ctx t) /\ cancel_pending p = 0%Z) ->
  inv Q hold (<[t := (g, b')]> γ) w'.
Proof.
  intros H HT Hγ Hs Hmail Hq Hu Hl Hh (p & Hp & Hk & Hc).
  destruct (mon_tin _ _ _ _ _ H HT) as [Hr Hpe Hheads Hpl Hlk Hhe Hd Ht]. rewrite Hγ in *. cbn in *.
  eapply mon_self; [exact H | done | done | done | done | | by apply knows_same; rewrite Hγ |].
  - pose proof (own_mutex t). apply Hl. congruence.
  - destruct Hr as (Htab & Htls & _). split; cbn; rewrite ?Hu, ?Hmail; try done.
    + split; [by rewrite (so_tab _ _ _ Hs)|]. split; [done|]. eauto.
    + eauto.
    + by rewrite Hl.
Qed.

(** A change of the mode alone. *)
Lemma mon_relabel Q hold γ w t g' b :
  inv Q hold γ w -> t ∈ T -> (γ t).2 = b ->
  (hold = Some t -> (forall u b, (γ t).1 <> Owns u b) /\ (forall u, (γ t).1 <> Queued u)) ->
  (forall u b, g' <> Owns u b) -> (forall u, g' <> Queued u) ->
  (forall n, mail w !! t = Some n ->
     mplace (γ t).1 (t ∈ Q (HMutex m)) (t ∈ Q (HCond c)) (hold = Some t) n ->
     mplace g' (t ∈ Q (HMutex m)) (t ∈ Q (HCond c)) (hold = Some t) n) ->
  (g' = Idle true -> D (umem w)) -> (timed = false -> g' <> Expired /\ g' <> Drains) ->
  inv Q hold (<[t := (g', b)]> γ) w.
Proof.
  intros H HT <- Hh Hg1 Hg2 Hpl Hd Ht. destruct (mon_tin _ _ _ _ _ H HT) as [? ? ? (n & Hn & Hp) ? ? ? ?].
  eapply mon_self; [exact H | done | by split | done | done | done | by apply knows_unheld |].
  split; eauto.
Qed.

(** A message to a thread that waits for one. *)
Definition after_message (g : mode) : option mode :=
  match g with
  | Blocked => Some Woken
  | Waits | Drains => Some (Idle false)
  | _ => None
  end.

Lemma mon_receive Q hold γ w t g b g' n :
  inv Q hold γ w -> t ∈ T -> γ t = (g, b) -> after_message g = Some g' -> mail w !! t = Some (Datatypes.S n) ->
  inv Q hold (<[t := (g', b)]> γ) (set_mail (<[t := n]> (mail w)) w).
Proof.
  intros H HT Hγ Hg Hn. destruct (mon_tin _ _ _ _ _ H HT) as [Hr Hpe Hheads (k & Hk & Hp) Hlk Hhe Hd Ht].
  rewrite Hγ in *. rewrite Hn in Hk. injection Hk as <-. cbn in *.
  eapply mon_self; [exact H | done | | done | done | done | |].
  - split; cbn; try done. intros u Hu. by rewrite lookup_insert_ne.
  - apply knows_unheld; rewrite ?Hγ; cbn; destruct g; naive_solver.
  - split; cbn; try done.
    + exists n. rewrite lookup_insert_eq. split; [done|]. destruct g; cbn in Hg; simplify_eq; cbn in *; naive_solver.
    + destruct g; naive_solver.
    + intros _. destruct g; naive_solver.
Qed.

(** ** The mutex *)

(** [t] takes the mutex, which is free or was handed to it. *)
Lemma mon_take Q hold γ w t g b s :
  inv Q hold γ w -> t ∈ T -> γ t = (g, b) -> hold = None /\ (exists d, g = Idle d) \/ hold = Some t /\ g = Woken ->
  (forall l, l <> SMutexHeld m -> l ∈ s <-> l ∈ spins w) -> SMutexHeld m ∈ s ->
  inv Q (Some t) (<[t := (Owns (umem w) true, b)]> γ) (set_spins s w).
Proof.
  intros H HT Hγ Hc Hl Hh. destruct (mon_tin _ _ _ _ _ H HT) as [Hr Hpe Hheads (k & Hk & Hp) Hlk Hhe Hd Ht].
  rewrite Hγ in *. cbn in *. pose proof (own_mutex t).
  eapply mon_step; [exact H | done | | | |].
  - split; cbn; auto.
  - intros u Hu. split; [done|]. destruct Hc as [[-> _] | [-> _]]; split; congruence.
  - split; cbn; rewrite ?Hl by congruence; try done. exists k. split; [done|].
    destruct Hc as [[-> [d ->]] | [-> ->]]; cbn in Hp; naive_solver.
  - destruct H as [[] _]. cbn. rewrite fn_lookup_insert. split; cbn; rewrite ?Hl by congruence; try done.
    split; [done|]. intros _. destruct Hc as [[-> [d ->]] | [-> ->]]; [done|]. cbn in *. by rewrite Hγ in *.
Qed.

(** It waits for the mutex. *)
Lemma mon_enqueue_mutex Q hold γ w t d b q s :
  inv Q hold γ w -> t ∈ T -> γ t = (Idle d, b) -> hold <> None ->
  __pthread_enqueue (HMutex m) t (qh w) = Some q -> (forall l, l ∈ s <-> l ∈ spins w) ->
  inv (<[HMutex m := t :: Q (HMutex m)]> Q) hold (<[t := (Blocked, b)]> γ) (set_spins s (set_qh q w)).
Proof.
  intros H HT Hγ Hc Hq Hl. destruct (mon_tin _ _ _ _ _ H HT) as [Hr Hpe Hheads (k & Hk & Hp) Hlk Hhe Hd Ht].
  rewrite Hγ in *. cbn in *. destruct Hp as (Hnm & Hnc & Hno & ->).
  destruct (enqueue_refines (qh w) Q (HMutex m) t) as (q' & Hq' & R'); [apply H| |].
  { intros [h Hh]. destruct (Hheads h Hh) as [-> | ->]; done. }
  assert (q' = q) as -> by congruence.
  eapply mon_step; [exact H | done | | | |].
  - split; cbn; auto.
  - intros u Hu. split; [|done]. intros h. destruct (decide (HMutex m = h)) as [<- | Hne].
    + rewrite fn_lookup_insert. set_solver.
    + by rewrite fn_lookup_insert_ne.
  - split; cbn; rewrite ?Hl; try done.
    + intros h. destruct (decide (HMutex m = h)) as [<- | Hne]; [by left|].
      rewrite fn_lookup_insert_ne by done. apply Hheads.
    + exists 0. split; [done|]. rewrite fn_lookup_insert, fn_lookup_insert_ne by done. split; [done|]. left. set_solver.
  - rewrite knows_unheld by (rewrite ?Hγ; done). destruct H as [[] _].
    split; cbn; rewrite ?Hl; rewrite ?(fn_lookup_insert_ne Q (HMutex m) (HCond c)) by done; try done.
    intros u Hu. pose proof (own_mutex u). rewrite fn_lookup_insert_ne by congruence. auto.
Qed.

(** How a thread gives the mutex up: it leaves the monitor, or goes on waiting. *)
Inductive leaves : mode -> mode -> Prop :=
  | leave_out u d : (d = true -> D u) -> leaves (Owns u true) (Idle d)
  | leave_wait u : leaves (Queued u) Waits.

Lemma leaves_unheld g g' : leaves g g' -> (forall u b, g' <> Owns u b) /\ (forall u, g' <> Queued u).
Proof. by intros []. Qed.

Lemma leaves_holder Q hold γ w t g b g' :
  inv Q hold γ w -> t ∈ T -> γ t = (g, b) -> leaves g g' ->
  hold = Some t /\ R (Q (HCond c)) (umem w) /\ (g' = Idle true -> D (umem w)) /\
  forall n qc, mplace g (t ∈ Q (HMutex m)) qc (hold = Some t) n -> mplace g' False qc False n.
Proof.
  intros H HT Hγ Hg. destruct (mon_place _ _ _ _ _ H HT) as (n & Hn & Hp). rewrite Hγ in Hp.
  assert (hold = Some t) as -> by (destruct Hg; cbn in Hp; tauto).
  destruct H as [[] _]. cbn in *. rewrite Hγ in g_mem0. cbn in *.
  destruct Hg; destruct g_mem0 as [-> HR']; (split_and!; [done | auto | naive_solver | cbn; tauto]).
Qed.

Lemma mon_release Q hold γ w t g b g' s :
  inv Q hold γ w -> t ∈ T -> γ t = (g, b) -> leaves g g' -> Q (HMutex m) = [] ->
  (forall l, l <> SMutexHeld m -> l ∈ s <-> l ∈ spins w) -> SMutexHeld m ∉ s ->
  inv Q None (<[t := (g', b)]> γ) (set_spins s w).
Proof.
  intros H HT Hγ Hg HQ Hl Hh. destruct (leaves_holder _ _ _ _ _ _ _ _ H HT Hγ Hg) as (-> & HR' & Hd' & Hpl').
  destruct (mon_tin _ _ _ _ _ H HT) as [Hr Hpe Hheads (k & Hk & Hp) Hlk Hhe Hd Ht].
  rewrite Hγ in *. cbn in *. pose proof (own_mutex t).
  eapply mon_step; [exact H | done | | | |].
  - split; cbn; auto.
  - intros u Hu. split; [done|]. split; congruence.
  - split; cbn; rewrite ?Hl by congruence; try done.
    + exists k. split; [done|]. rewrite HQ. apply Hpl' in Hp. eapply mplace_proper; [..|exact Hp]; set_solver.
    + destruct Hg; naive_solver.
  - destruct H as [[] _]. split; cbn; rewrite ?Hl by congruence; try done.
Qed.

(** The threads in the queues. *)
Lemma mon_queued_mutex Q hold γ w u :
  inv Q hold γ w -> u ∈ Q (HMutex m) ->
  u ∈ T /\ mail w !! u = Some 0 /\ (γ u).1 = Blocked /\ hold <> Some u /\ u ∉ Q (HCond c).
Proof.
  intros H Hu. assert (u ∈ T) as HT by (eapply mon_in_T; [exact H | auto]).
  destruct (mon_place _ _ _ _ _ H HT) as (n & Hn & Hp). split; [done|].
  destruct (γ u).1; cbn in Hp; naive_solver.
Qed.

Lemma mon_queued_cond Q hold γ w u :
  inv Q hold γ w -> u ∈ Q (HCond c) ->
  u ∈ T /\ mail w !! u = Some 0 /\ u ∉ Q (HMutex m) /\
  ((exists v, (γ u).1 = Queued v) \/ (γ u).1 = Waits \/ (γ u).1 = Expired).
Proof.
  intros H Hu. assert (u ∈ T) as HT by (eapply mon_in_T; [exact H | auto]).
  destruct (mon_place _ _ _ _ _ H HT) as (n & Hn & Hp). split; [done|].
  destruct (γ u).1; cbn in Hp; naive_solver.
Qed.

(** The first waiter is handed the mutex. *)
Lemma mon_hand Q hold γ w t g b g' v l q s :
  inv Q hold γ w -> t ∈ T -> γ t = (g, b) -> leaves g g' -> Q (HMutex m) = v :: l ->
  __pthread_dequeue v (qh w) = Some q -> (forall l, l ∈ s <-> l ∈ spins w) ->
  inv (qremove v Q) (Some v) (<[t := (g', b)]> γ)
    (set_mail (<[v := 1]> (mail w)) (set_spins s (set_qh q w))).
Proof.
  intros H HT Hγ Hg HQ Hq Hl.
  destruct (leaves_holder _ _ _ _ _ _ _ _ H HT Hγ Hg) as (-> & HR' & Hd' & Hpl').
  assert (v ∈ Q (HMutex m)) as Hv by (rewrite HQ; set_solver).
  destruct (mon_queued_mutex _ _ _ _ _ H Hv) as (HTv & Hmv & Hγv & Hne & Hvc).
  assert (v <> t) as Hvt by congruence.
  destruct (dequeue_refines (qh w) Q v) as (q' & Hq' & R'); [apply H | by eexists |].
  assert (q' = q) as -> by congruence. split.
  - assert (knows (Some v) (<[t := (g', b)]> γ) = None) as ->.
    { cbn. rewrite fn_lookup_insert_ne by done. by rewrite Hγv. }
    destruct H as [[] _]. split; cbn; rewrite ?Hl; try done.
    + rewrite g_held0. by split.
    + intros u Hu. pose proof (g_private0 u Hu) as Hp. unfold qremove. by rewrite Hp.
    + eapply wake_keeps; [|exact HR']. intros u. rewrite elem_of_qremove. tauto.
  - intros u. destruct (decide (u = t)) as [-> | Hut]; [|destruct (decide (u = v)) as [-> | Huv]].
    + rewrite fn_lookup_insert. unfold tinv. rewrite decide_True by done.
      destruct (mon_tin _ _ _ _ _ H HT) as [Hr Hpe Hheads (k & Hk & Hp) Hlk Hhe Hd Ht].
      rewrite Hγ in *. cbn in *. split; cbn; rewrite ?Hl; try done.
      * intros h. rewrite elem_of_qremove. intros []. auto.
      * exists k. rewrite lookup_insert_ne by done. split; [done|]. apply Hpl' in Hp.
        assert (t ∉ Q (HMutex m)).
        { intros Hin. destruct (mon_queued_mutex _ _ _ _ _ H Hin) as (_ & _ & _ & [] & _). done. }
        rewrite !elem_of_qremove. eapply mplace_proper; [..|exact Hp]; naive_solver.
      * destruct Hg; naive_solver.
    + rewrite fn_lookup_insert_ne by done. unfold tinv. rewrite decide_True by done.
      destruct (mon_tin _ _ _ _ _ H HTv) as [Hr Hpe Hheads (k & Hk & Hp) Hlk Hhe Hd Ht].
      split; cbn; rewrite ?Hl; try done.
      * intros h. rewrite elem_of_qremove. intros []. auto.
      * exists 1. rewrite lookup_insert_eq. split; [done|]. rewrite Hγv, !elem_of_qremove. cbn. tauto.
    + rewrite fn_lookup_insert_ne by done. eapply mon_frame; [apply H | | |].
      * split; cbn; rewrite ?Hl; try done. by rewrite lookup_insert_ne.
      * intros h. rewrite elem_of_qremove. tauto.
      * split; congruence.
Qed.

(** ** The condition variable *)

(** The holder of the mutex queues up. *)
Lemma mon_enqueue_cond Q hold γ w t u b0 b q s :
  inv Q hold γ w -> t ∈ T -> γ t = (Owns u b0, b) ->
  (forall l, (b0 = true -> R l u) -> R (t :: l) u) ->
  __pthread_enqueue (HCond c) t (qh w) = Some q -> (forall l, l ∈ s <-> l ∈ spins w) ->
  inv (<[HCond c := t :: Q (HCond c)]> Q) hold (<[t := (Queued u, b)]> γ) (set_spins s (set_qh q w)).
Proof.
  intros H HT Hγ HRt Hq Hl. destruct (mon_tin _ _ _ _ _ H HT) as [Hr Hpe Hheads (k & Hk & Hp) Hlk Hhe Hd Ht].
  rewrite Hγ in *. cbn in *. destruct Hp as (Hnm & Hnc & -> & ->).
  destruct (enqueue_refines (qh w) Q (HCond c) t) as (q' & Hq' & R'); [apply H| |].
  { intros [h Hh]. destruct (Hheads h Hh) as [-> | ->]; done. }
  assert (q' = q) as -> by congruence.
  eapply mon_step; [exact H | done | | | |].
  - split; cbn; auto.
  - intros v Hv. split; [|done]. intros h. destruct (decide (HCond c = h)) as [<- | Hne].
    + rewrite fn_lookup_insert. set_solver.
    + by rewrite fn_lookup_insert_ne.
  - split; cbn; rewrite ?Hl; try done.
    + intros h. destruct (decide (HCond c = h)) as [<- | Hne]; [by right|].
      rewrite fn_lookup_insert_ne by done. apply Hheads.
    + exists 0. split; [done|]. rewrite fn_lookup_insert, fn_lookup_insert_ne by done.
      split_and!; [done..|]. left. set_solver.
  - cbn. rewrite fn_lookup_insert. destruct H as [[] _]. cbn in *. rewrite Hγ in *. cbn in *.
    split; cbn; rewrite ?Hl; rewrite ?(fn_lookup_insert_ne Q (HCond c) (HMutex _)), ?fn_lookup_insert by done; try done.
    destruct g_mem0 as [-> HR']. auto.
Qed.

(** Threads of the queue are dequeued and get a message each. *)
Lemma mon_wake Q hold γ w L Q' b' q s :
  inv Q hold γ w -> qrep q Q' -> L ⊆ Q (HCond c) ->
  (forall h u, u ∈ Q' h <-> u ∈ Q h /\ u ∉ L) ->
  (forall u, b' !! u = if decide (u ∈ L) then Some 1 else mail w !! u) -> (forall l, l ∈ s <-> l ∈ spins w) ->
  inv Q' hold γ (set_mail b' (set_spins s (set_qh q w))).
Proof.
  intros H R' HL HQ Hb Hl. split.
  - assert (forall h, Q h = [] -> Q' h = []) as Hnil.
    { intros h Hh. destruct (Q' h) as [|u l] eqn:He; [done|]. assert (u ∈ Q' h) as Hu by (rewrite He; set_solver).
      apply HQ in Hu as [Hu _]. rewrite Hh in Hu. set_solver. }
    assert (forall u, R (Q (HCond c)) u -> R (Q' (HCond c)) u) as HR'.
    { intros u. eapply wake_keeps. intros v. rewrite HQ. tauto. }
    destruct H as [[] _]. split; cbn; rewrite ?Hl; try done.
    + intros Hne. apply g_full0. intros He. by apply Hne, Hnil.
    + intros u Hu. apply Hnil. auto.
    + destruct (knows hold γ) as [[u bb]|]; [|auto]. destruct g_mem0. auto.
  - intros u. destruct (decide (u ∈ L)) as [Hu | Hu].
    + destruct (mon_queued_cond _ _ _ _ _ H (HL u Hu)) as (HTu & Hmu & Hnm & Hγu).
      unfold tinv. rewrite decide_True by done.
      destruct (mon_tin _ _ _ _ _ H HTu) as [Hr Hpe Hheads (k & Hk & Hp) Hlk Hhe Hd Ht].
      split; cbn; rewrite ?Hl; try done.
      * intros h [Hh _]%HQ. auto.
      * exists 1. rewrite Hb, decide_True by done. split; [done|]. rewrite !HQ.
        destruct Hγu as [[v Hγu] | [Hγu | Hγu]]; rewrite Hγu in *; cbn in *; tauto.
    + eapply mon_frame; [apply H | | |done].
      * split; cbn; rewrite ?Hl; try done. by rewrite Hb, decide_False.
      * intros h. rewrite HQ. tauto.
Qed.

(** A thread whose wait expired leaves the queue. *)
Lemma mon_give_up Q hold γ w t b q s :
  inv Q hold γ w -> t ∈ T -> γ t = (Expired, b) -> t ∈ Q (HCond c) ->
  __pthread_dequeue t (qh w) = Some q -> (forall l, l ∈ s <-> l ∈ spins w) ->
  inv (qremove t Q) hold (<[t := (Idle false, b)]> γ) (set_spins s (set_qh q w)).
Proof.
  intros H HT Hγ Hin Hq Hl. destruct (mon_tin _ _ _ _ _ H HT) as [Hr Hpe Hheads (k & Hk & Hp) Hlk Hhe Hd Ht].
  rewrite Hγ in *. cbn in *.
  destruct (dequeue_refines (qh w) Q t) as (q' & Hq' & R'); [apply H | by eexists |].
  assert (q' = q) as -> by congruence.
  eapply mon_step; [exact H | done | | | |].
  - split; cbn; auto.
  - intros v Hv. split; [|done]. intros h. rewrite elem_of_qremove. tauto.
  - split; cbn; rewrite ?Hl; try done.
    + intros h. rewrite elem_of_qremove. intros []. auto.
    + exists k. split; [done|]. rewrite !elem_of_qremove. naive_solver.
  - rewrite knows_unheld by (rewrite ?Hγ; done). destruct H as [[] _]. split; cbn; rewrite ?Hl; try done.
    + intros Hne. by eapply g_full0, qremove_nonempty.
    + intros u Hu. unfold qremove. by rewrite g_private0.
    + assert (forall u, R (Q (HCond c)) u -> R (qremove t Q (HCond c)) u) as HR'.
      { intros u. eapply wake_keeps. intros v. rewrite elem_of_qremove. tauto. }
      destruct (knows hold γ) as [[u bb]|]; [|auto]. destruct g_mem0. auto.
Qed.

(** ** The memory *)

(** The holder writes to the application memory. *)
Lemma mon_write Q hold γ w t u b0 b u' b1 :
  inv Q hold γ w -> t ∈ T -> γ t = (Owns u b0, b) -> (D u -> D u') ->
  ((b0 = true -> R (Q (HCond c)) u) -> b1 = true -> R (Q (HCond c)) u') ->
  inv Q hold (<[t := (Owns u' b1, b)]> γ) (set_umem u' w).
Proof.
  intros H HT Hγ HD HR'. destruct (mon_tin _ _ _ _ _ H HT) as [Hr Hpe Hheads (k & Hk & Hp) Hlk Hhe Hd Ht].
  rewrite Hγ in *. cbn in *. destruct Hp as (Hnm & Hnc & -> & ->).
  pose proof (g_mem _ _ _ _ (proj1 H)) as Hmem. cbn in Hmem. rewrite Hγ in Hmem. destruct Hmem as [Hu HRu].
  eapply mon_step; [exact H | done | | done | |].
  - split; cbn; auto. by rewrite Hu.
  - split; cbn; try done. by exists 0.
  - cbn. rewrite fn_lookup_insert. destruct H as [[] _]. split; cbn; try done. split; [done|]. auto.
Qed.
End MonitorInv.
