(* ===== verification/MonitorSpec.v ===== *)
(** * The operations on a monitor over every interleaving

    Lock and unlock of the mutex, the (timed) wait, signal and broadcast as
    triples of the logic of Sched.v. *)
From Stdlib Require Import ZArith Lia.
From S2P Require Import Prelude Queue World Machine Platform Sched Mach Attr Mutex Cond Kernel Threads CondWait MonitorInv.

#[local] Arguments update_thread : simpl never.
#[local] Arguments cancelled : simpl never.

(** Steps on the set of held locks. *)
Ltac step_spins := split; cbn; try done; intros; set_solver.

Section MonitorSpec.
Context `{Platform} `{IHash}.
Context (m : mutex_id) (c : cond_id) (x : cond) (T : gset nat) (ctx : nat -> kctx)
        (R : list nat -> gmap nat Z -> Prop) (D : gmap nat Z -> Prop) (timed : bool).
Context `{Hmon : !MonitorLaws m R}.
(** Which threads must have brought about [D] when they end; they do not wait on
    the condition variable. *)
Context (must : nat -> bool).

Abbreviation inv := (inv m c x T ctx R D timed).
Abbreviation I := (I m c x T ctx R D timed).
Definition S (t : nat) (g : ghost) (r : reason) : Prop :=
  MonitorInv.S timed t g r /\ (g.1 = Waits -> must t = false).
Definition E (t : nat) (g : ghost) : Prop := exists d, g = (Idle d, false) /\ (must t = true -> d = true).
Abbreviation wp := (wp I S E).
Abbreviation triple := (triple I S E).
Abbreviation at_phase := (at_phase I).

(** The modes in which a thread runs its own code. *)
Definition running (g : mode) : Prop :=
  match g with Idle _ | Owns _ _ | Queued _ => True | _ => False end.

Lemma running_yield t g b : running g -> S t (g, b) RYield.
Proof. by destruct g. Qed.

Lemma I_mutex t γ w : t ∈ T -> I γ w -> mutexes w !! MCancelLock t = Some plain_mutex.
Proof. intros HT (Q & hold & [] & _). apply g_mutexes. eauto. Qed.

Lemma I_cancel_lock t γ w : t ∈ T -> I γ w -> SMutexLock (MCancelLock t) ∉ spins w.
Proof. intros HT (Q & hold & H1). by eapply mon_tin. Qed.

Lemma I_mutex_lock γ w : I γ w -> SMutexLock m ∉ spins w.
Proof. intros (Q & hold & [] & _). done. Qed.

Lemma I_cond_lock γ w : I γ w -> SCond c ∉ spins w.
Proof. intros (Q & hold & [] & _). done. Qed.

Lemma I_runs t γ w : t ∈ T -> I γ w -> runs (ctx t) t w.
Proof. intros HT (Q & hold & H1). by eapply mon_tin. Qed.

Lemma I_thread t γ w :
  t ∈ T -> I γ w -> exists p, pthreads w !! t = Some p /\ kernel_thread p = ktid (ctx t) /\ cancel_pending p = 0%Z.
Proof.
  intros HT (Q & hold & H1). destruct (mon_tin _ _ _ _ _ _ _ _ _ _ _ _ _ H1 HT).
  destruct t_runs as (_ & _ & p & Hp & Hk), t_pending as (p' & Hp' & Hc). naive_solver.
Qed.

Lemma mon_tick γ clk w : I γ w -> I γ (tick clk w).
Proof.
  intros (Q & hold & [] & Ht). exists Q, hold. split; [by split|].
  intros t. specialize (Ht t). unfold tinv in *. case_decide; [|done]. by destruct Ht.
Qed.

(** ** What belongs to the thread alone *)

(** The lock of its cancelation state is never contended. *)
Lemma private_lock_spec t g :
  t ∈ T -> running g ->
  triple t (at_phase t (g, false)) (__pthread_mutex_lock (MCancelLock t)) (ctx t)
    (fun r γ w => r = OK /\ at_phase t (g, true) γ w).
Proof.
  intros HT Hg γ w HI. unfold __pthread_mutex_lock, __pthread_mutex_timedlock_internal, get_mutex. cbn.
  rewrite (I_mutex t _ _ HT HI). cbn.
  eapply wp_spin_lock; [by apply running_yield | exact HI | intros; by eapply I_cancel_lock|].
  intros γ1 w1 Hγ1 (Q & hold & H1). destruct (mon_tin _ _ _ _ _ _ _ _ _ _ _ _ _ H1 HT).
  rewrite Hγ1 in *. cbn in *.
  assert (SMutexHeld (MCancelLock t) ∉ spins w1) as Hfree by (by rewrite t_held).
  rewrite bool_decide_eq_false_2 by set_solver. cbn.
  apply wp_done. split; [done|]. exists Q, hold.
  eapply mon_local; [done | exact H1 | done | exact Hγ1 | | done | done | done | | |].
  - step_spins.
  - cbn. intros. set_solver.
  - cbn. set_solver.
  - apply (I_thread t γ1 w1 HT). by exists Q, hold.
Qed.

Lemma private_unlock_spec t g :
  t ∈ T -> running g ->
  triple t (at_phase t (g, true)) (__pthread_mutex_unlock (MCancelLock t)) (ctx t)
    (fun r γ w => r = OK /\ at_phase t (g, false) γ w).
Proof.
  intros HT Hg γ w HI. unfold __pthread_mutex_unlock, get_mutex. cbn.
  rewrite (I_mutex t _ _ HT HI). cbn.
  eapply wp_spin_lock; [by apply running_yield | exact HI | intros; by eapply I_cancel_lock|].
  intros γ1 w1 Hγ1 (Q & hold & H1). destruct (mon_tin _ _ _ _ _ _ _ _ _ _ _ _ _ H1 HT).
  unfold disown, pass_on. cbn. rewrite (qrep_head (qh w1) Q) by apply H1.
  rewrite (g_private _ _ _ _ _ _ _ _ _ (proj1 H1) t HT). cbn.
  apply wp_done. split; [done|]. exists Q, hold.
  eapply mon_local; [done | exact H1 | done | exact Hγ1 | | done | done | done | | |].
  - step_spins.
  - cbn. intros. set_solver.
  - cbn. set_solver.
  - apply (I_thread t γ1 w1 HT). by exists Q, hold.
Qed.

Lemma update_spec t g b f :
  t ∈ T -> (forall p, kernel_thread (f p) = kernel_thread p /\ cancel_pending (f p) = cancel_pending p) ->
  triple t (at_phase t (g, b)) (update_thread t f) (ctx t) (fun _ => at_phase t (g, b)).
Proof.
  intros HT Hf γ w HI. destruct (I_thread t _ _ HT HI) as (p & Hp & Hk & Hc).
  unfold update_thread, get_thread. cbn. rewrite Hp. cbn. apply wp_done.
  destruct HI as (Q & hold & H1). exists Q, hold. rewrite <- (fn_insert_insert γ t _ (g, b)).
  destruct (mon_tin _ _ _ _ _ _ _ _ _ _ _ _ t H1 HT). rewrite fn_lookup_insert in *.
  destruct (Hf p) as [Hf1 Hf2].
  eapply mon_local; [done | exact H1 | done | by rewrite fn_lookup_insert | | done | done | done | done | done |].
  - split; cbn; try done. intros u Hu. by rewrite lookup_insert_ne.
  - exists (f p). cbn. rewrite lookup_insert_eq. by rewrite Hf1, Hf2.
Qed.

(** Its state is read without a request for cancelation in it. *)
Lemma get_thread_spec t g b :
  t ∈ T -> triple t (at_phase t (g, b)) (get_thread t) (ctx t)
    (fun p γ w => cancelled p = false /\ at_phase t (g, b) γ w).
Proof.
  intros HT γ w HI. destruct (I_thread t _ _ HT HI) as (p & Hp & Hk & Hc).
  unfold get_thread. cbn. rewrite Hp. cbn. apply wp_done. split; [|done].
  unfold cancelled. rewrite Hc. cbn. by rewrite andb_false_r.
Qed.

(** ** Waiting for a message *)

Lemma mon_receive_spec t g b g' timeout :
  t ∈ T -> after_message g = Some g' -> S t (g, b) (RRecv t timeout) ->
  triple t (at_phase t (g, b)) (mach_msg_receive t timeout) (ctx t)
    (fun e γ w => match e with
       | KERN_SUCCESS => at_phase t (g', b) γ w
       | EMACH_RCV_TIMED_OUT => g = Waits /\ timed = true /\ at_phase t (Expired, b) γ w
       | KERN_FAILURE => False
       end).
Proof.
  intros HT Hg HS γ w HI. eapply wp_susp; [exact HS | exact HI |].
  intros γ' w' e w'' Hγ (Q & hold & H1) Hr. apply wp_done.
  destruct (mon_place _ _ _ _ _ _ _ _ _ _ _ _ t H1 HT) as (k & Hk & Hp). rewrite Hγ in Hp. cbn in Hp.
  inversion Hr as [ | |? ? n ? Hmail|? ms ? Hmail|? ? ? Hmail]; subst; [| |congruence].
  - exists Q, hold. by eapply mon_receive.
  - destruct HS as [HS _]. destruct g; try done. destruct HS as [_ Hti].
    assert (timed = true) by (destruct timed; [done | by discriminate Hti]). split_and!; [done..|].
    exists Q, hold. eapply mon_relabel; [done | exact H1 | done | by rewrite Hγ | by rewrite Hγ | done.. | | done | ].
    + rewrite Hγ. by intros.
    + congruence.
Qed.

Lemma mon_block_spec t g b g' :
  t ∈ T -> after_message g = Some g' -> S t (g, b) (RRecv t None) ->
  triple t (at_phase t (g, b)) (__pthread_block t) (ctx t) (fun _ => at_phase t (g', b)).
Proof.
  intros HT Hg HS γ w HI. unfold __pthread_block. cbn.
  eapply wp_susp; [exact HS | exact HI |]. intros γ' w' e w'' Hγ (Q & hold & H1) Hr.
  destruct (mon_place _ _ _ _ _ _ _ _ _ _ _ _ t H1 HT) as (k & Hk & Hp).
  inversion Hr as [ | |? ? n ? Hmail|? ms ? Hmail|? ? ? Hmail]; subst; [|congruence].
  cbn. apply wp_done. exists Q, hold. by eapply mon_receive.
Qed.

(** A thread that is on no queue finds its link null. *)
Lemma mon_not_queued Q hold γ w t :
  inv Q hold γ w -> t ∈ T -> t ∉ Q (HMutex m) -> t ∉ Q (HCond c) -> prevp (qh w) !! t = None.
Proof.
  intros H1 HT Hn1 Hn2. apply (qrep_not_queued (qh w) Q); [apply H1|]. intros [h Hh].
  by destruct (t_heads _ _ _ _ _ _ _ _ _ _ (mon_tin _ _ _ _ _ _ _ _ _ _ _ _ t H1 HT) h Hh) as [-> | ->].
Qed.

Lemma inv_same_spins Q hold γ w s : inv Q hold γ w -> s = spins w -> inv Q hold γ (set_spins s w).
Proof. intros H1 ->. by rewrite set_spins_same. Qed.

(** ** The mutex *)

Lemma mutex_turn_spec t b clk :
  t ∈ T -> triple t (at_phase t (Blocked, b)) (wait_for_wakeup (SMutexLock m) t None clk) (ctx t)
    (fun e γ w => e = OK /\ at_phase t (Woken, b) γ w).
Proof.
  intros HT. unfold wait_for_wakeup. eapply triple_bind with (Q := fun e γ w => e = OK /\ at_phase t (Woken, b) γ w).
  { eapply triple_bind; [by eapply (mon_block_spec t Blocked b Woken)|]. intros [] γ w HI. by apply wp_done. }
  intros e γ w [-> HI]. eapply wp_spin_lock; [|exact HI|apply I_mutex_lock|]; [done|].
  intros γ1 w1 Hγ1 (Q & hold & H1). destruct (mon_place _ _ _ _ _ _ _ _ _ _ _ _ t H1 HT) as (n & Hn & Hp).
  rewrite Hγ1 in Hp. cbn. rewrite (mon_not_queued Q hold γ1 w1) by (done || apply Hp). cbn.
  apply wp_done. split; [done|]. apply at_phase_same; [done|]. exists Q, hold.
  apply (inv_same_spins Q hold γ1 w1); [done|]. apply spins_cycle, (g_lock _ _ _ _ _ _ _ _ _ (proj1 H1)).
Qed.

Lemma mon_lock_spec t d :
  t ∈ T -> triple t (at_phase t (Idle d, false)) (__pthread_mutex_lock m) (ctx t)
    (fun r γ w => r = OK /\ at_phase t (Owns (umem w) true, false) γ w).
Proof.
  intros HT γ w HI. unfold __pthread_mutex_lock, __pthread_mutex_timedlock_internal, get_mutex. cbn.
  assert (forall γ w, I γ w -> mutexes w !! m = Some plain_mutex) as Hplain.
  { intros γ' w' (Q & hold & [] & _). apply g_mutexes. by left. }
  rewrite (Hplain _ _ HI). cbn.
  eapply wp_spin_lock; [|exact HI|apply I_mutex_lock|]; [done|].
  intros γ1 w1 Hγ1 HI1. pose proof HI1 as (Q & hold & H1). cbn.
  pose proof (g_held _ _ _ _ _ _ _ _ _ (proj1 H1)) as Hheld.
  pose proof (g_lock _ _ _ _ _ _ _ _ _ (proj1 H1)) as Hlock.
  destruct (decide (hold = None)) as [-> | Hne].
  - rewrite bool_decide_eq_false_2 by set_solver. cbn. apply wp_done. split; [done|].
    exists Q, (Some t). eapply (mon_take m c x T ctx R D timed Q None γ1 w1); [exact H1 | done | exact Hγ1 | eauto | | set_solver].
    cbn. intros. set_solver.
  - apply Hheld in Hne. rewrite bool_decide_eq_true_2 by set_solver. cbn. rewrite decide_False by done. cbn.
    rewrite (pthread_self_runs (ctx t) t) by exact (I_runs t γ1 w1 HT HI1). cbn.
    unfold held_already, wait_turn, get_mutex. cbn. rewrite (Hplain _ _ HI1). cbn. rewrite (Hplain _ _ HI1). cbn.
    destruct (mon_place _ _ _ _ _ _ _ _ _ _ _ _ t H1 HT) as (n & Hn & Hp). rewrite Hγ1 in Hp.
    destruct (enqueue_refines (qh w1) Q (HMutex m) t) as (q & Hq & _); [apply H1| |].
    { apply (qrep_not_queued (qh w1)); [apply H1|]. eapply mon_not_queued; [exact H1|done|apply Hp..]. }
    erewrite enqueue_some by exact Hq. cbn. apply wp_bind. eapply wp_mono.
    + apply (mutex_turn_spec t false CLOCK_REALTIME HT). eexists _, hold.
      eapply (mon_enqueue_mutex m c x T ctx R D timed Q hold γ1 w1); [exact H1 | done | exact Hγ1 | by apply Hheld | exact Hq |].
      cbn. intros. set_solver.
    + intros e γ2 w2 [-> (Q2 & hold2 & H2)]. rewrite decide_False by tauto. unfold handed_over, get_mutex. cbn.
      rewrite (Hplain _ _ (ex_intro _ Q2 (ex_intro _ hold2 H2))). cbn. apply wp_done. split; [done|].
      destruct (mon_place _ _ _ _ _ _ _ _ _ _ _ _ t H2 HT) as (n2 & Hn2 & Hp2). rewrite fn_lookup_insert in Hp2.
      exists Q2, (Some t). rewrite <- (fn_insert_insert γ2 t _ (Woken, false)), <- (set_spins_same w2).
      eapply (mon_take m c x T ctx R D timed Q2 hold2 _ w2); [exact H2 | done | by rewrite fn_lookup_insert | right; split; [apply Hp2 | done] | done |].
      apply (g_held _ _ _ _ _ _ _ _ _ (proj1 H2)). destruct Hp2 as (_ & _ & -> & _). done.
Qed.

(** It goes to the first waiter, or gets free. *)
Lemma mon_unlock_spec t g b g' :
  t ∈ T -> leaves D g g' ->
  triple t (at_phase t (g, b)) (__pthread_mutex_unlock m) (ctx t)
    (fun r γ w => r = OK /\ at_phase t (g', b) γ w).
Proof.
  intros HT Hg γ w HI. unfold __pthread_mutex_unlock, get_mutex. cbn.
  assert (mutexes w !! m = Some plain_mutex) as ->.
  { destruct HI as (Q & hold & [] & _). apply g_mutexes. by left. }
  cbn. eapply wp_spin_lock; [|exact HI|apply I_mutex_lock|]; [by destruct Hg|].
  intros γ1 w1 Hγ1 (Q & hold & H1). unfold disown, pass_on. cbn.
  pose proof (g_lock _ _ _ _ _ _ _ _ _ (proj1 H1)) as Hlock.
  rewrite (qrep_head (qh w1) Q) by apply H1. destruct (Q (HMutex m)) as [|v l] eqn:HQ; cbn.
  - apply wp_done. split; [done|]. exists Q, None.
    eapply (mon_release m c x T ctx R D timed Q hold γ1 w1); [exact H1 | done | exact Hγ1 | exact Hg | done | |].
    + cbn. intros. set_solver.
    + cbn. set_solver.
  - assert (v ∈ Q (HMutex m)) as Hv by (rewrite HQ; set_solver).
    destruct (dequeue_refines (qh w1) Q v) as (q & Hq & _); [apply H1 | by eexists |].
    erewrite dequeue_some by exact Hq. cbn.
    destruct (mon_queued_mutex _ _ _ _ _ _ _ _ _ _ _ _ _ H1 Hv) as (_ & Hmv & _).
    rewrite wakeup_empty by done. cbn. apply wp_done. split; [done|]. exists (qremove v Q), (Some v).
    eapply (mon_hand m c x T ctx R D timed Q hold γ1 w1); [exact H1 | done | exact Hγ1 | exact Hg | exact HQ | exact Hq |].
    cbn. intros. set_solver.
Qed.

(** ** Waking *)

Lemma mon_signal_spec t g b :
  running g -> triple t (at_phase t (g, b)) (__pthread_cond_signal c) (ctx t)
    (fun r γ w => r = OK /\ at_phase t (g, b) γ w).
Proof.
  intros Hg γ w HI. eapply wp_spin_lock; [by apply running_yield | exact HI | apply I_cond_lock |].
  intros γ1 w1 Hγ1 (Q & hold & H1). pose proof (g_spin _ _ _ _ _ _ _ _ _ (proj1 H1)) as Hlock. cbn.
  rewrite (qrep_head (qh w1) Q) by apply H1. destruct (Q (HCond c)) as [|u l] eqn:HQ; cbn.
  - apply wp_done. split; [done|]. apply at_phase_same; [done|]. exists Q, hold.
    apply (inv_same_spins Q hold γ1 w1); [done|]. by apply spins_cycle.
  - assert (u ∈ Q (HCond c)) as Hu by (rewrite HQ; set_solver).
    destruct (dequeue_refines (qh w1) Q u) as (q & Hq & Rq); [apply H1 | by eexists |].
    erewrite dequeue_some by exact Hq. cbn.
    destruct (mon_queued_cond _ _ _ _ _ _ _ _ _ _ _ _ _ H1 Hu) as (_ & Hmu & _).
    rewrite wakeup_empty by done. cbn. apply wp_done. split; [done|]. apply at_phase_same; [done|].
    exists (qremove u Q), hold.
    eapply (mon_wake m c x T ctx R D timed Q hold γ1 w1 [u]); [exact H1 | done | set_solver | | |].
    + intros h v. rewrite elem_of_qremove. set_solver.
    + intros v. destruct (decide (v = u)) as [-> | Hne].
      * rewrite decide_True by set_solver. apply lookup_insert_eq.
      * rewrite decide_False by set_solver. by apply lookup_insert_ne.
    + cbn. intros. set_solver.
Qed.

(** The holder of the mutex signals and at once writes to the memory: if the
    monitor invariant survives this for the queue without its first thread, and
    for an empty queue, it holds again. *)
Lemma mon_signal_inside_spec t u f b :
  t ∈ T -> (D u -> D (f u)) -> (R [] u -> R [] (f u)) ->
  (forall v l, NoDup (v :: l) -> R (v :: l) u -> R l (f u)) ->
  triple t (at_phase t (Owns u true, b))
    (_ ← __pthread_cond_signal c; modify (fun w => set_umem (f (umem w)) w)) (ctx t)
    (fun _ => at_phase t (Owns (f u) true, b)).
Proof.
  intros HT HD Hnil Hcons γ w HI. apply wp_bind.
  eapply wp_spin_lock; [by instantiate (1 := (Owns u true, b)) | exact HI | apply I_cond_lock |].
  intros γ1 w1 Hγ1 (Q & hold & H1). pose proof (g_spin _ _ _ _ _ _ _ _ _ (proj1 H1)) as Hlock. cbn.
  assert (umem w1 = u /\ R (Q (HCond c)) u) as [Hu HRu].
  { destruct (mon_place _ _ _ _ _ _ _ _ _ _ _ _ t H1 HT) as (n & _ & Hp). rewrite Hγ1 in Hp.
    destruct Hp as (_ & _ & -> & _). pose proof (g_mem _ _ _ _ _ _ _ _ _ (proj1 H1)) as Hmem.
    cbn in Hmem. rewrite Hγ1 in Hmem. naive_solver. }
  rewrite (qrep_head (qh w1) Q) by apply H1. destruct (Q (HCond c)) as [|v l] eqn:HQ; cbn.
  - do 2 apply wp_done. exists Q, hold. cbn. rewrite Hu.
    eapply (mon_write m c x T ctx R D timed _ _ γ1); [|done|exact Hγ1|done|].
    + apply (inv_same_spins Q hold γ1 w1); [done|]. by apply spins_cycle.
    + intros _ _. rewrite HQ. by apply Hnil.
  - assert (v ∈ Q (HCond c)) as Hv by (rewrite HQ; set_solver).
    destruct (dequeue_refines (qh w1) Q v) as (q & Hq & Rq); [apply H1 | by eexists |].
    erewrite dequeue_some by exact Hq. cbn.
    destruct (mon_queued_cond _ _ _ _ _ _ _ _ _ _ _ _ _ H1 Hv) as (_ & Hmv & _).
    rewrite wakeup_empty by done. cbn. do 2 apply wp_done. exists (qremove v Q), hold. cbn. rewrite Hu.
    eapply (mon_write m c x T ctx R D timed _ _ γ1); [|done|exact Hγ1|done|].
    + eapply (mon_wake m c x T ctx R D timed Q hold γ1 w1 [v]); [exact H1 | done | set_solver | | |].
      * intros h v'. rewrite elem_of_qremove. set_solver.
      * intros v'. destruct (decide (v' = v)) as [-> | Hne].
        -- rewrite decide_True by set_solver. apply lookup_insert_eq.
        -- rewrite decide_False by set_solver. by apply lookup_insert_ne.
      * cbn. intros. set_solver.
    + intros _ _. pose proof (qrep_nodup _ _ (g_rep _ _ _ _ _ _ _ _ _ (proj1 H1)) (HCond c)) as Hnd.
      rewrite (qremove_head v l) by done. rewrite HQ in Hnd. by eapply Hcons.
Qed.

Lemma broadcast_inv Q hold γ w t :
  inv Q hold γ w ->
  exists w', __pthread_dequeuing_iterate (head (Q (HCond c))) __pthread_wakeup (ctx t)
      (set_spins ({[SCond c]} ∪ spins w) w) = Done tt w' /\
    inv (<[HCond c := []]> Q) hold γ
      (set_spins (spins w' ∖ {[SCond c]}) (set_qh (clear_head (HCond c) (qh w')) w')) /\
    umem w' = umem w.
Proof.
  intros H1. pose proof (g_spin _ _ _ _ _ _ _ _ _ (proj1 H1)) as Hlock.
  pose proof (g_rep _ _ _ _ _ _ _ _ _ (proj1 H1)) as Rq.
  assert (forall v, v ∈ Q (HCond c) -> mail w !! v = Some 0) as Hmail.
  { intros v Hv. by eapply mon_queued_cond. }
  eexists. split; [|split].
  - rewrite <- (qrep_head (qh w) Q) by done.
    exact (dequeuing_iterate_spec (ctx t) __pthread_wakeup Mach.wake (Q (HCond c)) _
             (set_spins ({[SCond c]} ∪ spins w) w) _
             (quiet_wakeup (ctx t)) (qseg_chain _ _ _ (qrep_seg _ _ Rq (HCond c))) (qrep_nodup _ _ Rq _)
             (drain_wake _ (set_spins _ w) (qrep_nodup _ _ Rq _) Hmail)).
  - set (q := clear_head (HCond c) (foldl (fun q t => unlink t q) (qh w) (Q (HCond c)))).
    assert (inv (<[HCond c := []]> Q) hold γ (set_mail (post_all (Q (HCond c)) (mail w))
      (set_spins (({[SCond c]} ∪ spins w) ∖ {[SCond c]}) (set_qh q w)))) as H2; [|exact H2].
    eapply mon_wake; [done | exact H1 | by apply unlink_all_refines | done | | |].
    + intros h v. destruct (decide (HCond c = h)) as [<- | Hne].
      * rewrite fn_lookup_insert. set_solver.
      * rewrite fn_lookup_insert_ne by done. split; [|tauto]. intros Hv. split; [done|].
        intros Hv'. by apply Hne, (qrep_disj _ _ Rq _ _ v).
    + intros v. apply lookup_post_all.
    + intros. set_solver.
  - done.
Qed.

Lemma mon_broadcast_spec t g b :
  running g -> triple t (at_phase t (g, b)) (__pthread_cond_broadcast c) (ctx t)
    (fun r γ w => r = OK /\ at_phase t (g, b) γ w).
Proof.
  intros Hg γ w HI. eapply wp_spin_lock; [by apply running_yield | exact HI | apply I_cond_lock |].
  intros γ1 w1 Hγ1 (Q & hold & H1). cbn. rewrite (qrep_head (qh w1) Q) by apply H1.
  destruct (broadcast_inv _ _ _ _ t H1) as (w2 & -> & H2 & _). cbn.
  apply wp_done. split; [done|]. apply at_phase_same; [done|]. by eexists _, hold.
Qed.

(** After a broadcast nobody waits, so that the monitor invariant need only hold
    for the empty queue. *)
Lemma mon_broadcast_inside_spec t u b0 b :
  t ∈ T -> R [] u ->
  triple t (at_phase t (Owns u b0, b)) (__pthread_cond_broadcast c) (ctx t)
    (fun r γ w => r = OK /\ at_phase t (Owns u true, b) γ w).
Proof.
  intros HT HRu γ w HI. eapply wp_spin_lock; [by instantiate (1 := (Owns u b0, b)) | exact HI | apply I_cond_lock |].
  intros γ1 w1 Hγ1 (Q & hold & H1). cbn. rewrite (qrep_head (qh w1) Q) by apply H1.
  destruct (broadcast_inv _ _ _ _ t H1) as (w2 & -> & H2 & Hu). cbn.
  apply wp_done. split; [done|].
  assert (umem w1 = u) as Hu1.
  { destruct (mon_place _ _ _ _ _ _ _ _ _ _ _ _ t H1 HT) as (n & _ & Hp). rewrite Hγ1 in Hp.
    destruct Hp as (_ & _ & -> & _). pose proof (g_mem _ _ _ _ _ _ _ _ _ (proj1 H1)) as Hmem.
    cbn in Hmem. rewrite Hγ1 in Hmem. apply Hmem. }
  assert (u = umem w2) as -> by congruence. eexists _, hold. eapply (mon_write m c x T ctx R D timed _ _ _ _ _ _ b0 b (umem w2) true) in H2; [|done|done|done|].
  - exact H2.
  - intros _ _. by rewrite fn_lookup_insert.
Qed.

(** ** Waiting on the condition variable *)

Lemma self_spec t g b :
  t ∈ T -> triple t (at_phase t (g, b)) _pthread_self (ctx t)
    (fun r γ w => r = t /\ at_phase t (g, b) γ w).
Proof.
  intros HT γ w HI. rewrite (pthread_self_runs (ctx t) t) by (by eapply I_runs). by apply wp_done.
Qed.

(** The critical section at the start: the thread is in the queue afterwards. *)
Lemma enqueue_cond_spec t u b0 b (oldtype : Z) :
  t ∈ T -> (forall l, (b0 = true -> R l u) -> R (t :: l) u) ->
  triple t (at_phase t (Owns u b0, b))
    (__pthread_spin_lock (SCond c);; enqueue (HCond c) t;; x ← get_cond c;
     __pthread_spin_unlock (SCond c);; mret (false, oldtype, cond_clock x)) (ctx t)
    (fun r γ w => r.1.1 = false /\ at_phase t (Queued u, b) γ w).
Proof.
  intros HT Ht γ w HI. eapply wp_spin_lock; [by instantiate (1 := (Owns u b0, b)) | exact HI | apply I_cond_lock |].
  intros γ1 w1 Hγ1 (Q & hold & H1). pose proof (g_spin _ _ _ _ _ _ _ _ _ (proj1 H1)) as Hlock. cbn.
  destruct (mon_place _ _ _ _ _ _ _ _ _ _ _ _ t H1 HT) as (n & Hn & Hp). rewrite Hγ1 in Hp.
  destruct (enqueue_refines (qh w1) Q (HCond c) t) as (q & Hq & _); [apply H1| |].
  { apply (qrep_not_queued (qh w1)); [apply H1|]. eapply mon_not_queued; [exact H1|done|apply Hp..]. }
  erewrite enqueue_some by exact Hq. cbn. rewrite (g_cond _ _ _ _ _ _ _ _ _ (proj1 H1)). cbn.
  apply wp_done. split; [done|]. eexists _, hold.
  eapply (mon_enqueue_cond m c x T ctx R D timed Q hold γ1 w1); [exact H1 | done | exact Hγ1 | done | exact Hq |].
  cbn. intros. set_solver.
Qed.

Lemma prepare_spec t u b0 :
  t ∈ T -> (forall l, (b0 = true -> R l u) -> R (t :: l) u) ->
  triple t (at_phase t (Owns u b0, false)) (prepare_wait c t) (ctx t)
    (fun r γ w => r.1.1 = false /\ at_phase t (Queued u, false) γ w).
Proof.
  intros HT Ht. eapply triple_bind; [by apply private_lock_spec|]. intros ?.
  eapply triple_weaken; [|intros γ w [_ HI]; exact HI | intros r γ w HI; exact HI].
  eapply triple_bind; [by apply get_thread_spec|]. intros p γ w [Hp HI]. rewrite Hp. revert γ w HI.
  eapply triple_bind with (Q := fun r γ w => r.1.1 = false /\ at_phase t (Queued u, true) γ w).
  - eapply triple_bind; [by apply update_spec|]. intros [].
    apply triple_bind with (Q := fun _ => at_phase t (Owns u b0, true)).
    { destruct (negb _); [by apply update_spec | by intros γ w HI; apply wp_done]. }
    intros []. by eapply enqueue_cond_spec.
  - intros r. destruct (decide (r.1.1 = false)) as [Hr | Hr]; [|by intros γ w []].
    eapply triple_bind; [|intros e γ w HI; apply wp_done; split; [exact Hr | exact HI]].
    eapply triple_weaken; [by eapply (private_unlock_spec t (Queued u)) | by intros γ w [] | by intros e γ w []].
Qed.

(** ... and at the end. *)
Lemma finish_spec t g oldtype :
  t ∈ T -> running g ->
  triple t (at_phase t (g, false)) (finish_wait t oldtype) (ctx t)
    (fun r γ w => r = false /\ at_phase t (g, false) γ w).
Proof.
  intros HT Hg. eapply triple_bind; [by apply private_lock_spec|]. intros ?.
  eapply triple_weaken; [|intros γ w [_ HI]; exact HI | intros r γ w HI; exact HI].
  eapply triple_bind; [by apply update_spec|]. intros [].
  eapply triple_bind; [by apply get_thread_spec|]. intros p γ w [Hp HI]. revert γ w HI.
  eapply triple_bind; [by apply private_unlock_spec|]. intros e γ w [_ HI]. by apply wp_done.
Qed.

(** The wait itself. *)
Definition block_result (e : error_t) : Prop := e = OK \/ e = ETIMEDOUT /\ timed = true.

(** After the block the thread was woken up, or its wait expired. *)
Definition unblocked t (e : error_t) (γ : nat -> ghost) (w : world) : Prop :=
  e = OK /\ at_phase t (Idle false, false) γ w \/
  e = ETIMEDOUT /\ timed = true /\ at_phase t (Expired, false) γ w.

Lemma mon_expire t γ w : t ∈ T -> timed = true -> at_phase t (Waits, false) γ w -> at_phase t (Expired, false) γ w.
Proof.
  intros HT Hti (Q & hold & H1). exists Q, hold. rewrite <- (fn_insert_insert γ t _ (Waits, false)).
  eapply mon_relabel; rewrite ?fn_lookup_insert; [done | exact H1 | done | done | done | done | done | by intros | done | congruence].
Qed.

Lemma mon_timedblock_spec t abstime clk :
  t ∈ T -> must t = false -> (timed = false -> abstime = None) ->
  triple t (at_phase t (Waits, false))
    (match abstime with
     | Some ts => __pthread_timedblock t ts clk
     | None => __pthread_block t;; mret OK
     end) (ctx t) (unblocked t).
Proof.
  intros HT Hmust Hto. destruct abstime as [ts|].
  - assert (timed = true) as Hti by (destruct timed; [done | by discriminate Hto]).
    intros γ w HI. unfold __pthread_timedblock. cbn. destruct (time_passed _ ts); cbn.
    + apply wp_done. right. split_and!; [done..|]. by apply mon_expire.
    + eapply wp_bind, wp_mono; [eapply (mon_receive_spec t Waits false (Idle false)); [done | done | | exact HI]|].
      { split; [split; [done|]; congruence | done]. }
      cbn. intros e γ' w' He. destruct e; cbn in *; [by apply wp_done; left | | done].
      apply wp_done. right. tauto.
  - eapply triple_bind; [by eapply (mon_block_spec t Waits false (Idle false))|].
    intros [] γ w HI. apply wp_done. by left.
Qed.

Lemma leave_queue_spec t e :
  t ∈ T -> triple t (unblocked t e) (leave_queue c t e) (ctx t)
    (fun r γ w => block_result r /\ at_phase t (Idle false, false) γ w).
Proof.
  intros HT γ w [(-> & HI) | (-> & Hti & HI)]; unfold leave_queue;
    (eapply wp_spin_lock; [|exact HI|apply I_cond_lock|]; [done|]);
    intros γ1 w1 Hγ1 (Q & hold & H1); pose proof (g_spin _ _ _ _ _ _ _ _ _ (proj1 H1)) as Hlock;
    destruct (mon_place _ _ _ _ _ _ _ _ _ _ _ _ t H1 HT) as (n & Hn & Hp); rewrite Hγ1 in Hp; cbn.
  - rewrite (mon_not_queued Q hold γ1 w1) by (done || apply Hp). cbn. rewrite decide_True by done. cbn.
    apply wp_done. split; [by left|]. apply at_phase_same; [done|]. exists Q, hold.
    apply (inv_same_spins Q hold γ1 w1); [done|]. by apply spins_cycle.
  - destruct Hp as (Hnm & Ho & [(Hin & ->) | (Hnc & ->)]).
    + destruct (dequeue_refines (qh w1) Q t) as (q & Hq & _); [apply H1 | by eexists |].
      destruct (prevp (qh w1) !! t) eqn:Hprev;
        [|by apply (qrep_not_queued (qh w1) Q) in Hprev; [destruct Hprev; eexists | apply H1]].
      cbn. rewrite bool_decide_eq_true_2 by done. cbn. erewrite dequeue_some by exact Hq. cbn.
      apply wp_done. split; [by right|]. eexists _, hold.
      eapply (mon_give_up m c x T ctx R D timed Q hold γ1 w1); [exact H1 | done | exact Hγ1 | done | exact Hq |].
      cbn. intros. set_solver.
    + rewrite (mon_not_queued Q hold γ1 w1) by done. cbn. rewrite decide_False by done. cbn.
      rewrite bool_decide_eq_true_2 by done. cbn. eapply wp_bind, wp_mono.
      * eapply (mon_block_spec t Drains false (Idle false)); [done..|]. exists Q, hold.
        eapply (mon_relabel m c x T ctx R D timed Q hold γ1); rewrite ?Hγ1; try done.
        -- apply (inv_same_spins Q hold γ1 w1); [done|]. by apply spins_cycle.
        -- cbn. intros k Hk _. split_and!; congruence.
        -- congruence.
      * intros [] γ2 w2 HI2. apply wp_done. split; [by right | done].
Qed.

(** The whole wait: with an invalid time nothing happens, otherwise the thread
    holds the mutex again at the end, and the monitor invariant holds. *)
Lemma mon_wait_spec t u b0 abstime :
  t ∈ T -> must t = false ->
  (forall l, (b0 = true -> R l u) -> R (t :: l) u) -> (timed = false -> abstime = None) ->
  triple t (at_phase t (Owns u b0, false)) (__pthread_cond_timedwait_internal c m abstime) (ctx t)
    (fun r γ w => r = EINVAL /\ at_phase t (Owns u b0, false) γ w \/
                  block_result r /\ at_phase t (Owns (umem w) true, false) γ w).
Proof.
  intros HT Hmust Ht Hto. unfold __pthread_cond_timedwait_internal. destruct (bad_abstime abstime).
  { intros γ w HI. apply wp_done. by left. }
  eapply triple_bind; [by apply self_spec|]. intros self γ w [-> HI]. revert γ w HI.
  eapply triple_bind; [by apply prepare_spec|]. intros [[pending oldtype] clk] γ w [Hp HI].
  cbn in Hp. subst pending. revert γ w HI.
  eapply triple_bind; [by apply mon_unlock_spec; [|constructor]|]. intros ? γ w [_ HI]. revert γ w HI.
  eapply triple_bind; [eapply triple_bind; [by apply mon_timedblock_spec | intros e; by apply leave_queue_spec]|].
  intros err γ w [Herr HI]. revert γ w HI.
  eapply triple_bind; [by apply finish_spec|]. intros pending γ w [-> HI]. revert γ w HI.
  eapply triple_bind; [by apply mon_lock_spec|]. intros ? γ w [_ HI]. apply wp_done. by right.
Qed.
End MonitorSpec.
