(* ===== verification/Monitor.v ===== *)
(** * Programs that share a monitor

    What MonitorSpec.v says about programs: mutual exclusion across waits on the
    condition variable, the only way in which a monitor can deadlock, and that
    a broadcast event is never missed. *)
From Stdlib Require Import ZArith Lia.
From stdpp Require Import relations.
From S2P Require Import Prelude Queue World Machine Platform Sched Mach Demo Attr Mutex MutexClient Cond Kernel Threads CondWait ThreadFacts MonitorInv MonitorSpec.

(** ** Programs *)

Section Programs.
Context `{Platform} `{IHash}.
Context (m : mutex_id) (c : cond_id).

(** What a thread does while it holds the mutex, and outside. *)
Inductive action := Work | Wait (abstime : option timespec) | Signal | Broadcast.
Inductive command := Enter (l : list action) | SignalOutside | BroadcastOutside.

Definition act (a : action) : M unit :=
  match a with
  | Work => critical
  | Wait abstime => _ ← __pthread_cond_timedwait_internal c m abstime; mret tt
  | Signal => _ ← __pthread_cond_signal c; mret tt
  | Broadcast => _ ← __pthread_cond_broadcast c; mret tt
  end.

Fixpoint acts (l : list action) : M unit :=
  match l with [] => mret tt | a :: l => act a;; acts l end.

Definition command_run (d : command) : M unit :=
  match d with
  | Enter l => _ ← __pthread_mutex_lock m; acts l;; _ ← __pthread_mutex_unlock m; mret tt
  | SignalOutside => _ ← __pthread_cond_signal c; mret tt
  | BroadcastOutside => _ ← __pthread_cond_broadcast c; mret tt
  end.

Fixpoint monitor_client (l : list command) : M unit :=
  match l with [] => mret tt | d :: l => command_run d;; monitor_client l end.

(** An event: cell 1 of the application memory is one once it has happened. *)
Definition happened (u : gmap nat Z) : Prop := u !! 1 = Some 1%Z.

#[export] Instance happened_dec u : Decision (happened u).
Proof. unfold happened. apply _. Defined.

(** Wait for it, waking up at most [n] times too early. *)
Fixpoint await_loop (n : nat) : M unit :=
  u ← gets umem;
  if decide (happened u) then mret tt
  else match n with
       | 0 => mret tt
       | Datatypes.S n => _ ← __pthread_cond_timedwait_internal c m None; await_loop n
       end.

Definition await (n : nat) : M unit :=
  _ ← __pthread_mutex_lock m; await_loop n;; _ ← __pthread_mutex_unlock m; mret tt.

Definition announce : M unit :=
  _ ← __pthread_mutex_lock m;
  modify (fun w => set_umem (<[1 := 1%Z]> (umem w)) w);;
  _ ← __pthread_cond_broadcast c;
  _ ← __pthread_mutex_unlock m;
  mret tt.
End Programs.

(** The mutex, the condition variable and the locks of the threads are free, and
    no thread has a request for cancelation. *)
Record monitor_fresh (m : mutex_id) (c : cond_id) (T : gset nat) (ctx : nat -> kctx) (w : world) : Prop := {
  mf_threads : forall t, t ∈ T -> runs (ctx t) t w /\ mail w !! t = Some 0 /\
    exists p, pthreads w !! t = Some p /\ cancel_pending p = 0%Z;
  mf_mutexes : forall m', m' = m \/ (exists t, t ∈ T /\ m' = MCancelLock t) ->
    mutexes w !! m' = Some plain_mutex;
  mf_cond : is_Some (conds w !! c);
  mf_queues : qh w = qheap_empty;
  mf_spins : spins w = ∅;
}.

Lemma monitor_fresh_inv m c x T ctx R D timed w :
  monitor_fresh m c T ctx w -> conds w !! c = Some x -> R [] (umem w) ->
  I m c x T ctx R D timed (fun _ => (Idle false, false)) w.
Proof.
  intros [Ht Hm _ Hq Hs] Hx HR. exists (fun _ => []), None. split.
  - split; cbn; rewrite ?Hq, ?Hs; try done; try apply not_elem_of_empty. apply qrep_empty.
  - intros t. unfold tinv. case_decide as HT; [|split_and!; [done|apply not_elem_of_nil..|done]].
    destruct (Ht t HT) as (Hr & Hmail & Hp). split; cbn; rewrite ?Hs; try done; try apply not_elem_of_empty.
    + by intros h ?%elem_of_nil.
    + exists 0. split; [done|]. split_and!; [apply not_elem_of_nil..|done|done].
Qed.

(** ** Configurations in which no thread can run *)

(** If only untimed waits are used, every thread that is left waits in the queue
    of the condition variable, and the mutex is free. *)
Lemma stuck_waiting m c x T ctx R D must w p :
  good (I m c x T ctx R D false) (S false must) (E must) (Run w p) -> stuck (Run w p) ->
  exists γ Q, inv m c x T ctx R D false Q None γ w /\
    (forall t, p !! t <> None -> (γ t).1 = Waits /\ t ∈ Q (HCond c) /\ mail w !! t = Some 0 /\ must t = false) /\
    (forall t, p !! t = None -> E must t (γ t)).
Proof.
  intros (γ & (Q & hold & H) & Hok & Hend) [Hne Hs].
  assert (forall t, p !! t <> None -> t ∈ T /\ ((γ t).1 = Blocked \/ (γ t).1 = Waits /\ must t = false) /\
    hold <> Some t /\ (t ∈ Q (HMutex m) \/ t ∈ Q (HCond c)) /\ mail w !! t = Some 0) as Hp.
  { intros t Ht. destruct (p !! t) as [[r k]|] eqn:Hpt; [|done].
    destruct (Hok _ _ Hpt) as [[HS Hmust] _]. specialize (Hs _ _ _ Hpt). cbn in HS.
    assert (t ∈ T) as HT.
    { destruct (decide (t ∈ T)) as [|HT]; [done|]. pose proof (proj2 H t) as Ho. unfold tinv in Ho.
      rewrite decide_False in Ho by done. destruct Ho as [Hg _]. rewrite Hg in HS.
      destruct r; try done. by edestruct Hs; constructor. }
    destruct (mon_tin _ _ _ _ _ _ _ _ _ _ _ _ _ H HT) as [_ _ _ (n & Hn & Hpl) _ _ _ Hti].
    destruct (Hti eq_refl) as [He Hd].
    destruct r as [l|t' o|]; [by destruct (γ t) as [[] ?] | | by edestruct Hs; constructor].
    assert (t' = t /\ ((γ t).1 = Blocked \/ (γ t).1 = Waits)) as [-> Hg].
    { unfold MonitorInv.S in HS. destruct (γ t) as [[] ?]; cbn in *; try done; destruct o; naive_solver. }
    assert (n = 0) as -> by (destruct n; [done | by edestruct Hs; constructor]).
    destruct Hg as [Hg | Hg]; rewrite Hg in Hpl; cbn in Hpl; naive_solver. }
  assert (forall t, hold <> Some t) as Hnone.
  { intros t ->. destruct (p !! t) eqn:Hpt; [by destruct (Hp t) as (_ & _ & [] & _); [rewrite Hpt|]|].
    destruct (Hend t Hpt) as (d & Hg & _).
    assert (t ∈ T) as HT by (eapply mon_in_T; [exact H | auto]).
    destruct (mon_place _ _ _ _ _ _ _ _ _ _ _ _ _ H HT) as (n & _ & Hpl). rewrite Hg in Hpl. cbn in Hpl. tauto. }
  assert (hold = None) as -> by (destruct hold; [by edestruct Hnone | done]).
  exists γ, Q. split_and!; [done | | done]. intros t Ht.
  destruct (Hp t Ht) as (HT & Hg & _ & Hq & Hm).
  assert (Q (HMutex m) = []) as Hnil.
  { destruct (Q (HMutex m)) eqn:Hq'; [done|]. by destruct (g_full _ _ _ _ _ _ _ _ _ (proj1 H)); [rewrite Hq'|]. }
  assert (t ∈ Q (HCond c)) as Hc by (rewrite Hnil, elem_of_nil in Hq; tauto).
  destruct (mon_place _ _ _ _ _ _ _ _ _ _ _ _ _ H HT) as (n & _ & Hpl).
  destruct Hg as [Hg | [Hg Hmust]]; [|done]. rewrite Hg in Hpl. cbn in Hpl. tauto.
Qed.

(** ** Clients *)

Definition valid_action (timed : bool) (a : action) : Prop :=
  match a with Wait (Some _) => timed = true | _ => True end.

Definition valid_command (timed : bool) (d : command) : Prop :=
  match d with Enter l => Forall (valid_action timed) l | _ => True end.

Section Clients.
Context `{Platform} `{IHash}.
Context (m : mutex_id) (c : cond_id) (x : cond) (T : gset nat) (ctx : nat -> kctx) (timed : bool).
Context (Hm : forall u, m <> MCancelLock u).

Definition unchanged (l : list nat) (u : gmap nat Z) : Prop := outside u.

#[local] Instance unchanged_laws : MonitorLaws m unchanged.
Proof. by split. Qed.

Abbreviation I := (I m c x T ctx unchanged (fun _ => True) timed).
Abbreviation S := (S timed (fun _ => false)).
Abbreviation E := (E (fun _ => false)).
Abbreviation triple := (triple I S E).
Abbreviation at_phase := (at_phase I).

(** The thread is in the monitor and the memory as it should be. *)
Definition inside t (γ : nat -> ghost) (w : world) : Prop := at_phase t (Owns (umem w) true, false) γ w.

(** What the holder of the mutex knows. *)
Lemma owner_knows R D t u b0 b γ w :
  t ∈ T -> MonitorInv.I m c x T ctx R D timed γ w -> γ t = (Owns u b0, b) ->
  umem w = u /\ (b0 = true -> exists l, R l u).
Proof.
  intros HT (Q & hold & H1) Hγ. destruct (mon_place _ _ _ _ _ _ _ _ _ _ _ _ _ H1 HT) as (n & _ & Hp).
  rewrite Hγ in Hp. destruct Hp as (_ & _ & -> & _).
  pose proof (g_mem _ _ _ _ _ _ _ _ _ (proj1 H1)) as Hmem. cbn in Hmem. rewrite Hγ in Hmem. naive_solver.
Qed.

Lemma inside_outside t γ w : t ∈ T -> inside t γ w -> outside (umem w).
Proof.
  intros HT HI. destruct (owner_knows _ _ t (umem w) true false _ _ HT HI) as [_ [l Ho]];
    [by rewrite fn_lookup_insert | done | done].
Qed.

(** The holder writes to the memory. *)
Lemma inside_write t u b0 u' b1 γ w :
  t ∈ T -> at_phase t (Owns u b0, false) γ w -> (b1 = true -> outside u') ->
  at_phase t (Owns u' b1, false) γ (set_umem u' w).
Proof.
  intros HT (Q & hold & H1) Hu. exists Q, hold. rewrite <- (fn_insert_insert γ t _ (Owns u b0, false)).
  eapply mon_write; [apply _ | exact H1 | done | by rewrite fn_lookup_insert | done | auto].
Qed.

Lemma monitor_critical_spec t : t ∈ T -> triple t (inside t) critical (ctx t) (fun _ => inside t).
Proof.
  intros HT γ w HI. pose proof (inside_outside _ _ _ HT HI) as Ho. unfold critical. cbn.
  rewrite bool_decide_eq_true_2 by done. cbn. set (u := <[0 := 1%Z]> (umem w)).
  eapply wp_susp; [by instantiate (1 := (Owns u false, false)) | by eapply inside_write |].
  intros γ1 w1 e w2 Hγ HI1 Hr. inversion Hr; subst. apply wp_done.
  destruct (owner_knows _ _ t u false false _ _ HT HI1 Hγ) as [Hu _].
  eapply inside_write; [done | by apply at_phase_same |].
  intros _. unfold outside. by rewrite lookup_insert_eq.
Qed.

(** A call made inside. *)
Lemma inside_call t {A} (f : M A) (Q : A -> Prop) :
  t ∈ T -> (forall u, triple t (at_phase t (Owns u true, false)) f (ctx t)
              (fun r γ w => Q r /\ at_phase t (Owns u true, false) γ w)) ->
  triple t (inside t) (_ ← f; mret tt) (ctx t) (fun _ => inside t).
Proof.
  intros HT Hf γ w HI. eapply wp_bind, wp_mono; [by apply (Hf (umem w))|].
  intros r γ1 w1 [_ H1]. apply wp_done.
  destruct (owner_knows _ _ t (umem w) true false _ _ HT H1) as [Hu _]; [by rewrite fn_lookup_insert|].
  unfold inside. by rewrite Hu.
Qed.

Lemma act_spec t a :
  t ∈ T -> valid_action timed a -> triple t (inside t) (act m c a) (ctx t) (fun _ => inside t).
Proof.
  intros HT Ha. destruct a as [|abstime| |]; cbn.
  - by apply monitor_critical_spec.
  - intros γ w HI. pose proof (inside_outside _ _ _ HT HI) as Ho. eapply wp_bind, wp_mono.
    + eapply (mon_wait_spec m c x T ctx unchanged (fun _ => True) timed (fun _ => false) t (umem w) true abstime);
        [done | done | done | | exact HI].
      intros Hti. destruct abstime; [cbn in Ha; congruence | done].
    + intros r γ1 w1 [[_ H1] | [_ H1]]; apply wp_done; [|done].
      destruct (owner_knows _ _ t (umem w) true false _ _ HT H1) as [Hu _]; [by rewrite fn_lookup_insert|].
      unfold inside. by rewrite Hu.
  - eapply inside_call; [done|]. intros u. by apply mon_signal_spec.
  - eapply inside_call; [done|]. intros u. by apply mon_broadcast_spec.
Qed.

Lemma acts_spec t l :
  t ∈ T -> Forall (valid_action timed) l -> triple t (inside t) (acts m c l) (ctx t) (fun _ => inside t).
Proof.
  intros HT Hl. induction Hl as [|a l Ha Hl IH]; [by intros γ w|].
  eapply triple_bind; [by apply act_spec|]. intros []. exact IH.
Qed.

Definition away t : (nat -> ghost) -> world -> Prop := at_phase t (Idle false, false).

(** Two calls in a row, the first with a result. *)
Lemma then_nothing t {A} (f : M A) P Q :
  triple t P f (ctx t) (fun (r : A) γ w => r = r /\ Q γ w) ->
  triple t P (_ ← f; mret tt) (ctx t) (fun _ => Q).
Proof. intros Hf. eapply triple_bind; [exact Hf|]. intros r γ w [_ HQ]. by apply wp_done. Qed.

Lemma command_spec t d :
  t ∈ T -> valid_command timed d -> triple t (away t) (command_run m c d) (ctx t) (fun _ => away t).
Proof.
  intros HT Hd. destruct d as [l| |]; cbn.
  - eapply triple_bind; [by apply mon_lock_spec|]. intros ? γ w [_ HI]. revert γ w HI.
    eapply triple_bind; [by apply acts_spec|]. intros [] γ w HI.
    eapply wp_bind, wp_mono; [eapply (mon_unlock_spec _ _ _ _ _ _ _ _ _ t); [done | | exact HI]|].
    + by apply (leave_out _ _ false).
    + intros r γ1 w1 [_ H1]. by apply wp_done.
  - apply then_nothing. eapply triple_weaken;
      [by apply (mon_signal_spec m c x T ctx unchanged (fun _ => True) timed (fun _ => false) t (Idle false) false) | done | by intros ? γ w []].
  - apply then_nothing. eapply triple_weaken;
      [by apply (mon_broadcast_spec m c x T ctx unchanged (fun _ => True) timed (fun _ => false) t (Idle false) false) | done | by intros ? γ w []].
Qed.

Lemma monitor_client_spec t l :
  t ∈ T -> Forall (valid_command timed) l -> triple t (away t) (monitor_client m c l) (ctx t) (fun _ => away t).
Proof.
  intros HT Hl. induction Hl as [|d l Hd Hl IH]; [by intros γ w|].
  eapply triple_bind; [by apply command_spec|]. intros []. exact IH.
Qed.

(** Every thread of the pool is a client about to start. *)
Definition monitor_pool (p : gmap nat thread_state) : Prop :=
  forall t s, p !! t = Some s -> t ∈ T /\
    exists l, Forall (valid_command timed) l /\ s = spawn (ctx t) (monitor_client m c l).

Lemma monitor_good w p c' :
  monitor_fresh m c T ctx w -> conds w !! c = Some x -> outside (umem w) -> monitor_pool p ->
  rtc cstep (Run w p) c' -> good I S E c'.
Proof.
  intros Hf Hx Ho Hp. eapply adequacy; [intros; by apply mon_tick|].
  apply good_spawn with (fun _ => (Idle false, false)); [by apply monitor_fresh_inv | | by intros; eexists].
  intros t s Hs. destruct (Hp t s Hs) as (HT & l & Hl & ->).
  exists (ctx t), (monitor_client m c l). split; [done|]. split; [done|].
  eapply triple_weaken; [by apply monitor_client_spec | |].
  - intros γ w' [Hγ HI]. by apply at_phase_same.
  - intros ? γ w' HI. exists (Idle false, false). by split; [eexists|].
Qed.
End Clients.

(** ** Events *)

Section Events.
Context `{Platform} `{IHash}.
Context (m : mutex_id) (c : cond_id) (x : cond) (T : gset nat) (ctx : nat -> kctx).
Context (Hm : forall u, m <> MCancelLock u).
(** The threads that announce the event; the others wait for it. *)
Context (announces : nat -> bool).

(** Nobody waits for an event that has happened. *)
Definition none_late (l : list nat) (u : gmap nat Z) : Prop := l <> [] -> ~ happened u.

#[local] Instance none_late_laws : MonitorLaws m none_late.
Proof.
  split; [exact Hm|]. intros l l' u Hsub Hl Hne. apply Hl. intros ->.
  destruct l' as [|t l']; [done|]. specialize (Hsub t). set_solver.
Qed.

Abbreviation I := (I m c x T ctx none_late happened false).
Abbreviation S := (S false announces).
Abbreviation E := (E announces).
Abbreviation triple := (triple I S E).
Abbreviation at_phase := (at_phase I).

Lemma await_loop_spec t n u :
  t ∈ T -> announces t = false ->
  triple t (at_phase t (Owns u true, false)) (await_loop m c n) (ctx t)
    (fun _ γ w => exists u', at_phase t (Owns u' true, false) γ w).
Proof.
  intros HT Ha. revert u. induction n as [|n IH]; intros u γ w HI;
    (destruct (owner_knows m c x T ctx false none_late happened t u true false _ _ HT HI) as [Hu _];
       [by rewrite fn_lookup_insert|]);
    cbn; destruct (decide (happened (umem w))) as [Hd | Hd]; try (apply wp_done; by exists u).
  eapply wp_bind, wp_mono.
  - eapply (mon_wait_spec m c x T ctx none_late happened false announces t u true None);
      [done | done | | done | exact HI].
    intros l _ _. by rewrite <- Hu.
  - intros r γ1 w1 [[_ H1] | [_ H1]]; by apply (IH _ γ1 w1 H1).
Qed.

Lemma await_spec t n :
  t ∈ T -> announces t = false ->
  triple t (at_phase t (Idle false, false)) (await m c n) (ctx t) (finished I E t).
Proof.
  intros HT Ha. eapply triple_bind; [by apply (mon_lock_spec m c x T ctx none_late happened false announces t)|]. intros ? γ w [_ HI]. revert γ w HI.
  eapply triple_bind.
  - intros γ w HI. exact (await_loop_spec t n _ HT Ha γ w HI).
  - intros [] γ w [u HI].
    eapply wp_bind, wp_mono; [eapply (mon_unlock_spec m c x T ctx none_late happened false announces t); [done | | exact HI]|].
    + by apply (leave_out _ _ false).
    + intros r γ1 w1 [_ H1]. apply wp_done. exists (Idle false, false). split; [|done].
      exists false. split; [done|]. congruence.
Qed.

Lemma announce_spec t :
  t ∈ T -> triple t (at_phase t (Idle false, false)) (announce m c) (ctx t) (finished I E t).
Proof.
  intros HT. eapply triple_bind; [by apply (mon_lock_spec m c x T ctx none_late happened false announces t)|]. intros ? γ w [_ (Q & hold & H1)]. cbn.
  eapply (mon_write m c x T ctx none_late happened false Q hold _ w t (umem w) true false
            (<[1 := 1%Z]> (umem w)) false) in H1;
    [|done | by rewrite fn_lookup_insert | by intros _; apply lookup_insert_eq | done].
  rewrite fn_insert_insert in H1. eapply wp_bind, wp_mono.
  - eapply (mon_broadcast_inside_spec m c x T ctx none_late happened false announces t
              (<[1 := 1%Z]> (umem w)) false false); [done | by intros [] | by exists Q, hold].
  - intros ? γ1 w1 [_ HI1].
    eapply wp_bind, wp_mono; [eapply (mon_unlock_spec m c x T ctx none_late happened false announces t); [done | | exact HI1]|].
    + apply (leave_out _ _ true). intros _. apply lookup_insert_eq.
    + intros r γ2 w2 [_ H2]. apply wp_done. exists (Idle true, false). split; [by exists true | done].
Qed.

(** Every thread of the pool waits for the event or announces it, and those that
    are to announce it are in the pool. *)
Definition event_pool (p : gmap nat thread_state) : Prop :=
  (forall t s, p !! t = Some s -> t ∈ T /\
    if announces t then s = spawn (ctx t) (announce m c) else exists n, s = spawn (ctx t) (await m c n)) /\
  (forall t, announces t = true -> p !! t <> None).

Lemma event_good w p c' :
  monitor_fresh m c T ctx w -> conds w !! c = Some x -> event_pool p ->
  rtc cstep (Run w p) c' -> good I S E c'.
Proof.
  intros Hf Hx [Hp Ha]. eapply adequacy; [intros; by apply mon_tick|].
  apply good_spawn with (fun _ => (Idle false, false)); [apply monitor_fresh_inv; [done | done | by intros []] | |].
  - intros t s Hs. destruct (Hp t s Hs) as [HT Hb]. destruct (announces t) eqn:Hat.
    + exists (ctx t), (announce m c). split; [done|]. split; [done|].
      eapply triple_weaken; [by apply announce_spec | | done].
      intros γ w' [Hγ HI]. by apply at_phase_same.
    + destruct Hb as [n ->]. exists (ctx t), (await m c n). split; [done|]. split; [done|].
      eapply triple_weaken; [by apply await_spec | | done].
      intros γ w' [Hγ HI]. by apply at_phase_same.
  - intros t Ht. exists false. split; [done|]. intros Hat. by destruct (Ha t Hat).
Qed.
End Events.

(** ** Theorems *)

(** C11: in a program of any number of threads that enter a monitor, wait on its
    condition variable with or without a time limit, and signal or broadcast it
    inside and outside, no two threads work at the same time, whatever the
    interleaving: a thread that comes back from a wait holds the mutex again.  No
    assertion of the library fails, no thread is woken without having waited, and
    no access goes through a bad pointer. *)
Theorem monitor_mutual_exclusion `{Platform} `{IHash} m c T ctx w p c' f :
  (forall u, m <> MCancelLock u) -> monitor_fresh m c T ctx w -> outside (umem w) ->
  monitor_pool m c T ctx true p -> rtc cstep (Run w p) c' -> c' <> Crashed f.
Proof.
  intros Hm Hf Ho Hp Hc ->. destruct (mf_cond _ _ _ _ _ Hf) as [x Hx].
  exact (monitor_good m c x T ctx true Hm w p _ Hf Hx Ho Hp Hc).
Qed.

(** C13: an event that is announced with a broadcast reaches everybody: when
    threads wait for it in the way the manual prescribes, testing a flag under
    the mutex, and at least one thread sets the flag and broadcasts, then the
    program never deadlocks, whatever the interleaving, and nothing fails. *)
Theorem event_reaches_all `{Platform} `{IHash} m c T ctx announces a w p c' :
  (forall u, m <> MCancelLock u) -> monitor_fresh m c T ctx w ->
  event_pool m c T ctx announces p -> announces a = true ->
  rtc cstep (Run w p) c' -> ~ stuck c' /\ forall f, c' <> Crashed f.
Proof.
  intros Hm Hf Hp Ha Hc. destruct (mf_cond _ _ _ _ _ Hf) as [x Hx].
  pose proof (event_good m c x T ctx Hm announces w p _ Hf Hx Hp Hc) as Hg.
  split; [|by intros f ->]. intros Hs. destruct c' as [w' p'| |]; [|done..].
  destruct (stuck_waiting _ _ _ _ _ _ _ _ _ _ Hg Hs) as (γ & Q & H1 & Hw & Hend).
  assert (exists t, p' !! t <> None) as [t Ht].
  { destruct Hs as [Hne _]. apply map_choose in Hne as (t & s & Ht). exists t. by rewrite Ht. }
  destruct (p' !! a) eqn:Hpa; [by destruct (Hw a) as (_ & _ & _ & Hna); [rewrite Hpa | congruence]|].
  destruct (Hend a Hpa) as (d & Hγ & Hd). rewrite (Hd Ha) in Hγ.
  pose proof (g_mem _ _ _ _ _ _ _ _ _ (proj1 H1)) as Hmem. cbn in Hmem. destruct (Hw t Ht) as (_ & Hin & _).
  apply Hmem; [by intros He; rewrite He, elem_of_nil in Hin|].
  assert (a ∈ T) as HT.
  { pose proof (proj2 Hp a Ha) as Hpa0. destruct (p !! a) as [s|] eqn:Hp0; [|done]. by apply (proj1 Hp a s). }
  apply (t_done _ _ _ _ _ _ _ _ _ _ (mon_tin _ _ _ _ _ _ _ _ _ _ _ _ _ H1 HT)). by rewrite Hγ.
Qed.

(** ** Concrete programs *)

(** [n] threads with their cancelation locks, a mutex and a condition variable. *)
Definition monitor_world (n : nat) : world :=
  set_conds {[CUser 0 := mkCond None]}
    (set_mutexes (<[MUser 0 := plain_mutex]> (mutexes (demo_threads n))) (demo_threads n)).

Lemma monitor_world_fresh n :
  monitor_fresh (MUser 0) (CUser 0) (list_to_set (seq 0 n)) demo_ctx (monitor_world n).
Proof.
  assert (forall t, t ∈ (list_to_set (seq 0 n) : gset nat) -> t < n) as HT.
  { intros t [_ Hlt]%elem_of_list_to_set%elem_of_seq. lia. }
  split; [| |by eexists|done|done].
  - intros t Ht%HT. split; [by apply (demo_runs n ANull)|]. split; [by apply (demo_mail n ANull)|].
    exists (demo_pthread t). split; [|done]. cbn. by apply lookup_table.
  - intros m' [-> | (t & Ht%HT & ->)]; cbn; [by rewrite lookup_insert_eq|].
    rewrite lookup_insert_ne by done. apply elem_of_list_to_map.
    + rewrite <- list_fmap_compose. apply NoDup_fmap_2; [by intros ? ? [= ->] | apply NoDup_seq].
    + apply list_elem_of_fmap. exists t. split; [done|]. apply elem_of_seq. lia.
Qed.

Abbreviation demo_client := (@monitor_client demo_platform no_ihash (MUser 0) (CUser 0)).

Lemma demo_monitor_pool timed (ls : list (list command)) :
  Forall (Forall (valid_command timed)) ls ->
  @monitor_pool demo_platform no_ihash (MUser 0) (CUser 0) (list_to_set (seq 0 (length ls))) demo_ctx timed
    (demo_pool (map demo_client ls)).
Proof.
  intros Hls t s (b & Hb & ->)%demo_pool_lookup. rewrite list_lookup_fmap in Hb.
  destruct (ls !! t) as [l|] eqn:Hl; [|done]. injection Hb as <-. split.
  - apply elem_of_list_to_set, elem_of_seq. apply lookup_lt_Some in Hl. lia.
  - exists l. split; [|done]. by eapply Forall_lookup_1.
Qed.

Definition demo_monitor (ls : list (list command)) : config :=
  Run (monitor_world (length ls)) (demo_pool (map demo_client ls)).

Definition timed_programs : list (list command) :=
  [[Enter [Work; Wait (Some (mkTimespec 1 0)); Work]]; [Enter [Work; Signal]; BroadcastOutside]].

Lemma monitor_mutual_exclusion_witness :
  run_schedule (replicate 7 (0, false) ++ replicate 4 (1, false) ++ replicate 3 (0, false)) (demo_monitor timed_programs)
    <> Crashed FAssert.
Proof.
  apply (@monitor_mutual_exclusion demo_platform no_ihash (MUser 0) (CUser 0) (list_to_set (seq 0 2)) demo_ctx
           (monitor_world 2) (demo_pool (map demo_client timed_programs))).
  - done.
  - apply monitor_world_fresh.
  - done.
  - apply (demo_monitor_pool true timed_programs). by repeat constructor.
  - apply run_schedule_rtc.
Defined.

(** Thread 1 announces what threads 0 and 2 wait for. *)
Definition event_programs : list (M unit) :=
  [@await demo_platform no_ihash (MUser 0) (CUser 0) 3; announce (MUser 0) (CUser 0);
   @await demo_platform no_ihash (MUser 0) (CUser 0) 1].

Lemma event_reaches_all_witness :
  let c' := run_schedule (replicate 6 (0, false) ++ replicate 4 (1, false) ++ replicate 3 (0, false))
              (Run (monitor_world 3) (demo_pool event_programs)) in
  ~ stuck c' /\ forall f, c' <> Crashed f.
Proof.
  apply (@event_reaches_all demo_platform no_ihash (MUser 0) (CUser 0) (list_to_set (seq 0 3)) demo_ctx
           (fun t => t =? 1) 1 (monitor_world 3) (demo_pool event_programs)).
  - done.
  - apply monitor_world_fresh.
  - split.
    + intros t s (b & Hb & ->)%demo_pool_lookup.
      destruct t as [|[|[|t]]]; cbn in Hb; [..|done]; injection Hb as <-; (split; [set_solver|]);
        [by exists 3 | done | by exists 1].
    + intros t ->%Nat.eqb_eq Hn.
      assert (match demo_pool event_programs !! 1 with Some _ => true | None => false end = true) as Hs
        by (by vm_compute).
      by rewrite Hn in Hs.
  - done.
  - apply run_schedule_rtc.
Defined.
