(* ===== verification/MonitorCount.v ===== *)
(** * No signal is lost

    Programs that count, under the mutex of a monitor, the waits that were begun
    and not signalled since: however the threads are interleaved, a program that
    stops leaves at most that many of them waiting. *)
From Stdlib Require Import ZArith Lia.
From stdpp Require Import relations.
From S2P Require Import Prelude Queue World Machine Platform Sched Mach Demo Attr Mutex MutexClient Cond Kernel Threads CondWait ThreadFacts MonitorInv MonitorSpec Monitor.

(** ** Programs *)

(** Cell 2 of the memory: the waits that were begun and not signalled since. *)
Definition waits_left (u : gmap nat Z) : Z := default 0%Z (u !! 2).

(** Cell 3: the thread that began the last of them. *)
Definition beginner (u : gmap nat Z) : gset nat :=
  match u !! 3 with Some z => {[Z.to_nat z]} | None => ∅ end.

Definition one_more (t : nat) (u : gmap nat Z) : gmap nat Z :=
  <[3 := Z.of_nat t]> (<[2 := (waits_left u + 1)%Z]> u).
Definition one_less (u : gmap nat Z) : gmap nat Z :=
  delete 3 (<[2 := Z.max 0 (waits_left u - 1)]> u).
Definition none_left (u : gmap nat Z) : gmap nat Z := delete 3 (<[2 := 0%Z]> u).

Section Programs.
Context `{Platform} `{IHash}.
Context (m : mutex_id) (c : cond_id).

(** What a thread does while it holds the mutex, and outside. *)
Inductive turn := Park | Release | ReleaseAll.
Inductive visit := Inside (l : list turn) | SignalToo | BroadcastToo.

Definition write (f : gmap nat Z -> gmap nat Z) : M unit := modify (fun w => set_umem (f (umem w)) w).

Definition turn_run (t : nat) (a : turn) : M unit :=
  match a with
  | Park => write (one_more t);; _ ← __pthread_cond_timedwait_internal c m None; mret tt
  | Release => _ ← __pthread_cond_signal c; write one_less
  | ReleaseAll => write none_left;; _ ← __pthread_cond_broadcast c; mret tt
  end.

Fixpoint turns (t : nat) (l : list turn) : M unit :=
  match l with [] => mret tt | a :: l => turn_run t a;; turns t l end.

Definition visit_run (t : nat) (d : visit) : M unit :=
  match d with
  | Inside l => _ ← __pthread_mutex_lock m; turns t l;; _ ← __pthread_mutex_unlock m; mret tt
  | SignalToo => _ ← __pthread_cond_signal c; mret tt
  | BroadcastToo => _ ← __pthread_cond_broadcast c; mret tt
  end.

Fixpoint counted_client (t : nat) (l : list visit) : M unit :=
  match l with [] => mret tt | d :: l => visit_run t d;; counted_client t l end.
End Programs.

(** ** The threads in the queue are among those that were counted *)

Definition counted (l : list nat) (u : gmap nat Z) : Prop :=
  (Z.of_nat (size (list_to_set l ∪ beginner u)) <= waits_left u)%Z.

Lemma counted_beginner t l u : counted l (one_more t u) -> counted (t :: l) (one_more t u).
Proof.
  unfold counted, one_more, beginner. rewrite lookup_insert_eq, Nat2Z.id. cbn.
  by replace ({[t]} ∪ list_to_set l ∪ {[t]} : gset nat) with (list_to_set l ∪ {[t]} : gset nat) by set_solver.
Qed.

Lemma counted_more t l u : counted l u -> counted l (one_more t u).
Proof.
  unfold counted, one_more, waits_left, beginner. rewrite lookup_insert_eq, Nat2Z.id.
  rewrite lookup_insert_ne, lookup_insert_eq by done. cbn. intros Hc.
  assert (size (list_to_set l ∪ {[t]} : gset nat) <= size (list_to_set l : gset nat) + 1) as Hs.
  { rewrite size_union_alt. apply Nat.add_le_mono_l. rewrite <- (size_singleton (C := gset nat) t).
    apply subseteq_size. set_solver. }
  assert (size (list_to_set l : gset nat) <= size (list_to_set l ∪ beginner u : gset nat)) as Hs'
    by (apply subseteq_size; set_solver).
  unfold beginner in Hs'. lia.
Qed.

Lemma counted_sub l l' u : l' ⊆ l -> counted l u -> counted l' u.
Proof.
  intros Hl Hc. unfold counted in *. etransitivity; [|exact Hc]. apply inj_le, subseteq_size. set_solver.
Qed.

(** What is counted for a queue without the last beginner. *)
Lemma counted_without l n u :
  counted l (delete 3 (<[2 := n]> u)) <-> (Z.of_nat (size (list_to_set l : gset nat)) <= n)%Z.
Proof.
  unfold counted, waits_left, beginner. rewrite lookup_delete_eq, lookup_delete_ne, lookup_insert_eq by done. cbn.
  by rewrite (right_id_L ∅ (∪)).
Qed.

Lemma counted_less v l u : NoDup (v :: l) -> counted (v :: l) u -> counted l (one_less u).
Proof.
  intros [Hv _]%NoDup_cons Hc. unfold one_less. rewrite counted_without. unfold counted in Hc. cbn in Hc.
  assert (size ({[v]} ∪ list_to_set l : gset nat) <= size (({[v]} ∪ list_to_set l) ∪ beginner u : gset nat)) as Hs
    by (apply subseteq_size; set_solver).
  rewrite size_union, size_singleton in Hs by set_solver. lia.
Qed.

Lemma counted_none u : counted [] (one_less u) /\ counted [] (none_left u).
Proof. unfold one_less, none_left. rewrite !counted_without. cbn. rewrite size_empty. lia. Qed.

(** ** Clients *)

Section Clients.
Context `{Platform} `{IHash}.
Context (m : mutex_id) (c : cond_id) (x : cond) (T : gset nat) (ctx : nat -> kctx).
Context (Hm : forall u, m <> MCancelLock u).

#[local] Instance counted_laws : MonitorLaws m counted.
Proof. split; [done | intros l l' u; apply counted_sub]. Qed.

Abbreviation I := (I m c x T ctx counted (fun _ => True) false).
Abbreviation S := (S false (fun _ => false)).
Abbreviation E := (E (fun _ => false)).
Abbreviation triple := (triple I S E).
Abbreviation at_phase := (at_phase I).

(** The thread holds the mutex and the count is right. *)
Definition visiting t (γ : nat -> ghost) (w : world) : Prop :=
  exists u, at_phase t (Owns u true, false) γ w.

Lemma write_spec t f u b :
  t ∈ T -> (b = true -> forall l, counted l u -> counted l (f u)) ->
  triple t (at_phase t (Owns u true, false)) (write f) (ctx t)
    (fun _ => at_phase t (Owns (f u) b, false)).
Proof.
  intros HT Hf γ w HI.
  destruct (owner_knows m c x T ctx false counted (fun _ => True) t u true false _ _ HT HI) as [Hu _];
    [by rewrite fn_lookup_insert|].
  apply wp_done. destruct HI as (Q & hold & H1). exists Q, hold. rewrite Hu.
  rewrite <- (fn_insert_insert γ t _ (Owns u true, false)).
  eapply mon_write; [apply _ | exact H1 | done | by rewrite fn_lookup_insert | done | auto].
Qed.

Lemma turn_spec t a :
  t ∈ T -> triple t (visiting t) (turn_run m c t a) (ctx t) (fun _ => visiting t).
Proof.
  intros HT γ w [u HI]. revert γ w HI. destruct a; cbn [turn_run].
  - eapply triple_bind; [apply (write_spec t (one_more t) u true HT); intros _ l; apply counted_more|].
    intros [] γ w HI. eapply wp_bind, wp_mono.
    + eapply (mon_wait_spec m c x T ctx counted (fun _ => True) false (fun _ => false) t (one_more t u) true None);
        [done | done | | done | exact HI].
      intros l Hl. apply counted_beginner. auto.
    + intros r γ1 w1 [[_ H1] | [_ H1]]; apply wp_done; by eexists.
  - eapply triple_weaken; [|done|].
    + apply (mon_signal_inside_spec m c x T ctx counted (fun _ => True) false (fun _ => false) t u one_less false);
        [done | done | intros _; apply counted_none | intros v l; apply counted_less].
    + intros [] γ w HI. by eexists.
  - eapply triple_bind.
    { by apply (write_spec t none_left u false HT). }
    intros [] γ w HI. eapply wp_bind, wp_mono.
    + eapply (mon_broadcast_inside_spec m c x T ctx counted (fun _ => True) false (fun _ => false) t
                (none_left u) false false); [done | apply counted_none | exact HI].
    + intros r γ1 w1 [_ H1]. apply wp_done. by eexists.
Qed.

Lemma turns_spec t l :
  t ∈ T -> triple t (visiting t) (turns m c t l) (ctx t) (fun _ => visiting t).
Proof.
  intros HT. induction l as [|a l IH]; [by intros γ w|].
  eapply triple_bind; [by apply turn_spec|]. intros []. exact IH.
Qed.

Abbreviation away := (fun t => at_phase t (Idle false, false)).

Lemma visit_spec t d :
  t ∈ T -> triple t (away t) (visit_run m c t d) (ctx t) (fun _ => away t).
Proof.
  intros HT. destruct d as [l| |]; cbn.
  - eapply triple_bind with (Q := fun _ => visiting t).
    { eapply triple_weaken; [by apply (mon_lock_spec m c x T ctx counted (fun _ => True) false (fun _ => false) t false) | done | intros r γ w [_ HI]; by eexists]. }
    intros ?. eapply triple_bind; [by apply turns_spec|]. intros [] γ w [u HI].
    eapply wp_bind, wp_mono; [eapply (mon_unlock_spec _ _ _ _ _ _ _ _ _ t); [done | | exact HI]|].
    + by apply (leave_out _ _ false).
    + intros r γ1 w1 [_ H1]. by apply wp_done.
  - eapply triple_bind; [by apply (mon_signal_spec m c x T ctx counted (fun _ => True) false (fun _ => false) t (Idle false) false)|].
    intros r γ w [_ HI]. by apply wp_done.
  - eapply triple_bind; [by apply (mon_broadcast_spec m c x T ctx counted (fun _ => True) false (fun _ => false) t (Idle false) false)|].
    intros r γ w [_ HI]. by apply wp_done.
Qed.

Lemma counted_client_spec t l :
  t ∈ T -> triple t (away t) (counted_client m c t l) (ctx t) (fun _ => away t).
Proof.
  intros HT. induction l as [|d l IH]; [by intros γ w|].
  eapply triple_bind; [by apply visit_spec|]. intros []. exact IH.
Qed.

(** Every thread of the pool is a client about to start. *)
Definition counted_pool (p : gmap nat thread_state) : Prop :=
  forall t s, p !! t = Some s -> t ∈ T /\ exists l, s = spawn (ctx t) (counted_client m c t l).

Lemma counted_good w p c' :
  monitor_fresh m c T ctx w -> conds w !! c = Some x -> counted [] (umem w) -> counted_pool p ->
  rtc cstep (Run w p) c' -> good I S E c'.
Proof.
  intros Hf Hx Ho Hp. eapply adequacy; [intros; by apply mon_tick|].
  apply good_spawn with (fun _ => (Idle false, false)); [by apply monitor_fresh_inv | | by intros; eexists].
  intros t s Hs. destruct (Hp t s Hs) as (HT & l & ->).
  exists (ctx t), (counted_client m c t l). split; [done|]. split; [done|].
  eapply triple_weaken; [by apply counted_client_spec | |].
  - intros γ w' [Hγ HI]. by apply at_phase_same.
  - intros ? γ w' HI. exists (Idle false, false). by split; [eexists|].
Qed.
End Clients.

(** ** The theorem *)

(** C12: no wakeup is lost.  Threads begin waits on the condition variable of a
    monitor and signal or broadcast it, as often as they like; under the mutex they
    keep a count of the waits that were begun and not signalled since ([Park] adds
    one, [Release] signals and takes one off, [ReleaseAll] broadcasts and sets it to
    zero; signals and broadcasts outside the mutex are not counted).  Whatever the
    interleaving, no assertion of the library fails, and when no thread can run any
    more the mutex is free, the threads that are left are all in the queue of the
    condition variable without a message, and there are at most as many as the count
    says: every signal of a thread that held the mutex has set a waiting thread free
    if there was one, and every broadcast all of them. *)
Theorem no_wakeup_lost `{Platform} `{IHash} m c T ctx w p c' :
  (forall u, m <> MCancelLock u) -> monitor_fresh m c T ctx w ->
  (waits_left (umem w) = 0)%Z -> umem w !! 3 = None ->
  counted_pool m c T ctx p -> rtc cstep (Run w p) c' ->
  (forall f, c' <> Crashed f) /\
  forall w' p', c' = Run w' p' -> stuck c' ->
    SMutexHeld m ∉ spins w' /\
    (exists Q, qrep (qh w') Q /\
       forall t, p' !! t <> None -> t ∈ Q (HCond c) /\ mail w' !! t = Some 0) /\
    (Z.of_nat (size p') <= waits_left (umem w'))%Z.
Proof.
  intros Hm Hf H2 H3 Hp Hc. destruct (mf_cond _ _ _ _ _ Hf) as [x Hx].
  assert (counted [] (umem w)) as Hc0.
  { unfold counted, beginner. rewrite H2, H3. cbn. by rewrite (right_id_L ∅ (∪)), size_empty. }
  pose proof (counted_good m c x T ctx Hm w p _ Hf Hx Hc0 Hp Hc) as Hg.
  split; [by intros f ->|]. intros w' p' -> Hs.
  destruct (stuck_waiting _ _ _ _ _ _ _ _ _ _ Hg Hs) as (γ & Q & H1 & Hw & _). split_and!.
  - rewrite (g_held _ _ _ _ _ _ _ _ _ (proj1 H1)). tauto.
  - exists Q. split; [apply H1|]. intros t Ht. by destruct (Hw t Ht) as (_ & ? & ? & _).
  - pose proof (g_mem _ _ _ _ _ _ _ _ _ (proj1 H1)) as Hmem. cbn in Hmem. unfold counted in Hmem.
    etransitivity; [|exact Hmem]. apply inj_le. rewrite <- size_dom. apply subseteq_size.
    intros t Ht%elem_of_dom. apply elem_of_union_l, elem_of_list_to_set, Hw.
    by destruct Ht as [s ->].
Qed.

(** ** A concrete program *)

(** Two threads wait, the third one signals once: the one of them that
    queued up last is set free, the other waits for ever. *)
Definition demo_visits : list (list visit) := [[Inside [Park]]; [Inside [Park]]; [Inside [Release]]].

Definition demo_counted_pool : gmap nat thread_state :=
  demo_pool (imap (@counted_client demo_platform no_ihash (MUser 0) (CUser 0)) demo_visits).

Definition counted_world : world :=
  set_umem {[0 := 0%Z]} (monitor_world 3).

Definition counted_schedule : list (nat * bool) :=
  replicate 6 (0, false) ++ replicate 6 (1, false) ++ replicate 4 (2, false) ++ replicate 6 (1, false).
Lemma demo_counted :
  @counted_pool demo_platform no_ihash (MUser 0) (CUser 0) (list_to_set (seq 0 3)) demo_ctx demo_counted_pool.
Proof.
  intros t s (b & Hb & ->)%demo_pool_lookup. rewrite list_lookup_imap in Hb.
  destruct (demo_visits !! t) as [l|] eqn:Hl; [|done]. injection Hb as <-. split; [|by exists l].
  apply elem_of_list_to_set, elem_of_seq. apply lookup_lt_Some in Hl. cbn in Hl. lia.
Qed.

(** Thread 0 is left, and the count is one. *)
Lemma no_wakeup_lost_witness :
  match run_schedule counted_schedule (Run counted_world demo_counted_pool) with
  | Run w' p' => SMutexHeld (MUser 0) ∉ spins w' /\ size p' = 1 /\ waits_left (umem w') = 1%Z /\
      (Z.of_nat (size p') <= waits_left (umem w'))%Z
  | _ => False
  end.
Proof.
  assert (match run_schedule counted_schedule (Run counted_world demo_counted_pool) with
          | Run w' p' => stuckb (Run w' p') = true /\ size p' = 1 /\ waits_left (umem w') = 1%Z
          | _ => False end) as Hrun by (vm_compute; done).
  destruct (@no_wakeup_lost demo_platform no_ihash (MUser 0) (CUser 0) (list_to_set (seq 0 3)) demo_ctx
    counted_world demo_counted_pool (run_schedule counted_schedule (Run counted_world demo_counted_pool)))
    as [_ Hstop].
  - done.
  - destruct (monitor_world_fresh 3) as [Ht ? ? ? ?]. by split.
  - done.
  - done.
  - exact demo_counted.
  - apply run_schedule_rtc.
  - destruct (run_schedule counted_schedule (Run counted_world demo_counted_pool)) as [w' p'|f|z];
      [|by destruct Hrun..]. destruct Hrun as (Hs & Hsize & Hcount).
    destruct (Hstop w' p' eq_refl) as (Hfree & _ & Hle); [by apply stuckb_sound|]. done.
Defined.
