(* ===== verification/KeyFacts.v ===== *)
(** * The table of the keys of thread specific data *)
From Stdlib Require Import ZArith Lia.
From S2P Require Import Prelude Queue World Machine Platform Sched Mach Demo Attr Mutex Kernel Keys ThreadFacts.
Local Open Scope Z_scope.

(** ** The invariant *)

(** The elements of deleted keys. *)
Definition invalid_keys (k : keys_t) : gmap Z destructor :=
  filter (fun p => p.2 = KeyInvalid) (key_destructors k).

Record keys_ok (k : keys_t) : Prop := {
  ko_index : 0 <= key_index k <= key_count k;
  ko_size : key_count k <= key_size k;
  ko_elements : forall i, is_Some (key_destructors k !! i) <-> 0 <= i < key_count k;
  ko_invalid : key_invalid_count k = Z.of_nat (size (invalid_keys k));
}.

Section Search.
Context (k : keys_t).

Lemma search_slot_spec fuel i :
  0 <= i <= key_count k -> key_count k - i <= Z.of_nat fuel ->
  exists j, search_slot fuel k i = Some j /\ i <= j <= key_count k /\
    (j < key_count k -> key_destructors k !! j = Some KeyInvalid) /\
    (forall n, i <= n < j -> key_destructors k !! n <> Some KeyInvalid).
Proof.
  revert i. induction fuel as [|fuel IH]; intros i Hi Hf; cbn.
  - destruct (Z.ltb_spec i (key_count k)); [lia|]. exists i. split_and!; [done|lia..].
  - destruct (Z.ltb_spec i (key_count k)); [|exists i; split_and!; [done|lia..]].
    destruct (decide (key_destructors k !! i = Some KeyInvalid)) as [He|Hne].
    + exists i. split_and!; [done|lia|lia|done|lia].
    + destruct (IH (i + 1)) as (j & Hj & Hr & Hinv & Hpre); [lia..|].
      exists j. split_and!; [done|lia|lia|done|]. intros n Hn.
      destruct (decide (n = i)) as [->|]; [done|]. apply Hpre. lia.
Qed.
End Search.

(** A key with the destructor [d] takes the place of a deleted one. *)
Definition reused (k : keys_t) (i : Z) (d : destructor) : keys_t :=
  mkKeys (set_slot k i d) (key_size k) (key_count k) (key_invalid_count k - 1) (i + 1).

(** ... or is added at the end. *)
Definition appended (k : keys_t) (size : Z) (d : destructor) : keys_t :=
  mkKeys (set_slot k (key_count k) d) size (key_count k + 1) (key_invalid_count k) (key_count k + 1).

Lemma reused_ok k i d :
  keys_ok k -> d <> KeyInvalid -> key_destructors k !! i = Some KeyInvalid ->
  keys_ok (reused k i d) /\ 0 < key_invalid_count k.
Proof.
  intros [Hi Hs He Hc] Hd Hk. assert (0 <= i < key_count k) as Hr by (apply He; by eexists).
  assert (invalid_keys k !! i = Some KeyInvalid) as Hin by (by apply map_lookup_filter_Some).
  assert (size (invalid_keys k) <> 0)%nat as Hsz.
  { intros H0%map_size_empty_inv. by rewrite H0, lookup_empty in Hin. }
  split; [split|]; cbn; try lia.
  - intros j. unfold set_slot. rewrite lookup_insert_is_Some, He. destruct (decide (i = j)); intuition lia.
  - rewrite Hc. unfold invalid_keys at 2. cbn. unfold set_slot. rewrite map_filter_insert_False by done.
    rewrite map_filter_delete. fold (invalid_keys k). rewrite map_size_delete, Hin. lia.
Qed.

Lemma appended_ok k size d :
  keys_ok k -> d <> KeyInvalid -> key_count k < size -> keys_ok (appended k size d).
Proof.
  intros [Hi Hs He Hc] Hd Hlt. split; cbn; try lia.
  - intros j. unfold set_slot. rewrite lookup_insert_is_Some, He.
    destruct (decide (key_count k = j)); intuition lia.
  - rewrite Hc. unfold invalid_keys at 2. cbn. unfold set_slot. rewrite map_filter_insert_False by done.
    rewrite delete_id; [done|]. apply eq_None_not_Some. rewrite He. lia.
Qed.

(** ** Creation *)

Definition with_keys (k : keys_t) (w : world) : world := set_glob (set_keys k (glob w)) w.

(** What a creation that was called with the keys [k] leaves. *)
Definition key_created (d : destructor) (k : keys_t) (e : error_t) (key : Z) (k' : keys_t) : Prop :=
  keys_ok k' /\
  if decide (e = OK)
  then valid_key k key = false /\ valid_key k' key = true /\
       key_destructors k' = <[key := d]> (key_destructors k)
  else e = ENOMEM /\ key_destructors k' = key_destructors k /\ key_count k' = key_count k.

Lemma valid_key_at k key : keys_ok k ->
  valid_key k key = true <-> exists d, key_destructors k !! key = Some d /\ d <> KeyInvalid.
Proof.
  intros H. unfold valid_key. rewrite !andb_true_iff, Z.leb_le, Z.ltb_lt, negb_true_iff, bool_decide_eq_false.
  rewrite <- (ko_elements k H key). split.
  - intros [[d Hd] Hne]. exists d. split; [done|]. by intros ->.
  - intros (d & Hd & Hne). split; [by eexists|]. congruence.
Qed.

Lemma valid_key_not k key : keys_ok k ->
  (forall d, key_destructors k !! key = Some d -> d = KeyInvalid) -> valid_key k key = false.
Proof.
  intros H Hd. destruct (valid_key k key) eqn:Hv; [|done].
  apply (valid_key_at k key H) in Hv as (d & Hk & Hne). by apply Hd in Hk.
Qed.

Lemma reused_created k i d :
  keys_ok k -> d <> KeyInvalid -> key_destructors k !! i = Some KeyInvalid ->
  key_created d k OK i (reused k i d).
Proof.
  intros H Hd Hi. destruct (reused_ok k i d H Hd Hi) as [H' _]. split; [done|].
  rewrite decide_True by done. split_and!; [| |done].
  - apply valid_key_not; [done|]. intros d' Hd'. congruence.
  - apply (valid_key_at _ _ H'). exists d. split; [apply lookup_insert_eq | done].
Qed.

Lemma appended_created k size d :
  keys_ok k -> d <> KeyInvalid -> key_count k < size ->
  key_created d k OK (key_count k) (appended k size d).
Proof.
  intros H Hd Hs. pose proof (appended_ok k size d H Hd Hs) as H'. split; [done|].
  rewrite decide_True by done. split_and!; [| |done].
  - apply valid_key_not; [done|]. intros d' Hd'. exfalso.
    assert (0 <= key_count k < key_count k) by (apply (ko_elements k H); by eexists). lia.
  - apply (valid_key_at _ _ H'). exists d. split; [apply lookup_insert_eq | done].
Qed.

(** The search from [key_index k] finds a deleted key. *)
Lemma create_reuses rounds k j d me w :
  keys_ok k -> d <> KeyInvalid -> search_slot (search_fuel k) k (key_index k) = Some j ->
  j < key_count k -> key_destructors k !! j = Some KeyInvalid ->
  key_create_locked rounds k d me w = Done (OK, j) (with_keys (reused k j d) w).
Proof.
  intros H Hd Hs Hj Hk. destruct (reused_ok k j d H Hd Hk) as [_ Hc].
  destruct rounds; cbn [key_create_locked]; rewrite Hs, (proj2 (Z.ltb_lt _ _)) by done; cbn;
    rewrite bool_decide_eq_true_2 by done; cbn; by rewrite (proj2 (Z.ltb_lt _ _)) by done.
Qed.

(** What a creation does to the world: the keys are [k] now and [malloc] was asked
    some of its answers. *)
Definition keys_step (k : keys_t) (w w' : world) : Prop :=
  exists l, w' = with_keys k (set_env (set_answers l (env w)) w).

Lemma with_keys_step k w : keys_step k w (with_keys k w).
Proof. exists (answers (env w)). by destruct w as [? ? ? ? ? ? ? ? ? ? ? []]. Qed.

(** The search reaches the end and there is no reason to search again. *)
Lemma create_appends rounds k d me w :
  keys_ok k -> d <> KeyInvalid ->
  search_slot (search_fuel k) k (key_index k) = Some (key_count k) ->
  (key_size k =? key_count k) && (4 <? key_invalid_count k) && (key_size k ÷ 8 <? key_invalid_count k) = false ->
  exists e key k' w', key_create_locked rounds k d me w = Done (e, key) w' /\
    keys_step k' w w' /\ key_created d k e key k'.
Proof.
  intros H Hd Hs Hn. pose proof (ko_size k H) as Hsz. pose proof (ko_index k H) as Hix.
  destruct rounds; cbn [key_create_locked]; rewrite Hs, Z.ltb_irrefl, Z.eqb_refl; cbn; rewrite Hn;
    (destruct (Z.eqb_spec (key_size k) (key_count k)) as [He|Hne]; cbn;
      [destruct (ask_at me w) as (b & l & Ha); unfold malloc_ok; rewrite Ha; destruct b; cbn|]);
    do 4 eexists; (split; [done|]); (split; [first [apply with_keys_step | by exists l]|]); cbn.
  all: try (apply appended_created; [done|done|]; destruct (Z.eqb_spec (key_size k) 0); lia).
  all: split; [by destruct H; split; cbn; try lia|]; by rewrite decide_False.
Qed.

(** The jump to [do_search]. *)
Definition restarted (k : keys_t) : keys_t :=
  mkKeys (key_destructors k) (key_size k) (key_count k) (key_invalid_count k) 0.

Lemma create_restarts rounds k d me w :
  search_slot (search_fuel k) k (key_index k) = Some (key_count k) ->
  (key_size k =? key_count k) && (4 <? key_invalid_count k) && (key_size k ÷ 8 <? key_invalid_count k) = true ->
  key_create_locked (Datatypes.S rounds) k d me w =
  key_create_locked rounds (restarted k) d me (with_keys (restarted k) w).
Proof.
  intros Hs Ha. cbn [key_create_locked]. rewrite Hs, Z.ltb_irrefl, Z.eqb_refl. cbn. by rewrite Ha.
Qed.

(** The creation under the lock. *)
Lemma key_create_at d me w :
  keys_ok (keys (glob w)) -> d <> KeyInvalid ->
  exists e key k' w', key_create_locked 1 (keys (glob w)) d me w = Done (e, key) w' /\
    keys_step k' w w' /\ key_created d (keys (glob w)) e key k'.
Proof.
  set (k := keys (glob w)). intros H Hd.
  destruct (search_slot_spec k (search_fuel k) (key_index k)) as (j & Hj & Hr & Hinv & _);
    [apply H | unfold search_fuel; pose proof (ko_index k H); lia |].
  destruct (decide (j < key_count k)) as [Hlt|Hge].
  { do 4 eexists. rewrite (create_reuses _ k j) by auto. split; [done|]. split; [apply with_keys_step|].
    by apply reused_created; auto. }
  assert (j = key_count k) as -> by lia.
  destruct ((key_size k =? key_count k) && (4 <? key_invalid_count k) && (key_size k ÷ 8 <? key_invalid_count k))
    eqn:Hagain; [|by apply create_appends].
  set (k0 := restarted k).
  assert (keys_ok k0) as H0 by (destruct H; split; cbn; try done; lia).
  destruct (search_slot_spec k0 (search_fuel k0) 0) as (i & Hi & Hri & Hiv & Hnone);
    [pose proof (ko_index k H); cbn; lia | unfold search_fuel; lia |].
  assert (i < key_count k0) as Hlt.
  { destruct (decide (i < key_count k0)) as [|Hge']; [done|]. exfalso.
    assert (invalid_keys k0 = ∅) as Hemp.
    { apply map_empty. intros n. apply eq_None_not_Some. intros [d' [Hd' Hk']%map_lookup_filter_Some].
      assert (0 <= n < key_count k0) by (apply (ko_elements k0 H0); by eexists).
      apply (Hnone n); [lia|]. cbn in Hk'. by subst d'. }
    pose proof (ko_invalid k0 H0) as Hc. rewrite Hemp, map_size_empty in Hc. cbn in Hc.
    rewrite Hc in Hagain. by destruct (_ =? _). }
  do 4 eexists. rewrite create_restarts by done. fold k0.
  split; [by apply (create_reuses 0 k0 i); auto|].
  split; [|by apply (reused_created k0); auto]. by destruct (with_keys_step (reused k0 i d) w) as [l Hl]; exists l.
Qed.

(** [pthread_key_create], while it holds the lock of the keys, never loops
    for ever and fails no assertion, although it jumps back to search again.  It
    makes a key that was not in use, which gets the destructor, or fails with
    ENOMEM; the destructors of all other keys stay, and the array of destructors,
    its size, the number of keys, the number of deleted ones and the place to
    search next stay consistent. *)
Theorem key_create_result d me w :
  keys_ok (keys (glob w)) -> d <> KeyInvalid ->
  exists e key w', key_create_locked 1 (keys (glob w)) d me w = Done (e, key) w' /\
    key_created d (keys (glob w)) e key (keys (glob w')).
Proof.
  intros H Hd. destruct (key_create_at d me w H Hd) as (e & key & k' & w' & Hrun & [l ->] & Hc).
  by exists e, key, (with_keys k' (set_env (set_answers l (env w)) w)).
Qed.

Lemma key_create_result_witness :
  exists e key w', key_create_locked 1 (mkKeys ∅ 0 0 0 0) (KeyFn 7) (demo_ctx 0) (demo_world 1 ANull) = Done (e, key) w' /\
    key_created (KeyFn 7) (mkKeys ∅ 0 0 0 0) e key (keys (glob w')).
Proof.
  apply (key_create_result (KeyFn 7) (demo_ctx 0) (demo_world 1 ANull)).
  - split; [done | done | | done]. intros i. split; [by intros [? Hi] | cbn; lia].
  - done.
Defined.
