(* ===== verification/KeySpec.v ===== *)
(** * Thread specific data implements a map per thread

    The operations on keys, called one after the other by any threads, do what a
    table of the keys in use and a map from threads and keys to values does. *)
From Stdlib Require Import ZArith Lia.
From S2P Require Import Prelude Queue World Machine Platform Sched Mach Demo Attr Mutex Rwlock Barrier Kernel Keys Threads ThreadFacts KeyFacts.
Local Open Scope Z_scope.

#[local] Arguments update_thread : simpl never.

(** ** The lock of the keys *)

(** It has been initialised as [do_init] does it, and nobody holds it. *)
Record keys_free (a : mutexattr) (w : world) : Prop := {
  kf_once : onces w !! OKeyReady = Some 1;
  kf_kind : kind_of (Some a) = KRecursive;
  kf_mutex : mutexes w !! MKeyLock = Some (mkMutex (AHeap a) None 0);
  kf_lock : SMutexLock MKeyLock ∉ spins w;
  kf_held : SMutexHeld MKeyLock ∉ spins w;
  kf_queue : cells (qh w) !! Head (HMutex MKeyLock) = None;
}.

(** Thread [t] holds it. *)
Definition hold_keys (a : mutexattr) (t : nat) (w : world) : world :=
  hold_mutex MKeyLock (set_mutexes (<[MKeyLock := mkMutex (AHeap a) (Some t) 1]> (mutexes w)) w).

Section KeyLock.
Context `{Platform} `{IHash}.

Lemma solo_key_lock a me t w {B} (f : error_t -> world -> res B) :
  keys_free a w -> runs me t w ->
  solo (bindr (__pthread_mutex_lock MKeyLock me w) f) = solo (f OK (hold_keys a t w)).
Proof.
  intros [_ Hk Hm Hl Hh _] Hr.
  unfold __pthread_mutex_lock, __pthread_mutex_timedlock_internal, get_mutex. cbn.
  rewrite Hm. cbn. change (kind_of_type (mutex_type a)) with (kind_of (Some a)). rewrite Hk.
  unfold __pthread_spin_lock. cbn.
  rewrite bool_decide_eq_false_2, decide_True by done. cbn.
  rewrite bool_decide_eq_false_2 by set_solver. rewrite decide_True by done. cbn.
  unfold acquired, set_locks, set_owner, get_mutex. cbn. rewrite Hm. cbn.
  rewrite (pthread_self_runs me t) by done. cbn. rewrite lookup_insert_eq. cbn.
  rewrite insert_insert_eq. unfold hold_keys, hold_mutex. cbn. same_spins.
Qed.

Lemma solo_key_unlock a me t w {B} (f : error_t -> world -> res B) :
  keys_free a w -> runs me t w ->
  solo (bindr (__pthread_mutex_unlock MKeyLock me (hold_keys a t w)) f) = solo (f OK w).
Proof.
  intros [_ Hk Hm Hl Hh Hq] Hr. unfold __pthread_mutex_unlock, get_mutex. cbn.
  rewrite lookup_insert_eq. cbn. change (kind_of_type (mutex_type a)) with (kind_of (Some a)). rewrite Hk.
  unfold __pthread_spin_lock. cbn. rewrite bool_decide_eq_false_2, decide_True by set_solver. cbn.
  unfold disown, set_locks, set_owner, get_mutex. cbn.
  rewrite (pthread_self_runs me t) by done. cbn. rewrite lookup_insert_eq. cbn.
  rewrite decide_False by tauto. cbn. rewrite lookup_insert_eq. cbn. change (u32 (1 - 1)) with 0. cbn. rewrite lookup_insert_eq. cbn.
  unfold pass_on. cbn. rewrite Hq. cbn. rewrite !insert_insert_eq, insert_id by done.
  transitivity (solo (f OK (set_spins (spins w) w))); [same_spins | by rewrite set_spins_same].
Qed.

(** The code between lock and unlock. *)
Lemma solo_with_keys {A} (c : keys_t -> M A) a me t w r w1 {B} (f : A -> world -> res B) :
  keys_free a w -> runs me t w -> solo (c (keys (glob w)) me (hold_keys a t w)) = Done r (hold_keys a t w1) ->
  keys_free a w1 -> runs me t w1 ->
  solo (bindr ((__pthread_key_lock_ready;;
    _ ← __pthread_mutex_lock MKeyLock; k ← get_keys; r ← c k; _ ← __pthread_mutex_unlock MKeyLock; mret r) me w) f) =
  solo (f r w1).
Proof.
  intros Hf Hr Hc Hf1 Hr1. unfold __pthread_key_lock_ready, pthread_once, get_run. cbn.
  rewrite (kf_once _ _ Hf). cbn. rewrite bindr_assoc, (solo_key_lock a me t) by done. cbn.
  rewrite bindr_assoc, (solo_bind_done _ _ _ _ Hc). cbn.
  by rewrite bindr_assoc, (solo_key_unlock a me t).
Qed.
End KeyLock.

(** ** The abstract state and its operations *)

(** The keys in use with their destructors, and the value of each thread for each
    key; a null value is [0]. *)
Record kstate := mkKstate { alive : gmap Z destructor; vals : nat -> Z -> Z }.

Inductive key_op := KCreate (d : destructor) | KDelete (key : Z) | KSet (key v : Z) | KGet (key : Z).
Inductive key_result := KErr (e : error_t) | KKey (key : Z) | KVal (v : Z).

Inductive key_spec (t : nat) : key_op -> kstate -> key_result -> kstate -> Prop :=
  | ks_create d key s :
      alive s !! key = None -> (forall u, vals s u key = 0) ->
      key_spec t (KCreate d) s (KKey key) (mkKstate (<[key := d]> (alive s)) (vals s))
  | ks_create_full d s : key_spec t (KCreate d) s (KErr ENOMEM) s
  | ks_delete key s :
      is_Some (alive s !! key) ->
      key_spec t (KDelete key) s (KErr OK)
        (mkKstate (delete key (alive s)) (fun u k => if decide (k = key) then 0 else vals s u k))
  | ks_delete_bad key s : alive s !! key = None -> key_spec t (KDelete key) s (KErr EINVAL) s
  | ks_set key v s :
      is_Some (alive s !! key) ->
      key_spec t (KSet key v) s (KErr OK)
        (mkKstate (alive s) (fun u k => if decide (u = t /\ k = key) then v else vals s u k))
  | ks_set_full key v s :
      is_Some (alive s !! key) -> key_spec t (KSet key v) s (KErr ENOMEM) s
  | ks_set_bad key v s : alive s !! key = None -> key_spec t (KSet key v) s (KErr EINVAL) s
  | ks_get key s : key_spec t (KGet key) s (KVal (vals s t key)) s.

Inductive key_specs : list (nat * key_op) -> kstate -> list key_result -> kstate -> Prop :=
  | kss_nil s : key_specs [] s [] s
  | kss_cons t op l s r s1 rs s2 :
      key_spec t op s r s1 -> key_specs l s1 rs s2 -> key_specs ((t, op) :: l) s (r :: rs) s2.

Section KeySpec.
Context `{Platform} `{IH : IHash} `{!IHashLaws IH}.
Context (a : mutexattr) (attr : option rwlockattr).

Definition key_run (op : key_op) : M key_result :=
  match op with
  | KCreate d => r ← pthread_key_create d; mret (if decide (r.1 = OK) then KKey r.2 else KErr r.1)
  | KDelete key => e ← pthread_key_delete key; mret (KErr e)
  | KSet key v => e ← pthread_setspecific key v; mret (KErr e)
  | KGet key => v ← pthread_getspecific key; mret (KVal v)
  end.

(** The calls one after the other, each by its thread. *)
Fixpoint key_runs (ctx : nat -> kctx) (l : list (nat * key_op)) (w : world) :
    option (list key_result * world) :=
  match l with
  | [] => Some ([], w)
  | (t, op) :: l =>
      match solo (key_run op (ctx t) w) with
      | Done r w => '(rs, w) ← key_runs ctx l w; Some (r :: rs, w)
      | _ => None
      end
  end.

(** ** The representation *)

Definition table_of (w : world) (t : nat) : option Z := pthreads w !! t ≫= thread_specifics.

Definition thread_value (w : world) (t : nat) (key : Z) : Z :=
  match table_of w t with Some h => value (ext_mem (env w)) h key | None => 0 end.

Record keys_wf (w : world) : Prop := {
  kw_free : keys_free a w;
  kw_lock : rwlock_idle RThreadsLock attr w;
  kw_keys : keys_ok (keys (glob w));
  kw_used : forall t, Some t ∈ used_threads (glob w) -> is_Some (pthreads w !! t);
  kw_tables : forall t h, table_of w t = Some h ->
    h ∈ tables (ext_mem (env w)) /\ Some t ∈ used_threads (glob w);
  kw_own : forall t u h, table_of w t = Some h -> table_of w u = Some h -> t = u;
  kw_valid : forall t key, thread_value w t key <> 0 -> valid_key (keys (glob w)) key = true;
}.

Definition valid_destructors (k : keys_t) : gmap Z destructor :=
  filter (fun p => p.2 <> KeyInvalid) (key_destructors k).

Record krep (w : world) (s : kstate) : Prop := {
  kr_alive : alive s = valid_destructors (keys (glob w));
  kr_vals : forall t key, vals s t key = thread_value w t key;
}.

Lemma alive_valid w s key :
  keys_wf w -> krep w s -> is_Some (alive s !! key) <-> valid_key (keys (glob w)) key = true.
Proof.
  intros Hw Hs. rewrite (valid_key_at _ _ (kw_keys _ Hw)), (kr_alive _ _ Hs). unfold valid_destructors. split.
  - intros [d [Hd Hne]%map_lookup_filter_Some]. by exists d.
  - intros (d & Hd & Hne). exists d. by apply map_lookup_filter_Some.
Qed.

Lemma alive_invalid w s key :
  keys_wf w -> krep w s -> alive s !! key = None <-> valid_key (keys (glob w)) key = false.
Proof.
  intros Hw Hs. rewrite eq_None_not_Some, (alive_valid w s) by done. by destruct (valid_key _ _).
Qed.

(** What no operation changes about the threads. *)
Definition same_threads (w w' : world) : Prop :=
  threads_tab (glob w') = threads_tab (glob w) /\ used_threads (glob w') = used_threads (glob w) /\
  forall t, kernel_thread <$> pthreads w' !! t = kernel_thread <$> pthreads w !! t.

Lemma same_threads_runs me t w w' : same_threads w w' -> runs me t w -> runs me t w'.
Proof.
  intros (Ht & _ & Hk) (Htab & Htls & p & Hp & He). split; [by rewrite Ht|]. split; [done|].
  specialize (Hk t). rewrite Hp in Hk. destruct (pthreads w' !! t) as [p'|] eqn:Hp'; [|done].
  injection Hk as Hk. exists p'. split; [done|]. congruence.
Qed.

(** The operation [op] of thread [t] leads from [w] to [w'] as it should. *)
Definition implements (t : nat) (op : key_op) (w : world) (s : kstate) (r : key_result) (w' : world) : Prop :=
  keys_wf w' /\ same_threads w w' /\ exists s', key_spec t op s r s' /\ krep w' s'.

(** ** The operations *)

(** A change of the keys alone. *)
Lemma keys_wf_with_keys k l w :
  keys_wf w -> keys_ok k ->
  (forall key, valid_key (keys (glob w)) key = true -> valid_key k key = true) ->
  keys_wf (with_keys k (set_env (set_answers l (env w)) w)).
Proof. intros [[] [] ? ? ? ? Hv] Hk Hval. split; try done. intros t key Ht. by apply Hval, (Hv t). Qed.

Lemma create_implements t d me w s :
  keys_wf w -> krep w s -> runs me t w -> d <> KeyInvalid ->
  exists r w', solo (key_run (KCreate d) me w) = Done r w' /\ implements t (KCreate d) w s r w'.
Proof.
  intros Hw Hs Hr Hd. destruct (key_create_at d me (hold_keys a t w)) as (e & key & k' & w' & Hrun & [l Hl] & Hok & Hc);
    [apply Hw | done |].
  set (w1 := with_keys k' (set_env (set_answers l (env w)) w)).
  assert (keys_free a w1) as Hf1 by (by destruct Hw as [[] ? ? ? ? ? ?]).
  exists (if decide (e = OK) then KKey key else KErr e), w1. split.
  { cbn [key_run mbind M_bind]. unfold pthread_key_create.
    etransitivity; [apply (solo_with_keys (fun k => key_create_locked 1 k d) a me t w (e, key) w1);
      [apply Hw | done | | done | done]|done].
    change (solo (key_create_locked 1 (keys (glob (hold_keys a t w))) d me (hold_keys a t w)) = Done (e, key) (hold_keys a t w1)).
    rewrite Hrun, Hl. done. }
  change (keys (glob (hold_keys a t w))) with (keys (glob w)) in Hc. destruct (decide (e = OK)) as [-> | Hne].
  - destruct Hc as (Hold & Hnew & Hdes). split; [|split; [by split|]].
    + apply keys_wf_with_keys; [done|exact Hok|]. intros key' (d' & Hd' & Hne')%valid_key_at; [|apply Hw].
      apply valid_key_at; [done|]. rewrite Hdes. destruct (decide (key = key')) as [<- | Hk].
      * exists d. by rewrite lookup_insert_eq.
      * exists d'. by rewrite lookup_insert_ne.
    + eexists. split; [apply ks_create|split].
      * by rewrite (alive_invalid w s).
      * intros u. rewrite (kr_vals _ _ Hs). destruct (decide (thread_value w u key = 0)) as [|Hnz]; [done|].
        apply (kw_valid _ Hw) in Hnz. congruence.
      * cbn. unfold valid_destructors. rewrite Hdes, map_filter_insert_True by done. f_equal. apply Hs.
      * intros u key'. apply (kr_vals _ _ Hs).
  - destruct Hc as (-> & Hdes & Hcount). split; [|split; [by split|]].
    + apply keys_wf_with_keys; [done|done|]. intros key'. unfold valid_key. by rewrite Hdes, Hcount.
    + exists s. split; [apply ks_create_full|]. split; [|apply Hs]. rewrite (kr_alive _ _ Hs).
      unfold valid_destructors. cbn. by rewrite Hdes.
Qed.

Lemma get_implements t key me w s :
  keys_wf w -> krep w s -> runs me t w ->
  exists r w', solo (key_run (KGet key) me w) = Done r w' /\ implements t (KGet key) w s r w'.
Proof.
  intros Hw Hs Hr. exists (KVal (vals s t key)), w. split.
  - rewrite (kr_vals _ _ Hs). unfold key_run, pthread_getspecific. cbn.
    destruct (valid_key (keys (glob w)) key) eqn:Hv; cbn.
    + rewrite (pthread_self_runs me t) by done. cbn. unfold get_thread. cbn.
      destruct Hr as (_ & _ & p & Hp & _). rewrite Hp. cbn. unfold thread_value, table_of. rewrite Hp. cbn.
      destruct (thread_specifics p) as [h|] eqn:Hh; cbn; [|done].
      rewrite ihash_find_spec; [done|]. apply (kw_tables _ Hw t). unfold table_of. by rewrite Hp.
    + f_equal. f_equal. destruct (decide (thread_value w t key = 0)) as [|Hnz]; [done|].
      apply (kw_valid _ Hw) in Hnz. congruence.
  - split; [done|]. split; [done|]. exists s. split; [apply ks_get|done].
Qed.

Lemma wf_ext_same w x :
  keys_wf w -> tables x = tables (ext_mem (env w)) ->
  (forall h k, value x h k = value (ext_mem (env w)) h k) ->
  keys_wf (with_ext x w) /\ forall t k, thread_value (with_ext x w) t k = thread_value w t k.
Proof.
  intros [[] [] ? ? Ht ? Hv] Htab Hval.
  assert (forall t k, thread_value (with_ext x w) t k = thread_value w t k) as Hsame.
  { intros t k. unfold thread_value. cbn. change (table_of (with_ext x w) t) with (table_of w t).
    by destruct (table_of w t). }
  split; [|done]. split; try done.
  - intros t h Hh. cbn. rewrite Htab. by apply Ht.
  - intros t key. rewrite Hsame. apply Hv.
Qed.

(** The table of a thread gets the value. *)
Lemma wf_set_value w x t h key v :
  keys_wf w -> table_of w t = Some h -> valid_key (keys (glob w)) key = true \/ v = 0 ->
  tables x = tables (ext_mem (env w)) ->
  (forall h' k, value x h' k = if decide (h' = h /\ k = key) then v else value (ext_mem (env w)) h' k) ->
  keys_wf (with_ext x w) /\
  forall u k, thread_value (with_ext x w) u k = if decide (u = t /\ k = key) then v else thread_value w u k.
Proof.
  intros [[] [] ? ? Ht Ho Hv] Hh Hkey Htab Hval.
  assert (forall u k, thread_value (with_ext x w) u k = if decide (u = t /\ k = key) then v else thread_value w u k) as Hsame.
  { intros u k. unfold thread_value. cbn. change (table_of (with_ext x w) u) with (table_of w u).
    destruct (table_of w u) as [h'|] eqn:Hh'.
    - rewrite Hval. destruct (decide (h' = h /\ k = key)) as [[-> ->] | Hne].
      + by rewrite decide_True by (split; [by eapply Ho | done]).
      + rewrite decide_False; [done|]. intros [-> ->]. apply Hne. split; [congruence | done].
    - rewrite decide_False; [done|]. intros [-> ->]. congruence. }
  split; [|done]. split; try done.
  - intros u h' Hh'. cbn. rewrite Htab. by apply Ht.
  - intros u k. rewrite Hsame. case_decide as Hc; [|apply Hv]. destruct Hc as [_ ->]. by destruct Hkey.
Qed.

(** A thread gets an empty table. *)
Lemma wf_new_table w x t p h :
  keys_wf w -> pthreads w !! t = Some p -> thread_specifics p = None -> Some t ∈ used_threads (glob w) ->
  h ∉ tables (ext_mem (env w)) -> tables x = {[h]} ∪ tables (ext_mem (env w)) ->
  (forall k, value x h k = 0) -> (forall h' k, h' <> h -> value x h' k = value (ext_mem (env w)) h' k) ->
  let w' := set_pthreads (<[t := with_thread_specifics (Some h) p]> (pthreads w)) (with_ext x w) in
  keys_wf w' /\ table_of w' t = Some h /\ (forall u k, thread_value w' u k = thread_value w u k) /\ same_threads w w'.
Proof.
  intros [[] [] ? Hus Ht Ho Hv] Hp Hnone Hused Hh Htab Hzero Hval w'.
  assert (forall u, table_of w' u = if decide (u = t) then Some h else table_of w u) as Hof.
  { intros u. unfold table_of, w'. cbn. case_decide as Hu; [subst; by rewrite lookup_insert_eq|].
    by rewrite lookup_insert_ne. }
  assert (forall u k, thread_value w' u k = thread_value w u k) as Hsame.
  { intros u k. unfold thread_value. rewrite Hof. cbn. case_decide as Hu.
    - subst. rewrite Hzero. unfold table_of. rewrite Hp. cbn. by rewrite Hnone.
    - destruct (table_of w u) as [h'|] eqn:Hh'; [|done]. apply Hval. intros ->. by apply Hh, (Ht u). }
  split_and!.
  - split; try done.
    + intros u Hu. unfold w'. cbn. destruct (decide (t = u)) as [<- | Hne]; [by rewrite lookup_insert_eq; eexists|].
      rewrite lookup_insert_ne by done. by apply Hus.
    + intros u h'. rewrite Hof. cbn. rewrite Htab. case_decide as Hu.
      * intros [= <-]. subst. split; [set_solver | done].
      * intros Hh'. destruct (Ht u h' Hh'). split; [set_solver | done].
    + intros u1 u2 h'. rewrite !Hof. do 2 case_decide; intros Hu1 Hu2; simplify_eq; try done.
      * by destruct Hh; apply (Ht u2).
      * by destruct Hh; apply (Ht u1).
      * by eapply Ho.
    + intros u key. rewrite Hsame. apply Hv.
  - rewrite Hof. by rewrite decide_True.
  - done.
  - split; [done|]. split; [done|]. intros u. unfold w'. cbn. destruct (decide (t = u)) as [<- | Hne].
    + rewrite lookup_insert_eq, Hp. done.
    + by rewrite lookup_insert_ne.
Qed.

(** The table of the thread, made if it has none. *)
Lemma add_value key v t h me w :
  keys_wf w -> table_of w t = Some h -> valid_key (keys (glob w)) key = true ->
  exists e w', hurd_ihash_add h key v me w = Done e w' /\ keys_wf w' /\ same_threads w w' /\ keys (glob w') = keys (glob w) /\
    forall u k, thread_value w' u k = if decide (e = OK /\ u = t /\ k = key) then v else thread_value w u k.
Proof.
  intros Hw Hh Hv. destruct (ihash_add_spec h key v me w) as (e & x & Hadd & Htab & Hval); [by apply (kw_tables _ Hw t)|].
  exists e, (with_ext x w). split; [done|]. destruct (decide (e = OK)) as [-> | Hne].
  - destruct (wf_set_value w x t h key v) as [Hw' Hsame]; [done|done|by left|done| |].
    { intros h' k. rewrite Hval. destruct (decide (h' = h /\ k = key)); [by rewrite decide_True | by rewrite decide_False by tauto]. }
    split; [done|]. split; [done|]. split; [done|]. intros u k. rewrite Hsame.
    destruct (decide (u = t /\ k = key)); [by rewrite decide_True | by rewrite decide_False by tauto].
  - destruct (wf_ext_same w x) as [Hw' Hsame]; [done|done| |].
    { intros h' k. rewrite Hval. by rewrite decide_False by tauto. }
    split; [done|]. split; [done|]. split; [done|]. intros u k. rewrite Hsame. by rewrite decide_False by tauto.
Qed.

Lemma same_threads_trans w1 w2 w3 : same_threads w1 w2 -> same_threads w2 w3 -> same_threads w1 w3.
Proof.
  intros (H1 & H2 & H3) (H4 & H5 & H6). split; [congruence|]. split; [congruence|].
  intros t. by rewrite H6.
Qed.

(** What [pthread_setspecific] leaves if it gets as far as the table. *)
Lemma set_value_implements t key v e w w' s :
  keys_wf w -> krep w s -> valid_key (keys (glob w)) key = true ->
  keys_wf w' -> same_threads w w' -> keys (glob w') = keys (glob w) ->
  (forall u k, thread_value w' u k = if decide (e = OK /\ u = t /\ k = key) then v else thread_value w u k) ->
  implements t (KSet key v) w s (KErr (if decide (e = OK) then OK else ENOMEM)) w'.
Proof.
  intros Hw Hs Hv Hw' Hsame Hk Hval. split; [done|]. split; [done|].
  assert (is_Some (alive s !! key)) as Ha by (by apply (alive_valid w s)).
  destruct (decide (e = OK)) as [-> | Hne].
  - eexists. split; [by apply ks_set|]. split; cbn.
    + rewrite (kr_alive _ _ Hs). by rewrite Hk.
    + intros u k. rewrite Hval, <- (kr_vals _ _ Hs).
      destruct (decide (u = t /\ k = key)); [by rewrite decide_True | by rewrite decide_False by tauto].
  - exists s. split; [by apply ks_set_full|]. split.
    + rewrite (kr_alive _ _ Hs). by rewrite Hk.
    + intros u k. rewrite Hval, <- (kr_vals _ _ Hs). by rewrite decide_False by tauto.
Qed.

Lemma set_implements t key v me w s :
  keys_wf w -> krep w s -> runs me t w -> Some t ∈ used_threads (glob w) ->
  exists r w', solo (key_run (KSet key v) me w) = Done r w' /\ implements t (KSet key v) w s r w'.
Proof.
  intros Hw Hs Hr Hused. unfold key_run, pthread_setspecific. cbn.
  rewrite (pthread_self_runs me t) by done. cbn.
  destruct (valid_key (keys (glob w)) key) eqn:Hv; cbn.
  2:{ eexists _, w. split; [done|]. split; [done|]. split; [by split|]. exists s.
      split; [apply ks_set_bad; by apply (alive_invalid w s)|done]. }
  unfold get_thread. cbn. pose proof Hr as (_ & _ & p & Hp & _). rewrite Hp. cbn.
  destruct (thread_specifics p) as [h|] eqn:Hh; cbn.
  - destruct (add_value key v t h me w) as (e & w' & Hadd & Hw' & Hst & Hk & Hval); [done|unfold table_of; by rewrite Hp|done|].
    rewrite Hadd. cbn. exists (KErr (if decide (e = OK) then OK else ENOMEM)), w'. split; [by destruct (decide (e = OK))|].
    by apply set_value_implements.
  - destruct (ihash_create_spec me w) as (o & x & Hc & Ho). rewrite Hc. cbn. destruct o as [h|]; cbn.
    + destruct Ho as (Hfresh & Htab & Hzero & Hother).
      rewrite (update_thread_at t (with_thread_specifics (Some h)) p) by done. cbn.
      destruct (wf_new_table w x t p h) as (Hw1 & Ht1 & Hval1 & Hst1); [done..|].
      unfold with_thread. match type of Hw1 with keys_wf ?u => set (w1 := u) in * end.
      destruct (add_value key v t h me w1) as (e & w' & Hadd & Hw' & Hst & Hk & Hval); [done..|].
      change (set_pthreads _ _) with w1. rewrite Hadd. cbn. exists (KErr (if decide (e = OK) then OK else ENOMEM)), w'. split; [by destruct (decide (e = OK))|].
      apply set_value_implements; try done; [by eapply same_threads_trans|].
      intros u k. by rewrite Hval, Hval1.
    + destruct Ho as [Htab Hval]. destruct (wf_ext_same w x) as [Hw' Hsame]; [done..|].
      eexists _, (with_ext x w). split; [done|].
      by apply (set_value_implements t key v ENOMEM).
Qed.

(** ** Deletion *)

(** The tables of the threads of the list. *)
Definition tables_of (w : world) (l : list (option nat)) : list (option Z) :=
  map (fun o => o ≫= table_of w) l.

(** The values of the threads of the list are gone. *)
Lemma remove_key_all_at key l me w :
  (forall t, Some t ∈ l -> is_Some (pthreads w !! t)) ->
  (forall t h, table_of w t = Some h -> h ∈ tables (ext_mem (env w))) ->
  exists x, remove_key_all key l me w = Done tt (with_ext x w) /\ tables x = tables (ext_mem (env w)) /\
    forall h k, value x h k =
      if decide (k = key /\ Some h ∈ tables_of w l) then 0 else value (ext_mem (env w)) h k.
Proof.
  revert w. induction l as [|[t|] l IHl]; intros w Hl Ht.
  - exists (ext_mem (env w)). split; [by destruct w as [? ? ? ? ? ? ? ? ? ? ? []]|]. split; [done|]. intros h k.
    rewrite decide_False; [done|]. cbn. set_solver.
  - cbn. unfold remove_key_of, get_thread. cbn. destruct (Hl t) as [p Hp]; [by left|]. rewrite Hp. cbn.
    assert (table_of w t = thread_specifics p) as Htt by (unfold table_of; by rewrite Hp). rewrite Htt.
    destruct (thread_specifics p) as [h|] eqn:Hh; cbn.
    + destruct (ihash_remove_spec h key me w) as (r & x & Hrem & Htab & _ & Hval); [by apply (Ht t)|].
      rewrite Hrem. cbn. destruct (IHl (with_ext x w)) as (x' & Hrun & Htab' & Hval').
      * intros u Hu. apply Hl. by right.
      * intros u h' Hh'. cbn. rewrite Htab. by apply (Ht u).
      * exists x'. split; [exact Hrun|]. cbn in *. split; [congruence|]. intros h' k. rewrite Hval', Hval.
        change (tables_of (with_ext x w) l) with (tables_of w l).
        repeat case_decide; try done; set_solver.
    + destruct (IHl w) as (x' & Hrun & Htab' & Hval'); [intros u Hu; apply Hl; by right | done|].
      exists x'. split; [exact Hrun|]. split; [done|]. intros h' k. rewrite Hval'. apply decide_ext. set_solver.
  - cbn. destruct (IHl w) as (x' & Hrun & Htab' & Hval'); [intros u Hu; apply Hl; by right | done|].
    exists x'. split; [exact Hrun|]. split; [done|]. intros h' k. rewrite Hval'. apply decide_ext. set_solver.
Qed.

Definition deleted (k : keys_t) (key : Z) : keys_t :=
  mkKeys (set_slot k key KeyInvalid) (key_size k) (key_count k) (key_invalid_count k + 1) (key_index k).

Lemma deleted_ok k key : keys_ok k -> valid_key k key = true -> keys_ok (deleted k key).
Proof.
  intros Hk (d & Hd & Hne)%valid_key_at; [|done]. destruct Hk as [Hi Hs He Hc].
  assert (is_Some (key_destructors k !! key)) as Hr%He by (by eexists).
  assert (invalid_keys k !! key = None) as Hnone.
  { apply map_lookup_filter_None. right. intros d' Hd'. cbn. congruence. }
  split; cbn; try lia.
  - intros j. unfold set_slot. rewrite lookup_insert_is_Some, He. destruct (decide (key = j)); intuition lia.
  - rewrite Hc. unfold invalid_keys at 2. cbn. unfold set_slot. rewrite map_filter_insert_True by done.
    fold (invalid_keys k). rewrite map_size_insert_None by done. lia.
Qed.

Lemma deleted_valid k key key' :
  keys_ok k -> valid_key k key = true ->
  valid_key (deleted k key) key' = (valid_key k key' && bool_decide (key' <> key)).
Proof.
  intros Hk Hv. apply Bool.eq_iff_eq_true. rewrite andb_true_iff, bool_decide_eq_true.
  rewrite !valid_key_at by (done || by apply deleted_ok). cbn. unfold set_slot. split.
  - intros (d & Hd & Hne). destruct (decide (key = key')) as [<- | Hk'].
    + rewrite lookup_insert_eq in Hd. congruence.
    + rewrite lookup_insert_ne in Hd by done. split; [by exists d | done].
  - intros [(d & Hd & Hne) Hk']. exists d. by rewrite lookup_insert_ne.
Qed.

(** The keys and the values after a deletion. *)
Lemma wf_delete w x key :
  keys_wf w -> valid_key (keys (glob w)) key = true ->
  tables x = tables (ext_mem (env w)) ->
  (forall h k, value x h k =
     if decide (k = key /\ Some h ∈ tables_of w (used_threads (glob w))) then 0 else value (ext_mem (env w)) h k) ->
  let w' := with_ext x (with_keys (deleted (keys (glob w)) key) w) in
  keys_wf w' /\ forall u k, thread_value w' u k = if decide (k = key) then 0 else thread_value w u k.
Proof.
  intros Hw Hkey Htab Hval w'.
  assert (forall u k, thread_value w' u k = if decide (k = key) then 0 else thread_value w u k) as Hsame.
  { intros u k. unfold thread_value. change (table_of w' u) with (table_of w u). cbn.
    destruct (table_of w u) as [h|] eqn:Hh; [|by destruct (decide _)]. rewrite Hval. apply decide_ext.
    split; [by intros []|]. intros ->. split; [done|]. apply list_elem_of_In, in_map_iff. exists (Some u). split; [done|].
    by apply list_elem_of_In, (kw_tables _ Hw u h). }
  split; [|done]. pose proof (deleted_ok _ _ (kw_keys _ Hw) Hkey) as Hok. destruct Hw as [[] [] Hk ? Ht ? Hv].
  split; try done.
  - intros t h Hh. cbn. rewrite Htab. by apply Ht.
  - intros t key'. rewrite Hsame. case_decide as Hk'; [done|]. intros Hnz%Hv.
    change (keys (glob w')) with (deleted (keys (glob w)) key).
    by rewrite deleted_valid, Hnz, bool_decide_eq_true_2.
Qed.

Lemma delete_implements t key me w s :
  keys_wf w -> krep w s -> runs me t w ->
  exists r w', solo (key_run (KDelete key) me w) = Done r w' /\ implements t (KDelete key) w s r w'.
Proof.
  intros Hw Hs Hr. unfold key_run, pthread_key_delete. destruct (valid_key (keys (glob w)) key) eqn:Hv.
  2:{ eexists _, w. split.
      { etransitivity; [apply (solo_with_keys (fun k => if negb (valid_key k key) then mret EINVAL else _)
          a me t w EINVAL w); try done; [apply Hw | cbn; by rewrite Hv | apply Hw] | done]. }
      split; [done|]. split; [by split|]. exists s. split; [|done].
      apply ks_delete_bad. by apply (alive_invalid w s). }
  set (k1 := deleted (keys (glob w)) key). set (w1 := hold_keys a t (with_keys k1 w)).
  assert (rwlock_idle RThreadsLock attr w1) as Hidle.
  { destruct (kw_lock _ Hw) as []. split; try done; cbn; set_solver. }
  destruct (remove_key_all_at key (used_threads (glob w)) me (hold_rwlock RThreadsLock attr 1 w1))
    as (x & Hrun & Htab & Hval); [apply Hw | intros u h Hh; by apply (kw_tables _ Hw u h)|].
  destruct (wf_delete w x key) as [Hw' Hsame]; [done..|].
  set (w' := with_ext x (with_keys k1 w)) in *.
  exists (KErr OK), w'. split.
  { etransitivity; [apply (solo_with_keys (fun k => if negb (valid_key k key) then mret EINVAL else _)
      a me t w OK w'); try done; [apply Hw | | apply Hw'] | done].
    change (keys (glob (hold_keys a t w))) with (keys (glob w)). rewrite Hv. cbn [negb].
    cbn [mbind M_bind put_keys put_glob modify bindr].

    change (set_glob _ (hold_keys a t w)) with w1.
    rewrite (solo_rdlock RThreadsLock attr) by done. cbn [get_glob gets bindr].
    change (used_threads (glob (hold_rwlock RThreadsLock attr 1 w1))) with (used_threads (glob w)). rewrite Hrun. cbn [bindr].
    assert (rwlock_idle RThreadsLock attr (with_ext x w1)) as Hidle' by (by destruct Hidle).
    change (with_ext x (hold_rwlock RThreadsLock attr 1 w1)) with (hold_rwlock RThreadsLock attr 1 (with_ext x w1)).
    rewrite (solo_rwlock_unlock RThreadsLock attr 1); try apply Hidle'; [|apply lookup_insert_eq|by right|..].
    - rewrite hold_rwlock_undo by done. done.
    - destruct Hidle'. cbn. set_solver.
    - cbn. set_solver. }
  split; [done|]. split; [done|]. eexists. split; [apply ks_delete; by apply (alive_valid w s)|].
  split; cbn.
  - rewrite (kr_alive _ _ Hs). unfold valid_destructors. cbn. unfold set_slot.
    rewrite map_filter_insert_False by (cbn; by intros []). by rewrite map_filter_delete.
  - intros u k. rewrite Hsame. destruct (decide (k = key)); [done|]. apply Hs.
Qed.
(** ** Sequences of operations *)

(** No destructor of an application is the invalid one. *)
Definition proper_op (op : key_op) : Prop :=
  match op with KCreate d => d <> KeyInvalid | _ => True end.

(** The threads of the calls run, and the table of threads has them. *)
Definition callers (ctx : nat -> kctx) (l : list (nat * key_op)) (w : world) : Prop :=
  forall t op, (t, op) ∈ l -> runs (ctx t) t w /\ Some t ∈ used_threads (glob w) /\ proper_op op.

Lemma op_implements t op me w s :
  keys_wf w -> krep w s -> runs me t w -> Some t ∈ used_threads (glob w) -> proper_op op ->
  exists r w', solo (key_run op me w) = Done r w' /\ implements t op w s r w'.
Proof.
  intros Hw Hs Hr Hu Hop. destruct op.
  - by apply create_implements.
  - by apply delete_implements.
  - by apply set_implements.
  - by apply get_implements.
Qed.

End KeySpec.

(** ** A concrete table and a concrete run *)

Section Demo.
(** Cell [(h, 1)] says that [h] is a table; [(h, 2 * k)] holds its item [k]. *)
Definition map_tables (x : ext_memory) : gset Z := set_map fst (filter (fun p => p.2 = 1) (dom x)).
Definition map_value (x : ext_memory) (h k : Z) : Z := default 0 (x !! (h, 2 * k)).

Definition change_ext (f : ext_memory -> ext_memory) : M unit := modify (fun w => with_ext (f (ext_mem (env w))) w).

Definition map_ihash : IHash := {|
  hurd_ihash_create :=
    x ← gets (fun w => ext_mem (env w));
    let h := fresh (set_map (D := gset Z) fst (dom x)) in
    change_ext (<[(h, 1) := 1]>);; mret (Some h);
  hurd_ihash_free h := change_ext (delete (h, 1));
  hurd_ihash_find h k := gets (fun w => map_value (ext_mem (env w)) h k);
  hurd_ihash_add h k v := change_ext (<[(h, 2 * k) := v]>);; mret OK;
  hurd_ihash_remove h k :=
    x ← gets (fun w => ext_mem (env w));
    change_ext (delete (h, 2 * k));;
    mret (if bool_decide (is_Some (x !! (h, 2 * k))) then 1 else 0) |}.

Lemma map_tables_spec x h : h ∈ map_tables x <-> is_Some (x !! (h, 1)).
Proof.
  unfold map_tables. rewrite elem_of_map, <- elem_of_dom. split.
  - intros ([h' k] & -> & [Hk Hd]%elem_of_filter). cbn in *. by subst.
  - intros Hd. exists (h, 1). split; [done|]. by apply elem_of_filter.
Qed.

#[export] Instance map_ihash_laws : IHashLaws map_ihash.
Proof.
  refine {| tables := map_tables; value := map_value |}; intros.
  - set (h := fresh (set_map (D := gset Z) fst (dom x))).
    assert (forall k, x !! (h, k) = None) as Hnone.
    { intros k. apply not_elem_of_dom. intros Hd. apply (is_fresh (set_map (D := gset Z) fst (dom x))).
      apply elem_of_map. by exists (h, k). }
    exists (Some h), (<[(h, 1) := 1]> x). split; [done|]. split_and!.
    + rewrite map_tables_spec, Hnone. by intros [].
    + apply set_eq. intros h'. rewrite elem_of_union, elem_of_singleton, !map_tables_spec, lookup_insert_is_Some.
      destruct (decide (h' = h)) as [-> | Hne]; [naive_solver|]. split; [intros [[= ->]|[_ ?]]; auto|].
      intros [?|?]; [done|]. right. split; [congruence|done].
    + intros k. unfold map_value. rewrite lookup_insert_ne by (intros [=]; lia). by rewrite Hnone.
    + intros h' k Hne. unfold map_value. by rewrite lookup_insert_ne by congruence.
  - exists (delete (h, 1) x). split; [done|]. split.
    + apply set_eq. intros h'. rewrite elem_of_difference, elem_of_singleton, !map_tables_spec, lookup_delete_is_Some.
      destruct (decide (h' = h)) as [-> | Hne]; [naive_solver|]. split; [by intros []|].
      intros [? _]. split; [congruence|done].
    + intros h' k Hne. unfold map_value. by rewrite lookup_delete_ne by congruence.
  - done.
  - exists OK, (<[(h, 2 * k) := v]> x). split; [done|]. split.
    + apply set_eq. intros h'. rewrite !map_tables_spec, lookup_insert_ne; [done|]. intros [=]; lia.
    + intros h' k'. unfold map_value. case_decide as Hc.
      * destruct Hc as (_ & -> & ->). by rewrite lookup_insert_eq.
      * rewrite lookup_insert_ne; [done|]. intros [= -> ?]. apply Hc. split_and!; [done..|lia].
  - exists (if bool_decide (is_Some (x !! (h, 2 * k))) then 1 else 0), (delete (h, 2 * k) x).
    split; [done|]. split_and!.
    + apply set_eq. intros h'. rewrite !map_tables_spec, lookup_delete_ne; [done|]. intros [=]; lia.
    + unfold map_value. intros Hv. by destruct (x !! (h, 2 * k)).
    + intros h' k'. unfold map_value. case_decide as Hc.
      * destruct Hc as (-> & ->). by rewrite lookup_delete_eq.
      * rewrite lookup_delete_ne; [done|]. intros [= -> ?]. apply Hc. split; [done|lia].
Defined.

Definition key_attr : mutexattr := mkMutexattr 0 0 0 PTHREAD_MUTEX_RECURSIVE.

(** Two threads, and the lock of the keys. *)
Definition demo_keys : world :=
  set_onces {[OKeyReady := 1]} (set_mutexes {[MKeyLock := mkMutex (AHeap key_attr) None 0]} (demo_threads 2)).

Lemma demo_keys_table t : table_of demo_keys t = None.
Proof.
  unfold table_of. change (pthreads demo_keys) with ({[0%nat := demo_pthread 0; 1%nat := demo_pthread 1]} : gmap nat pthread).
  destruct t as [|[|t]]; [done..|]. by rewrite lookup_insert_ne, lookup_singleton_ne.
Qed.

Lemma demo_keys_value t key : thread_value (IH := map_ihash) demo_keys t key = 0.
Proof. unfold thread_value. by rewrite demo_keys_table. Qed.

Lemma demo_keys_wf : keys_wf (IH := map_ihash) key_attr None demo_keys.
Proof.
  split; try done.
  - split; try done. intros i. change (is_Some (None : option destructor) <-> 0 <= i < 0). split; [by intros []|lia].
  - intros t Ht. change (Some t ∈ [Some 0%nat; Some 1%nat]) in Ht.
    repeat (apply elem_of_cons in Ht as [[= ->]|Ht]; [by eexists|]). by apply elem_of_nil in Ht.
  - intros t h. by rewrite demo_keys_table.
  - intros t u h. by rewrite demo_keys_table.
  - intros t key. by rewrite demo_keys_value.
Qed.

(** Thread 0 makes a key; each of the two threads sets its own value of it; then
    thread 1 deletes it. *)
Definition demo_calls : list (nat * key_op) :=
  [(0%nat, KCreate KeyNull); (1%nat, KSet 0 7); (0%nat, KSet 0 8); (1%nat, KGet 0); (0%nat, KGet 0);
   (1%nat, KDelete 0); (0%nat, KGet 0); (0%nat, KSet 0 9)].

End Demo.
