(* ===== verification/ExitSpec.v ===== *)
(** * The end of a thread

    [__pthread_exit] with cleanup handlers and destructors of the application. *)
From Stdlib Require Import ZArith Lia.
From S2P Require Import Prelude Queue World Machine Platform Sched Mach Demo Attr Mutex Rwlock Barrier Cond Kernel KernelFacts Keys Threads ThreadFacts KeyFacts KeySpec.
Local Open Scope Z_scope.

#[local] Arguments update_thread : simpl never.
#[local] Arguments cancelled : simpl never.
#[local] Arguments destroy_key : simpl never.
#[local] Arguments __pthread_thread_halt : simpl never.
#[local] Arguments __pthread_cond_broadcast : simpl never.
#[local] Arguments __pthread_dealloc : simpl never.

(** ** Applications *)

(** An assumption on the application: its cleanup handlers, destructors and start
    routines return and work on its own memory; they do not call the library.  The
    library allows them to (a destructor may call pthread_key_delete or set values
    again, see pthread/pt-key.h and pt-destroy-specific.c); what happens then is not
    covered by the theorems that ask for an instance. *)
Class AppCalls `{Platform} := {
  app_answer : Z -> Z -> gmap nat Z -> Z;
  app_effect : Z -> Z -> gmap nat Z -> gmap nat Z;
  app_call_spec f arg me w :
    call f arg me w = Done (app_answer f arg (umem w)) (set_umem (app_effect f arg (umem w)) w);
}.

Section Exit.
Context `{P : Platform} `{IH : IHash} `{!IHashLaws IH} `{!AppCalls}.

(** The calls one after the other. *)
Definition run_calls (l : list (Z * Z)) (m : gmap nat Z) : gmap nat Z :=
  foldl (fun m c => app_effect c.1 c.2 m) m l.

Definition after_calls (l : list (Z * Z)) (w : world) : world := set_umem (run_calls l (umem w)) w.

Lemma after_calls_app l1 l2 w : after_calls l2 (after_calls l1 w) = after_calls (l1 ++ l2) w.
Proof. unfold after_calls, run_calls. cbn. by rewrite foldl_app. Qed.

Lemma after_calls_nil w : after_calls [] w = w.
Proof. by destruct w. Qed.

(** A change of its structure does not stop a thread. *)
Lemma runs_changed me t p p' w w' :
  runs me t w -> pthreads w !! t = Some p -> kernel_thread p' = kernel_thread p ->
  pthreads w' !! t = Some p' -> threads_tab (glob w') = threads_tab (glob w) -> runs me t w'.
Proof.
  intros (Htab & Htls & q & Hq & Hk) Hp Hk' Hp' Htab'. split; [by rewrite Htab'|]. split; [done|].
  exists p'. split; [done|]. congruence.
Qed.

(** ** Cancelation and cleanup handlers *)

Lemma solo_setcancelstate state t p me w {B} (f : error_t * Z -> world -> res B) :
  runs me t w -> pthreads w !! t = Some p -> mutex_idle (MCancelLock t) w ->
  state = PTHREAD_CANCEL_ENABLE \/ state = PTHREAD_CANCEL_DISABLE ->
  solo (bindr (__pthread_setcancelstate state me w) f) =
  solo (f (OK, cancel_state p) (with_thread t (with_cancel_state state p) w)).
Proof.
  intros Hr Hp Hc Hs. unfold __pthread_setcancelstate. cbn [mbind M_bind].
  rewrite (pthread_self_runs me t) by done. cbn [bindr].
  assert (negb ((state =? PTHREAD_CANCEL_ENABLE) || (state =? PTHREAD_CANCEL_DISABLE)) = false) as -> by (by destruct Hs as [-> | ->]).
  cbn [mbind M_bind]. rewrite bindr_assoc, solo_mutex_lock by done. unfold get_thread at 1. cbn. rewrite Hp. cbn.
  pose proof Hc as [(o & n & Hm) Hl Hh Hq].
  rewrite bindr_assoc, (solo_mutex_unlock _ o n) by (done || (cbn; set_solver)). cbn. rewrite spins_cycle by done.
  unfold with_thread, hold_mutex. cbn. by destruct w.
Qed.

Definition user_handlers (hs : list (Z * Z)) : list cancelation_handler :=
  map (fun c => HandlerUser c.1 c.2) hs.

Lemma run_handlers_at hs fuel t p me w :
  pthreads w !! t = Some p -> cancelation_handlers p = user_handlers hs -> (length hs <= fuel)%nat ->
  run_handlers fuel t me w = Done tt (with_thread t (with_cancelation_handlers [] p) (after_calls hs w)).
Proof.
  revert fuel p w. induction hs as [|[f arg] hs IHhs]; intros fuel p w Hp Hh Hf.
  - rewrite after_calls_nil. assert (with_thread t (with_cancelation_handlers [] p) w = w) as ->.
    { unfold with_thread. rewrite insert_id; [by destruct w|]. rewrite Hp. f_equal. destruct p. cbn in *. by rewrite Hh. }
    destruct fuel; cbn; unfold get_thread; cbn; rewrite Hp; cbn; rewrite Hh; done.
  - destruct fuel as [|fuel]; [cbn in Hf; lia|]. cbn. rewrite Hp. cbn. rewrite Hh. cbn.
    rewrite app_call_spec. cbn. rewrite (update_thread_at t _ p) by done. cbn.
    rewrite (IHhs fuel (with_cancelation_handlers (user_handlers hs) p)).
    + unfold with_thread, after_calls. cbn. by rewrite insert_insert_eq.
    + cbn. rewrite lookup_insert_eq. by rewrite Hh.
    + done.
    + cbn in Hf. lia.
Qed.

(** ** Destructors *)

(** The calls for the keys from [i] on: those with a destructor and a value. *)
Definition destructor_call (k : keys_t) (x : ext_memory) (h i : Z) : option (Z * Z) :=
  match key_destructors k !! i with
  | Some (KeyFn f) => if value x h i =? 0 then None else Some (f, value x h i)
  | _ => None
  end.

Definition destructor_calls (k : keys_t) (x : ext_memory) (h : Z) (l : list Z) : list (Z * Z) :=
  omap (destructor_call k x h) l.

(** All keys in the order of the array. *)
Definition all_keys (k : keys_t) : list Z := seqZ 0 (key_count k).

Lemma destructor_calls_ext k x x' h l :
  (forall i, i ∈ l -> value x' h i = value x h i) -> destructor_calls k x' h l = destructor_calls k x h l.
Proof.
  induction l as [|i l IHl]; intros Hl; [done|]. unfold destructor_calls in *. cbn.
  rewrite IHl by (intros; apply Hl; by right). unfold destructor_call. by rewrite (Hl i) by (by left).
Qed.

Lemma destructor_calls_none k x h l :
  (forall i, valid_key k i = true -> value x h i = 0) -> keys_ok k -> destructor_calls k x h l = [].
Proof.
  intros Hv Hk. induction l as [|i l IHl]; [done|]. unfold destructor_calls in *. cbn. rewrite IHl.
  unfold destructor_call. destruct (key_destructors k !! i) as [[| |f]|] eqn:Hd; [done..| |done].
  rewrite Hv; [done|]. apply valid_key_at; [done|]. by exists (KeyFn f).
Qed.

(** The values of the keys from [i] on are gone. *)
Definition values_taken (k : keys_t) (h i : Z) (x x' : ext_memory) : Prop :=
  tables x' = tables x /\
  forall h' k', value x' h' k' =
    if decide (h' = h /\ i <= k' /\ valid_key k k' = true) then 0 else value x h' k'.

(** One key. *)
Lemma destroy_key_at h i me w :
  let k := keys (glob w) in let x := ext_mem (env w) in
  keys_ok k -> 0 <= i < key_count k -> h ∈ tables x ->
  exists x', destroy_key h i me w =
      Done (bool_decide (is_Some (destructor_call k x h i)))
           (with_ext x' (after_calls (option_list (destructor_call k x h i)) w)) /\
    tables x' = tables x /\
    forall h' k', value x' h' k' =
      if decide (h' = h /\ k' = i /\ valid_key k i = true) then 0 else value x h' k'.
Proof.
  intros k x Hk Hi Hh. pose proof (proj2 (ko_elements k Hk i) Hi) as [d Hd].
  unfold destroy_key, destructor_call. cbn. change (keys (glob w)) with k. rewrite Hd. cbn.
  assert (with_ext x w = w) as Hw by (by destruct w as [? ? ? ? ? ? ? ? ? ? ? []]).
  assert (valid_key k i = true <-> d <> KeyInvalid) as Hval.
  { rewrite valid_key_at by done. split; [intros (d' & Hd' & ?); congruence|]. by exists d. }
  destruct (decide (d = KeyInvalid)) as [-> | Hne].
  { exists x. cbn. rewrite after_calls_nil, Hw. split; [done|]. split; [done|]. intros h' k'.
    rewrite decide_False; [done|]. tauto. }
  cbn. rewrite ihash_find_spec by done. cbn. change (ext_mem (env w)) with x.
  destruct (Z.eqb_spec (value x h i) 0) as [Hz | Hnz].
  { exists x. cbn. assert (match d with KeyFn _ => None | _ => None end = (None : option (Z * Z))) as -> by (by destruct d).
    cbn. rewrite after_calls_nil, Hw. split; [done|]. split; [done|]. intros h' k'.
    case_decide as Hc; [|done]. by destruct Hc as (-> & -> & _). }
  destruct (ihash_remove_spec h i me w) as (r & x' & Hrem & Htab & Hr & Hv); [done|]. cbn. rewrite Hrem. cbn.
  rewrite Hr, Z.eqb_refl by done. exists x'. split.
  - destruct d as [| |f]; [done| |]; cbn.
    + by rewrite after_calls_nil.
    + by rewrite app_call_spec.
  - split; [done|]. intros h' k'. rewrite Hv. apply decide_ext. tauto.
Qed.

(** The loop over the keys. *)
Lemma destroy_keys_at fuel h i seen me w :
  let k := keys (glob w) in let x := ext_mem (env w) in
  let calls := destructor_calls k x h (seqZ i (key_count k - i)) in
  keys_ok k -> 0 <= i <= key_count k -> key_count k - i <= Z.of_nat fuel -> h ∈ tables x ->
  exists x', destroy_keys fuel h i seen me w =
      Done (seen || bool_decide (calls <> [])) (with_ext x' (after_calls calls w)) /\
    values_taken k h i x x'.
Proof.
  revert i seen w. induction fuel as [|fuel IHf]; intros i seen w k x calls Hk Hi Hf Hh;
    (destruct (decide (i = key_count k)) as [He | Hne];
     [unfold calls; rewrite He, Z.sub_diag|]).
  1, 3: exists x; cbn; rewrite Z.ltb_irrefl, orb_false_r, after_calls_nil; split;
    [by destruct w as [? ? ? ? ? ? ? ? ? ? ? []]|]; split; [done|]; intros h' k';
    rewrite decide_False; [done|]; intros (_ & Hle & Hv%andb_prop); destruct Hv as [[_ Hv]%andb_prop _]; lia.
  { lia. }
  assert (calls = option_list (destructor_call k x h i) ++ destructor_calls k x h (seqZ (i + 1) (key_count k - (i + 1)))) as ->.
  { unfold calls. rewrite seqZ_cons by lia. replace (Z.succ i) with (i + 1) by lia.
    replace (Z.pred (key_count k - i)) with (key_count k - (i + 1)) by lia.
    unfold destructor_calls. cbn. by destruct (destructor_call k x h i). }
  cbn. change (keys (glob w)) with k. assert (i <? key_count k = true) as -> by lia. cbn.
  destruct (destroy_key_at h i me w) as (x1 & Hrun & Htab & Hv); [done|fold k; lia|done|]. rewrite Hrun. cbn.
  fold k x in Hrun, Htab, Hv |- *. set (c := destructor_call k x h i) in *.
  set (w1 := with_ext x1 (after_calls (option_list c) w)).
  destruct (IHf (i + 1) (seen || bool_decide (is_Some c)) w1) as (x' & Hrun' & Htab' & Hv');
    [done|cbn; fold k; lia|cbn; fold k; lia|cbn; by rewrite Htab|].
  change (keys (glob w1)) with k in *. change (ext_mem (env w1)) with x1 in *. rewrite Hrun'.
  rewrite (destructor_calls_ext k x x1).
  2:{ intros j [Hj _]%elem_of_seqZ. rewrite Hv. rewrite decide_False; [done|]. intros (_ & -> & _). lia. }
  exists x'. split.
  - set (cs := destructor_calls k x h _). rewrite <- after_calls_app. unfold w1.
    change (after_calls cs (with_ext x1 ?v)) with (with_ext x1 (after_calls cs v)).
    destruct c as [c|]; cbn.
    + by rewrite !orb_true_r.
    + by rewrite orb_false_r.
  - split; [by rewrite Htab'|]. intros h' k'. rewrite Hv', Hv.
    destruct (decide (k' = i)) as [-> | Hk']; repeat case_decide; naive_solver lia.
Qed.

(** What the rounds call. *)
Definition thread_destructors (w : world) (h : Z) : list (Z * Z) :=
  destructor_calls (keys (glob w)) (ext_mem (env w)) h (all_keys (keys (glob w))).

Section Rounds.
Context (a : mutexattr) (me : kctx) (t : nat) (h : Z).

(** The thread can run the destructors of the table [h]. *)
Record can_destroy (w : world) : Prop := {
  cd_runs : runs me t w;
  cd_free : keys_free a w;
  cd_keys : keys_ok (keys (glob w));
  cd_fuel : key_count (keys (glob w)) <= Z.of_nat loop_fuel;
  cd_table : h ∈ tables (ext_mem (env w));
}.

Lemma can_destroy_same x l w :
  tables x = tables (ext_mem (env w)) -> can_destroy w -> can_destroy (with_ext x (after_calls l w)).
Proof. intros Hx [Hr [] Hk Hf Hh]. split; try done. cbn. by rewrite Hx. Qed.

Lemma destroy_round_at fuel w :
  can_destroy w ->
  let calls := thread_destructors w h in
  exists x, values_taken (keys (glob w)) h 0 (ext_mem (env w)) x /\
    forall B (f : unit -> world -> res B), solo (bindr (destroy_rounds (S fuel) h me w) f) =
    solo (bindr ((if bool_decide (calls = []) then mret tt else yield;; destroy_rounds fuel h) me
                   (with_ext x (after_calls calls w))) f).
Proof.
  intros Hw calls. pose proof Hw as [Hr Hkf Hk Hf Hh].
  destruct (destroy_keys_at loop_fuel h 0 false me (hold_keys a t w)) as (x & Hrun & Hx); 
    [done|pose proof (ko_index _ Hk); cbn; lia|cbn; lia|done|].
  exists x. split; [done|]. intros B f. cbn [destroy_rounds mbind M_bind]. rewrite bindr_assoc, (solo_key_lock a me t) by done.
  rewrite Z.sub_0_r in Hrun. change (destructor_calls _ _ _ _) with calls in Hrun.
  rewrite bindr_assoc, Hrun. cbn [bindr].
  change (with_ext x (after_calls calls (hold_keys a t w))) with (hold_keys a t (with_ext x (after_calls calls w))).
  destruct (can_destroy_same x calls w) as [Hr' Hkf' _ _ _]; [apply Hx|done|].
  rewrite bindr_assoc, (solo_key_unlock a me t) by done.
  by destruct calls.
Qed.

Lemma thread_destructors_none w x l :
  keys_ok (keys (glob w)) -> values_taken (keys (glob w)) h 0 (ext_mem (env w)) x ->
  thread_destructors (with_ext x (after_calls l w)) h = [].
Proof.
  intros Hk [_ Hv]. apply destructor_calls_none; [|done]. intros i Hi. cbn in *. rewrite Hv, decide_True; [done|].
  split; [done|]. split; [|done]. by apply andb_prop in Hi as [[?%Z.leb_le _]%andb_prop _].
Qed.

(** The first round makes all calls; if it makes any a second one follows. *)
Lemma destroy_rounds_at fuel w :
  can_destroy w -> (2 <= fuel)%nat ->
  exists x, values_taken (keys (glob w)) h 0 (ext_mem (env w)) x /\
    forall B (f : unit -> world -> res B),
      solo (bindr (destroy_rounds fuel h me w) f) = solo (f tt (with_ext x (after_calls (thread_destructors w h) w))).
Proof.
  intros Hw Hf. destruct fuel as [|[|fuel]]; [lia..|].
  destruct (destroy_round_at (S fuel) w Hw) as (x1 & Hx1 & Hrun1).
  destruct (bool_decide_reflect (thread_destructors w h = [])) as [Hnone | _].
  { exists x1. split; [done|]. intros B f. by rewrite Hrun1. }
  set (w1 := with_ext x1 (after_calls (thread_destructors w h) w)) in *.
  destruct (destroy_round_at fuel w1) as (x2 & Hx2 & Hrun2); [apply can_destroy_same; [apply Hx1|done]|].
  assert (thread_destructors w1 h = []) as Hnone by (apply thread_destructors_none; [apply Hw|done]).
  rewrite Hnone in Hrun2.
  exists x2. split.
  - destruct Hx1 as [Htab1 Hv1], Hx2 as [Htab2 Hv2]. split; [by rewrite Htab2|]. intros h' k'.
    rewrite Hv2. cbn. rewrite Hv1. by repeat case_decide.
  - intros B f. rewrite Hrun1. change (solo (bindr (destroy_rounds (S fuel) h me w1) f) = solo (f tt (with_ext x2 w1))).
    rewrite Hrun2. by rewrite after_calls_nil.
Qed.
End Rounds.

(** All that [__pthread_destroy_specific] calls, and what it leaves of the tables. *)
Definition specific_calls (w : world) (p : pthread) : list (Z * Z) :=
  match thread_specifics p with Some h => thread_destructors w h | None => [] end.

Definition table_freed (o : option Z) (x x' : ext_memory) : Prop :=
  match o with
  | Some h => tables x' = tables x ∖ {[h]} /\ forall h' k, h' <> h -> value x' h' k = value x h' k
  | None => x' = x
  end.

Lemma solo_destroy_specific a me t p w :
  pthreads w !! t = Some p -> (forall h, thread_specifics p = Some h -> can_destroy a me t h w) ->
  (2 <= loop_fuel)%nat ->
  exists x, table_freed (thread_specifics p) (ext_mem (env w)) x /\
    forall B (f : unit -> world -> res B), solo (bindr (__pthread_destroy_specific t me w) f) =
    solo (f tt (with_thread t (with_thread_specifics None p) (with_ext x (after_calls (specific_calls w p) w)))).
Proof.
  intros Hp Hd Hf. unfold __pthread_destroy_specific, specific_calls, get_thread. cbn. rewrite Hp. cbn.
  destruct (thread_specifics p) as [h|] eqn:Hh; cbn.
  2:{ exists (ext_mem (env w)). split; [done|]. intros B f. do 2 f_equal. unfold with_thread. cbn. rewrite insert_id.
      - by destruct w as [? ? ? ? ? ? ? ? ? ? ? []].
      - rewrite Hp. f_equal. destruct p. cbn in *. by subst. }
  specialize (Hd h eq_refl). unfold __pthread_key_lock_ready, pthread_once, get_run. cbn.
  rewrite (kf_once _ _ (cd_free _ _ _ _ _ Hd)). cbn. set (calls := thread_destructors w h).
  destruct (destroy_rounds_at a me t h loop_fuel w) as (x & [Htab Hv] & Hrun); [done..|].
  destruct (ihash_free_spec h me (with_ext x (after_calls calls w))) as (x' & Hfree & Htab' & Hv').
  { cbn. rewrite Htab. by destruct Hd. }
  exists x'. split; [|intros B f]. 2:{ rewrite bindr_assoc, Hrun. cbn. fold calls. rewrite Hfree. cbn. by rewrite (update_thread_at t _ p) by done. }
  cbn in *. split; [congruence|].
  intros h' k Hne. rewrite Hv' by done. rewrite Hv. rewrite decide_False by tauto. done.
Qed.

(** ** The exit *)

(** The threads that wait on [c] were woken. *)
Definition woken (c : cond_id) (Q : head_id -> list nat) (w : world) : world :=
  set_qh (clear_head (HCond c) (foldl (fun q u => unlink u q) (qh w) (Q (HCond c))))
    (set_mail (post_all (Q (HCond c)) (mail w)) w).

(** Nobody holds the lock of [c], and its threads have no messages. *)
Record cond_ready (c : cond_id) (Q : head_id -> list nat) (w : world) : Prop := {
  cr_lock : SCond c ∉ spins w;
  cr_queues : qrep (qh w) Q;
  cr_mail : forall u, u ∈ Q (HCond c) -> mail w !! u = Some 0%nat;
}.

Lemma solo_release m me w {B} (f : error_t -> world -> res B) :
  mutex_idle m w -> solo (bindr (__pthread_mutex_unlock m me (hold_mutex m w)) f) = solo (f OK w).
Proof.
  intros [(o & n & Hm) Hl Hh Hq]. rewrite (solo_mutex_unlock m o n); [|done|cbn; set_solver|done].
  cbn. rewrite spins_cycle by done. by destruct w.
Qed.

Lemma solo_broadcast c m Q me w {B} (f : error_t -> world -> res B) :
  cond_ready c Q w ->
  solo (bindr (__pthread_cond_broadcast c me (hold_mutex m w)) f) = solo (f OK (hold_mutex m (woken c Q w))).
Proof.
  intros [Hc HQ Hmail].
  by rewrite (solo_bind_done _ _ _ _ (broadcast_drains c Q me (hold_mutex m w) HQ ltac:(cbn; set_solver) Hmail)).
Qed.

Lemma woken_queues c Q w : cond_ready c Q w -> qrep (qh (woken c Q w)) (<[HCond c := []]> Q).
Proof. intros [_ HQ _]. by apply unlink_all_refines. Qed.

Lemma mutex_idle_woken m c Q w : cond_ready c Q w -> mutex_idle m w -> mutex_idle m (woken c Q w).
Proof.
  intros Hc [Hm Hl Hh Hq]. split; try done. rewrite (qrep_head _ _ _ (woken_queues c Q w Hc)).
  rewrite fn_lookup_insert_ne by done. by rewrite (qrep_head _ _ _ (cr_queues _ _ _ Hc)) in Hq.
Qed.

(** *** Deallocation *)

(** The structure [p] of the thread [t] can be given back. *)
Record can_dealloc (attr : option rwlockattr) (t : nat) (p : pthread) (Q : head_id -> list nat) (w : world) : Prop := {
  de_thread : pthreads w !! t = Some p;
  de_alive : p_state p <> PTHREAD_TERMINATED;
  de_table : rwlock_idle RThreadsLock attr w;
  de_id : known_id (p_thread p) w;
  de_state : mutex_idle (MStateLock t) w;
  de_free : mutex_idle MFreeThreadsLock w;
  de_cond : cond_ready (CStateCond t) Q w;
  de_unqueued : ~ queued Q t;
}.

Definition deallocated (t : nat) (p : pthread) (q : qheap_w) (w : world) : world :=
  with_thread t (with_p_state PTHREAD_TERMINATED p) (set_qh q w).

Lemma mutex_idle_with_id m i o w : mutex_idle m w -> mutex_idle m (with_id i o w).
Proof. by intros []. Qed.

Lemma dealloc_at attr t p Q me w :
  can_dealloc attr t p Q w ->
  let w1 := with_id (p_thread p) None w in
  let w2 := if decide (p_state p <> PTHREAD_EXITED) then woken (CStateCond t) Q w1 else w1 in
  let Q2 := if decide (p_state p <> PTHREAD_EXITED) then <[HCond (CStateCond t) := []]> Q else Q in
  exists q, qrep q (<[HFreeThreads := t :: Q HFreeThreads]> Q2) /\
    forall B (f : unit -> world -> res B),
      solo (bindr (__pthread_dealloc t me w) f) = solo (f tt (deallocated t p q w2)).
Proof.
  intros [Hp Hal Htab [o Hid] Hst Hfr Hc Hun] w1 w2 Q2.
  destruct (table_set_known _ _ None o Hid) as (tab & Hset & _).
  assert (cond_ready (CStateCond t) Q w1) as Hc1 by (by destruct Hc).
  assert (qrep (qh w2) Q2) as HQ2.
  { unfold w2, Q2. case_decide; [by apply woken_queues | apply Hc]. }
  assert (forall h, Q2 h = [] \/ Q2 h = Q h) as Hsub.
  { intros h. unfold Q2. case_decide; [|by right]. destruct (decide (HCond (CStateCond t) = h)) as [<- | Hne].
    - left. by rewrite fn_lookup_insert.
    - right. by rewrite fn_lookup_insert_ne. }
  destruct (enqueue_refines (qh w2) Q2 HFreeThreads t HQ2) as (q & Hq & Rq).
  { intros [h Hh]. apply Hun. exists h. destruct (Hsub h) as [He | He]; rewrite He in Hh; [by apply elem_of_nil in Hh | done]. }
  exists q. split.
  { assert (Q2 HFreeThreads = Q HFreeThreads) as He; [|by rewrite He in Rq].
    unfold Q2. case_decide; [|done]. by rewrite fn_lookup_insert_ne. }
  assert (mutex_idle (MStateLock t) w2 /\ mutex_idle MFreeThreadsLock w2) as [Hst2 Hfr2].
  { unfold w2. case_decide; split; try apply mutex_idle_woken; try done; by apply mutex_idle_with_id. }
  intros B f. unfold __pthread_dealloc, get_thread. cbn. rewrite Hp. cbn. rewrite bool_decide_eq_true_2 by done. cbn.
  rewrite bindr_assoc, (solo_setid attr _ _ tab) by done. fold w1.
  cbn. rewrite bindr_assoc, solo_mutex_lock by (by apply mutex_idle_with_id). cbn.
  change (pthreads w1) with (pthreads w). rewrite Hp. cbn.
  assert (forall f : unit -> world -> res B,
    solo (bindr ((if decide (p_state p <> PTHREAD_EXITED)
      then _ ← __pthread_cond_broadcast (CStateCond t); mret tt else mret tt) me (hold_mutex (MStateLock t) w1)) f) =
    solo (f tt (hold_mutex (MStateLock t) w2))) as Hbc.
  { intros g. unfold w2. case_decide; [|done]. cbn. by rewrite bindr_assoc, (solo_broadcast _ _ Q). }
  rewrite bindr_assoc. etransitivity; [apply Hbc|]. cbn [bindr].
  rewrite bindr_assoc, solo_release, bindr_assoc, solo_mutex_lock by done. cbn. rewrite (enqueue_some _ _ _ _ q) by exact Hq. cbn.
  assert (mutex_idle MFreeThreadsLock (set_qh q w2)) as Hfr3.
  { destruct Hfr2 as [Hm Hl Hh Hqh]. split; try done. cbn. rewrite (qrep_head _ _ _ Rq), fn_lookup_insert_ne by done.
    by rewrite <- (qrep_head _ _ _ HQ2). }
  change (set_qh q (hold_mutex MFreeThreadsLock w2)) with (hold_mutex MFreeThreadsLock (set_qh q w2)).
  rewrite bindr_assoc, solo_release by done. cbn. rewrite (update_thread_at t _ p); [done|].
  cbn. unfold w2. by case_decide.
Qed.

(** The running thread [t] is [p] with the handlers [hs]; [Q] are the queues.  It
    is joinable or can be deallocated, and other threads run. *)
Record can_exit (a : mutexattr) (attr : option rwlockattr) (me : kctx) (t : nat) (p : pthread) (hs : list (Z * Z))
    (Q : head_id -> list nat) (w : world) : Prop := {
  ce_runs : runs me t w;
  ce_thread : pthreads w !! t = Some p;
  ce_handlers : cancelation_handlers p = user_handlers hs;
  ce_cancel : mutex_idle (MCancelLock t) w;
  ce_cancel_state : cancel_state p = PTHREAD_CANCEL_ENABLE \/ cancel_state p = PTHREAD_CANCEL_DISABLE;
  ce_specifics : forall h, thread_specifics p = Some h -> can_destroy a me t h w;
  ce_fuel : (2 <= loop_fuel)%nat;
  ce_total : i32 (pthread_total (glob w) - 1) <> 0;
  ce_state : mutex_idle (MStateLock t) w;
  ce_joinable : p_state p = PTHREAD_JOINABLE \/
    p_state p = PTHREAD_DETACHED /\ can_dealloc attr t p Q w;
  ce_cond : cond_ready (CStateCond t) Q w;
  ce_answers : answers (env w) = [];
}.

Definition exit_status (p : pthread) (status : Z) : Z := if cancelled p then PTHREAD_CANCELED else status.

(** The structure when the handlers and the destructors have run. *)
Definition cleaned (p : pthread) : pthread := with_thread_specifics None (with_cancelation_handlers [] p).

Definition exited (status : Z) (p : pthread) : pthread :=
  with_p_status (exit_status p status) (with_p_state PTHREAD_EXITED (cleaned p)).

Lemma with_thread_twice t p1 p2 w : with_thread t p2 (with_thread t p1 w) = with_thread t p2 w.
Proof. unfold with_thread. cbn. by rewrite insert_insert_eq. Qed.

(** The part that runs cleanup handlers with cancelation disabled. *)
Lemma solo_cleanup me t p hs w {B} (c : M B) :
  runs me t w -> pthreads w !! t = Some p -> cancelation_handlers p = user_handlers hs ->
  mutex_idle (MCancelLock t) w ->
  cancel_state p = PTHREAD_CANCEL_ENABLE \/ cancel_state p = PTHREAD_CANCEL_DISABLE ->
  solo ((old ← __pthread_setcancelstate PTHREAD_CANCEL_DISABLE;
    p ← get_thread t;
    run_handlers (length (cancelation_handlers p) + loop_fuel) t;;
    _ ← __pthread_setcancelstate old.2; c) me w) =
  solo (c me (with_thread t (with_cancelation_handlers [] p) (after_calls hs w))).
Proof.
  intros Hr Hp Hh Hc Hs. cbn [mbind M_bind]. rewrite (solo_setcancelstate _ t p) by (done || by right).
  set (p1 := with_cancel_state _ p). unfold get_thread at 1. cbn. rewrite lookup_insert_eq. cbn.
  rewrite (run_handlers_at hs _ t p1); [|cbn; by rewrite lookup_insert_eq|done|].
  2:{ cbn. rewrite Hh. unfold user_handlers. rewrite length_map. lia. }
  cbn. set (w1 := with_thread t _ _).
  assert (w1 = with_thread t (with_cancelation_handlers [] p1) (after_calls hs w)) as Hw1.
  { exact (with_thread_twice t p1 _ (after_calls hs w)). }
  rewrite (solo_setcancelstate _ t (with_cancelation_handlers [] p1)); [..|exact Hs].
  - rewrite Hw1, with_thread_twice. unfold p1. by destruct p.
  - rewrite Hw1. by apply (runs_changed me t p (with_cancelation_handlers [] p1) w); [..|apply lookup_insert_eq|].
  - rewrite Hw1. apply lookup_insert_eq.
  - by destruct Hc.
Qed.

#[local] Arguments get_thread : simpl never.

Lemma self_bind me t w {A} (c : nat -> M A) :
  runs me t w -> (self ← _pthread_self; c self) me w = c t me w.
Proof. intros Hr. cbn. by rewrite (pthread_self_runs me t). Qed.

(** Handlers and destructors run, in this order. *)
Lemma exit_cleans a attr me t p hs Q status w :
  can_exit a attr me t p hs Q w ->
  exists x, table_freed (thread_specifics p) (ext_mem (env w)) x /\
    forall A, solo (__pthread_exit (A := A) status me w) =
    solo (end_thread t status me
      (with_thread t (cleaned p) (with_ext x (after_calls (hs ++ specific_calls w p) w)))).
Proof.
  intros [Hr Hp Hh Hc Hcs Hd Hf Htot Hst Hj Hcond Ha].
  set (p1 := with_cancelation_handlers [] p). set (w1 := with_thread t p1 (after_calls hs w)).
  destruct (solo_destroy_specific a me t p1 w1) as (x & Hx & Hdes); [apply lookup_insert_eq| |done|].
  { intros h Hh'. destruct (Hd h Hh') as [Hr' [] Hk Hfu Htab]. split; try done.
    by apply (runs_changed me t p p1 w); [..|apply lookup_insert_eq|]. }
  exists x. split; [exact Hx|]. intros A. unfold __pthread_exit. rewrite (self_bind me t) by done.
  etransitivity; [apply (solo_cleanup me t p hs w); done|]. cbn [mbind M_bind].
  fold p1 w1. rewrite Hdes. cbn [bindr __pthread_sigstate_destroy mret M_ret].
  rewrite <- after_calls_app.
  by rewrite <- (with_thread_twice t p1 (cleaned p) (with_ext x (after_calls (specific_calls w p) (after_calls hs w)))).
Qed.

Definition one_less (w : world) : world :=
  set_glob (set_pthread_total (i32 (pthread_total (glob w) - 1)) (glob w)) w.

Lemma halts me t p w {A} (f : unit -> world -> res A) :
  runs me t w -> pthreads w !! t = Some p -> answers (env w) = [] ->
  bindr (__pthread_thread_halt t me w) f = Halted (requested (KThreadTerminate (kernel_thread p)) w).
Proof.
  intros (_ & _ & p' & Hp' & Hk) Hp Ha. unfold __pthread_thread_halt, get_thread. cbn. rewrite Hp. cbn.
  rewrite kernel_request_granted by done. cbn. by rewrite (proj2 (Z.eqb_eq _ _)) by congruence.
Qed.

Lemma end_joinable me t p Q status w {A} :
  runs me t w -> pthreads w !! t = Some p -> p_state p = PTHREAD_JOINABLE ->
  i32 (pthread_total (glob w) - 1) <> 0 -> mutex_idle (MStateLock t) w -> cond_ready (CStateCond t) Q w ->
  answers (env w) = [] ->
  solo (end_thread (A := A) t status me w) =
  Halted (requested (KThreadTerminate (kernel_thread p)) (woken (CStateCond t) Q
    (with_thread t (with_p_status (exit_status p status) (with_p_state PTHREAD_EXITED p)) (one_less w)))).
Proof.
  intros Hr Hp Hj Htot Hst Hc Ha. unfold end_thread. cbn. rewrite (proj2 (Z.eqb_neq _ _) Htot). cbn.
  change (set_glob _ w) with (one_less w). rewrite solo_mutex_lock by (by destruct Hst).
  unfold get_thread at 1. cbn. rewrite Hp. cbn. rewrite Hj. cbn. rewrite !bindr_assoc, (update_thread_at t _ p) by done.
  cbn. set (p' := with_p_status _ _). rewrite !bindr_assoc.
  change (with_thread t p' (hold_mutex (MStateLock t) (one_less w))) with
    (hold_mutex (MStateLock t) (with_thread t p' (one_less w))).
  rewrite (solo_broadcast _ _ Q) by (by destruct Hc).
  rewrite bindr_assoc, solo_release by (apply mutex_idle_woken; [by destruct Hc | by destruct Hst]). cbn [bindr].
  rewrite (halts me t p'); [done| |cbn; apply lookup_insert_eq|done].
  by apply (runs_changed me t p p' w); [..|apply lookup_insert_eq|].
Qed.

Lemma end_detached attr me t p Q status w :
  runs me t w -> can_dealloc attr t p Q w -> p_state p = PTHREAD_DETACHED ->
  i32 (pthread_total (glob w) - 1) <> 0 -> answers (env w) = [] ->
  exists q, qrep q (<[HFreeThreads := t :: Q HFreeThreads]> (<[HCond (CStateCond t) := []]> Q)) /\
    forall A, solo (end_thread (A := A) t status me w) =
    Halted (requested (KThreadTerminate (kernel_thread p))
      (deallocated t p q (woken (CStateCond t) Q (with_id (p_thread p) None (one_less w))))).
Proof.
  intros Hr Hd Hj Htot Ha. pose proof Hd as [Hp _ Htab Hid Hst Hfr Hc Hun].
  assert (can_dealloc attr t p Q (one_less w)) as Hd' by (destruct Htab, Hst, Hfr, Hc; by destruct Hd).
  destruct (dealloc_at attr t p Q me (one_less w) Hd') as (q & Rq & Hrun).
  destruct (decide (p_state p <> PTHREAD_EXITED)) as [_ | []]; [|by rewrite Hj]. exists q. split; [done|]. intros A.
  unfold end_thread. cbn. rewrite (proj2 (Z.eqb_neq _ _) Htot). cbn. change (set_glob _ w) with (one_less w).
  rewrite solo_mutex_lock by (by destruct Hst). unfold get_thread at 1. cbn. rewrite Hp. cbn. rewrite Hj. cbn.
  rewrite bindr_assoc, solo_release by (by destruct Hst). etransitivity; [apply Hrun|].
  cbn [bindr]. rewrite (halts me t (with_p_state PTHREAD_TERMINATED p)); [done| |cbn; apply lookup_insert_eq|done].
  destruct Hid as [o Hid]. destruct (table_set_known _ _ None o Hid) as (tab & Hset & _).
  destruct Hr as (_ & Htls & p' & Hp' & Hk). split; [cbn; rewrite Hset; by eexists|]. split; [done|].
  eexists. split; [apply lookup_insert_eq|]. cbn. congruence.
Qed.

(** What becomes of the structure, the table of IDs and the queues. *)
Definition after_exit (t : nat) (p : pthread) (status : Z) (Q : head_id -> list nat) (w w' : world) : Prop :=
  if decide (p_state p = PTHREAD_DETACHED) then
    pthreads w' = <[t := with_p_state PTHREAD_TERMINATED (cleaned p)]> (pthreads w) /\
    threads_tab (glob w') = table_set (threads_tab (glob w)) (p_thread p - 1) None /\
    qrep (qh w') (<[HFreeThreads := t :: Q HFreeThreads]> (<[HCond (CStateCond t) := []]> Q))
  else
    pthreads w' = <[t := exited status p]> (pthreads w) /\
    threads_tab (glob w') = threads_tab (glob w) /\
    qrep (qh w') (<[HCond (CStateCond t) := []]> Q).

(** The part of the result that does not depend on the state. *)
Definition exit_effects (t : nat) (p : pthread) (calls : list (Z * Z)) (Q : head_id -> list nat) (w w' : world) : Prop :=
  umem w' = run_calls calls (umem w) /\
  table_freed (thread_specifics p) (ext_mem (env w)) (ext_mem (env w')) /\
  pthread_total (glob w') = i32 (pthread_total (glob w) - 1) /\
  klog (env w') = KThreadTerminate (kernel_thread p) :: klog (env w) /\
  forall u, mail w' !! u = if decide (u ∈ Q (HCond (CStateCond t))) then Some 1%nat else mail w !! u.

End Exit.

(** C18: A thread that exits while others run, and whose cleanup handlers and
    destructors return and do not call the library ([AppCalls]), calls its cleanup
    handlers, the last one pushed first, each once; then, for each key in the order
    of the keys that has a destructor and of which it has a value, the destructor
    with that value, each once; it frees its table of values, is no longer counted,
    and its kernel thread terminates.  If it can be joined it keeps its exit status,
    PTHREAD_CANCELED if a request to cancel it is pending, for the threads that wait
    for its end, each of which gets exactly one message; if it is detached its ID is
    withdrawn and its structure can be used again. *)
Theorem pthread_exit_result `{P : Platform} `{IH : IHash} `{!IHashLaws IH} `{!AppCalls} a attr me t p hs Q status w {A} :
  can_exit a attr me t p hs Q w ->
  exists w', solo (__pthread_exit (A := A) status me w) = Halted w' /\
    exit_effects t p (hs ++ specific_calls w p) Q w w' /\ after_exit t p status Q w w'.
Proof.
  intros He. destruct (exit_cleans a attr me t p hs Q status w He) as (x & Hx & Hrun).
  pose proof He as [Hr Hp Hh Hc Hcs Hd Hf Htot Hst Hj Hcond Ha].
  set (w1 := with_thread t (cleaned p) _) in Hrun.
  assert (runs me t w1) as Hr1 by (by apply (runs_changed me t p (cleaned p) w); [..|apply lookup_insert_eq|]).
  assert (pthreads w1 !! t = Some (cleaned p)) as Hp1 by apply lookup_insert_eq.
  assert (cond_ready (CStateCond t) Q w1) as Hc1 by (by destruct Hcond).
  assert (mutex_idle (MStateLock t) w1) as Hst1 by (by destruct Hst).
  unfold after_exit. case_decide as Hdet.
  - destruct Hj as [Hj | [_ Hde]]; [congruence|].
    destruct (end_detached attr me t (cleaned p) Q status w1) as (q & Rq & Hend); [done| |done..|].
    { destruct Hde as [_ Hal [] Hid _ [] _ Hun]. by split. }
    rewrite Hrun, Hend. eexists. split; [done|]. split.
    + split_and!; try done. intros u. apply lookup_post_all.
    + split_and!; try done. cbn. by rewrite !insert_insert_eq.
  - destruct Hj as [Hj | [Hj _]]; [|congruence].
    rewrite Hrun, (end_joinable me t (cleaned p) Q) by done. eexists. split; [done|]. split.
    + split_and!; try done. intros u. apply lookup_post_all.
    + split_and!; try done.
      * cbn. by rewrite !insert_insert_eq.
      * by apply (woken_queues (CStateCond t) Q w1).
Qed.

(** ** A concrete exit *)

(** The functions of the application append the digit they are called with. *)
Definition append_digit (arg : Z) (m : gmap nat Z) : gmap nat Z := <[0%nat := 10 * default 0 (m !! 0%nat) + arg]> m.

Definition app_platform : Platform := {|
  VM_MIN_ADDRESS := 0; VM_MAX_ADDRESS := 0xc0000000; hurd_threadvar_max := 8; threadvar_location := id;
  self_gs := 0; gdt_sel := 0x48; pagesize := None; PTHREAD_THREADS_MAX := None;
  call _ arg := modify (fun w => set_umem (append_digit arg (umem w)) w);; mret 0; loop_fuel := 10 |}.

#[export] Instance app_calls : @AppCalls app_platform.
Proof. by refine {| app_answer _ _ _ := 0; app_effect _ arg := append_digit arg |}. Defined.

(** Thread 1 has two handlers and values of the two keys, in the table 3; thread 0
    waits for its end. *)
Definition exiting_pthread : pthread :=
  with_thread_specifics (Some 3) (with_cancelation_handlers (user_handlers [(11, 1); (12, 2)]) (demo_pthread 1)).

Definition exit_mutexes : gmap mutex_id mutex :=
  {[MKeyLock := mkMutex (AHeap key_attr) None 0; MCancelLock 1 := mkMutex ANull None 0; MStateLock 1 := mkMutex ANull None 0]}.

Definition demo_exit : world :=
  with_ext {[(3, 1) := 1; (3, 0) := 7; (3, 2) := 8]}
    (with_keys (mkKeys {[0 := KeyFn 21; 1 := KeyFn 22]} 2 2 0 0)
      (with_thread 1 exiting_pthread
        (set_qh (queue_of (HCond (CStateCond 1)) [0%nat]) (set_mutexes exit_mutexes demo_keys)))).

Lemma demo_exit_ready :
  can_exit (P := app_platform) (IH := map_ihash) key_attr None (demo_ctx 1) 1 exiting_pthread [(11, 1); (12, 2)]
    (<[HCond (CStateCond 1) := [0%nat]]> (fun _ => [])) demo_exit.
Proof.
  assert (forall m, m = MCancelLock 1 \/ m = MStateLock 1 -> mutex_idle m demo_exit) as Hm.
  { intros m [-> | ->]; (split; [by do 2 eexists|by vm_compute..]). }
  assert (runs (demo_ctx 1) 1 demo_exit) as Hr by (split; [by eexists|]; split; [done|]; by eexists).
  split; [done|done|done|by auto|by right| |cbn; lia|done|by auto|by left| |done].
  - intros h [= <-]. split; [done|by split| |done|]. 2:{ apply (proj2 (map_tables_spec (ext_mem (env demo_exit)) 3)). by eexists. }
    split; cbn; [lia|lia| |done]. intros i.
    destruct (decide (i = 0)) as [->|]; [split; [lia|by eexists]|].
    destruct (decide (i = 1)) as [->|]; [split; [lia|by eexists]|].
    rewrite lookup_insert_ne, lookup_singleton_ne by done. split; [by intros []|lia].
  - split.
    + by vm_compute.
    + apply queue_of_rep. by apply (bool_decide_unpack _).
    + intros u. rewrite fn_lookup_insert. by intros ->%list_elem_of_singleton.
Qed.

(** 1 and 2 are from the handlers, 7 and 8 from the destructors. *)
Lemma pthread_exit_result_witness :
  exists w', solo (@__pthread_exit app_platform map_ihash unit 9 (demo_ctx 1) demo_exit) = Halted w' /\
    umem w' !! 0%nat = Some 1278 /\ mail w' !! 0%nat = Some 1%nat /\
    pthreads w' !! 1%nat = Some (@exited 9 exiting_pthread).
Proof.
  destruct (@pthread_exit_result app_platform map_ihash map_ihash_laws app_calls key_attr None (demo_ctx 1) 1
    exiting_pthread [(11, 1); (12, 2)] _ 9 demo_exit unit demo_exit_ready) as (w' & Hrun & Heff & Haft).
  exists w'. destruct Heff as (Hu & _ & _ & _ & Hmail). unfold after_exit in Haft. rewrite decide_False in Haft by done.
  destruct Haft as (Hp & _). split; [exact Hrun|]. split_and!.
  - rewrite Hu. by vm_compute.
  - rewrite Hmail. by vm_compute.
  - rewrite Hp. apply lookup_insert_eq.
Defined.
