(* ===== verification/JoinSpec.v ===== *)
(** * Joining a thread

    pthread_join with a thread that exits before or during the call. *)
From Stdlib Require Import ZArith Lia.
From S2P Require Import Prelude Queue World Machine Platform Sched Mach Demo Attr Mutex Rwlock Barrier Cond Kernel KernelFacts Keys Threads CondWait ThreadOps ThreadFacts CondSpec KeyFacts KeySpec ExitSpec.
Local Open Scope Z_scope.

#[local] Arguments update_thread : simpl never.
#[local] Arguments cancelled : simpl never.
#[local] Arguments __pthread_thread_halt : simpl never.
#[local] Arguments __pthread_cond_broadcast : simpl never.
#[local] Arguments __pthread_dealloc : simpl never.
#[local] Arguments get_thread : simpl never.
#[local] Arguments __pthread_cond_timedwait_internal : simpl never.

Section Reap.
Context `{P : Platform} `{IH : IHash}.

(** What the kernel is asked for, the last request first. *)
Definition reap_requests (t : nat) (p : pthread) : list kcall :=
  [KPortDestroy t; KVmDeallocate (p_stackaddr p) (p_stacksize p); KThreadTerminate (kernel_thread p)].

(** The world without the resources of the thread. *)
Definition unresourced (t : nat) (p : pthread) (w : world) : world :=
  set_mail (delete t (mail w))
    (set_env (set_klog (reap_requests t p ++ klog (env w)) (env w)) (with_thread t (with_p_stack false p) w)).

(** The exited thread [t], another one than the caller, can be reaped. *)
Record can_reap (attr : option rwlockattr) (me : kctx) (t : nat) (p : pthread) (Q : head_id -> list nat) (w : world) : Prop := {
  re_dealloc : can_dealloc attr t p Q w;
  re_exited : p_state p = PTHREAD_EXITED;
  re_stack : p_stack p = true;
  re_other : kernel_thread p <> ktid me;
  re_answers : answers (env w) = [];
}.

Lemma reap_at attr me t p Q w :
  can_reap attr me t p Q w ->
  exists q, qrep q (<[HFreeThreads := t :: Q HFreeThreads]> Q) /\
    forall B (f : unit -> world -> res B),
      solo (bindr (reap t me w) f) =
      solo (f tt (deallocated t (with_p_stack false p) q (with_id (p_thread p) None (unresourced t p w)))).
Proof.
  intros [Hd He Hs Ho Ha]. pose proof Hd as [Hp Hal Htab Hid Hst Hfr [Hc1 Hc2 Hc3] Hun].
  set (p' := with_p_stack false p).
  assert (can_dealloc attr t p' Q (unresourced t p w)) as Hd'.
  { split; [apply lookup_insert_eq|done|by destruct Htab|done|by destruct Hst|by destruct Hfr| |done].
    split; [done..|]. intros u Hu. cbn. rewrite lookup_delete_ne; [by apply Hc3|]. intros ->. apply Hun. by eexists. }
  destruct (dealloc_at attr t p' Q me _ Hd') as (q & Rq & Hrun).
  destruct (decide (p_state p' <> PTHREAD_EXITED)) as [[]|_]; [done|]. exists q. split; [done|]. intros B f.
  unfold reap, __pthread_thread_halt. cbn. rewrite (get_thread_at t p) by done. cbn.
  rewrite kernel_request_granted by done. cbn. rewrite (proj2 (Z.eqb_neq _ _)) by done. cbn.
  rewrite (get_thread_at t p) by done. cbn. rewrite Hs. cbn.
  unfold __pthread_stack_dealloc. cbn.
  rewrite kernel_request_granted by done. cbn. rewrite (update_thread_at t _ p) by done. cbn.
  unfold __pthread_thread_dealloc. cbn.
  rewrite kernel_request_granted by done. cbn. apply Hrun.
Qed.

(** ** The end of a join *)

Lemma can_reap_other attr me t p Q u pu w :
  u <> t -> can_reap attr me t p Q w -> can_reap attr me t p Q (with_thread u pu w).
Proof.
  intros Hu [[Hp Hal [] Hid [] [] [] Hun] He Hs Ho Ha]. split; [|done..].
  split; try done; [|by split..]. cbn. by rewrite lookup_insert_ne.
Qed.

Definition reaped (t : nat) (p : pthread) (q : qheap_w) (w : world) : world :=
  deallocated t (with_p_stack false p) q (with_id (p_thread p) None (unresourced t p w)).

(** The caller [u] is [pu] and has pushed the handler [h]. *)
Lemma finish_join_at attr me t p Q u pu h rest w :
  can_reap attr me t p Q w -> u <> t -> runs me u w -> pthreads w !! u = Some pu ->
  cancelation_handlers pu = h :: rest ->
  exists q, qrep q (<[HFreeThreads := t :: Q HFreeThreads]> Q) /\
    solo (finish_join t me (hold_mutex (MStateLock t) w)) =
    Done (OK, Some (p_status p)) (reaped t p q (with_thread u (with_cancelation_handlers rest pu) w)).
Proof.
  intros Hre Hu Hr Hpu Hh. set (w1 := with_thread u (with_cancelation_handlers rest pu) w).
  assert (can_reap attr me t p Q w1) as Hre1 by (by apply can_reap_other).
  destruct (reap_at attr me t p Q w1 Hre1) as (q & Rq & Hrun). exists q. split; [done|].
  assert (pthreads w1 !! t = Some p) as Hp1 by apply Hre1.
  unfold finish_join, __pthread_cleanup_pop. cbn. rewrite (pthread_self_runs me u) by done. cbn.
  rewrite (get_thread_at u pu) by done. cbn. rewrite Hh. cbn. rewrite (update_thread_at u _ pu) by done. cbn.
  change (with_thread u _ (hold_mutex _ w)) with (hold_mutex (MStateLock t) w1).
  rewrite (get_thread_at t p) by done. cbn. rewrite (re_exited _ _ _ _ _ _ Hre). cbn.
  rewrite solo_release by apply (de_state _ _ _ _ _ (re_dealloc _ _ _ _ _ _ Hre1)). cbn.
  rewrite (get_thread_at t p) by done. cbn. by rewrite Hrun.
Qed.

(** ** Joining *)

Definition push_unlock (t : nat) (pu : pthread) : pthread :=
  with_cancelation_handlers (HandlerMutexUnlock (MStateLock t) :: cancelation_handlers pu) pu.

(** The running thread [u] can join [t], which has not been joined or detached. *)
Record can_join (attr : option rwlockattr) (me : kctx) (u : nat) (pu : pthread) (t : nat) (p : pthread)
    (Q : head_id -> list nat) (w : world) : Prop := {
  cj_runs : runs me u w;
  cj_caller : pthreads w !! u = Some pu;
  cj_other : u <> t;
  cj_thread : pthreads w !! t = Some p;
  cj_id : table_get (threads_tab (glob w)) (p_thread p - 1) = Some (Some t);
  cj_stack : p_stack p = true;
  cj_kernel : kernel_thread p <> ktid me;
  cj_table : rwlock_idle RThreadsLock attr w;
  cj_state : mutex_idle (MStateLock t) w;
  cj_free : mutex_idle MFreeThreadsLock w;
  cj_cond : cond_ready (CStateCond t) Q w;
  cj_unqueued : ~ queued Q t;
  cj_answers : answers (env w) = [];
}.

(** A join can go on in another world with the same locks and IDs and at most
    fewer waiting threads. *)
Lemma can_join_moved attr me u pu pu' t p p' Q Q' w w' :
  can_join attr me u pu t p Q w ->
  pthreads w' !! u = Some pu' -> kernel_thread pu' = kernel_thread pu ->
  pthreads w' !! t = Some p' -> p_thread p' = p_thread p -> p_stack p' = p_stack p -> kernel_thread p' = kernel_thread p ->
  threads_tab (glob w') = threads_tab (glob w) -> spins w' = spins w -> mutexes w' = mutexes w ->
  rwlocks w' = rwlocks w -> answers (env w') = answers (env w) -> qrep (qh w') Q' ->
  (forall h, (forall c, h <> HCond c) -> Q h = [] -> Q' h = []) ->
  (forall v, v ∈ Q' (HCond (CStateCond t)) -> mail w' !! v = Some 0%nat) -> ~ queued Q' t ->
  can_join attr me u pu' t p' Q' w'.
Proof.
  intros [Hr Hpu Hu Hp Hid Hs Hk Htab Hst Hf [Hl R Hm] Hq Ha] Hpu' Hk1 Hp' Ht' Hs' Hk' Htabs Hsp Hmu Hrw Ha' R' HQ Hm' Hq'.
  assert (forall h, (forall c, h <> HCond c) -> cells (qh w) !! Head h = None -> cells (qh w') !! Head h = None) as Hheads.
  { intros h Hh. rewrite (qrep_head _ _ _ R), (qrep_head _ _ _ R'). intros He. rewrite HQ; [done|done|]. by destruct (Q h). }
  assert (forall x, mutex_idle x w -> mutex_idle x w') as Hidle.
  { intros x [H1 H2 H3 H4]. split; [by rewrite Hmu|by rewrite Hsp|by rewrite Hsp|by apply Hheads]. }
  split.
  - by apply (runs_changed me u pu pu' w).
  - exact Hpu'.
  - exact Hu.
  - exact Hp'.
  - by rewrite Htabs, Ht'.
  - by rewrite Hs'.
  - by rewrite Hk'.
  - destruct Htab as [H1 H2 H3 H4 H5].
    split; [by rewrite Hrw|by rewrite Hsp|by rewrite Hsp|by apply Hheads|by apply Hheads].
  - by apply Hidle.
  - by apply Hidle.
  - split; [by rewrite Hsp|exact R'|exact Hm'].
  - exact Hq'.
  - by rewrite Ha'.
Qed.

(** The queues when those of [c] were woken. *)
Lemma woken_unqueued c Q v : ~ queued Q v -> ~ queued (<[HCond c := []]> Q) v.
Proof.
  intros Hv [h Hh]. apply Hv. exists h. destruct (decide (HCond c = h)) as [<- | Hne].
  - rewrite fn_lookup_insert in Hh. by apply elem_of_nil in Hh.
  - by rewrite fn_lookup_insert_ne in Hh.
Qed.

Lemma can_join_reap attr me u pu t p Q w :
  can_join attr me u pu t p Q w -> p_state p = PTHREAD_EXITED -> can_reap attr me t p Q w.
Proof.
  intros [Hr Hpu Hu Hp Hid Hs Hk Htab Hst Hf Hc Hq Ha] He. split; [split|..]; try done; [by rewrite He|].
  by eexists.
Qed.

(** The calls up to the loop. *)
Lemma join_starts attr me u pu t p Q w :
  can_join attr me u pu t p Q w ->
  solo (pthread_join (p_thread p) me w) =
  solo (bindr (join_wait loop_fuel t me (hold_mutex (MStateLock t) (with_thread u (push_unlock t pu) w)))
          (fun _ w => finish_join t me w)).
Proof.
  intros [Hr Hpu Hu Hp Hid Hs Hk Htab Hst Hf Hc Hq Ha]. unfold pthread_join. cbn [mbind M_bind].
  rewrite (solo_getid attr _ (Some t)) by done. cbn [mbind M_bind]. rewrite solo_mutex_lock by done.
  unfold __pthread_cleanup_push. cbn. rewrite (pthread_self_runs me u) by done. cbn.
  by rewrite (update_thread_at u _ pu) by done.
Qed.

Lemma join_wait_over fuel t p me w :
  pthreads w !! t = Some p -> p_state p <> PTHREAD_JOINABLE -> join_wait fuel t me w = Done tt w.
Proof. intros Hp Hj. destruct fuel; cbn; rewrite (get_thread_at t p) by done; cbn; by destruct (p_state p). Qed.

Lemma pop_push t pu : with_cancelation_handlers (cancelation_handlers pu) (push_unlock t pu) = pu.
Proof. by destruct pu. Qed.

Lemma with_thread_same t p w : pthreads w !! t = Some p -> with_thread t p w = w.
Proof. intros Hp. unfold with_thread. rewrite insert_id by done. by destruct w. Qed.

(** From the world [w] in which the wait is over. *)
Lemma join_finishes attr me u pu t p Q w :
  can_join attr me u pu t p Q w -> p_state p = PTHREAD_EXITED ->
  exists q, qrep q (<[HFreeThreads := t :: Q HFreeThreads]> Q) /\
    solo (finish_join t me (hold_mutex (MStateLock t) (with_thread u (push_unlock t pu) w))) =
    Done (OK, Some (p_status p)) (reaped t p q w).
Proof.
  intros Hj He. pose proof (can_join_reap _ _ _ _ _ _ _ _ Hj He) as Hre.
  destruct Hj as [Hr Hpu Hu _ _ _ _ _ _ _ _ _ _].
  set (w1 := with_thread u (push_unlock t pu) w).
  destruct (finish_join_at attr me t p Q u (push_unlock t pu) (HandlerMutexUnlock (MStateLock t)) (cancelation_handlers pu) w1)
    as (q & Rq & Hrun); [by apply can_reap_other|done| |apply lookup_insert_eq|done|].
  { by apply (runs_changed me u pu (push_unlock t pu) w); [..|apply lookup_insert_eq|]. }
  exists q. split; [done|]. unfold w1 in Hrun. by rewrite with_thread_twice, pop_push, (with_thread_same u pu) in Hrun.
Qed.

Lemma join_exited_at attr me u pu t p Q w :
  can_join attr me u pu t p Q w -> p_state p = PTHREAD_EXITED ->
  exists q, qrep q (<[HFreeThreads := t :: Q HFreeThreads]> Q) /\
    solo (pthread_join (p_thread p) me w) = Done (OK, Some (p_status p)) (reaped t p q w).
Proof.
  intros Hj He. destruct (join_finishes attr me u pu t p Q w Hj He) as (q & Rq & Hrun).
  exists q. split; [done|]. rewrite (join_starts attr me u pu t p Q) by done.
  rewrite (join_wait_over _ t p); [done| |by rewrite He]. cbn. rewrite lookup_insert_ne by apply Hj. apply Hj.
Qed.

(** ** Detaching *)

(** C34: pthread_detach by ID on all branches: ESRCH for an ID that is not in use or whose
    thread has terminated and EINVAL for a detached thread, without an effect; a
    joinable thread becomes detached and the threads that wait to join it are
    woken, each by one message; an exited one is reaped as by pthread_join. *)
Theorem detach_result attr thread o me w :
  rwlock_idle RThreadsLock attr w -> table_get (threads_tab (glob w)) (thread - 1) = Some o ->
  match o with
  | None => solo (pthread_detach thread me w) = Done ESRCH w
  | Some t => forall p Q, pthreads w !! t = Some p -> mutex_idle (MStateLock t) w -> cond_ready (CStateCond t) Q w ->
      match p_state p with
      | PTHREAD_JOINABLE => exists w', solo (pthread_detach thread me w) = Done OK w' /\
          pthreads w' = <[t := with_p_state PTHREAD_DETACHED p]> (pthreads w) /\
          qrep (qh w') (<[HCond (CStateCond t) := []]> Q) /\
          forall u, mail w' !! u = if decide (u ∈ Q (HCond (CStateCond t))) then Some 1%nat else mail w !! u
      | PTHREAD_EXITED => can_reap attr me t p Q w ->
          exists q, qrep q (<[HFreeThreads := t :: Q HFreeThreads]> Q) /\
            solo (pthread_detach thread me w) = Done OK (reaped t p q w)
      | PTHREAD_DETACHED => solo (pthread_detach thread me w) = Done EINVAL w
      | PTHREAD_TERMINATED => solo (pthread_detach thread me w) = Done ESRCH w
      end
  end.
Proof.
  intros Htab Hid. destruct o as [t|].
  2:{ unfold pthread_detach. cbn [mbind M_bind]. by rewrite (solo_getid attr _ None). }
  intros p Q Hp Hst Hc.
  assert (solo (pthread_detach thread me w) = solo (match p_state p with
      | PTHREAD_JOINABLE =>
          update_thread t (with_p_state PTHREAD_DETACHED);;
          _ ← __pthread_cond_broadcast (CStateCond t);
          _ ← __pthread_mutex_unlock (MStateLock t); mret OK
      | PTHREAD_EXITED => _ ← __pthread_mutex_unlock (MStateLock t); yield;; reap t;; mret OK
      | PTHREAD_TERMINATED => _ ← __pthread_mutex_unlock (MStateLock t); mret ESRCH
      | PTHREAD_DETACHED => _ ← __pthread_mutex_unlock (MStateLock t); mret EINVAL
      end me (hold_mutex (MStateLock t) w))) as ->.
  { unfold pthread_detach. cbn [mbind M_bind]. rewrite (solo_getid attr _ (Some t)) by done. cbn [mbind M_bind].
    rewrite solo_mutex_lock by done. cbn. by rewrite (get_thread_at t p) by done. }
  destruct (p_state p) eqn:Hs; cbn.
  - rewrite (update_thread_at t _ p) by done. cbn. set (w1 := with_thread t (with_p_state PTHREAD_DETACHED p) w).
    change (with_thread t _ (hold_mutex _ w)) with (hold_mutex (MStateLock t) w1).
    assert (cond_ready (CStateCond t) Q w1) as Hc1 by (by destruct Hc).
    rewrite (solo_broadcast _ _ Q) by done.
    rewrite solo_release by (apply mutex_idle_woken; [done|by destruct Hst]). eexists. split; [done|].
    split_and!; [done|by apply (woken_queues _ _ w1)|]. intros u. apply lookup_post_all.
  - by rewrite solo_release.
  - intros Hre. destruct (reap_at attr me t p Q w Hre) as (q & Rq & Hrun). exists q. split; [done|].
    rewrite solo_release by done. cbn. by rewrite Hrun.
  - by rewrite solo_release.
Qed.
End Reap.

(** ** The exit of a thread that can be joined *)

Section Join.
Context `{P : Platform} `{IH : IHash} `{!IHashLaws IH} `{!AppCalls}.

Definition exit_world (t : nat) (p : pthread) (status : Z) (calls : list (Z * Z)) (x : ext_memory)
    (Q : head_id -> list nat) (w : world) : world :=
  requested (KThreadTerminate (kernel_thread p)) (woken (CStateCond t) Q
    (with_thread t (exited status p) (one_less (with_ext x (after_calls calls w))))).

Lemma exit_joinable_at a attr me t p hs Q status w {A} :
  can_exit a attr me t p hs Q w -> p_state p = PTHREAD_JOINABLE ->
  exists x, solo (__pthread_exit (A := A) status me w) = Halted (exit_world t p status (hs ++ specific_calls w p) x Q w).
Proof.
  intros He Hj. destruct (exit_cleans a attr me t p hs Q status w He) as (x & _ & Hrun).
  exists x. rewrite Hrun.
  pose proof He as [Hr Hp _ _ _ _ _ Htot Hst _ Hcond Ha].
  rewrite (end_joinable me t (cleaned p) Q).
  - unfold exit_world. by rewrite <- (with_thread_twice t (cleaned p) (exited status p) (one_less (with_ext x _))).
  - by apply (runs_changed me t p (cleaned p) w); [..|apply lookup_insert_eq|].
  - apply lookup_insert_eq.
  - done.
  - done.
  - by destruct Hst.
  - by destruct Hcond.
  - done.
Qed.

Lemma can_join_exited attr me u pu t p Q status calls x w :
  can_join attr me u pu t p Q w ->
  can_join attr me u pu t (exited status p) (<[HCond (CStateCond t) := []]> Q) (exit_world t p status calls x Q w).
Proof.
  intros Hj. pose proof Hj as [_ Hpu Hu Hp _ _ _ _ _ _ Hc Hq _].
  apply (can_join_moved attr me u pu pu t p _ Q _ w _ Hj); try reflexivity.
  - change (<[t := exited status p]> (pthreads w) !! u = Some pu). by rewrite lookup_insert_ne.
  - apply lookup_insert_eq.
  - apply (woken_queues (CStateCond t) Q w Hc).
  - intros h Hh He. rewrite fn_lookup_insert_ne; [done|]. intros Heq. by apply (Hh (CStateCond t)).
  - rewrite fn_lookup_insert. by intros v ?%elem_of_nil.
  - by apply woken_unqueued.
Qed.

(** What a join that succeeds leaves: the structure can be used again, the ID is
    not known any more, and stack and port are given back. *)
Definition after_join (t : nat) (p : pthread) (Q : head_id -> list nat) (w w' : world) : Prop :=
  pthreads w' = <[t := with_p_state PTHREAD_TERMINATED (with_p_stack false p)]> (pthreads w) /\
  table_get (threads_tab (glob w')) (p_thread p - 1) = Some None /\
  qrep (qh w') (<[HFreeThreads := t :: Q HFreeThreads]> Q) /\
  klog (env w') = reap_requests t p ++ klog (env w) /\
  mail w' !! t = None.

Lemma reaped_after attr me u pu t p Q q w :
  can_join attr me u pu t p Q w -> qrep q (<[HFreeThreads := t :: Q HFreeThreads]> Q) ->
  after_join t p Q w (reaped t p q w) /\
  solo (pthread_join (p_thread p) me (reaped t p q w)) = Done (ESRCH, None) (reaped t p q w).
Proof.
  intros [Hr Hpu Hu Hp Hid Hs Hk Htab Hst Hf Hc Hun Ha] Rq.
  destruct (table_set_known _ _ None _ Hid) as (tab & Hset & Hget).
  assert (table_get (threads_tab (glob (reaped t p q w))) (p_thread p - 1) = Some None) as Hnone.
  { change (table_get (table_set (threads_tab (glob w)) (p_thread p - 1) None) (p_thread p - 1) = Some None).
    by rewrite Hset, Hget, decide_True. }
  assert (rwlock_idle RThreadsLock attr (reaped t p q w)) as Htab'.
  { destruct Htab as [H1 H2 H3 H4 H5]. split; try done; cbn; rewrite (qrep_head _ _ _ Rq), fn_lookup_insert_ne by done;
      by rewrite <- (qrep_head _ _ _ (cr_queues _ _ _ Hc)). }
  split; [split_and!|].
  - change (<[t := with_p_state PTHREAD_TERMINATED (with_p_stack false p)]> (<[t := with_p_stack false p]> (pthreads w)) =
      <[t := with_p_state PTHREAD_TERMINATED (with_p_stack false p)]> (pthreads w)). by rewrite insert_insert_eq.
  - exact Hnone.
  - exact Rq.
  - done.
  - apply lookup_delete_eq.
  - unfold pthread_join. cbn [mbind M_bind]. by rewrite (solo_getid attr _ None).
Qed.

(** C17: Once a thread, whose handlers and destructors do not call the library
    ([AppCalls]), has exited, pthread_join returns 0 and its exit status,
    terminates the kernel thread, gives back the stack and the wakeup port, withdraws
    the ID and puts the structure on the free list; another join of the same ID
    fails with ESRCH. *)
Theorem exit_then_join a attr me1 me2 t p hs u pu Q status w {A} :
  can_exit a attr me1 t p hs Q w -> p_state p = PTHREAD_JOINABLE -> can_join attr me2 u pu t p Q w ->
  exists w1 w2, solo (__pthread_exit (A := A) status me1 w) = Halted w1 /\
    solo (pthread_join (p_thread p) me2 w1) = Done (OK, Some (exit_status p status)) w2 /\
    after_join t (exited status p) (<[HCond (CStateCond t) := []]> Q) w1 w2 /\
    solo (pthread_join (p_thread p) me2 w2) = Done (ESRCH, None) w2.
Proof.
  intros He Hj Hc. destruct (exit_joinable_at a attr me1 t p hs Q status w (A := A) He Hj) as (x & Hexit).
  apply (can_join_exited attr me2 u pu t p Q status (hs ++ specific_calls w p) x) in Hc.
  destruct (join_exited_at attr me2 u pu t _ _ _ Hc eq_refl) as (q & Rq & Hjoin).
  destruct (reaped_after _ _ _ _ _ _ _ q _ Hc Rq) as [Haft Hagain].
  eexists _, _. split_and!; [exact Hexit|exact Hjoin|exact Haft|exact Hagain].
Qed.

(** ** A join that waits *)

Lemma solo_bind_recv {A B} (c : res A) (f : A -> world -> res B) t o w k :
  solo c = Susp (RRecv t o) w k -> solo (bindr c f) = Susp (RRecv t o) w (fun e w' => bindr (k e w') f).
Proof.
  induction c as [a' w'|x|x|w'|r w' k' IHc]; cbn; [done..|].
  destruct r as [l|t' o'|]; cbn; [|by intros [= -> -> -> ->]|apply IHc].
  case_decide; [done|]. apply IHc.
Qed.

(** The thread [u], now [pu1], waits in the queue of [t]. *)
Section Waits.
Context (attr : option rwlockattr) (t u : nat) (p pu pu1 : pthread) (Q : head_id -> list nat) (q : qheap_w) (w : world).
Context (Rq : qrep q (<[HCond (CStateCond t) := u :: Q (HCond (CStateCond t))]> Q)).
Context (HQ : qrep (qh w) Q) (Hmail : mail w !! u = Some 0%nat) (Hut : u <> t).
Context (Hpu : pthreads w !! u = Some pu) (Hk : kernel_thread pu1 = kernel_thread pu).

Let Q1 : head_id -> list nat := <[HCond (CStateCond t) := u :: Q (HCond (CStateCond t))]> Q.
Let w1 : world := set_qh q (with_thread u pu1 w).

Lemma waits_head h : (forall c, h <> HCond c) -> cells (qh w) !! Head h = None -> cells (qh w1) !! Head h = None.
Proof.
  intros Hh. cbn. rewrite (qrep_head _ _ _ Rq), (qrep_head _ _ _ HQ), fn_lookup_insert_ne; [done|].
  intros He. by apply (Hh (CStateCond t)).
Qed.

Lemma waits_mutex m : mutex_idle m w -> mutex_idle m w1.
Proof. intros [Hm Hl Hh Hq]. split; try done. by apply waits_head. Qed.

Lemma waits_rwlock r : rwlock_idle r attr w -> rwlock_idle r attr w1.
Proof. intros [H1 H2 H3 H4 H5]. split; try done; by apply waits_head. Qed.

Lemma waits_cond : cond_ready (CStateCond t) Q w -> cond_ready (CStateCond t) Q1 w1.
Proof.
  intros [Hl _ Hm]. split; [done|done|]. intros v. unfold Q1. rewrite fn_lookup_insert.
  intros [-> | Hv]%elem_of_cons; [done|]. by apply Hm.
Qed.

Lemma waits_queued v : v <> u -> queued Q1 v -> queued Q v.
Proof.
  intros Hv [h Hh]. unfold Q1 in Hh. destruct (decide (HCond (CStateCond t) = h)) as [<- | Hne].
  - rewrite fn_lookup_insert in Hh. apply elem_of_cons in Hh as [?|Hh]; [done|]. by eexists.
  - rewrite fn_lookup_insert_ne in Hh by done. by eexists.
Qed.

Lemma waits_can_join me : can_join attr me u pu t p Q w -> can_join attr me u pu1 t p Q1 w1.
Proof.
  intros Hj. pose proof Hj as [_ _ _ Hp _ _ _ _ _ _ Hc Hun _].
  apply (can_join_moved attr me u pu pu1 t p p Q Q1 w w1 Hj); try reflexivity.
  - apply lookup_insert_eq.
  - exact Hk.
  - change (<[u := pu1]> (pthreads w) !! t = Some p). by rewrite lookup_insert_ne.
  - exact Rq.
  - intros h Hh He. unfold Q1. rewrite fn_lookup_insert_ne; [done|]. intros Heq. by apply (Hh (CStateCond t)).
  - intros v. by apply waits_cond.
  - intros Hq'. by apply Hun, waits_queued.
Qed.

Lemma waits_can_exit a me hs :
  can_exit a attr me t p hs Q w -> p_state p = PTHREAD_JOINABLE -> can_exit a attr me t p hs Q1 w1.
Proof.
  intros [Hr Hp Hh Hc Hcs Hd Hf Htot Hst _ Hcond Ha] Hj.
  assert (pthreads w1 !! t = Some p) as Hp1.
  { change (<[u := pu1]> (pthreads w) !! t = Some p). by rewrite lookup_insert_ne. }
  assert (runs me t w1) as Hr1 by (by apply (runs_changed me t p p w)).
  split; try done.
  - by apply waits_mutex.
  - intros h Hh'. destruct (Hd h Hh') as [_ [H1 H2 H3 H4 H5 H6] H7 H8 H9]. split; try done.
    split; try done. by apply waits_head.
  - by apply waits_mutex.
  - by left.
  - by apply waits_cond.
Qed.
End Waits.

(** The caller [pu] while it waits. *)
Definition joining (t u : nat) (pu : pthread) : pthread := waiting u (CStateCond t) (push_unlock t pu).

(** What a join does when it is woken up. *)
Definition join_resumed (n t u : nat) (pu : pthread) (me : kctx) (w : world) : res (error_t * option Z) :=
  bindr (bindr (bindr (leave_queue (CStateCond t) u OK me w) (after_block me u (MStateLock t) (cancel_type pu)))
    (fun _ w => join_wait n t me w)) (fun _ w => finish_join t me w).

Lemma join_blocks attr me u pu t p x Q w n :
  can_join attr me u pu t p Q w -> p_state p = PTHREAD_JOINABLE -> conds w !! CStateCond t = Some x ->
  mutex_idle (MCancelLock u) w -> cancelled pu = false -> ~ queued Q u -> loop_fuel = S n ->
  exists q k, qrep q (<[HCond (CStateCond t) := u :: Q (HCond (CStateCond t))]> Q) /\
    solo (pthread_join (p_thread p) me w) = Susp (RRecv u None) (set_qh q (with_thread u (joining t u pu) w)) k /\
    forall w', k KERN_SUCCESS w' = join_resumed n t u pu me w'.
Proof.
  intros Hj Hs Hx Hc Hn Hun Hfuel. rewrite (join_starts attr me u pu t p Q) by done. rewrite Hfuel.
  destruct Hj as [Hr Hpu Hu Hp Hid _ Hk Htab Hst Hf Hcond Hq Ha].
  set (pu1 := push_unlock t pu). set (w0 := hold_mutex (MStateLock t) (with_thread u pu1 w)).
  destruct (enqueue_refines (qh w) Q (HCond (CStateCond t)) u (cr_queues _ _ _ Hcond) Hun) as (q & Hq' & Rq).
  pose proof Hst as [(o & k & Hm) Hl Hh Hqu].
  assert (at_cond me u (CStateCond t) pu1 x w0) as Hat.
  { split; [|apply lookup_insert_eq| |done|].
    - by apply (runs_changed me u pu pu1 w); [..|apply lookup_insert_eq|].
    - destruct Hc as [Hm' Hl' Hh' Hq2]. split; try done; cbn; set_solver.
    - destruct Hcond. cbn. set_solver. }
  destruct (cond_block_at me u (CStateCond t) None x (set_qh q (with_thread u (joining t u pu) w)) I) as (kb & Hkb & Hok & _).
  assert (solo (__pthread_cond_timedwait_internal (CStateCond t) (MStateLock t) None me w0) =
    Susp (RRecv u None) (set_qh q (with_thread u (joining t u pu) w))
      (fun e w' => bindr (kb e w') (after_block me u (MStateLock t) (cancel_type pu)))) as Hwait.
  { rewrite (wait_blocks me u (CStateCond t) (MStateLock t) None pu1 x w0 q o k); try done.
    - assert (set_spins (spins w0 ∖ {[SMutexHeld (MStateLock t)]})
        (set_qh q (with_thread u (waiting u (CStateCond t) pu1) w0)) = set_qh q (with_thread u (joining t u pu) w)) as ->.
      { unfold w0. cbn. rewrite spins_cycle by done.
        transitivity (set_qh q (with_thread u (joining t u pu) (with_thread u pu1 w))); [done|]. by rewrite with_thread_twice. }
      by rewrite Hkb.
    - cbn. set_solver. }
  exists q. eexists. split; [done|]. split.
  - apply solo_bind_recv. cbn [join_wait mbind M_bind]. rewrite (get_thread_at t p).
    2:{ change (<[u := pu1]> (pthreads w) !! t = Some p). by rewrite lookup_insert_ne. }
    cbn [bindr]. rewrite decide_True by done. apply solo_bind_recv. exact Hwait.
  - intros w'. cbn. by rewrite Hok.
Qed.

Lemma returned_joining t u pu m w :
  cancel_hook pu = None ->
  returned u m (cancel_type pu) (joining t u pu) w = hold_mutex m (with_thread u (push_unlock t pu) w).
Proof. intros Hh. unfold returned, joining. f_equal. f_equal. destruct pu. cbn in *. by subst. Qed.

Lemma can_join_caller attr me u pu1 pu t p Q w :
  can_join attr me u pu1 t p Q w -> kernel_thread pu = kernel_thread pu1 ->
  can_join attr me u pu t p Q (with_thread u pu w).
Proof.
  intros Hj Hkt. pose proof Hj as [_ _ Hu Hp _ _ _ _ _ _ Hc Hq _].
  apply (can_join_moved attr me u pu1 pu t p p Q Q w _ Hj); try reflexivity; try done; try apply Hc.
  - apply lookup_insert_eq.
  - change (<[u := pu]> (pthreads w) !! t = Some p). by rewrite lookup_insert_ne.
Qed.

Lemma can_join_mail attr me u pu t p Q b w :
  can_join attr me u pu t p Q w -> (forall v, v ∈ Q (HCond (CStateCond t)) -> b !! v = Some 0%nat) ->
  can_join attr me u pu t p Q (set_mail b w).
Proof.
  intros Hj Hb. pose proof Hj as [_ Hpu _ Hp _ _ _ _ _ _ Hc Hq _].
  apply (can_join_moved attr me u pu pu t p p Q Q w _ Hj); try reflexivity; try done; apply Hc.
Qed.

Lemma mutex_idle_heads m Q Q' w w' :
  mutex_idle m w -> qrep (qh w) Q -> qrep (qh w') Q' -> Q' (HMutex m) = Q (HMutex m) ->
  mutexes w' = mutexes w -> spins w' = spins w -> mutex_idle m w'.
Proof.
  intros [H1 H2 H3 H4] R R' HQ Hm Hs. split; [by rewrite Hm|by rewrite Hs|by rewrite Hs|].
  by rewrite (qrep_head _ _ _ R'), HQ, <- (qrep_head _ _ _ R).
Qed.

Lemma join_resumes attr me u pu t p x Q w n :
  can_join attr me u (joining t u pu) t p Q w -> p_state p = PTHREAD_EXITED -> conds w !! CStateCond t = Some x ->
  mutex_idle (MCancelLock u) w -> cancelled pu = false -> cancel_hook pu = None -> ~ queued Q u ->
  exists q, qrep q (<[HFreeThreads := t :: Q HFreeThreads]> Q) /\
    solo (join_resumed n t u pu me w) = Done (OK, Some (p_status p)) (reaped t p q (with_thread u pu w)).
Proof.
  intros Hj Hs Hx Hc Hn Hh Hun. pose proof Hj as [Hr Hpu Hu Hp Hid Hst' Hk Htab Hst Hf Hcond Hq Ha].
  set (w0 := with_thread u pu w).
  pose proof (can_join_caller attr me u _ pu t p Q w Hj eq_refl) as Hj0. fold w0 in Hj0.
  destruct (join_finishes attr me u pu t p Q w0 Hj0 Hs) as (q & Rq & Hfin). exists q. split; [done|].
  assert (solo (bindr (leave_queue (CStateCond t) u OK me w) (after_block me u (MStateLock t) (cancel_type pu))) =
    Done OK (hold_mutex (MStateLock t) (with_thread u (push_unlock t pu) w0))) as Hback.
  { destruct (leave_dequeued me u (CStateCond t) w (after_block me u (MStateLock t) (cancel_type pu))) as [-> _];
      [by destruct Hcond|by apply (qrep_not_queued _ _ _ (cr_queues _ _ _ Hcond))|].
    rewrite (after_block_at me u (CStateCond t) (MStateLock t) _ _ (joining t u pu) x).
    - rewrite returned_joining by done. unfold w0. by rewrite with_thread_twice.
    - split; [split; try done; by destruct Hcond|done|done]. }
  unfold join_resumed. rewrite bindr_assoc, (solo_bind_done _ _ _ _ Hback). cbn [bindr].
  rewrite (join_wait_over _ t p); [exact Hfin| |by rewrite Hs].
  change (<[u := push_unlock t pu]> (<[u := pu]> (pthreads w)) !! t = Some p). by rewrite !lookup_insert_ne.
Qed.

(** C16: A thread that joins a running thread blocks; when the joined thread, whose
    handlers and destructors do not call the library ([AppCalls]), exits it sends the joiner one message, and the call returns with 0 and the exit status
    and gives the resources of the thread back. *)
Theorem join_waits_for_exit a attr me1 me2 t p hs u pu x Q status w {A} :
  can_exit a attr me1 t p hs Q w -> p_state p = PTHREAD_JOINABLE -> can_join attr me2 u pu t p Q w ->
  conds w !! CStateCond t = Some x -> mutex_idle (MCancelLock u) w ->
  cancelled pu = false -> cancel_hook pu = None -> ~ queued Q u -> mail w !! u = Some 0%nat ->
  exists w1 k w2 w3,
    solo (pthread_join (p_thread p) me2 w) = Susp (RRecv u None) w1 k /\
    solo (__pthread_exit (A := A) status me1 w1) = Halted w2 /\
    resume (RRecv u None) w2 KERN_SUCCESS (set_mail (<[u := 0%nat]> (mail w2)) w2) /\
    solo (k KERN_SUCCESS (set_mail (<[u := 0%nat]> (mail w2)) w2)) = Done (OK, Some (exit_status p status)) w3 /\
    pthreads w3 !! u = Some pu /\
    pthreads w3 !! t = Some (with_p_state PTHREAD_TERMINATED (with_p_stack false (exited status p))) /\
    solo (pthread_join (p_thread p) me2 w3) = Done (ESRCH, None) w3.
Proof.
  intros He Hs Hj Hx Hc Hn Hh Hun Hm. destruct loop_fuel as [|n] eqn:Hfuel; [pose proof (ce_fuel _ _ _ _ _ _ _ _ He); lia|].
  destruct (join_blocks attr me2 u pu t p x Q w n) as (q & k & Rq & Hblock & Hk); [done..|].
  pose proof Hj as [Hr Hpu Hu Hp _ _ _ _ _ _ Hcond _ _]. pose proof (cr_queues _ _ _ Hcond) as HQ.
  set (Q1 := <[HCond (CStateCond t) := u :: Q (HCond (CStateCond t))]> Q) in *.
  set (w1 := set_qh q (with_thread u (joining t u pu) w)) in *.
  assert (can_exit a attr me1 t p hs Q1 w1) as He1 by (by apply (waits_can_exit attr t u p (joining t u pu) Q q w)).
  assert (can_join attr me2 u (joining t u pu) t p Q1 w1) as Hj1 by (by apply (waits_can_join attr t u p pu (joining t u pu) Q q w)).
  destruct (exit_joinable_at a attr me1 t p hs Q1 status w1 (A := A) He1 Hs) as (xm & Hexit).
  set (calls := hs ++ specific_calls w1 p) in *.
  apply (can_join_exited attr me2 u _ t p Q1 status calls xm) in Hj1.
  set (w2 := exit_world t p status calls xm Q1 w1) in *. set (w2' := set_mail (<[u := 0%nat]> (mail w2)) w2).
  assert (mail w2 !! u = Some 1%nat) as Hmail.
  { change (post_all (Q1 (HCond (CStateCond t))) (mail w) !! u = Some 1%nat).
    rewrite lookup_post_all, decide_True; [done|]. unfold Q1. rewrite fn_lookup_insert. by left. }
  set (Q2 := <[HCond (CStateCond t) := []]> Q1) in *.
  assert (~ queued Q2 u) as Hun2.
  { intros [h Hh2]. unfold Q2, Q1 in Hh2. destruct (decide (HCond (CStateCond t) = h)) as [<- | Hne].
    - rewrite fn_lookup_insert in Hh2. by apply elem_of_nil in Hh2.
    - rewrite !fn_lookup_insert_ne in Hh2 by done. apply Hun. by eexists. }
  assert (can_join attr me2 u (joining t u pu) t (exited status p) Q2 w2') as Hj2.
  { apply can_join_mail; [exact Hj1|]. intros v. unfold Q2. rewrite fn_lookup_insert. by intros ?%elem_of_nil. }
  assert (mutex_idle (MCancelLock u) w2') as Hc2.
  { apply (mutex_idle_heads _ Q Q2 w); [exact Hc|exact HQ|exact (cr_queues _ _ _ (cj_cond _ _ _ _ _ _ _ _ Hj2))|
      |reflexivity|reflexivity]. unfold Q2, Q1. by rewrite !fn_lookup_insert_ne by done. }
  destruct (join_resumes attr me2 u pu t (exited status p) x Q2 w2' n) as (q3 & Rq3 & Hres); [done..|].
  exists w1, k, w2. eexists. rewrite Hk. split_and!; [done|exact Hexit|by apply resume_msg|exact Hres|..].
  - change (<[t := with_p_state PTHREAD_TERMINATED (with_p_stack false (exited status p))]>
      (<[t := with_p_stack false (exited status p)]> (<[u := pu]> (pthreads w2'))) !! u = Some pu).
    do 2 rewrite lookup_insert_ne by done. apply lookup_insert_eq.
  - apply lookup_insert_eq.
  - by apply (reaped_after _ _ _ _ _ _ _ q3 _ (can_join_caller attr me2 u _ pu t _ Q2 w2' Hj2 eq_refl)).
Qed.

End Join.

(** ** Concrete joins *)

Definition joined_pthread : pthread := with_p_stack true exiting_pthread.

Definition join_mutexes : gmap mutex_id mutex :=
  <[MCancelLock 0 := mkMutex ANull None 0]> (<[MFreeThreadsLock := mkMutex ANull None 0]> exit_mutexes).

(** As [demo_exit], but nobody waits yet. *)
Definition demo_join : world :=
  set_conds {[CStateCond 1 := mkCond None]}
    (set_qh qheap_empty (set_mutexes join_mutexes (with_thread 1 joined_pthread demo_exit))).

Lemma demo_join_mutex m :
  m = MCancelLock 0 \/ m = MCancelLock 1 \/ m = MStateLock 1 \/ m = MFreeThreadsLock -> mutex_idle m demo_join.
Proof. intros [-> | [-> | [-> | ->]]]; (split; [by do 2 eexists|by vm_compute..]). Qed.

Lemma demo_join_cond : cond_ready (CStateCond 1) (fun _ => []) demo_join.
Proof. split; [by vm_compute|apply qrep_empty|]. by intros u ?%elem_of_nil. Qed.

Lemma demo_join_exits :
  can_exit (P := app_platform) (IH := map_ihash) key_attr None (demo_ctx 1) 1 joined_pthread [(11, 1); (12, 2)]
    (fun _ => []) demo_join.
Proof.
  pose proof demo_exit_ready as [_ _ _ _ _ Hd _ _ _ _ _ _].
  assert (runs (demo_ctx 1) 1 demo_join) as Hr by (split; [by eexists|]; split; [done|]; by eexists).
  split; [done|done|done|apply demo_join_mutex; auto|by right| |cbn; lia|done|apply demo_join_mutex; auto|by left|
    apply demo_join_cond|done].
  intros h Hh. destruct (Hd h Hh) as [_ _ Hk Hf Ht]. by split.
Qed.

Lemma demo_join_joins :
  can_join None (demo_ctx 0) 0 (demo_pthread 0) 1 joined_pthread (fun _ => []) demo_join.
Proof.
  split; [split; [by eexists|]; split; [done|]; by eexists|done|done|done|done|done|done|by split|
    apply demo_join_mutex; auto|apply demo_join_mutex; auto|apply demo_join_cond| |done].
  by intros [h ?%elem_of_nil].
Qed.

Lemma exit_then_join_witness :
  exists w1 w2, solo (@__pthread_exit app_platform map_ihash unit 9 (demo_ctx 1) demo_join) = Halted w1 /\
    solo (@pthread_join app_platform map_ihash 2 (demo_ctx 0) w1) = Done (OK, Some 9) w2 /\
    p_state <$> pthreads w2 !! 1%nat = Some PTHREAD_TERMINATED /\
    solo (@pthread_join app_platform map_ihash 2 (demo_ctx 0) w2) = Done (ESRCH, None) w2.
Proof.
  destruct (@exit_then_join app_platform map_ihash map_ihash_laws app_calls key_attr None (demo_ctx 1) (demo_ctx 0) 1
    joined_pthread _ 0 _ _ 9 demo_join unit demo_join_exits eq_refl demo_join_joins)
    as (w1 & w2 & Hexit & Hjoin & (Hp & _) & Hagain).
  exists w1, w2. split_and!; [exact Hexit|exact Hjoin| |exact Hagain]. rewrite Hp. by rewrite lookup_insert_eq.
Defined.

Lemma join_waits_for_exit_witness :
  exists w1 k w2 w3,
    solo (@pthread_join app_platform map_ihash 2 (demo_ctx 0) demo_join) = Susp (RRecv 0 None) w1 k /\
    solo (@__pthread_exit app_platform map_ihash unit 9 (demo_ctx 1) w1) = Halted w2 /\
    solo (k KERN_SUCCESS (set_mail (<[0%nat := 0%nat]> (mail w2)) w2)) = Done (OK, Some 9) w3.
Proof.
  destruct (@join_waits_for_exit app_platform map_ihash map_ihash_laws app_calls key_attr None (demo_ctx 1) (demo_ctx 0) 1
    joined_pthread _ 0 _ (mkCond None) _ 9 demo_join unit demo_join_exits eq_refl demo_join_joins)
    as (w1 & k & w2 & w3 & Hblock & Hexit & _ & Hres & _).
  - done.
  - apply demo_join_mutex. auto.
  - done.
  - done.
  - by intros [h ?%elem_of_nil].
  - done.
  - exists w1, k, w2, w3. split_and!; [exact Hblock|exact Hexit|exact Hres].
Defined.

(** Thread 0 detaches thread 1 while it is joinable. *)
Lemma detach_result_witness :
  exists w', solo (pthread_detach 2 (demo_ctx 0) demo_join) = Done OK w' /\
    p_state <$> pthreads w' !! 1%nat = Some PTHREAD_DETACHED.
Proof.
  destruct (detach_result None 2 (Some 1%nat) (demo_ctx 0) demo_join) with (p := joined_pthread) (Q := fun _ : head_id => @nil nat)
    as (w' & Hrun & Hp & _).
  - by split.
  - done.
  - done.
  - apply demo_join_mutex. auto.
  - apply demo_join_cond.
  - exists w'. split; [exact Hrun|]. rewrite Hp. by rewrite lookup_insert_eq.
Defined.
