(* ===== verification/CancelSpec.v ===== *)
(** * Canceling a thread

    pthread_cancel on all branches, and what it does to a thread that waits in
    pthread_join. *)
From Stdlib Require Import ZArith Lia FunctionalExtensionality.
From S2P Require Import Prelude Queue World Machine Platform Sched Mach Demo Attr Mutex Rwlock Barrier Cond Kernel KernelFacts Keys Threads CondWait ThreadOps ThreadFacts CondSpec KeyFacts KeySpec ExitSpec JoinSpec.
Local Open Scope Z_scope.

#[local] Arguments update_thread : simpl never.
#[local] Arguments get_thread : simpl never.
#[local] Arguments cancelled : simpl never.
#[local] Arguments run_cancel_hook : simpl never.
#[local] Arguments __thread_set_pcsptp : simpl never.
#[local] Arguments __pthread_do_cancel : simpl never.
#[local] Arguments call_exit : simpl never.

Section Cancel.
Context `{P : Platform} `{IH : IHash}.

Definition requested_to_cancel (t : nat) (p : pthread) (w : world) : world := with_thread t (with_cancel_pending 1 p) w.

(** ** The requests for an asynchronous cancelation *)

(** What the kernel is asked for, the last request first. *)
Definition redirect_requests (k pc : Z) : list kcall :=
  [KThreadResume k; KThreadSetState k (Some pc) None None; KThreadGetState k; KThreadAbort k; KThreadSuspend k].

Definition redirected (k pc : Z) (w : world) : world :=
  set_env (set_klog (redirect_requests k pc ++ klog (env w)) (env w)) w.

(** With the lock of the cancelation held: the thread itself exits, another one is made to. *)
Lemma do_cancel_at t p pc me w :
  pthreads w !! t = Some p -> cancel_pending p = 1 -> cancel_state p = PTHREAD_CANCEL_ENABLE ->
  mutex_idle (MCancelLock t) w ->
  (kernel_thread p = ktid me ->
   solo (__pthread_do_cancel t pc me (hold_mutex (MCancelLock t) w)) = solo ((call_exit;; mret OK) me w)) /\
  (kernel_thread p <> ktid me -> answers (env w) = [] ->
   solo (__pthread_do_cancel t pc me (hold_mutex (MCancelLock t) w)) = Done OK (redirected (kernel_thread p) pc w)).
Proof.
  intros Hp Hpend Hs Hc. unfold __pthread_do_cancel. cbn [mbind M_bind].
  rewrite (get_thread_at t p) by done. cbn [bindr]. rewrite Hpend, Hs. cbn. rewrite solo_release by done. cbn.
  split.
  - intros ->. by rewrite Z.eqb_refl.
  - intros Hne Ha. rewrite (proj2 (Z.eqb_neq _ _)) by done. cbn. rewrite kernel_request_granted by done. cbn.
    rewrite kernel_request_granted by done. cbn. unfold __thread_set_pcsptp. cbn.
    rewrite kernel_request_granted by done. cbn. rewrite kernel_request_granted by done. cbn.
    by rewrite kernel_request_granted.
Qed.

(** ** The hook of a thread that waits *)

Definition wake_mail (t : nat) (w : world) : gmap nat nat :=
  match prevp (qh w) !! t with Some _ => <[t := 1%nat]> (mail w) | None => mail w end.

(** The thread that waits is not in a queue any more and has a message, if it was in one. *)
Definition unblocked (ctx : cancel_ctx) (q : qheap_w) (w : world) : world :=
  set_qh q (set_mail (wake_mail (ctx_wakeup ctx) w) w).

Lemma solo_hook ctx m Q me w {B} (f : unit -> world -> res B) :
  qrep (qh w) Q -> SCond (ctx_cond ctx) ∉ spins w -> (queued Q (ctx_wakeup ctx) -> mail w !! ctx_wakeup ctx = Some 0%nat) ->
  exists q, qrep q (qremove (ctx_wakeup ctx) Q) /\
    solo (bindr (run_cancel_hook ctx me (hold_mutex m w)) f) = solo (f tt (hold_mutex m (unblocked ctx q w))).
Proof.
  intros R Hl Hm. destruct (cancel_hook_wakes_once ctx Q me (hold_mutex m w)) as (q & b & Hrun & Rq & Hb);
    [done|cbn; set_solver|done|].
  exists q. split; [done|]. rewrite (solo_bind_done _ _ _ _ Hrun).
  enough (b = (wake_mail (ctx_wakeup ctx) w)) as -> by done.
  apply map_eq. intros u. rewrite Hb. unfold wake_mail. cbn. destruct (prevp (qh w) !! ctx_wakeup ctx) as [d|] eqn:Hd; cbn.
  - destruct (decide (u = ctx_wakeup ctx)) as [-> | Hne].
    + rewrite decide_True by (split; [done|by rewrite Hd]). by rewrite lookup_insert_eq.
    + rewrite decide_False by tauto. by rewrite lookup_insert_ne.
  - rewrite decide_False; [done|]. intros [-> [? He]]. congruence.
Qed.

Lemma mutex_idle_unblocked m ctx Q q w :
  qrep (qh w) Q -> qrep q (qremove (ctx_wakeup ctx) Q) -> mutex_idle m w -> mutex_idle m (unblocked ctx q w).
Proof.
  intros R Rq [Hm Hl Hh Hq]. split; try done. cbn. rewrite (qrep_head _ _ _ Rq). rewrite (qrep_head _ _ _ R) in Hq.
  destruct (Q (HMutex m)) eqn:HQ; [|done]. unfold qremove. by rewrite HQ.
Qed.

Lemma hook_branch ctx m Q me w :
  qrep (qh w) Q -> SCond (ctx_cond ctx) ∉ spins w -> (queued Q (ctx_wakeup ctx) -> mail w !! ctx_wakeup ctx = Some 0%nat) ->
  mutex_idle m w ->
  exists q, qrep q (qremove (ctx_wakeup ctx) Q) /\
    solo ((run_cancel_hook ctx;; _ ← __pthread_mutex_unlock m; mret OK) me (hold_mutex m w)) = Done OK (unblocked ctx q w).
Proof.
  intros R Hl Hm Hi. destruct (solo_hook ctx m Q me w
    (fun _ w => bindr (__pthread_mutex_unlock m me w) (fun _ w => Done OK w)) R Hl Hm) as (q & Rq & Hrun).
  exists q. split; [done|]. cbn. rewrite Hrun. rewrite solo_release; [done|]. by apply (mutex_idle_unblocked _ _ Q).
Qed.

(** ** pthread_cancel *)

(** The calls up to the tests. *)
Lemma cancel_starts attr thread pc t me w :
  rwlock_idle RThreadsLock attr w -> table_get (threads_tab (glob w)) (thread - 1) = Some (Some t) ->
  mutex_idle (MCancelLock t) w -> forall p, pthreads w !! t = Some p ->
  solo (pthread_cancel thread pc me w) = solo ((
      if negb (cancel_pending p =? 0) then
        _ ← __pthread_mutex_unlock (MCancelLock t); mret OK
      else
      put_thread t (with_cancel_pending 1 p);;
      if negb (cancel_state p =? PTHREAD_CANCEL_ENABLE) then
        _ ← __pthread_mutex_unlock (MCancelLock t); mret OK
      else if cancel_type p =? PTHREAD_CANCEL_ASYNCHRONOUS then
        __pthread_do_cancel t pc
      else
        match cancel_hook p with
        | Some ctx => run_cancel_hook ctx
        | None => mret tt
        end;;
        _ ← __pthread_mutex_unlock (MCancelLock t);
        mret OK) me (hold_mutex (MCancelLock t) w)).
Proof.
  intros Hr Ht Hc p Hp. unfold pthread_cancel. cbn [mbind M_bind]. rewrite (solo_getid attr thread (Some t)) by done.
  cbn [mbind M_bind]. rewrite solo_mutex_lock by done. by rewrite (get_thread_at t p) by done.
Qed.

(** The branch of a thread that waits. *)
Lemma cancel_waiting_at attr thread pc t p ctx Q me w :
  rwlock_idle RThreadsLock attr w -> table_get (threads_tab (glob w)) (thread - 1) = Some (Some t) ->
  mutex_idle (MCancelLock t) w -> pthreads w !! t = Some p -> cancel_pending p = 0 ->
  cancel_state p = PTHREAD_CANCEL_ENABLE -> cancel_type p <> PTHREAD_CANCEL_ASYNCHRONOUS -> cancel_hook p = Some ctx ->
  qrep (qh w) Q -> SCond (ctx_cond ctx) ∉ spins w -> (queued Q (ctx_wakeup ctx) -> mail w !! ctx_wakeup ctx = Some 0%nat) ->
  exists q, qrep q (qremove (ctx_wakeup ctx) Q) /\
    solo (pthread_cancel thread pc me w) = Done OK (unblocked ctx q (requested_to_cancel t p w)).
Proof.
  intros Hr Ht Hc Hp Hz He Ha Hh R Hl Hm. rewrite (cancel_starts attr thread pc t me w Hr Ht Hc p Hp).
  rewrite Hz, He, (proj2 (Z.eqb_neq _ _) Ha), Hh.
  apply (hook_branch ctx (MCancelLock t) Q me (requested_to_cancel t p w)); [done..|by destruct Hc].
Qed.

(** C22: pthread_cancel on all branches: ESRCH for an ID that is not in use; no effect if
    a request is pending; only the request is noted if the thread has disabled
    cancelation, or does not wait.  With asynchronous cancelation the caller exits
    if it cancels itself, and another thread is suspended, its context
    set to a call of pthread_exit, and resumed.  If the thread waits, it leaves the queue
    and gets one message; a thread that was woken already gets no second one. *)
Theorem cancel_result attr thread o pc me w :
  rwlock_idle RThreadsLock attr w -> table_get (threads_tab (glob w)) (thread - 1) = Some o ->
  match o with
  | None => solo (pthread_cancel thread pc me w) = Done ESRCH w
  | Some t => forall p, pthreads w !! t = Some p -> mutex_idle (MCancelLock t) w ->
      let w1 := requested_to_cancel t p w in
      if decide (cancel_pending p <> 0) then solo (pthread_cancel thread pc me w) = Done OK w
      else if decide (cancel_state p <> PTHREAD_CANCEL_ENABLE) then solo (pthread_cancel thread pc me w) = Done OK w1
      else if decide (cancel_type p = PTHREAD_CANCEL_ASYNCHRONOUS) then
        (kernel_thread p = ktid me ->
         solo (pthread_cancel thread pc me w) = solo ((call_exit;; mret OK) me w1)) /\
        (kernel_thread p <> ktid me -> answers (env w) = [] ->
         solo (pthread_cancel thread pc me w) = Done OK (redirected (kernel_thread p) pc w1))
      else match cancel_hook p with
      | None => solo (pthread_cancel thread pc me w) = Done OK w1
      | Some ctx => forall Q, qrep (qh w) Q -> SCond (ctx_cond ctx) ∉ spins w ->
          (queued Q (ctx_wakeup ctx) -> mail w !! ctx_wakeup ctx = Some 0%nat) ->
          exists q, qrep q (qremove (ctx_wakeup ctx) Q) /\
            solo (pthread_cancel thread pc me w) = Done OK (unblocked ctx q w1)
      end
  end.
Proof.
  intros Hr Ht. destruct o as [t|].
  2:{ unfold pthread_cancel. cbn [mbind M_bind]. by rewrite (solo_getid attr thread None). }
  intros p Hp Hc w1. pose proof (cancel_starts attr thread pc t me w Hr Ht Hc p Hp) as Hrun.
  assert (mutex_idle (MCancelLock t) w1) as Hc1 by (by destruct Hc).
  destruct (decide (cancel_pending p <> 0)) as [Hne | Hz].
  { rewrite Hrun, (proj2 (Z.eqb_neq _ _) Hne). cbn. by rewrite solo_release. }
  apply Z.eq_dne in Hz. destruct (decide (cancel_state p <> PTHREAD_CANCEL_ENABLE)) as [Hne | He].
  { rewrite Hrun, Hz, (proj2 (Z.eqb_neq _ _) Hne). cbn.
    change (set_pthreads _ (hold_mutex _ w)) with (hold_mutex (MCancelLock t) w1). by rewrite solo_release. }
  apply Z.eq_dne in He. destruct (decide (cancel_type p = PTHREAD_CANCEL_ASYNCHRONOUS)) as [Ha | Ha].
  { rewrite Hrun, Hz, He, Ha. cbn. change (set_pthreads _ (hold_mutex _ w)) with (hold_mutex (MCancelLock t) w1).
    exact (do_cancel_at t (with_cancel_pending 1 p) pc me w1 (lookup_insert_eq _ _ _) eq_refl He Hc1). }
  destruct (cancel_hook p) as [ctx|] eqn:Hh.
  - intros Q R Hl Hm. by apply (cancel_waiting_at attr thread pc t p ctx Q me w).
  - rewrite Hrun, Hz, He, (proj2 (Z.eqb_neq _ _) Ha). cbn.
    change (set_pthreads _ (hold_mutex _ w)) with (hold_mutex (MCancelLock t) w1). by rewrite solo_release.
Qed.
End Cancel.

(** ** A canceled thread with a mutex to unlock *)

Section Unlocks.
Context `{P : Platform} `{IH : IHash} `{!IHashLaws IH}.

Definition push_handler (m : mutex_id) (p : pthread) : pthread :=
  with_cancelation_handlers (HandlerMutexUnlock m :: cancelation_handlers p) p.

Lemma run_unlock fuel t m rest p me w {B} (f : unit -> world -> res B) :
  pthreads w !! t = Some p -> cancelation_handlers p = HandlerMutexUnlock m :: rest -> mutex_idle m w ->
  solo (bindr (run_handlers (S fuel) t me (hold_mutex m w)) f) =
  solo (bindr (run_handlers fuel t me (with_thread t (with_cancelation_handlers rest p) w)) f).
Proof.
  intros Hp Hh Hm. cbn [run_handlers mbind M_bind]. rewrite (get_thread_at t p) by done. cbn [bindr]. rewrite Hh.
  cbn [run_handler mbind M_bind]. rewrite !bindr_assoc, solo_release by done. cbn.
  rewrite (update_thread_at t _ p) by done. cbn. by rewrite Hh.
Qed.

(** The part of an exit that runs the handlers. *)
Definition cleanup {B} (t : nat) (c : M B) : M B :=
  old ← __pthread_setcancelstate PTHREAD_CANCEL_DISABLE;
  p ← get_thread t;
  run_handlers (length (cancelation_handlers p) + loop_fuel) t;;
  _ ← __pthread_setcancelstate old.2; c.

(** What it does once cancelation is disabled. *)
Lemma cleanup_at me t p w {B} (c : M B) :
  runs me t w -> pthreads w !! t = Some p -> mutex_idle (MCancelLock t) w ->
  cancel_state p = PTHREAD_CANCEL_ENABLE \/ cancel_state p = PTHREAD_CANCEL_DISABLE ->
  let p1 := with_cancel_state PTHREAD_CANCEL_DISABLE p in
  solo (cleanup t c me w) =
  solo (bindr (run_handlers (length (cancelation_handlers p) + loop_fuel) t me (with_thread t p1 w))
          (fun _ w' => bindr (__pthread_setcancelstate (cancel_state p) me w') (fun _ w' => c me w'))).
Proof.
  intros Hr Hp Hc Hs p1. unfold cleanup. cbn [mbind M_bind].
  rewrite (solo_setcancelstate _ t p) by (done || by right). fold p1.
  by rewrite (get_thread_at t p1) by apply lookup_insert_eq.
Qed.

(** The handler that unlocks a mutex runs first, whatever the others are. *)
Lemma cleanup_unlocks me t p m w {B} (c : M B) :
  runs me t w -> pthreads w !! t = Some p ->
  mutex_idle (MCancelLock t) w -> mutex_idle m w -> m <> MCancelLock t ->
  cancel_state p = PTHREAD_CANCEL_ENABLE \/ cancel_state p = PTHREAD_CANCEL_DISABLE ->
  solo (cleanup t c me (hold_mutex m (with_thread t (push_handler m p) w))) = solo (cleanup t c me w).
Proof.
  intros Hr Hp Hc Hm Hne Hs. set (w0 := hold_mutex m _).
  rewrite (cleanup_at me t (push_handler m p) w0); [| |apply lookup_insert_eq| |done].
  2:{ by apply (runs_changed me t p (push_handler m p) w); [..|apply lookup_insert_eq|]. }
  2:{ destruct Hc as [H1 H2 H3 H4]. split; try done; cbn; set_solver. }
  rewrite (cleanup_at me t p w) by done. cbn zeta. set (p1 := with_cancel_state _ (push_handler m p)).
  assert (with_thread t p1 w0 = hold_mutex m (with_thread t p1 w)) as ->.
  { change (hold_mutex m (with_thread t p1 (with_thread t (push_handler m p) w)) = hold_mutex m (with_thread t p1 w)).
    by rewrite with_thread_twice. }
  change (length (cancelation_handlers (push_handler m p)) + loop_fuel)%nat
    with (S (length (cancelation_handlers p) + loop_fuel)).
  rewrite (run_unlock _ t m (cancelation_handlers p) p1); [|apply lookup_insert_eq|done|by destruct Hm].
  rewrite with_thread_twice. unfold p1, push_handler. by destruct p.
Qed.

(** The exit of a thread that holds [m] and has pushed the handler. *)
Lemma exit_unlocks me t p m status w {A} :
  runs me t w -> pthreads w !! t = Some p ->
  mutex_idle (MCancelLock t) w -> mutex_idle m w -> m <> MCancelLock t ->
  cancel_state p = PTHREAD_CANCEL_ENABLE \/ cancel_state p = PTHREAD_CANCEL_DISABLE ->
  solo (__pthread_exit (A := A) status me (hold_mutex m (with_thread t (push_handler m p) w))) =
  solo (__pthread_exit (A := A) status me w).
Proof.
  intros Hr Hp Hc Hm Hne Hs. unfold __pthread_exit.
  rewrite (self_bind me t w) by done. rewrite (self_bind me t (hold_mutex m _)); [by apply cleanup_unlocks|].
  by apply (runs_changed me t p (push_handler m p) w); [..|apply lookup_insert_eq|].
Qed.

(** ** An exit does not return *)

Lemma bindr_ext {A B} (c : res A) (f g : A -> world -> res B) :
  (forall a w, f a w = g a w) -> bindr c f = bindr c g.
Proof. intros H. f_equal. extensionality a. extensionality w. apply H. Qed.

Lemma end_thread_last {A B} t status me w (f : A -> world -> res B) :
  bindr (end_thread t status me w) f = end_thread t status me w.
Proof.
  unfold end_thread. cbn [mbind M_bind]. rewrite bindr_assoc. apply bindr_ext. intros [] w1; [done|].
  cbn [mbind M_bind]. repeat (rewrite bindr_assoc; apply bindr_ext; intros ? ?). done.
Qed.

Lemma exit_last {A B} status me w (f : A -> world -> res B) :
  bindr (__pthread_exit status me w) f = __pthread_exit status me w.
Proof.
  unfold __pthread_exit. cbn [mbind M_bind]. repeat (rewrite bindr_assoc; apply bindr_ext; intros ? ?).
  apply end_thread_last.
Qed.

(** ** A thread that is canceled while it joins another one *)

(** A queue heap with the same queues and a note of the request. *)
Definition noted (u : nat) (pu : pthread) (q : qheap_w) (w : world) : world :=
  with_thread u (with_cancel_pending 1 pu) (set_qh q w).

Lemma same_heads q Q w h :
  qrep (qh w) Q -> qrep q Q -> cells (qh w) !! Head h = None -> cells q !! Head (H := head_id) h = None.
Proof. intros R Rq. by rewrite (qrep_head _ _ _ R), (qrep_head _ _ _ Rq). Qed.

Lemma mutex_idle_noted m u pu q Q w :
  qrep (qh w) Q -> qrep q Q -> mutex_idle m w -> mutex_idle m (noted u pu q w).
Proof. intros R Rq [Hm Hl Hh Hq]. split; try done. by apply (same_heads q Q w). Qed.

Lemma rwlock_idle_noted r attr u pu q Q w :
  qrep (qh w) Q -> qrep q Q -> rwlock_idle r attr w -> rwlock_idle r attr (noted u pu q w).
Proof. intros R Rq [H1 H2 H3 H4 H5]. split; try done; by apply (same_heads q Q w). Qed.

Lemma can_exit_noted a attr me u pu hs Q q w :
  can_exit a attr me u pu hs Q w -> p_state pu = PTHREAD_JOINABLE -> qrep q Q ->
  can_exit a attr me u (with_cancel_pending 1 pu) hs Q (noted u pu q w).
Proof.
  intros [Hr Hp Hh Hc Hcs Hd Hf Htot Hst _ [Hl R Hm] Ha] Hj Rq.
  assert (runs me u (noted u pu q w)) as Hr1.
  { by apply (runs_changed me u pu (with_cancel_pending 1 pu) w); [..|apply lookup_insert_eq|]. }
  split; try done.
  - apply lookup_insert_eq.
  - by apply (mutex_idle_noted _ _ _ _ Q).
  - intros h Hh'. destruct (Hd h Hh') as [_ [H1 H2 H3 H4 H5 H6] H7 H8 H9]. split; try done.
    split; try done. by apply (same_heads q Q w).
  - by apply (mutex_idle_noted _ _ _ _ Q).
  - by left.
Qed.

(** Another thread can still join [t]. *)
Lemma can_join_noted attr me v pv t p u pu q Q w :
  can_join attr me v pv t p Q w -> pthreads w !! u = Some pu -> u <> v -> u <> t -> qrep q Q ->
  can_join attr me v pv t p Q (noted u pu q w).
Proof.
  intros Hj Hpu Huv Hut Rq. pose proof Hj as [_ Hpv _ Hp _ _ _ _ _ _ Hc Hq _].
  apply (can_join_moved attr me v pv pv t p p Q Q w _ Hj); try reflexivity; try done; try apply Hc.
  - change (<[u := with_cancel_pending 1 pu]> (pthreads w) !! v = Some pv). by rewrite lookup_insert_ne.
  - change (<[u := with_cancel_pending 1 pu]> (pthreads w) !! t = Some p). by rewrite lookup_insert_ne.
Qed.

(** The end of a thread [u] does not concern those that join [t]. *)
Lemma can_join_other_exits `{!AppCalls} attr me v pv t p u pu status calls x Q w :
  can_join attr me v pv t p Q w -> u <> v -> u <> t -> cond_ready (CStateCond u) Q w ->
  can_join attr me v pv t p (<[HCond (CStateCond u) := []]> Q) (exit_world u pu status calls x Q w).
Proof.
  intros Hj Huv Hut Hcu. pose proof Hj as [_ Hpv _ Hp _ _ _ _ _ _ [_ R Hm] Hq _].
  apply (can_join_moved attr me v pv pv t p p Q _ w _ Hj); try reflexivity.
  - change (<[u := exited status pu]> (pthreads w) !! v = Some pv). by rewrite lookup_insert_ne.
  - change (<[u := exited status pu]> (pthreads w) !! t = Some p). by rewrite lookup_insert_ne.
  - exact (woken_queues (CStateCond u) Q w Hcu).
  - intros h Hh He. rewrite fn_lookup_insert_ne; [done|]. intros Heq. by apply (Hh (CStateCond u)).
  - intros y. rewrite fn_lookup_insert_ne by congruence. intros Hin.
    change (post_all (Q (HCond (CStateCond u))) (mail w) !! y = Some 0%nat). rewrite lookup_post_all, decide_False; [by apply Hm|].
    intros Hin'. pose proof (qrep_disj _ _ R _ _ _ Hin Hin') as [=]. congruence.
  - by apply woken_unqueued.
Qed.

(** The world after the request was noted, the thread dequeued, and its message
    received. *)
Lemma noted_again u t pu q q2 w :
  mail w !! u = Some 0%nat -> is_Some (prevp q !! u) ->
  let w1 := set_qh q (with_thread u (joining t u pu) w) in
  let w2 := unblocked (mkCancelCtx u (CStateCond t)) q2 (with_thread u (with_cancel_pending 1 (joining t u pu)) w1) in
  mail w2 = <[u := 1%nat]> (mail w) /\
  set_mail (<[u := 0%nat]> (mail w2)) w2 = with_thread u (with_cancel_pending 1 (joining t u pu)) (set_qh q2 w).
Proof.
  intros Hm [d Hd] w1 w2.
  assert (mail w2 = <[u := 1%nat]> (mail w)) as Hmail2 by (unfold w2, unblocked, wake_mail; cbn; by rewrite Hd).
  split; [done|]. rewrite Hmail2, insert_insert_eq, insert_id by done.
  transitivity (set_mail (mail w) (set_qh q2 (with_thread u (with_cancel_pending 1 (joining t u pu)) (with_thread u (joining t u pu) w))));
    [reflexivity|]. rewrite with_thread_twice. by destruct w.
Qed.

(** The join ends in the exit of the thread. *)
Lemma join_resumes_canceled me u pu t Q w n w4 :
  SCond (CStateCond t) ∉ spins w -> qrep (qh w) Q -> mutex_idle (MStateLock t) w -> mutex_idle (MCancelLock u) w ->
  cancel_state pu = PTHREAD_CANCEL_ENABLE -> cancel_hook pu = None -> ~ queued Q u ->
  (forall A, solo (__pthread_exit (A := A) PTHREAD_CANCELED me
    (hold_mutex (MStateLock t) (with_thread u (push_handler (MStateLock t) (with_cancel_pending 1 pu)) w))) =
   solo (__pthread_exit (A := A) PTHREAD_CANCELED me w4)) ->
  solo (join_resumed n t u pu me (with_thread u (with_cancel_pending 1 (joining t u pu)) w)) =
  solo (__pthread_exit PTHREAD_CANCELED me w4).
Proof.
  intros Hl R Hst Hc He Hh Hun Hexit.
  set (w0 := with_thread u _ w). unfold join_resumed. rewrite !bindr_assoc.
  destruct (leave_dequeued me u (CStateCond t) w0 (fun r w => bindr (after_block me u (MStateLock t) (cancel_type pu) r w)
    (fun _ w => bindr (join_wait n t me w) (fun _ w => finish_join t me w)))) as [-> _];
    [done|by apply (qrep_not_queued _ _ _ R)|].
  unfold after_block. rewrite bindr_assoc, (finish_at me u (with_cancel_pending 1 (joining t u pu))); [|apply lookup_insert_eq|by destruct Hc].
  assert (cancelled (with_cancel_pending 1 (joining t u pu)) = true) as ->.
  { unfold cancelled. cbn. by rewrite He. }
  rewrite bindr_assoc, solo_mutex_lock by (by destruct Hst). rewrite exit_last. unfold w0. rewrite with_thread_twice.
  assert (with_cancel_hook None (with_cancel_type (cancel_type pu) (with_cancel_pending 1 (joining t u pu))) =
    push_handler (MStateLock t) (with_cancel_pending 1 pu)) as ->; [|exact (Hexit _)].
  destruct pu. cbn in *. by subst.
Qed.

End Unlocks.

(** The thread [u] that was canceled in a join, at the time it begins its exit:
    the locks are free, the cleanup handlers are those its caller has pushed, and
    none of them has run. *)
Record begins_exit (u t : nat) (pu : pthread) (Q : head_id -> list nat) (w w' : world) : Prop := {
  be_lock : mutex_idle (MStateLock t) w';
  be_thread : pthreads w' = <[u := with_cancel_pending 1 pu]> (pthreads w);
  be_memory : umem w' = umem w;
  be_specifics : ext_mem (env w') = ext_mem (env w);
  be_queues : qrep (qh w') Q;
}.

(** C15: A thread that waits in pthread_join is canceled by another one: it leaves
    the queue and gets one message; when it resumes it does not return but does
    what pthread_exit (PTHREAD_CANCELED) does in a state in which the lock of the
    thread that it joined is released already, while the cleanup handlers of its
    caller are all still to run and the values of its keys are still there,
    whatever these handlers and the destructors do.  If these do not call the
    library ([AppCalls]), each runs once, the exit status is PTHREAD_CANCELED, the
    thread that was joined is as before, and others can still join it. *)
Theorem cancel_interrupts_join `{P : Platform} `{IH : IHash} `{!IHashLaws IH} attr me1 me2 u pu t p x pc Q w :
  can_join attr me1 u pu t p Q w -> p_state p = PTHREAD_JOINABLE -> conds w !! CStateCond t = Some x ->
  mutex_idle (MCancelLock u) w -> (0 < loop_fuel)%nat ->
  table_get (threads_tab (glob w)) (p_thread pu - 1) = Some (Some u) ->
  cancel_state pu = PTHREAD_CANCEL_ENABLE -> cancel_pending pu = 0 -> cancel_hook pu = None ->
  ~ queued Q u -> mail w !! u = Some 0%nat ->
  exists w1 k w2 w2' w4,
    solo (pthread_join (p_thread p) me1 w) = Susp (RRecv u None) w1 k /\
    solo (pthread_cancel (p_thread pu) pc me2 w1) = Done OK w2 /\
    w2' = set_mail (<[u := 0%nat]> (mail w2)) w2 /\ resume (RRecv u None) w2 KERN_SUCCESS w2' /\
    solo (k KERN_SUCCESS w2') = solo (__pthread_exit PTHREAD_CANCELED me1 w4) /\ begins_exit u t pu Q w w4 /\
    forall (AC : @AppCalls P) a hs, can_exit a attr me1 u pu hs Q w -> p_state pu = PTHREAD_JOINABLE ->
    exists w3, solo (k KERN_SUCCESS w2') = Halted w3 /\
    umem w3 = run_calls (hs ++ specific_calls w pu) (umem w) /\
    (exists pu', pthreads w3 !! u = Some pu' /\ p_state pu' = PTHREAD_EXITED /\ p_status pu' = PTHREAD_CANCELED) /\
    pthreads w3 !! t = Some p /\
    forall me v pv, u <> v -> can_join attr me v pv t p Q w -> can_join attr me v pv t p (<[HCond (CStateCond u) := []]> Q) w3.
Proof.
  intros Hj Hs Hx Hc Hf Hid He Hz Hh Hun Hm.
  assert (cancelled pu = false) as Hn by (unfold cancelled; by rewrite Hz, andb_false_r).
  destruct loop_fuel as [|n] eqn:Hfuel; [lia|].
  destruct (join_blocks attr me1 u pu t p x Q w n) as (q & k & Rq & Hblock & Hk); [done..|].
  pose proof Hj as [Hr Hpu Hut Hp _ _ _ Htab _ _ Hcond _ _]. pose proof (cr_queues _ _ _ Hcond) as R.
  set (Q1 := <[HCond (CStateCond t) := u :: Q (HCond (CStateCond t))]> Q) in *.
  set (w1 := set_qh q (with_thread u (joining t u pu) w)) in *.
  destruct (cancel_waiting_at attr (p_thread pu) pc u (joining t u pu) (mkCancelCtx u (CStateCond t)) Q1 me2 w1)
    as (q2 & Rq2 & Hcancel); try done.
  { by apply (waits_rwlock attr t u (joining t u pu) Q q w). }
  { by apply (waits_mutex t u (joining t u pu) Q q w). }
  { apply lookup_insert_eq. }
  { by destruct Hcond. }
  set (w2 := unblocked _ q2 _) in *. set (w2' := set_mail (<[u := 0%nat]> (mail w2)) w2).
  pose proof (proj1 (qrep_proper q2 _ _ (qremove_enqueued (HCond (CStateCond t)) u Q Hun)) Rq2) as R2.
  assert (mail w2 = <[u := 1%nat]> (mail w) /\
    w2' = with_thread u (with_cancel_pending 1 (joining t u pu)) (set_qh q2 w)) as [Hmail2 Hw2].
  { apply (noted_again u t pu q q2 w Hm). apply (qrep_queued q Q1 u Rq). exists (HCond (CStateCond t)). unfold Q1. rewrite fn_lookup_insert. by left. }
  assert (forall m, mutex_idle m w -> mutex_idle m (noted u pu q2 w)) as Hidle.
  { intros m Hi. by apply (mutex_idle_noted m u pu q2 Q). }
  assert (solo (k KERN_SUCCESS w2') = solo (__pthread_exit PTHREAD_CANCELED me1 (noted u pu q2 w))) as Hexit.
  { rewrite Hk. rewrite Hw2. eapply (join_resumes_canceled me1 u pu t Q (set_qh q2 w) n); [| |..|done|done|done|].
    - apply Hcond.
    - done.
    - pose proof (Hidle _ (cj_state _ _ _ _ _ _ _ _ Hj)) as Hi. by destruct Hi.
    - pose proof (Hidle _ Hc) as Hi. by destruct Hi.
    - intros A. rewrite <- (exit_unlocks me1 u (with_cancel_pending 1 pu) (MStateLock t) PTHREAD_CANCELED (noted u pu q2 w)); [| |apply lookup_insert_eq|by apply Hidle|by apply Hidle, Hj|done|by left].
      + unfold noted. by rewrite with_thread_twice.
      + by apply (runs_changed me1 u pu (with_cancel_pending 1 pu) w); [..|apply lookup_insert_eq|]. }
  exists w1, k, w2, w2', (noted u pu q2 w).
  split_and!; [exact Hblock|exact Hcancel|done| |exact Hexit|split; [by apply Hidle, Hj|done|done|done|done]|].
  { apply resume_msg. rewrite Hmail2. apply lookup_insert_eq. }
  intros HA a hs Hce Hju. pose proof (can_exit_noted a attr me1 u pu hs Q q2 w Hce Hju R2) as Hexit2.
  destruct (exit_joinable_at a attr me1 u (with_cancel_pending 1 pu) hs Q PTHREAD_CANCELED (noted u pu q2 w) (A := error_t * option Z) Hexit2 Hju)
    as (xm & Hend).
  match type of Hend with _ = Halted ?v => exists v end. rewrite Hexit. split_and!; [exact Hend|reflexivity| | |].
  - eexists. split; [apply lookup_insert_eq|]. split; [done|]. cbn. unfold exit_status. by case_match.
  - change (<[u := exited PTHREAD_CANCELED (with_cancel_pending 1 pu)]> (<[u := with_cancel_pending 1 pu]> (pthreads w)) !! t = Some p).
    by do 2 rewrite lookup_insert_ne by done.
  - intros me v pv Huv Hv. apply can_join_other_exits; [by apply can_join_noted|done|done|].
    destruct Hexit2. done.
Qed.

(** ** Concrete cancelations *)

(** Thread 1 waits on a condition variable. *)
Definition waiting_pthread : pthread :=
  with_cancel_hook (Some (mkCancelCtx 1 (CUser 0))) (with_cancel_type PTHREAD_CANCEL_DEFERRED
    (with_cancel_state PTHREAD_CANCEL_ENABLE (with_cancel_pending 0 (demo_pthread 1)))).

Definition demo_hook : world :=
  with_thread 1 waiting_pthread (set_qh (queue_of (HCond (CUser 0)) [1%nat]) (demo_threads 2)).

Lemma cancel_result_witness :
  exists w', solo (@pthread_cancel app_platform map_ihash 2 0 (demo_ctx 0) demo_hook) = Done OK w' /\
    mail w' !! 1%nat = Some 1%nat /\ cells (qh w') !! Head (HCond (CUser 0)) = None.
Proof.
  pose proof (@cancel_result app_platform map_ihash None 2 (Some 1%nat) 0 (demo_ctx 0) demo_hook) as Hc.
  specialize (Hc ltac:(by split) eq_refl waiting_pthread eq_refl).
  destruct (Hc ltac:(split; [by do 2 eexists|by vm_compute..]) (<[HCond (CUser 0) := [1%nat]]> (fun _ => [])))
    as (q & Rq & Hrun).
  - apply queue_of_rep. by apply (bool_decide_unpack _).
  - by vm_compute.
  - done.
  - eexists. split; [exact Hrun|]. split; [by vm_compute|]. cbn. by rewrite (qrep_head _ _ _ Rq).
Defined.

(** Thread 0, which has two handlers, joins thread 1, which cancels it. *)
Definition canceled_pthread : pthread :=
  with_cancel_state PTHREAD_CANCEL_ENABLE (with_cancelation_handlers (user_handlers [(11, 1); (12, 2)]) (demo_pthread 0)).

Definition demo_cancel : world :=
  with_thread 0 canceled_pthread (set_mutexes (<[MStateLock 0 := mkMutex ANull None 0]> join_mutexes) demo_join).

Lemma demo_cancel_mutex m :
  m = MCancelLock 0 \/ m = MStateLock 0 \/ m = MStateLock 1 \/ m = MFreeThreadsLock -> mutex_idle m demo_cancel.
Proof. intros [-> | [-> | [-> | ->]]]; (split; [by do 2 eexists|by vm_compute..]). Qed.

Lemma demo_cancel_cond c : cond_ready c (fun _ => []) demo_cancel.
Proof. split; [apply not_elem_of_empty|apply qrep_empty|]. by intros u ?%elem_of_nil. Qed.

Lemma cancel_interrupts_join_witness :
  exists w1 k w2 w3,
    solo (@pthread_join app_platform map_ihash 2 (demo_ctx 0) demo_cancel) = Susp (RRecv 0 None) w1 k /\
    solo (@pthread_cancel app_platform map_ihash 1 0 (demo_ctx 1) w1) = Done OK w2 /\
    solo (k KERN_SUCCESS (set_mail (<[0%nat := 0%nat]> (mail w2)) w2)) = Halted w3 /\
    umem w3 !! 0%nat = Some 12 /\ p_state <$> pthreads w3 !! 1%nat = Some PTHREAD_JOINABLE.
Proof.
  assert (runs (demo_ctx 0) 0 demo_cancel) as Hr by (split; [by eexists|]; split; [done|]; by eexists).
  assert (can_exit (P := app_platform) (IH := map_ihash) key_attr None (demo_ctx 0) 0 canceled_pthread [(11, 1); (12, 2)]
    (fun _ => []) demo_cancel) as Hexit.
  { split; try done; [apply demo_cancel_mutex; auto|by left|cbn; lia|apply demo_cancel_mutex; auto|by left|apply demo_cancel_cond]. }
  destruct (@cancel_interrupts_join app_platform map_ihash map_ihash_laws None (demo_ctx 0) (demo_ctx 1)
    0 canceled_pthread 1 joined_pthread (mkCond None) 0 (fun _ => []) demo_cancel)
    as (w1 & k & w2 & w2' & w4 & Hj & Hc & -> & _ & _ & _ & Happ); try done.
  - split; try done; [apply demo_cancel_mutex; auto|apply demo_cancel_mutex; auto|apply demo_cancel_cond|].
    by intros [h ?%elem_of_nil].
  - apply demo_cancel_mutex. auto.
  - cbn. lia.
  - by intros [h ?%elem_of_nil].
  - destruct (Happ app_calls key_attr [(11, 1); (12, 2)] Hexit eq_refl) as (w3 & Hk & Hu & _ & Ht & _).
    exists w1, k, w2, w3. split_and!; [exact Hj|exact Hc|exact Hk| |].
    + rewrite Hu. by vm_compute.
    + by rewrite Ht.
Defined.
