(* ===== verification/CreateSpec.v ===== *)
(** * The creation of a thread

    pthread_create from the allocation of the structure to the start of the
    kernel thread, when the kernel grants what it is asked for. *)
From Stdlib Require Import ZArith Lia.
From S2P Require Import Prelude Queue World Machine Platform Sched Mach Demo Attr Mutex Rwlock Barrier Cond Kernel KernelFacts Keys Threads ThreadOps ThreadFacts ExitSpec.
Local Open Scope Z_scope.

#[local] Arguments update_thread : simpl never.
#[local] Arguments get_thread : simpl never.
#[local] Arguments initialize_pthread : simpl never.
#[local] Arguments __pthread_stack_alloc : simpl never.
#[local] Arguments __pthread_thread_alloc : simpl never.
#[local] Arguments find_thread_stack : simpl never.
#[local] Arguments stack_setup : simpl never.
#[local] Arguments __pthread_setup : simpl never.
#[local] Arguments __pthread_sigstate : simpl never.
#[local] Arguments __pthread_thread_start : simpl never.
#[local] Arguments __pthread_alloc : simpl never.
#[local] Arguments launch : simpl never.
#[local] Arguments _dl_allocate_tls : simpl never.
#[local] Arguments __pthread_sigstate_init : simpl never.

(** ** The structure *)

(** A new structure; [g] is what its memory contained. *)
Definition initial_pthread (g : pthread) : pthread :=
  with_cancelation_handlers [] (with_p_tcb None (with_p_stack false
    (with_cancel_hook None (with_cancel_state PTHREAD_CANCEL_ENABLE
      (with_cancel_type PTHREAD_CANCEL_DEFERRED (with_cancel_pending 0 (with_thread_specifics None g))))))).

(** The locks, queues and variables that the initialisation of [t] writes. *)
Record init_memory := mkInit {
  im_qh : qheap_w; im_conds : gmap cond_id cond; im_mutexes : gmap mutex_id mutex; im_spins : gset spin_id }.

Definition with_memory (m : init_memory) (w : world) : world :=
  set_qh (im_qh m) (set_conds (im_conds m) (set_mutexes (im_mutexes m) (set_spins (im_spins m) w))).

(** They are those of the thread alone. *)
Record inits (t : nat) (m : init_memory) (w : world) : Prop := {
  in_spins : im_spins m ⊆ spins w;
  in_heads : forall h, cells (qh w) !! Head h = None -> cells (im_qh m) !! Head h = None;
  in_mutexes : forall x, x <> MCancelLock t -> x <> MStateLock t -> im_mutexes m !! x = mutexes w !! x;
  in_conds : forall c, c <> CStateCond t -> im_conds m !! c = conds w !! c;
  in_cancel : mutex_idle (MCancelLock t) (with_memory m w);
  in_state : mutex_idle (MStateLock t) (with_memory m w);
  in_lock : SCond (CStateCond t) ∉ im_spins m;
  in_queues : forall Q, qrep (qh w) Q -> ~ queued Q t -> Q (HMutex (MCancelLock t)) = [] ->
    Q (HMutex (MStateLock t)) = [] -> Q (HCond (CStateCond t)) = [] -> qrep (im_qh m) Q;
}.

(** Queues without [t] do not change when its link and empty heads are written. *)
Lemma qrep_cleared q q' Q t :
  qrep q Q -> ~ queued Q t ->
  (forall h, cells q' !! Head h = if bool_decide (Q h = []) then None else cells q !! Head (H := head_id) h) ->
  (forall u, u <> t -> cells q' !! Next u = cells q !! Next u /\ prevp q' !! u = prevp q !! u) ->
  prevp q' !! t = None -> qrep q' Q.
Proof.
  intros R Ht Hh Hu Hp. split; [|apply R|apply R|].
  - intros h. apply (qseg_frame q); [| |apply R].
    + rewrite Hh. case_bool_decide as He; [|done]. by rewrite (qrep_head _ _ _ R), He.
    + intros u Hin. apply Hu. intros ->. apply Ht. by exists h.
  - intros u c Hc. destruct (decide (u = t)) as [-> | Hne]; [congruence|].
    rewrite (proj2 (Hu u Hne)) in Hc. by apply (qrep_prevp _ _ R u c).
Qed.

Section Alloc.
Context `{P : Platform} `{IH : IHash}.

Lemma initialize_at t g me w :
  pthreads w !! t = Some g ->
  exists m, initialize_pthread t false me w = Done OK (with_memory m (with_thread t (initial_pthread g) w)) /\ inits t m w.
Proof.
  intros Hg. unfold initialize_pthread, __pthread_init_specific, clear_mutex, clear_cond. cbn.
  rewrite (update_thread_at t _ g) by done. cbn. rewrite decide_False by (by intros []). cbn.
  do 3 (erewrite (update_thread_at t) by apply lookup_insert_eq; cbn).
  set (q1 := clear_head (HCond (CStateCond t)) (clear_head (HMutex (MStateLock t)) (clear_head (HMutex (MCancelLock t)) (qh w)))).
  set (s1 := spins w ∖ {[SMutexHeld (MCancelLock t); SMutexLock (MCancelLock t)]}
    ∖ {[SMutexHeld (MStateLock t); SMutexLock (MStateLock t)]} ∖ {[SCond (CStateCond t)]}).
  exists (mkInit (mkQheap (delete (Next t) (cells q1)) (delete t (prevp q1))) (<[CStateCond t := mkCond None]> (conds w))
    (<[MStateLock t := mkMutex ANull None 0]> (<[MCancelLock t := mkMutex ANull None 0]> (mutexes w))) s1).
  split.
  - f_equal. apply world_ext; cbn; try reflexivity. rewrite !insert_insert_eq. reflexivity.
  - split; cbn.
    + unfold s1. set_solver.
    + intros h Hh. rewrite lookup_delete_ne by done. unfold clear_head. cbn.
      by rewrite !lookup_delete_None, Hh; auto.
    + intros x H1 H2. by rewrite !lookup_insert_ne.
    + intros c Hc. by rewrite lookup_insert_ne.
    + split.
      * cbn. rewrite lookup_insert_ne, lookup_insert_eq by done. by do 2 eexists.
      * cbn. unfold s1. set_solver.
      * cbn. unfold s1. set_solver.
      * cbn. unfold clear_head. cbn. rewrite !lookup_delete_None. tauto.
    + split.
      * cbn. rewrite lookup_insert_eq. by do 2 eexists.
      * cbn. unfold s1. set_solver.
      * cbn. unfold s1. set_solver.
      * cbn. unfold clear_head. cbn. rewrite !lookup_delete_None. tauto.
    + unfold s1. set_solver.
    + intros Q R Ht H1 H2 H3. apply (qrep_cleared (qh w) _ Q t); [done|done| | |apply lookup_delete_eq]; cbn.
      * intros h. rewrite lookup_delete_ne by done. rewrite (qrep_head _ _ _ R). case_bool_decide as He.
        -- rewrite !lookup_delete_None, (qrep_head _ _ _ R), He. auto.
        -- rewrite !lookup_delete_ne by congruence. apply (qrep_head _ _ _ R).
      * intros u Hu. rewrite !lookup_delete_ne by congruence. done.
Qed.

(** No limit of the system is reached. *)
Definition below_limit (w : world) : Prop :=
  match PTHREAD_THREADS_MAX with Some lim => num_threads (glob w) < lim | None => True end.

(** There is room in the table. *)
Lemma alloc_try_room attr new p me w :
  rwlock_idle RThreadsLock attr w -> pthreads w !! new = Some p -> 0 <= num_threads (glob w) < max_threads (glob w) ->
  max_threads (glob w) < 2 ^ 30 ->
  solo (alloc_try new me w) = Done (Some (OK, Some new)) (id_taken new p (max_threads (glob w)) w).
Proof.
  intros Hr Hp Hn Hmax. unfold alloc_try. cbn [mbind M_bind]. rewrite (solo_wrlock RThreadsLock attr) by done.
  cbn [get_glob gets bindr]. change (glob (hold_rwlock _ _ _ w)) with (glob w).
  rewrite (proj2 (Z.ltb_lt _ _)) by lia. cbn [mbind M_bind]. by rewrite (solo_take_id attr new p) by (done || lia).
Qed.

Lemma alloc_id_done fuel new me w w' {B} (f : error_t * option nat -> world -> res B) :
  solo (alloc_try new me w) = Done (Some (OK, Some new)) w' ->
  solo (bindr (alloc_id fuel new me w) f) = solo (f (OK, Some new) w').
Proof. intros Htry. destruct fuel; cbn [alloc_id mbind M_bind]; by rewrite bindr_assoc, (solo_bind_done _ _ _ _ Htry). Qed.

Lemma alloc_id_at attr fuel new p me w :
  rwlock_idle RThreadsLock attr w -> pthreads w !! new = Some p -> answers (env w) = [] -> below_limit w ->
  0 <= num_threads (glob w) <= max_threads (glob w) -> max_threads (glob w) < 2 ^ 30 ->
  exists mx, num_threads (glob w) < mx < 2 ^ 31 /\ forall B (f : error_t * option nat -> world -> res B),
    solo (bindr (alloc_id fuel new me w) f) = solo (f (OK, Some new) (id_taken new p mx w)).
Proof.
  intros Hr Hp Ha Hlim Hn Hmax.
  assert (exists mx, num_threads (glob w) < mx < 2 ^ 31 /\ solo (alloc_try new me w) = Done (Some (OK, Some new)) (id_taken new p mx w))
    as (mx & Hmx & Htry).
  { destruct (Z.lt_ge_cases (num_threads (glob w)) (max_threads (glob w))) as [Hlt | Hge].
    - exists (max_threads (glob w)). split; [lia|]. by apply (alloc_try_room attr); [..|lia|lia].
    - pose proof Hr as [_ Hsl Hsh Hq1 Hq2]. unfold alloc_try. cbn [mbind M_bind]. rewrite (solo_wrlock RThreadsLock attr) by done.
      cbn [get_glob gets bindr]. change (glob (hold_rwlock _ _ _ w)) with (glob w). rewrite (proj2 (Z.ltb_ge _ _)) by lia.
      assert ((match PTHREAD_THREADS_MAX with Some lim => lim <=? num_threads (glob w) | None => false end) = false) as ->.
      { unfold below_limit in Hlim. destruct PTHREAD_THREADS_MAX; [|done]. by apply Z.leb_gt. }
      cbn [mbind M_bind].
      rewrite (solo_rwlock_unlock RThreadsLock attr 0); try apply Hr; [|apply lookup_insert_eq|by left|cbn; set_solver..].
      rewrite hold_rwlock_undo by done. cbn zeta beta. cbn [mbind M_bind].
      unfold malloc_ok, ask at 1. rewrite Ha. cbn [bindr negb mbind M_bind].
      rewrite (solo_wrlock RThreadsLock attr) by done.
      cbn [get_glob gets bindr]. change (glob (hold_rwlock _ _ _ _)) with (glob w).
      rewrite Z.eqb_refl. cbn [negb mbind M_bind put_glob modify bindr].
      set (mx := if 0 <? max_threads (glob w) then _ else _). exists mx.
      assert (num_threads (glob w) < mx < 2 ^ 31) as Hmx.
      { unfold mx, _POSIX_THREAD_THREADS_MAX.
        destruct (Z.ltb_spec 0 (max_threads (glob w))); [rewrite wraps_small by (cbn; lia)|]; lia. }
      split; [done|]. set (w1 := set_glob (set_max_threads mx (glob w)) w).
      change (set_glob _ (hold_rwlock RThreadsLock attr 0 _)) with (hold_rwlock RThreadsLock attr 0 w1).
      by rewrite (solo_take_id attr new p) by (done || (by destruct Hr; split) || (cbn; lia)). }
  exists mx. split; [done|]. intros B f. by apply alloc_id_done.
Qed.

#[local] Arguments alloc_id : simpl never.

(** The free list is empty, and nobody uses the table. *)
Record can_alloc (attr : option rwlockattr) (w : world) : Prop := {
  ca_free : mutex_idle MFreeThreadsLock w;
  ca_list : cells (qh w) !! Head HFreeThreads = None;
  ca_table : rwlock_idle RThreadsLock attr w;
  ca_answers : answers (env w) = [];
  ca_limit : below_limit w;
  ca_ok : table_ok w;
  ca_max : max_threads (glob w) < 2 ^ 30;
}.

(** The world with the new structure, which has the ID [num_threads + 1]. *)
Definition allocated (m : init_memory) (mx : Z) (w : world) : world :=
  let t := next_thread (glob w) in
  id_taken t (initial_pthread (garbage (env w))) mx
    (with_memory m (with_thread t (initial_pthread (garbage (env w))) (set_glob (set_next_thread (S t) (glob w)) w))).

(** The call up to the ID, with the memory for a new structure. *)
Lemma alloc_up_to_id me w w1 g :
  let t := next_thread (glob w) in
  mutex_idle MFreeThreadsLock w -> cells (qh w) !! Head HFreeThreads = None ->
  new_structure me w = Done (Some t) w1 -> pthreads w1 !! t = Some g ->
  exists m, inits t m w1 /\ forall B (f : error_t * option nat -> world -> res B),
    solo (bindr (__pthread_alloc me w) f) =
    solo (bindr (alloc_id loop_fuel t me (with_memory m (with_thread t (initial_pthread g) w1))) f).
Proof.
  intros t Hf Hl Hnew Hg. destruct (initialize_at t g me w1 Hg) as (m & Hinit & Hm). exists m. split; [exact Hm|].
  intros B f. unfold __pthread_alloc. cbn [mbind M_bind]. rewrite bindr_assoc, solo_mutex_lock by done.
  cbn. rewrite Hl. assert (forall n, find_terminated n None me (hold_mutex MFreeThreadsLock w) = Done None (hold_mutex MFreeThreadsLock w)) as -> by (by intros []).
  cbn. rewrite bindr_assoc, solo_release by done. cbn. rewrite Hnew. cbn. rewrite Hinit. cbn.
  by rewrite decide_False by (by intros []).
Qed.

(** [malloc] of the structure. *)
Definition structured (g : pthread) (w : world) : world :=
  with_thread (next_thread (glob w)) g (set_glob (set_next_thread (S (next_thread (glob w))) (glob w)) w).

Lemma rwlock_idle_inits attr r m w w1 p t :
  rwlock_idle r attr w1 -> inits t m w -> spins w1 = spins w -> qh w1 = qh w ->
  rwlock_idle r attr (with_memory m (with_thread t p w1)).
Proof.
  intros [H1 H2 H3 H4 H5] [Hs Hh _ _ _ _ _ _] He Hq. rewrite Hq in H4, H5. rewrite He in H2, H3.
  split; [exact H1|intros ?%Hs; done|intros ?%Hs; done|by apply Hh|by apply Hh].
Qed.

Lemma inits_structured g m w : inits (next_thread (glob w)) m (structured g w) -> inits (next_thread (glob w)) m w.
Proof.
  intros [H1 H2 H3 H4 H5 H6 H7 H8]. split; try done.
  - by destruct H5.
  - by destruct H6.
Qed.

Lemma alloc_at attr me w :
  can_alloc attr w ->
  exists m mx, inits (next_thread (glob w)) m w /\ num_threads (glob w) < mx < 2 ^ 31 /\
    forall B (f : error_t * option nat -> world -> res B),
      solo (bindr (__pthread_alloc me w) f) = solo (f (OK, Some (next_thread (glob w))) (allocated m mx w)).
Proof.
  intros [Hf Hl Htab Ha Hlim Hok Hmax]. pose proof Hok as [Hlen Hn]. set (t := next_thread (glob w)). set (g := garbage (env w)).
  set (w1 := structured g w).
  destruct (alloc_up_to_id me w w1 g Hf Hl) as (m & Hm & Hrun).
  { unfold new_structure, malloc_ok, ask. cbn. rewrite Ha. reflexivity. }
  { apply lookup_insert_eq. }
  fold t in Hm, Hrun. set (w2 := with_memory m (with_thread t (initial_pthread g) w1)) in *.
  assert (rwlock_idle RThreadsLock attr w2) as Htab2.
  { apply (rwlock_idle_inits attr _ m w1 w1); [by destruct Htab|done|done|done]. }
  destruct (alloc_id_at attr loop_fuel t (initial_pthread g) me w2) as (mx & Hmx & Hid); [done|apply lookup_insert_eq|done|done|cbn; lia|done|].
  exists m, mx. split; [|split; [done|]].
  { by apply (inits_structured g). }
  intros B f. rewrite Hrun, Hid. do 2 f_equal. unfold allocated, w2. fold t g. unfold w1, structured. fold t.
  by rewrite with_thread_twice.
Qed.
End Alloc.

(** ** Stack and kernel thread *)

Section Resources.
Context `{P : Platform} `{IH : IHash}.

(** The stack at the next address. *)
Definition stack_given (base size : Z) (w : world) : world :=
  set_glob (set_next_stack_base (u32 (base + size)) (glob w)) (requested (KVmAllocate base size) w).

Lemma stack_alloc_at size me w w1 :
  size = default_stacksize (glob w) -> 0 < size ->
  kernel_request (KVmAllocate (next_stack_base (glob w)) size) me w = Done true w1 ->
  0 <= next_stack_base (glob w) < VM_MAX_ADDRESS ->
  __pthread_stack_alloc size me w = Done (OK, Some (next_stack_base (glob w)))
    (set_glob (set_next_stack_base (u32 (next_stack_base (glob w) + size)) (glob w1)) w1).
Proof.
  intros Hsz Hpos Ha Hb. unfold __pthread_stack_alloc. cbn. rewrite Hsz, Z.eqb_refl. cbn. rewrite <- Hsz.
  assert (exists n, stack_fuel size = S n) as [n Hn].
  { unfold stack_fuel. assert (0 <= VM_MAX_ADDRESS / size) by (apply Z.div_pos; lia).
    exists (Z.to_nat (VM_MAX_ADDRESS / size)). lia. }
  rewrite Hn. cbn [find_stack]. rewrite (proj2 (Z.ltb_lt _ _)) by lia. cbn [mbind M_bind]. rewrite Ha. cbn.
  rewrite (proj2 (Z.leb_gt _ _)) by lia. cbn. by rewrite (proj2 (Z.leb_gt _ _)) by lia.
Qed.

Definition with_stack (base size : Z) (p : pthread) : pthread :=
  with_p_stackaddr base (with_p_stacksize size (with_p_stack true p)).

Lemma find_thread_stack_asked t p setup default me w w1 :
  pthreads w !! t = Some p -> p_stack p = false ->
  stacksize setup = default_stacksize (glob w) -> 0 < stacksize setup ->
  kernel_request (KVmAllocate (next_stack_base (glob w)) (stacksize setup)) me w = Done true w1 ->
  pthreads w1 = pthreads w -> 0 <= next_stack_base (glob w) < VM_MAX_ADDRESS ->
  find_thread_stack t setup default me w =
  Done OK (with_thread t (with_stack (next_stack_base (glob w)) (stacksize setup) p)
    (set_glob (set_next_stack_base (u32 (next_stack_base (glob w) + stacksize setup)) (glob w1)) w1)).
Proof.
  intros Hp Hs Hsz Hpos Ha Hw1 Hb. unfold find_thread_stack. cbn. rewrite (get_thread_at t p) by done. cbn. rewrite Hs. cbn.
  rewrite (stack_alloc_at _ me w w1) by done. cbn. rewrite (update_thread_at t _ p); [done|]. cbn. by rewrite Hw1.
Qed.

Lemma find_thread_stack_at t p setup default me w :
  pthreads w !! t = Some p -> p_stack p = false ->
  stacksize setup = default_stacksize (glob w) -> 0 < stacksize setup -> answers (env w) = [] ->
  0 <= next_stack_base (glob w) < VM_MAX_ADDRESS ->
  find_thread_stack t setup default me w =
  Done OK (with_thread t (with_stack (next_stack_base (glob w)) (stacksize setup) p)
             (stack_given (next_stack_base (glob w)) (stacksize setup) w)).
Proof.
  intros Hp Hs Hsz Hpos Ha Hb. exact (find_thread_stack_asked t p setup default me w _ Hp Hs Hsz Hpos (kernel_request_granted _ _ _ Ha) eq_refl Hb).
Qed.

(** The wakeup port and the kernel thread. *)
Definition kernel_given (t : nat) (p : pthread) (w : world) : world :=
  let k := next_port (env w) in
  with_thread t (with_have_kernel_resources true (with_kernel_thread k p))
    (set_env (set_klog ([KThreadCreate k; KPortInsertRight t; KPortAllocate t] ++ klog (env w)) (set_next_port (k + 1) (env w)))
      (set_mail (<[t := 0%nat]> (mail w)) w)).

Lemma thread_alloc_at t p me w :
  pthreads w !! t = Some p -> have_kernel_resources p = false -> num_threads (glob w) <> 1 -> answers (env w) = [] ->
  __pthread_thread_alloc t me w = Done OK (kernel_given t p w).
Proof.
  intros Hp Hk Hn Ha. unfold __pthread_thread_alloc, create_wakeupmsg. cbn. rewrite (get_thread_at t p) by done. cbn.
  rewrite Hk. cbn. rewrite kernel_request_granted by done. cbn. rewrite kernel_request_granted by done. cbn.
  rewrite decide_False by (by intros []). cbn. rewrite (proj2 (Z.eqb_neq _ _)) by done. cbn.
  rewrite kernel_request_granted by done. cbn. rewrite (update_thread_at t _ p) by done. cbn.
  erewrite (update_thread_at t) by apply lookup_insert_eq. rewrite with_thread_twice. done.
Qed.

(** The control block. *)
Definition tcb_given (w : world) : world :=
  let a := next_port (env w) in
  set_env (set_tcbs (<[a := mkTcb a 0]> (tcbs (env w)))
    (set_klog (KTlsAllocate a :: klog (env w)) (set_next_port (a + 1) (env w)))) w.

(** Requests that were made and granted. *)
Definition logged (l : list kcall) (w : world) : world := set_env (set_klog (l ++ klog (env w)) (env w)) w.

(** Requests that do not make a thread or a port. *)
Definition makes_nothing (c : kcall) : bool :=
  match c with KThreadCreate _ | KPortAllocate _ => false | _ => true end.

Lemma set_pcsptp_at k ip sp tp me w :
  answers (env w) = [] ->
  exists gs l, __thread_set_pcsptp k ip sp (Some tp) me w = Done true (logged (KThreadSetState k ip sp gs :: l) w) /\
    forallb makes_nothing l = true.
Proof.
  intros Ha. unfold __thread_set_pcsptp. cbn. rewrite kernel_request_granted by done. cbn.
  destruct (Z.land self_gs 4 =? 0); cbn; (rewrite kernel_request_granted by done; cbn; rewrite kernel_request_granted by done;
    eexists _, [_; _]; split; reflexivity).
Qed.

(** The context of the thread, which starts at [entry] with the stack pointer [sp]. *)
Definition set_up (t : nat) (entry start arg sp tcb : Z) (x : tcbhead) (l : list kcall) (p : pthread) (w : world) : world :=
  let p' := with_mc_sp sp (with_mc_pc entry p) in
  let w1 := framed_stack t start arg sp p w in
  logged l (with_thread t p'
    (set_env (set_tcbs (<[tcb := mkTcb (tcb_tcb x) (kernel_thread p)]> (tcbs (env w1))) (env w1)) w1)).

Lemma set_up_threads t entry start arg sp tcb x l p w :
  pthreads (set_up t entry start arg sp tcb x l p w) = <[t := with_mc_sp sp (with_mc_pc entry p)]> (pthreads w).
Proof. done. Qed.

Lemma set_up_glob t entry start arg sp tcb x l p w :
  glob (set_up t entry start arg sp tcb x l p w) = glob w.
Proof. done. Qed.

Record can_set_up (me : kctx) (p : pthread) (tcb : Z) (x : tcbhead) (w : world) : Prop := {
  cs_tcb : p_tcb p = Some tcb;
  cs_head : tcbs (env w) !! tcb = Some x;
  cs_other : kernel_thread p <> ktid me;
  cs_answers : answers (env w) = [];
  cs_base : 0 <= p_stackaddr p;
  cs_vars : 0 <= hurd_threadvar_max;
  cs_end : p_stackaddr p + p_stacksize p < 2 ^ 32;
  cs_size : 32 + 4 * hurd_threadvar_max <= p_stacksize p;
}.

Lemma setup_at t entry start arg p tcb x me w :
  pthreads w !! t = Some p -> start <> 0 -> can_set_up me p tcb x w ->
  exists sp gs l, __pthread_setup t entry start arg me w =
      Done OK (set_up t entry start arg sp tcb x (KThreadSetState (kernel_thread p) (Some entry) (Some sp) gs :: l) p w) /\
    forallb makes_nothing l = true /\
    (16 | sp + 4) /\ p_stackaddr p <= sp /\ sp + 16 <= p_stackaddr p + p_stacksize p - 4 * hurd_threadvar_max.
Proof.
  intros Hp Hstart [Ht Hx Ho Ha Hb Hv He Hs]. set (p1 := with_mc_pc entry p).
  destruct (stack_setup_at t start arg p1 me (with_thread t p1 w)) as (sp & Hrun & Hal & Hlow & Hhigh);
    [apply lookup_insert_eq|done..|].
  set (p2 := with_mc_sp sp p1). set (w1 := framed_stack t start arg sp p w).
  set (w2 := with_thread t p2 (set_env (set_tcbs (<[tcb := mkTcb (tcb_tcb x) (kernel_thread p)]> (tcbs (env w1))) (env w1)) w1)).
  destruct (set_pcsptp_at (kernel_thread p) (Some entry) (Some sp) tcb me w2) as (gs & l & Hset & Hl); [done|].
  exists sp, gs, l. split; [|by split_and!].
  unfold __pthread_setup. cbn. rewrite (update_thread_at t _ p) by done. cbn. fold p1. rewrite Hrun. cbn.
  rewrite (update_thread_at t _ p1) by apply lookup_insert_eq. cbn. fold p2.
  rewrite (get_thread_at t p2) by apply lookup_insert_eq. cbn. rewrite Ht. cbn. unfold set_tcb_self. cbn. rewrite Hx. cbn.
  rewrite (proj2 (Z.eqb_neq _ _)) by done. cbn.
  match goal with |- context [__thread_set_pcsptp _ _ _ _ _ ?v] => assert (v = w2) as -> end.
  { unfold w2, w1, with_thread, framed_stack. cbn. by rewrite insert_insert_eq. }
  by rewrite Hset.
Qed.

(** ** Signal masks *)

Definition with_sigstate (k : Z) (ss : hurd_sigstate) (w : world) : world :=
  set_env (set_sigstates (<[k := ss]> (sigstates (env w))) (env w)) w.

Definition sigstate_of (w : world) (k : Z) : hurd_sigstate := default (fresh_sigstate (env w)) (sigstates (env w) !! k).

(** The mask is read. *)
Lemma get_mask_at t p me w {B} (f : error_t * Z -> world -> res B) :
  pthreads w !! t = Some p -> SSigstate (Z.to_nat (kernel_thread p)) ∉ spins w ->
  let ss := sigstate_of w (kernel_thread p) in
  solo (bindr (__pthread_sigstate t 0 None false me w) f) =
  solo (f (OK, ss_blocked ss) (with_sigstate (kernel_thread p) ss w)).
Proof.
  intros Hp Hl ss. unfold __pthread_sigstate. cbn. rewrite (get_thread_at t p) by done. cbn.
  rewrite bindr_assoc, solo_spin_lock by done. cbn. rewrite spins_cycle by done. unfold with_sigstate.
  change (default (fresh_sigstate (env w)) (sigstates (env w) !! kernel_thread p)) with ss. clearbody ss.
  rewrite andb_false_r. destruct w, ss. done.
Qed.

(** The mask is set and the pending signals are cleared. *)
Lemma set_mask_at t p set me w {B} (f : error_t * Z -> world -> res B) :
  pthreads w !! t = Some p -> SSigstate (Z.to_nat (kernel_thread p)) ∉ spins w ->
  let ss := sigstate_of w (kernel_thread p) in
  solo (bindr (__pthread_sigstate t SIG_SETMASK (Some set) true me w) f) =
  solo (f (OK, ss_blocked ss)
    (with_sigstate (kernel_thread p) (mkSigstate set 0 (ss_cancel ss) (ss_cancel_hook ss) (ss_intr_port ss)) w)).
Proof.
  intros Hp Hl ss. unfold __pthread_sigstate. cbn. rewrite (get_thread_at t p) by done. cbn.
  rewrite bindr_assoc, solo_spin_lock by done. cbn. rewrite spins_cycle by done. by destruct w.
Qed.

(** ** The start *)

(** Thread [t], made by [c] whose kernel thread is [kc], can start. *)
Record can_launch (attr : option rwlockattr) (me : kctx) (c t : nat) (p : pthread) (w : world) : Prop := {
  cl_runs : runs me c w;
  cl_thread : pthreads w !! t = Some p;
  cl_count : num_threads (glob w) <> 1;
  cl_mask : SSigstate (Z.to_nat (ktid me)) ∉ spins w;
  cl_new_mask : SSigstate (Z.to_nat (kernel_thread p)) ∉ spins w;
  cl_other : kernel_thread p <> ktid me;
  cl_table : rwlock_idle RThreadsLock attr w;
  cl_id : known_id (p_thread p) w;
  cl_answers : answers (env w) = [];
}.

(** Its ID is known, it is counted, it has the mask of the creator and was resumed. *)
Definition launched (me : kctx) (t : nat) (p : pthread) (w : world) : world :=
  let own := sigstate_of w (ktid me) in let ss := sigstate_of w (kernel_thread p) in
  requested (KThreadResume (kernel_thread p))
    (with_id (p_thread p) (Some t)
      (set_glob (set_pthread_total (i32 (pthread_total (glob w) + 1)) (glob w))
        (with_sigstate (kernel_thread p)
          (mkSigstate (ss_blocked own) 0 (ss_cancel ss) (ss_cancel_hook ss) (ss_intr_port ss))
          (with_sigstate (ktid me) own w)))).

Lemma launch_at attr me c t p w {B} (f : error_t * option nat -> world -> res B) :
  can_launch attr me c t p w ->
  solo (bindr (launch t me w) f) = solo (f (OK, Some t) (launched me t p w)).
Proof.
  intros [Hr Hp Hn Hm Hm' Ho Htab Hid Ha]. pose proof Hr as (_ & _ & pc & Hpc & Hkc).
  unfold launch, inherited_mask. cbn. rewrite (proj2 (Z.eqb_neq _ _)) by done. cbn.
  rewrite (pthread_self_runs me c) by done. cbn. rewrite !bindr_assoc.
  rewrite (get_mask_at c pc) by (rewrite ?Hkc; done). rewrite Hkc. cbn.
  rewrite (bool_decide_eq_true_2 (OK = OK)) by done. cbn.
  assert (sigstate_of (with_sigstate (ktid me) (sigstate_of w (ktid me)) w) (kernel_thread p) =
    sigstate_of w (kernel_thread p)) as Hss by (unfold sigstate_of; cbn; by rewrite lookup_insert_ne).
  rewrite bindr_assoc, (set_mask_at t p) by done. rewrite Hss. cbn. rewrite (bool_decide_eq_true_2 (OK = OK)) by done. cbn.
  set (w1 := set_glob _ _). assert (rwlock_idle RThreadsLock attr w1) as Htab1 by (by destruct Htab).
  destruct Hid as [o Hid]. destruct (table_set_known _ _ (Some t) o Hid) as (tab & Hset & _).
  rewrite bindr_assoc, (solo_rdlock RThreadsLock attr) by done. cbn. rewrite (get_thread_at t p) by done. cbn.
  rewrite Hset. cbn.
  rewrite bindr_assoc, (solo_rwlock_unlock RThreadsLock attr 1); try apply Htab1; [|apply lookup_insert_eq|by right|..].
  - unfold __pthread_thread_start. cbn. rewrite (get_thread_at t p) by done. cbn.
    match goal with |- context [set_spins ?s ?v] => assert (set_spins s v = with_id (p_thread p) (Some t) w1) as -> end.
    { unfold with_id. cbn. rewrite Hset, <- (hold_rwlock_undo RThreadsLock attr 1 (set_glob _ w1)) by (by destruct Htab1). done. }
    rewrite (proj2 (Z.eqb_neq _ _)) by done. cbn. rewrite kernel_request_granted by done. cbn.
    by rewrite decide_False by (by intros []).
  - destruct Htab1. cbn. set_solver.
  - cbn. set_solver.
Qed.

Lemma allocate_tls_at me w :
  answers (env w) = [] ->
  exists w1, _dl_allocate_tls me w = Done (Some (next_port (env w))) w1 /\ pthreads w1 = pthreads w /\
    forall t p, set_env (set_tcbs (<[next_port (env w) := mkTcb (next_port (env w)) 0]>
        (tcbs (env (with_thread t p w1)))) (env (with_thread t p w1))) (with_thread t p w1) =
      with_thread t p (tcb_given w).
Proof.
  intros Ha. unfold _dl_allocate_tls. cbn. rewrite kernel_request_granted by done. cbn. eexists. split; [done|].
  split; [done|]. intros t p. unfold with_thread, tcb_given. cbn. by rewrite insert_insert_eq.
Qed.

(** ** The whole call *)

(** The attributes in force. *)
Definition in_force (attr : option pthread_attr) (w : world) : pthread_attr :=
  match attr with Some a => a | None => set_stacksize (default_stacksize (glob w)) (__pthread_default_attr pagesize) end.

Definition attr_pthread (a : pthread_attr) (p : pthread) : pthread :=
  with_p_state (if detachstate a =? PTHREAD_CREATE_DETACHED then PTHREAD_DETACHED else PTHREAD_JOINABLE)
    (with_p_guardsize (if negb (stackaddr a =? 0) then 0
                       else if guardsize a <=? stacksize a then guardsize a else stacksize a) p).

(** The structure before its context is set up. *)
Definition resourced (a : pthread_attr) (w : world) : pthread :=
  with_p_tcb (Some (next_port (env w) + 1))
    (with_have_kernel_resources true (with_kernel_thread (next_port (env w))
      (with_stack (next_stack_base (glob w)) (stacksize a)
        (attr_pthread a (with_p_thread (1 + num_threads (glob w)) (initial_pthread (garbage (env w)))))))).

(** Thread [c] can create a thread with the attributes [a]. *)
Record can_create (attr : option rwlockattr) (me : kctx) (c : nat) (a : pthread_attr) (w : world) : Prop := {
  cc_runs : runs me c w;
  cc_other : c <> next_thread (glob w);
  cc_alloc : can_alloc attr w;
  cc_running : 0 < num_threads (glob w);
  cc_memory : have_kernel_resources (garbage (env w)) = false;
  cc_size : stacksize a = default_stacksize (glob w);
  cc_base : 0 <= next_stack_base (glob w) < VM_MAX_ADDRESS;
  cc_end : next_stack_base (glob w) + stacksize a < 2 ^ 32;
  cc_vars : 0 <= hurd_threadvar_max;
  cc_room : 32 + 4 * hurd_threadvar_max <= stacksize a;
  cc_port : next_port (env w) <> ktid me;
  cc_mask : SSigstate (Z.to_nat (ktid me)) ∉ spins w;
  cc_new_mask : SSigstate (Z.to_nat (next_port (env w))) ∉ spins w;
}.

(** The new thread has everything but a context. *)
Definition resources (a : pthread_attr) (m : init_memory) (mx : Z) (w : world) : world :=
  let t := next_thread (glob w) in
  let p1 := with_p_thread (1 + num_threads (glob w)) (initial_pthread (garbage (env w))) in
  let p2 := attr_pthread a p1 in
  let p3 := with_stack (next_stack_base (glob w)) (stacksize a) p2 in
  let w3 := with_thread t p3 (stack_given (next_stack_base (glob w)) (stacksize a) (with_thread t p2 (allocated m mx w))) in
  with_thread t (resourced a w) (tcb_given (kernel_given t p3 w3)).

(** The code up to the context. *)
Lemma create_resources attr rattr me c start arg entry w :
  can_create rattr me c (in_force attr w) w ->
  exists m mx, inits (next_thread (glob w)) m w /\ num_threads (glob w) < mx < 2 ^ 31 /\
    forall B (f : error_t * option nat -> world -> res B),
      let t := next_thread (glob w) in
      solo (bindr (__pthread_create_internal attr start arg entry me w) f) =
      solo (bindr ((err ← __pthread_setup t entry start arg;
                    if decide (err <> OK) then failed_setup t;; mret (err, None)
                    else
                    err ← __pthread_sigstate_init t;
                    if decide (err <> OK) then failed_sigstate t;; mret (err, None)
                    else launch t) me (resources (in_force attr w) m mx w)) f).
Proof.
  intros [Hr Hc Hal Hrun Hmem Hsz Hb He Hv Hroom Hport Hm Hm'].
  destruct (alloc_at rattr me w Hal) as (m & mx & Hinit & Hmx & Hrun1). exists m, mx. split; [done|]. split; [done|].
  intros B f t. unfold __pthread_create_internal. cbn [mbind M_bind]. rewrite bindr_assoc, Hrun1. fold t.
  set (a := in_force attr w) in *. set (w1 := allocated m mx w).
  set (p1 := with_p_thread (1 + num_threads (glob w)) (initial_pthread (garbage (env w)))).
  assert (pthreads w1 !! t = Some p1) as Hp1 by apply lookup_insert_eq.
  cbn. change (match attr with Some a => a | None => set_stacksize (default_stacksize (glob w)) (__pthread_default_attr pagesize) end) with a.
  rewrite (update_thread_at t _ p1) by done. cbn. set (p2 := attr_pthread a p1).
  change (with_thread t _ w1) with (with_thread t p2 w1). set (w2 := with_thread t p2 w1).
  change (match attr with Some a => a | None => set_stacksize (default_stacksize (glob w1)) (__pthread_default_attr pagesize) end) with a.
  pose proof Hal as [_ _ _ Ha _ _ _].
  rewrite (find_thread_stack_at t p2); [|apply lookup_insert_eq|done|done|lia|done|done].
  change (next_stack_base (glob w2)) with (next_stack_base (glob w)).
  set (p3 := with_stack (next_stack_base (glob w)) (stacksize a) p2).
  set (w3 := with_thread t p3 (stack_given _ _ w2)). cbn. rewrite (decide_False (P := OK <> OK)) by (by intros []). cbn.
  rewrite (thread_alloc_at t p3); [|apply lookup_insert_eq|done|cbn; lia|done]. cbn.
  rewrite (decide_False (P := OK <> OK)) by (by intros []). cbn.
  set (w4 := kernel_given t p3 w3). destruct (allocate_tls_at me w4 Ha) as (w5 & Htls & Hp5 & Hw5).
  rewrite Htls. cbn.
  rewrite (update_thread_at t _ (with_have_kernel_resources true (with_kernel_thread (next_port (env w)) p3)))
    by (rewrite Hp5; apply lookup_insert_eq). cbn.
  match goal with |- context [__pthread_setup _ _ _ _ _ ?v] => assert (v = resources a m mx w) as -> by exact (Hw5 t (resourced a w)) end.
  done.
Qed.

Lemma resources_threads a m mx w :
  pthreads (resources a m mx w) = <[next_thread (glob w) := resourced a w]> (pthreads w).
Proof. unfold resources, kernel_given, allocated, id_taken, with_thread. cbn. by rewrite !insert_insert_eq. Qed.

(** The entries of the table. *)
Lemma resources_table a m mx w :
  table_ok w -> let w1 := resources a m mx w in
  table_get (threads_tab (glob w1)) (num_threads (glob w)) = Some None /\
  forall i, i < num_threads (glob w) -> table_get (threads_tab (glob w1)) i = table_get (threads_tab (glob w)) i.
Proof.
  intros [Hlen Hmax] w1. change (threads_tab (glob w1)) with (Some (default [] (threads_tab (glob w)) ++ [None])).
  unfold table_get. split.
  - destruct (Z.ltb_spec (num_threads (glob w)) 0); [lia|]. rewrite <- Hlen, Nat2Z.id. by apply list_lookup_middle.
  - intros i Hi. destruct (Z.ltb_spec i 0); [done|]. rewrite lookup_app_l by lia. by destruct (threads_tab (glob w)).
Qed.

(** The signal word of the stack is clear. *)
Definition word_cleared (p : pthread) (w : world) : world :=
  set_env (set_stack_mem (<[threadvar_location (p_stackaddr p) := 0]> (stack_mem (env w))) (env w)) w.

Lemma word_cleared_threads p w : pthreads (word_cleared p w) = pthreads w.
Proof. done. Qed.

Lemma word_cleared_glob p w : glob (word_cleared p w) = glob w.
Proof. done. Qed.

Lemma sigstate_init_at t p me w :
  pthreads w !! t = Some p -> __pthread_sigstate_init t me w = Done OK (word_cleared p w).
Proof. intros Hp. unfold __pthread_sigstate_init. cbn. by rewrite (get_thread_at t p). Qed.

(** The new thread [t], which is [p] in the world [w], can start. *)
Record can_start (attr : option rwlockattr) (me : kctx) (c t : nat) (p : pthread) (tcb : Z) (x : tcbhead) (w : world) : Prop := {
  st_set_up : can_set_up me p tcb x w;
  st_runs : runs me c w;
  st_creator : c <> t;
  st_thread : pthreads w !! t = Some p;
  st_count : num_threads (glob w) <> 1;
  st_mask : SSigstate (Z.to_nat (ktid me)) ∉ spins w;
  st_new_mask : SSigstate (Z.to_nat (kernel_thread p)) ∉ spins w;
  st_table : rwlock_idle RThreadsLock attr w;
  st_id : known_id (p_thread p) w;
}.

Definition started (me : kctx) (t : nat) (entry start arg sp tcb : Z) (x : tcbhead) (l : list kcall) (p : pthread) (w : world) : world :=
  let p' := with_mc_sp sp (with_mc_pc entry p) in
  launched me t p' (word_cleared p' (set_up t entry start arg sp tcb x l p w)).

(** The code from the context on. *)
Lemma start_at attr me c t p tcb x start arg entry w :
  can_start attr me c t p tcb x w -> start <> 0 ->
  exists sp gs l, forallb makes_nothing l = true /\
    (16 | sp + 4) /\ p_stackaddr p <= sp /\ sp + 16 <= p_stackaddr p + p_stacksize p - 4 * hurd_threadvar_max /\
    forall B (f : error_t * option nat -> world -> res B),
      solo (bindr ((err ← __pthread_setup t entry start arg;
                    if decide (err <> OK) then failed_setup t;; mret (err, None)
                    else
                    err ← __pthread_sigstate_init t;
                    if decide (err <> OK) then failed_sigstate t;; mret (err, None)
                    else launch t) me w) f) =
      solo (f (OK, Some t) (started me t entry start arg sp tcb x (KThreadSetState (kernel_thread p) (Some entry) (Some sp) gs :: l) p w)).
Proof.
  intros [Hset (Htt & Htls & pc & Hpc & Hkc) Hc Hp Hn Hm Hm' Htab Hid] Hstart. pose proof Hset as [_ _ Ho Ha _ _ _ _].
  destruct (setup_at t entry start arg p tcb x me w Hp Hstart Hset) as (sp & gs & l & Hrun & Hl & Hal & Hlow & Hhigh).
  exists sp, gs, l. split_and!; [done..|]. intros B f. cbn [mbind M_bind]. rewrite Hrun. cbn [bindr].
  rewrite (decide_False (P := OK <> OK)) by (by intros []). cbn [mbind M_bind].
  set (p' := with_mc_sp sp (with_mc_pc entry p)). set (w2 := set_up _ _ _ _ _ _ _ _ _ _).
  assert (pthreads w2 !! t = Some p') as Hp' by (unfold w2; rewrite set_up_threads; apply lookup_insert_eq).
  rewrite (sigstate_init_at t p') by done. cbn [bindr]. rewrite (decide_False (P := OK <> OK)) by (by intros []).
  set (w3 := word_cleared p' w2).
  assert (can_launch attr me c t p' w3) as Hlaunch; [|exact (launch_at attr me c t p' w3 f Hlaunch)].
  split; [|unfold w3; rewrite word_cleared_threads; exact Hp'|exact Hn|exact Hm|exact Hm'|exact Ho|by destruct Htab|exact Hid|exact Ha].
  split; [exact Htt|]. split; [done|]. exists pc. split; [|done].
  unfold w3, w2. rewrite word_cleared_threads, set_up_threads. by rewrite lookup_insert_ne.
Qed.

(** The world that [pthread_create] leaves. *)
Definition create_world (me : kctx) (a : pthread_attr) (m : init_memory) (mx start arg entry sp : Z) (l : list kcall) (w : world) : world :=
  let tcb := next_port (env w) + 1 in
  started me (next_thread (glob w)) entry start arg sp tcb (mkTcb tcb 0) l (resourced a w) (resources a m mx w).

Lemma create_at attr rattr me c start arg entry w :
  can_create rattr me c (in_force attr w) w -> start <> 0 ->
  exists m mx sp gs l, inits (next_thread (glob w)) m w /\
    (16 | sp + 4) /\ next_stack_base (glob w) <= sp /\
    sp + 16 <= next_stack_base (glob w) + stacksize (in_force attr w) - 4 * hurd_threadvar_max /\
    forall B (f : error_t * option nat -> world -> res B),
      solo (bindr (__pthread_create_internal attr start arg entry me w) f) =
      solo (f (OK, Some (next_thread (glob w)))
        (create_world me (in_force attr w) m mx start arg entry sp (KThreadSetState (next_port (env w)) (Some entry) (Some sp) gs :: l) w)).
Proof.
  intros Hcr Hstart. set (t := next_thread (glob w)). set (a := in_force attr w) in *.
  destruct (create_resources attr rattr me c start arg entry w Hcr) as (m & mx & Hm & Hmx & Hrun). fold a t in Hm, Hrun.
  pose proof Hcr as [Hr Hc Hal Hn Hmem Hsz Hb He Hv Hroom Hport Hmask Hmask'].
  pose proof Hal as [_ _ Htab Ha _ Hok _]. pose proof Hm as [Hspins Hheads _ _ _ _ _ _].
  set (w1 := resources a m mx w) in *. pose proof (resources_threads a m mx w) as Hthreads. fold w1 t in Hthreads.
  destruct (start_at rattr me c t (resourced a w) (next_port (env w) + 1) (mkTcb (next_port (env w) + 1) 0) start arg entry w1)
    as (sp & gs & l & _ & Hal' & Hlow & Hhigh & Hstarted); [|done|].
  2:{ exists m, mx, sp, gs, l. split_and!; [done..|]. intros B f. rewrite Hrun. apply Hstarted. }
  destruct Hr as (Htt & Htls & pc & Hpc & Hkc). split; try done.
  - split; try done; [apply lookup_insert_eq|cbn; lia..].
  - split; [by eexists|]. split; [done|]. exists pc. split; [|done]. rewrite Hthreads. by rewrite lookup_insert_ne.
  - rewrite Hthreads. apply lookup_insert_eq.
  - cbn. lia.
  - intros Hin%Hspins. exact (Hmask Hin).
  - intros Hin%Hspins. exact (Hmask' Hin).
  - destruct Htab as [H1 H2 H3 H4 H5].
    split; [exact H1|intros Hin%Hspins; exact (H2 Hin)|intros Hin%Hspins; exact (H3 Hin)|exact (Hheads _ H4)|exact (Hheads _ H5)].
  - exists None. change (p_thread (resourced a w) - 1) with (1 + num_threads (glob w) - 1).
    replace (1 + num_threads (glob w) - 1) with (num_threads (glob w)) by lia. apply (resources_table a m mx w Hok).
Qed.

Section Parts.
Context (me : kctx) (t : nat) (p : pthread) (w : world).

Lemma launched_threads : pthreads (launched me t p w) = pthreads w.
Proof. done. Qed.

Lemma launched_glob : glob (launched me t p w) =
  set_threads_tab (table_set (threads_tab (glob w)) (p_thread p - 1) (Some t))
    (set_pthread_total (i32 (pthread_total (glob w) + 1)) (glob w)).
Proof. done. Qed.

Lemma launched_sigstates :
  let ss := sigstate_of w (kernel_thread p) in
  sigstates (env (launched me t p w)) !! kernel_thread p =
  Some (mkSigstate (ss_blocked (sigstate_of w (ktid me))) 0 (ss_cancel ss) (ss_cancel_hook ss) (ss_intr_port ss)).
Proof. apply lookup_insert_eq. Qed.
End Parts.

(** What a creation promises: the structure [p] of the new thread, its ID, its
    port, its kernel thread with the signal mask of the creator, and its first frame. *)
Record created (me : kctx) (a : pthread_attr) (start arg entry : Z) (w w' : world) (p : pthread) : Prop := {
  cr_threads : pthreads w' = <[next_thread (glob w) := p]> (pthreads w);
  cr_count : num_threads (glob w') = num_threads (glob w) + 1 /\ p_thread p = num_threads (glob w) + 1 /\
    pthread_total (glob w') = i32 (pthread_total (glob w) + 1);
  cr_table : forall i, i <= num_threads (glob w) -> table_get (threads_tab (glob w')) i =
    if decide (i = num_threads (glob w)) then Some (Some (next_thread (glob w))) else table_get (threads_tab (glob w)) i;
  cr_state : p_state p = if detachstate a =? PTHREAD_CREATE_DETACHED then PTHREAD_DETACHED else PTHREAD_JOINABLE;
  cr_clean : cancelation_handlers p = [] /\ thread_specifics p = None /\ cancel_pending p = 0 /\
    cancel_state p = PTHREAD_CANCEL_ENABLE /\ cancel_type p = PTHREAD_CANCEL_DEFERRED;
  cr_stack : p_stackaddr p = next_stack_base (glob w) /\ p_stacksize p = stacksize a /\
    p_guardsize p = if stackaddr a =? 0 then Z.min (guardsize a) (stacksize a) else 0;
  cr_port : mail w' !! next_thread (glob w) = Some 0%nat;
  cr_locks : mutex_idle (MCancelLock (next_thread (glob w))) w' /\ mutex_idle (MStateLock (next_thread (glob w))) w';
  cr_kernel : kernel_thread p = next_port (env w) /\
    exists gs l, klog (env w') = KThreadResume (kernel_thread p) ::
      KThreadSetState (kernel_thread p) (Some entry) (Some (mc_sp p)) gs :: l;
  cr_frame : (16 | mc_sp p + 4) /\ p_stackaddr p <= mc_sp p /\
    mc_sp p + 16 <= p_stackaddr p + p_stacksize p - 4 * hurd_threadvar_max /\
    stack_word w' (mc_sp p) = Some 0 /\ stack_word w' (mc_sp p + 4) = Some (Z.of_nat (next_thread (glob w))) /\
    stack_word w' (mc_sp p + 8) = Some start /\ stack_word w' (mc_sp p + 12) = Some arg;
  cr_mask : exists ss, sigstates (env w') !! kernel_thread p = Some ss /\ ss_pending ss = 0 /\
    ss_blocked ss = ss_blocked (sigstate_of w (ktid me));
}.

(** The threadvars are above the stack pointer. *)
Definition threadvars_above (a : pthread_attr) (w : world) : Prop :=
  let base := next_stack_base (glob w) in
  base + stacksize a - 4 * hurd_threadvar_max <= threadvar_location base.

Lemma create_world_created rattr me c a m mx start arg entry sp gs l w :
  can_create rattr me c a w -> inits (next_thread (glob w)) m w -> threadvars_above a w ->
  (16 | sp + 4) -> next_stack_base (glob w) <= sp ->
  sp + 16 <= next_stack_base (glob w) + stacksize a - 4 * hurd_threadvar_max ->
  created me a start arg entry w
    (create_world me a m mx start arg entry sp (KThreadSetState (next_port (env w)) (Some entry) (Some sp) gs :: l) w)
    (with_mc_sp sp (with_mc_pc entry (resourced a w))).
Proof.
  intros [Hr Hc Hal Hn Hmem Hsz Hb He Hv Hroom Hport Hmask Hmask'] Hm Hvars Hal4 Hlow Hhigh.
  pose proof Hal as [_ _ Htab Ha _ Hok _]. destruct Hm as [_ _ _ _ Hcan Hst _ _].
  set (t := next_thread (glob w)) in *. set (p := with_mc_sp sp _).
  set (l' := _ :: l). set (w1 := resources a m mx w).
  assert (p_thread p - 1 = num_threads (glob w)) as Hid by (change (p_thread p) with (1 + num_threads (glob w)); lia).
  destruct (resources_table a m mx w Hok) as [Hnone Hold]. fold w1 in Hnone, Hold.
  split.
  - unfold create_world, started. cbv zeta. fold t p. rewrite launched_threads, word_cleared_threads, set_up_threads, resources_threads.
    fold t. by rewrite insert_insert_eq.
  - unfold create_world, started. cbv zeta. fold t p. rewrite launched_glob, word_cleared_glob, set_up_glob.
    split_and!; [reflexivity|exact (Z.add_comm 1 _)|reflexivity].
  - intros i Hi. unfold create_world, started. cbv zeta. fold t p. rewrite launched_glob, word_cleared_glob, set_up_glob, Hid.
    fold w1. destruct (table_set_known _ _ (Some t) _ Hnone) as (tab & Hset & Hget). cbn [threads_tab set_threads_tab].
    rewrite Hset, Hget. case_decide; [done|]. apply Hold. lia.
  - reflexivity.
  - split_and!; reflexivity.
  - split_and!; [reflexivity..|]. cbn. destruct (stackaddr a =? 0); [|done]. cbn. destruct (Z.leb_spec (guardsize a) (stacksize a)); lia.
  - cbn. apply lookup_insert_eq.
  - destruct Hcan as [H1 H2 H3 H4], Hst as [H5 H6 H7 H8].
    split; (split; [assumption|exact H2 || exact H6|exact H3 || exact H7|exact H4 || exact H8]).
  - split; [reflexivity|]. exists gs. eexists. cbn. reflexivity.
  - assert (forall addr, addr < next_stack_base (glob w) + stacksize a - 4 * hurd_threadvar_max ->
      stack_word (create_world me a m mx start arg entry sp l' w) addr =
      frame sp (Z.of_nat t) start arg (stack_mem (env w)) !! addr) as Hword.
    { intros addr Haddr. unfold stack_word.
      change (stack_mem (env (create_world me a m mx start arg entry sp l' w))) with
        (<[threadvar_location (next_stack_base (glob w)) := 0]> (frame sp (Z.of_nat t) start arg (stack_mem (env w)))).
      apply lookup_insert_ne. unfold threadvars_above in Hvars. lia. }
    change (mc_sp p) with sp. rewrite !Hword by lia.
    destruct (frame_words sp (Z.of_nat t) start arg (stack_mem (env w))) as (-> & -> & -> & ->).
    split_and!; [exact Hal4|exact Hlow|exact Hhigh|reflexivity..].
  - unfold create_world, started. cbv zeta. fold t p. eexists. split; [apply launched_sigstates|]. split; reflexivity.
Qed.

(** C19: pthread_create makes a thread whose structure is used for the first time:
    if no structure is on the free list, the memory for a new one happens to have
    have_kernel_resources clear (the library does not initialise it), the stack size
    is the default one, the limit on threads is not reached and the kernel and the
    allocator grant all requests, it returns 0 and the ID of a new thread, the next one in the table.  The thread has
    the state its attributes ask for, enabled and deferred cancelation, no handlers
    and no values of keys, an empty wakeup port and its own kernel thread with the
    signal mask of the creator and no pending signals.  Its stack is a new one at
    the address the kernel gave, with the first frame for the start routine, even if
    the attributes name a stack of the user, which is then ignored but for the
    guard pages that are left out.  Last its context is set and it is resumed. *)
Theorem pthread_create_result attr rattr me c start arg entry w :
  let a := in_force attr w in
  can_create rattr me c a w -> start <> 0 -> threadvars_above a w ->
  exists p w', solo (pthread_create attr start arg entry me w) = Done (OK, Some (num_threads (glob w) + 1)) w' /\
    created me a start arg entry w w' p.
Proof.
  intros a Hc Hs Hv.
  destruct (create_at attr rattr me c start arg entry w Hc Hs) as (m & mx & sp & gs & l & Hm & Hal & Hlow & Hhigh & Hrun).
  fold a in Hrun, Hhigh. set (l' := _ :: l) in Hrun.
  pose proof (create_world_created rattr me c a m mx start arg entry sp gs l w Hc Hm Hv Hal Hlow Hhigh) as Hcr. fold l' in Hcr.
  set (p := with_mc_sp sp _) in Hcr. set (w' := create_world me a m mx start arg entry sp l' w) in *.
  exists p, w'. split; [|exact Hcr]. unfold pthread_create. cbn [mbind M_bind]. rewrite Hrun. cbn [mbind M_bind deref bindr mret M_ret].
  rewrite (get_thread_at (next_thread (glob w)) p).
  - cbn [bindr]. destruct (cr_count _ _ _ _ _ _ _ _ Hcr) as (_ & -> & _). reflexivity.
  - rewrite (cr_threads _ _ _ _ _ _ _ _ Hcr). apply lookup_insert_eq.
Qed.
End Resources.

(** ** A concrete creation *)

(** The threadvars of a thread are at the top of its 2 MB stack. *)
Definition create_platform : Platform := {|
  VM_MIN_ADDRESS := 0; VM_MAX_ADDRESS := 0xc0000000; hurd_threadvar_max := 8;
  threadvar_location sp := sp + 0x200000 - 32; self_gs := 0; gdt_sel := 0x48; pagesize := None;
  PTHREAD_THREADS_MAX := None; call _ arg := mret arg; loop_fuel := 10 |}.

(** One thread runs. *)
Definition demo_create : world :=
  set_env (set_garbage (with_have_kernel_resources false (demo_pthread 0)) (env (demo_threads 1)))
    (set_mutexes {[MFreeThreadsLock := mkMutex ANull None 0]} (demo_threads 1)).

Lemma pthread_create_result_witness :
  exists p w', solo (@pthread_create create_platform None 0x8048000 42 0x8040000 (demo_ctx 0) demo_create) = Done (OK, Some 2) w' /\
    p_state p = PTHREAD_JOINABLE /\ pthreads w' !! 1%nat = Some p /\
    table_get (threads_tab (glob w')) 1 = Some (Some 1%nat) /\ stack_word w' (mc_sp p + 12) = Some 42.
Proof.
  destruct (@pthread_create_result create_platform None None (demo_ctx 0) 0 0x8048000 42 0x8040000 demo_create)
    as (p & w' & Hrun & Hc).
  - split; [split; [by eexists|]; split; [done|]; by eexists|done| |done|done|done|cbn; lia|cbn; lia|cbn; lia|cbn; lia|done|..].
    + split; [split; [by do 2 eexists|by vm_compute..]|done|by split|done|done|by split|done].
    + by vm_compute.
    + by vm_compute.
  - done.
  - by vm_compute.
  - exists p, w'. split; [exact Hrun|]. split_and!.
    + by rewrite (cr_state _ _ _ _ _ _ _ _ Hc).
    + rewrite (cr_threads _ _ _ _ _ _ _ _ Hc). apply lookup_insert_eq.
    + by rewrite (cr_table _ _ _ _ _ _ _ _ Hc) by (cbn; lia).
    + apply (cr_frame _ _ _ _ _ _ _ _ Hc).
Defined.
