(* ===== verification/CreateErrors.v ===== *)
(** * A creation that fails

    What pthread_create takes back when the stack size is not the default one or the
    kernel refuses a request. *)
From Stdlib Require Import ZArith Lia.
From S2P Require Import Prelude Queue World Machine Platform Sched Mach Demo Attr Mutex Rwlock Barrier Cond Kernel KernelFacts Keys Threads ThreadOps ThreadFacts ExitSpec CreateSpec.
Local Open Scope Z_scope.

#[local] Arguments update_thread : simpl never.
#[local] Arguments get_thread : simpl never.
#[local] Arguments find_thread_stack : simpl never.
#[local] Arguments __pthread_thread_alloc : simpl never.
#[local] Arguments __pthread_alloc : simpl never.
#[local] Arguments alloc_id : simpl never.
#[local] Arguments __pthread_dealloc : simpl never.
#[local] Arguments _dl_allocate_tls : simpl never.
#[local] Arguments failed_stack_alloc : simpl never.
#[local] Arguments failed_thread_alloc : simpl never.
#[local] Arguments failed_thread_tls_alloc : simpl never.

(** The kernel's next answers are [l]. *)
Definition granting (l : list bool) (w : world) : world := set_env (set_answers l (env w)) w.

Lemma granting_answers w : granting (answers (env w)) w = w.
Proof. by destruct w as [? ? ? ? ? ? ? ? ? ? ? []]. Qed.

Lemma kernel_request_answer b l c me w :
  answers (env w) = b :: l -> kernel_request c me w = Done b (granting l (requested c w)).
Proof. intros Ha. unfold kernel_request, ask. cbn. by rewrite Ha. Qed.

(** One call after the other; the worlds stay as they are. *)
Ltac step := cbn [mbind M_bind bindr mret M_ret negb modify get_glob gets fresh_port].

(** The worlds are written as records. *)
Ltac flat := cbv [granting set_env set_answers set_klog set_next_port set_mail qh spins mail mutexes conds
  rwlocks sems barriers onces pthreads glob env umem sigs clock answers klog next_port garbage errnos sigstates
  fresh_sigstate proc_sigmask tcbs stack_mem ext_mem].

Section Refused.
Context `{P : Platform} `{IH : IHash}.

(** ** What is left of the structure *)

(** A thread can be made as far as memory and locks are concerned; [Q] are the queues. *)
Record can_be_refused (rattr : option rwlockattr) (me : kctx) (a : pthread_attr) (Q : head_id -> list nat) (w : world) : Prop := {
  br_free : mutex_idle MFreeThreadsLock w;
  br_list : Q HFreeThreads = [];
  br_table : rwlock_idle RThreadsLock rattr w;
  br_ok : table_ok w;
  br_room : 0 < num_threads (glob w) < max_threads (glob w);
  br_max : max_threads (glob w) < 2 ^ 30;
  br_memory : have_kernel_resources (garbage (env w)) = false;
  br_mail : mail w !! next_thread (glob w) = None;
  br_base : 0 <= next_stack_base (glob w) < VM_MAX_ADDRESS;
  br_size : 0 < stacksize a;
  br_port : next_port (env w) <> ktid me;
  br_queues : qrep (qh w) Q;
  br_unqueued : ~ queued Q (next_thread (glob w));
  br_cancel : Q (HMutex (MCancelLock (next_thread (glob w)))) = [];
  br_state : Q (HMutex (MStateLock (next_thread (glob w)))) = [];
  br_cond : Q (HCond (CStateCond (next_thread (glob w)))) = [];
}.

Section Tail.
Context (rattr : option rwlockattr) (me : kctx) (a : pthread_attr) (Q : head_id -> list nat) (w : world).
Context (Hb : can_be_refused rattr me a Q w) (m : init_memory) (Hm : inits (next_thread (glob w)) m w).
Let t := next_thread (glob w).

(** The world [v] in which the new thread is [p]. *)
Record in_creation (p : pthread) (v : world) : Prop := {
  ic_qh : qh v = im_qh m;
  ic_spins : spins v = im_spins m;
  ic_mutexes : mutexes v = im_mutexes m;
  ic_rwlocks : rwlocks v = rwlocks w;
  ic_threads : pthreads v = <[t := p]> (pthreads w);
  ic_table : threads_tab (glob v) = Some (default [] (threads_tab (glob w)) ++ [None]);
  ic_count : num_threads (glob v) = num_threads (glob w) + 1;
  ic_total : pthread_total (glob v) = pthread_total (glob w);
  ic_id : p_thread p = num_threads (glob w) + 1;
  ic_alive : p_state p <> PTHREAD_TERMINATED;
}.

(** The table of IDs with a new entry, which is null. *)
Lemma entry_none l : (default [] (threads_tab (glob w)) ++ [None] = l) -> table_get (Some l) (num_threads (glob w)) = Some None.
Proof.
  intros <-. destruct (br_ok _ _ _ _ _ Hb) as [Hlen Hmax]. unfold table_get.
  destruct (Z.ltb_spec (num_threads (glob w)) 0); [lia|]. rewrite <- Hlen, Nat2Z.id. by apply list_lookup_middle.
Qed.

Lemma creation_dealloc p v : in_creation p v -> can_dealloc rattr t p Q v.
Proof.
  intros [Hq Hs Hmu Hrw Hth Htab _ _ Hid Hal]. destruct Hb as [Hf _ [H1 H2 H3 H4 H5] Hok _ _ _ _ _ _ _ R Hun Hc1 Hc2 Hc3].
  pose proof Hm as [Hsp Hh Hmut _ _ Hst Hlock Hqs].
  split.
  - rewrite Hth. apply lookup_insert_eq.
  - exact Hal.
  - split; [by rewrite Hrw|by rewrite Hs; intros ?%Hsp|by rewrite Hs; intros ?%Hsp|by rewrite Hq; apply Hh|by rewrite Hq; apply Hh].
  - exists None. rewrite Htab, Hid. replace (num_threads (glob w) + 1 - 1) with (num_threads (glob w)) by lia. by apply entry_none.
  - destruct Hst as [S1 S2 S3 S4]. split; [by rewrite Hmu|by rewrite Hs|by rewrite Hs|by rewrite Hq].
  - destruct Hf as [S1 S2 S3 S4]. split; [by rewrite Hmu, Hmut|by rewrite Hs; intros ?%Hsp|by rewrite Hs; intros ?%Hsp|by rewrite Hq; apply Hh].
  - split; [by rewrite Hs|rewrite Hq; by apply Hqs|]. fold t in Hc3. rewrite Hc3. by intros u ?%elem_of_nil.
  - exact Hun.
Qed.

(** What is left of a thread [p] that could not be made. *)
Record taken_back (p : pthread) (w' : world) : Prop := {
  tb_threads : pthreads w' = <[t := with_p_state PTHREAD_TERMINATED p]> (pthreads w);
  tb_stack : p_stack p = false;
  tb_table : forall i, i <= num_threads (glob w) -> table_get (threads_tab (glob w')) i =
    if decide (i = num_threads (glob w)) then Some None else table_get (threads_tab (glob w)) i;
  tb_count : num_threads (glob w') = num_threads (glob w) + 1;
  tb_total : pthread_total (glob w') = pthread_total (glob w);
  tb_queues : qrep (qh w') (<[HFreeThreads := [t]]> Q);
}.

Lemma table_older i : i < num_threads (glob w) ->
  table_get (Some (default [] (threads_tab (glob w)) ++ [None])) i = table_get (threads_tab (glob w)) i.
Proof.
  intros Hi. destruct (br_ok _ _ _ _ _ Hb) as [Hlen Hmax]. unfold table_get.
  destruct (Z.ltb_spec i 0); [done|]. rewrite lookup_app_l by lia. by destruct (threads_tab (glob w)).
Qed.

(** [__pthread_dealloc] of the structure. *)
Lemma dealloc_created p v :
  in_creation p v -> p_stack p = false ->
  exists w', taken_back p w' /\ mail w' = mail v /\ env w' = env v /\
    forall B (f : unit -> world -> res B), solo (bindr (__pthread_dealloc t me v) f) = solo (f tt w').
Proof.
  intros Hi Hs. pose proof (creation_dealloc p v Hi) as Hd. destruct (dealloc_at rattr t p Q me v Hd) as (q & Rq & Hrun).
  destruct Hi as [_ _ _ _ Hth Htab Hnum Htot Hid _].
  destruct (table_set_known (threads_tab (glob v)) (p_thread p - 1) None None) as (tab & Hset & Hget).
  { rewrite Htab, Hid. replace (num_threads (glob w) + 1 - 1) with (num_threads (glob w)) by lia. by apply entry_none. }
  pose proof (br_cond _ _ _ _ _ Hb) as Hc. pose proof (br_list _ _ _ _ _ Hb) as Hl. fold t in Hc.
  eexists. split; [|split; [|split; [|exact Hrun]]].
  - split.
    + case_decide; cbn; by rewrite Hth, insert_insert_eq.
    + exact Hs.
    + intros i Hle.
      assert (table_get (table_set (threads_tab (glob v)) (p_thread p - 1) None) i =
        if decide (i = num_threads (glob w)) then Some None else table_get (threads_tab (glob w)) i) as He;
        [|by destruct (decide (p_state p <> PTHREAD_EXITED))].
      rewrite Hset, Hget, Htab, Hid. replace (num_threads (glob w) + 1 - 1) with (num_threads (glob w)) by lia.
      repeat case_decide; try done; apply table_older; lia.
    + by case_decide.
    + by case_decide.
    + eapply qrep_proper; [|exact Rq]. intros h. rewrite Hl.
      destruct (decide (HFreeThreads = h)) as [<- | Hne]; [by rewrite !fn_lookup_insert|].
      rewrite !fn_lookup_insert_ne by done. case_decide; [|done].
      destruct (decide (HCond (CStateCond t) = h)) as [<- | Hne']; [by rewrite fn_lookup_insert, Hc|by rewrite fn_lookup_insert_ne].
  - case_decide; [|done]. cbn. by rewrite Hc.
  - by case_decide.
Qed.

Lemma in_creation_changed p p' b e v :
  in_creation p v -> p_thread p' = p_thread p -> p_state p' = p_state p ->
  in_creation p' (set_mail b (set_env e (with_thread t p' v))).
Proof.
  intros [Hq Hs Hmu Hrw Hth Htab Hn Htot Hid Hal] H1 H2. split; try done; cbn; [by rewrite Hth, insert_insert_eq|congruence|congruence].
Qed.

Lemma in_creation_env p b e v : in_creation p v -> in_creation p (set_mail b (set_env e v)).
Proof. by intros []. Qed.

(** The stack is given back, then the structure. *)
Lemma failed_created p v :
  in_creation p v -> answers (env v) = [] ->
  exists w', taken_back (with_p_stack false p) w' /\ mail w' = mail v /\
    klog (env w') = KVmDeallocate (p_stackaddr p) (p_stacksize p) :: klog (env v) /\
    forall B (f : unit -> world -> res B), solo (bindr (failed_thread_alloc t me v) f) = solo (f tt w').
Proof.
  intros Hi Ha. set (p' := with_p_stack false p). set (v1 := with_thread t p' (requested (KVmDeallocate (p_stackaddr p) (p_stacksize p)) v)).
  destruct (dealloc_created p' v1) as (w' & Hback & Hmail & Henv & Hrun).
  { by apply (in_creation_changed p p' (mail v1) (env v1) v). }
  { done. }
  exists w'. split; [exact Hback|]. split; [by rewrite Hmail|]. split; [by rewrite Henv|]. intros B f.
  assert (pthreads v !! t = Some p) as Hp by (rewrite (ic_threads _ _ Hi); apply lookup_insert_eq).
  unfold failed_thread_alloc, __pthread_stack_dealloc, failed_stack_alloc. cbn. rewrite (get_thread_at t p) by done. cbn.
  rewrite kernel_request_granted by done. cbn. rewrite (update_thread_at t _ p) by done. cbn. apply Hrun.
Qed.
End Tail.

(** ** The refusals *)

(** What fails: the size of the stack, or a request to the kernel. *)
Inductive refusal := RefusesSize | RefusesPort | RefusesRight | RefusesThread | RefusesTls.

#[export] Instance refusal_eq_dec : EqDecision refusal.
Proof. solve_decision. Defined.

(** The kernel's answers, after those for the memory of the structure and the stack. *)
Definition thread_answers (r : refusal) : list bool :=
  match r with
  | RefusesSize => []
  | RefusesPort => [false]
  | RefusesRight => [true; false]
  | RefusesThread => [true; true; false]
  | RefusesTls => [true; true; true; false]
  end.

Definition answers_until (r : refusal) : list bool :=
  match r with RefusesSize => [true] | _ => true :: true :: thread_answers r end.

(** Nothing is set to an error when the TLS is refused. *)
Definition refusal_error (r : refusal) : error_t :=
  match r with RefusesSize => EINVAL | RefusesTls => OK | _ => EAGAIN end.

(** What was asked for after the stack, the last request first. *)
Definition thread_requests (r : refusal) (t : nat) (k tcb : Z) : list kcall :=
  match r with
  | RefusesSize => []
  | RefusesPort => [KPortAllocate t]
  | RefusesRight => [KPortDestroy t; KPortInsertRight t; KPortAllocate t]
  | RefusesThread => [KThreadCreate k; KPortInsertRight t; KPortAllocate t]
  | RefusesTls => [KTlsAllocate tcb; KThreadCreate k; KPortInsertRight t; KPortAllocate t]
  end.

(** All requests: the port is not destroyed when the kernel thread is refused. *)
Definition refused_requests (r : refusal) (t : nat) (k base size tcb : Z) : list kcall :=
  match r with
  | RefusesSize => []
  | RefusesTls =>
      [KVmDeallocate base size; KThreadTerminate k; KPortDestroy t] ++ thread_requests r t k tcb ++ [KVmAllocate base size]
  | _ => [KVmDeallocate base size] ++ thread_requests r t k tcb ++ [KVmAllocate base size]
  end.

Lemma request_flat b l c me q s m mu co rw se ba o th g cl lo po ga er ss fr ma tc st ex um si :
  kernel_request c me (mkWorld q s m mu co rw se ba o th g (mkEnv cl (b :: l) lo po ga er ss fr ma tc st ex) um si) =
  Done b (mkWorld q s m mu co rw se ba o th g (mkEnv cl l (c :: lo) po ga er ss fr ma tc st ex) um si).
Proof. reflexivity. Qed.

Lemma request_flat_last c me q s m mu co rw se ba o th g cl lo po ga er ss fr ma tc st ex um si :
  kernel_request c me (mkWorld q s m mu co rw se ba o th g (mkEnv cl [] lo po ga er ss fr ma tc st ex) um si) =
  Done true (mkWorld q s m mu co rw se ba o th g (mkEnv cl [] (c :: lo) po ga er ss fr ma tc st ex) um si).
Proof. reflexivity. Qed.

(** The part of the requests that [__pthread_thread_alloc] makes. *)
Lemma thread_alloc_refused r t p me v :
  r = RefusesPort \/ r = RefusesRight \/ r = RefusesThread ->
  pthreads v !! t = Some p -> have_kernel_resources p = false -> num_threads (glob v) <> 1 -> mail v !! t = None ->
  exists b e, __pthread_thread_alloc t me (granting (thread_answers r) v) = Done EAGAIN (set_mail b (set_env e v)) /\
    b !! t = (if decide (r = RefusesThread) then Some 0%nat else None) /\ answers e = [] /\
    klog e = thread_requests r t (next_port (env v)) (next_port (env v) + 1) ++ klog (env v).
Proof.
  intros Hr Hp Hk Hn Hm. destruct v as [qh0 sp0 mail0 mu0 co0 rw0 se0 ba0 on0 th0 gl0 [cl an lo po ga er ss fr ma tc st ex] um0 si0].
  cbn in Hp, Hn, Hm. unfold __pthread_thread_alloc, create_wakeupmsg. step.
  rewrite (get_thread_at t p) by exact Hp. step. rewrite Hk. step.
  destruct Hr as [-> | [-> | ->]]; unfold thread_answers; flat; rewrite request_flat; step.
  - exists mail0, (mkEnv cl [] (thread_requests RefusesPort t po (po + 1) ++ lo) po ga er ss fr ma tc st ex).
    split; [reflexivity|]. by split.
  - flat. rewrite request_flat. step. rewrite request_flat_last. step. flat.
    exists (delete t (<[t := 0%nat]> mail0)), (mkEnv cl [] (thread_requests RefusesRight t po (po + 1) ++ lo) po ga er ss fr ma tc st ex).
    split; [reflexivity|]. split; [apply lookup_delete_eq|]. by split.
  - flat. rewrite request_flat. step. rewrite decide_False by (by intros []). step. flat.
    rewrite (proj2 (Z.eqb_neq _ _) Hn). step. flat. rewrite request_flat. step.
    exists (<[t := 0%nat]> mail0), (mkEnv cl [] (thread_requests RefusesThread t po (po + 1) ++ lo) (po + 1) ga er ss fr ma tc st ex).
    split; [reflexivity|]. split; [apply lookup_insert_eq|]. by split.
Qed.

(** All requests of [__pthread_thread_alloc] are granted, the next one is refused. *)
Lemma tls_refused t p me v :
  pthreads v !! t = Some p -> have_kernel_resources p = false -> num_threads (glob v) <> 1 ->
  let k := next_port (env v) in let p' := with_have_kernel_resources true (with_kernel_thread k p) in
  exists v1 e, __pthread_thread_alloc t me (granting (thread_answers RefusesTls) v) = Done OK v1 /\
    _dl_allocate_tls me v1 = Done None (set_mail (<[t := 0%nat]> (mail v)) (set_env e (with_thread t p' v))) /\
    answers e = [] /\ klog e = thread_requests RefusesTls t k (k + 1) ++ klog (env v).
Proof.
  intros Hp Hk Hn k p'. unfold k in *. clear k. destruct v as [qh0 sp0 mail0 mu0 co0 rw0 se0 ba0 on0 th0 gl0 [cl an lo po ga er ss fr ma tc st ex] um0 si0].
  cbn in Hp, Hn. unfold __pthread_thread_alloc, create_wakeupmsg. step.
  rewrite (get_thread_at t p) by exact Hp. step. rewrite Hk. step.
  unfold thread_answers. flat. rewrite request_flat. step. flat. rewrite request_flat. step.
  rewrite decide_False by (by intros []). step. flat. rewrite (proj2 (Z.eqb_neq _ _) Hn). step. flat. rewrite request_flat. step.
  rewrite (update_thread_at t _ p) by exact Hp. step. rewrite (update_thread_at t _ (with_kernel_thread po p)) by apply lookup_insert_eq.
  step. rewrite with_thread_twice. eexists. exists (mkEnv cl [] (thread_requests RefusesTls t po (po + 1) ++ lo) (po + 1 + 1) ga er ss fr ma tc st ex).
  split; [reflexivity|]. split; [|by split]. unfold _dl_allocate_tls, with_thread, set_pthreads. step. flat. rewrite request_flat. step. reflexivity.
Qed.

(** ** The whole call *)

Lemma inits_granting l t m w : inits t m (granting l w) -> inits t m w.
Proof.
  intros [H1 H2 H3 H4 H5 H6 H7 H8]. split; try done.
  - by destruct H5.
  - by destruct H6.
Qed.

(** The structure and the ID, when there is memory and room in the table. *)
Lemma alloc_granted l rattr me a Q w :
  can_be_refused rattr me a Q w -> answers (env w) = true :: l ->
  exists m, inits (next_thread (glob w)) m w /\ forall B (f : error_t * option nat -> world -> res B),
    solo (bindr (__pthread_alloc me w) f) =
    solo (f (OK, Some (next_thread (glob w))) (granting l (allocated m (max_threads (glob w)) w))).
Proof.
  intros [Hf Hl Htab Hok Hn Hmax _ _ _ _ _ R _ _ _ _] Ha. set (t := next_thread (glob w)). set (g := garbage (env w)).
  set (w1 := granting l (structured g w)).
  destruct (alloc_up_to_id me w w1 g Hf) as (m & Hm & Hrun).
  { by rewrite (qrep_head _ _ _ R), Hl. }
  { unfold new_structure, malloc_ok, ask. cbn. rewrite Ha. reflexivity. }
  { apply lookup_insert_eq. }
  fold t in Hm, Hrun. set (w2 := with_memory m (with_thread t (initial_pthread g) w1)) in *.
  exists m. split; [by apply inits_granting, inits_structured in Hm|]. intros B f. rewrite Hrun.
  assert (rwlock_idle RThreadsLock rattr w2) as Htab2.
  { apply (rwlock_idle_inits rattr _ m w1 w1); [by destruct Htab|done|done|done]. }
  rewrite (alloc_id_done _ _ _ _ _ f (alloc_try_room rattr t (initial_pthread g) me w2 Htab2 (lookup_insert_eq _ _ _) ltac:(cbn; lia) Hmax)).
  do 2 f_equal. apply world_ext; try reflexivity. cbn. by rewrite !insert_insert_eq.
Qed.

(** The structures on the way. *)
Definition new_pthread (a : pthread_attr) (w : world) : pthread :=
  attr_pthread a (with_p_thread (1 + num_threads (glob w)) (initial_pthread (garbage (env w)))).

Definition stacked_pthread (a : pthread_attr) (w : world) : pthread :=
  with_stack (next_stack_base (glob w)) (stacksize a) (new_pthread a w).

Definition structure_made (a : pthread_attr) (m : init_memory) (w : world) : world :=
  with_thread (next_thread (glob w)) (new_pthread a w) (allocated m (max_threads (glob w)) w).

Definition stack_made (a : pthread_attr) (m : init_memory) (w : world) : world :=
  with_thread (next_thread (glob w)) (stacked_pthread a w)
    (stack_given (next_stack_base (glob w)) (stacksize a) (structure_made a m w)).

Lemma new_pthread_alive a w : p_state (new_pthread a w) <> PTHREAD_TERMINATED.
Proof. unfold new_pthread, attr_pthread. cbn. by destruct (_ =? _). Qed.

Lemma new_pthread_id a w : p_thread (new_pthread a w) = num_threads (glob w) + 1.
Proof. transitivity (1 + num_threads (glob w)); [reflexivity|lia]. Qed.

Lemma new_pthread_kernel a w : have_kernel_resources (new_pthread a w) = have_kernel_resources (garbage (env w)).
Proof. unfold new_pthread. by destruct (garbage (env w)). Qed.

Lemma structure_in_creation a m w l : in_creation w m (new_pthread a w) (granting l (structure_made a m w)).
Proof.
  split; try done.
  - cbn. by rewrite !insert_insert_eq.
  - apply new_pthread_id.
  - apply new_pthread_alive.
Qed.

Lemma with_stack_parts base size p :
  p_thread (with_stack base size p) = p_thread p /\ p_state (with_stack base size p) = p_state p /\
  have_kernel_resources (with_stack base size p) = have_kernel_resources p /\
  p_stackaddr (with_stack base size p) = base /\ p_stacksize (with_stack base size p) = size.
Proof. by destruct p. Qed.

Lemma stack_in_creation a m w : in_creation w m (stacked_pthread a w) (stack_made a m w).
Proof.
  split; try done.
  - cbn. by rewrite !insert_insert_eq.
  - unfold stacked_pthread. destruct (with_stack_parts (next_stack_base (glob w)) (stacksize a) (new_pthread a w)) as [-> _]. apply new_pthread_id.
  - unfold stacked_pthread. destruct (with_stack_parts (next_stack_base (glob w)) (stacksize a) (new_pthread a w)) as (_ & -> & _).
    apply new_pthread_alive.
Qed.

(** The cleanup when the TLS is refused. *)
Lemma failed_tls_created rattr me a Q w m p v :
  can_be_refused rattr me a Q w -> inits (next_thread (glob w)) m w -> in_creation w m p v -> answers (env v) = [] ->
  kernel_thread p <> ktid me -> let t := next_thread (glob w) in
  exists w', taken_back Q w (with_p_stack false p) w' /\ mail w' = delete t (mail v) /\
    klog (env w') = [KVmDeallocate (p_stackaddr p) (p_stacksize p); KThreadTerminate (kernel_thread p); KPortDestroy t] ++ klog (env v) /\
    forall B (f : unit -> world -> res B), solo (bindr (failed_thread_tls_alloc t me v) f) = solo (f tt w').
Proof.
  intros Hb Hm Hi Ha Hk t.
  set (v1 := requested (KThreadTerminate (kernel_thread p)) (set_mail (delete t (mail v)) (requested (KPortDestroy t) v))).
  assert (in_creation w m p v1) as Hi1 by (by destruct Hi).
  destruct (failed_created rattr me a Q w Hb m Hm p v1 Hi1 Ha) as (w' & Hback & Hmail & Hlog & Hrun).
  exists w'. split; [exact Hback|]. split; [by rewrite Hmail|]. split; [by rewrite Hlog|]. intros B f.
  assert (pthreads v !! t = Some p) as Hp by (rewrite (ic_threads _ _ _ _ Hi); apply lookup_insert_eq).
  unfold failed_thread_tls_alloc, __pthread_thread_dealloc, __pthread_thread_halt. step.
  rewrite kernel_request_granted by exact Ha. step. rewrite (get_thread_at t p) by exact Hp. step.
  rewrite kernel_request_granted by exact Ha. step. cbn [c_assert]. unfold mach_thread_self. cbn.
  rewrite (proj2 (Z.eqb_neq _ _) Hk). apply Hrun.
Qed.

(** What is left when [r] makes the call fail. *)
Definition refused_result (r : refusal) (a : pthread_attr) (Q : head_id -> list nat) (w w' : world) : Prop :=
  let t := next_thread (glob w) in
  (exists p, taken_back Q w p w') /\
  mail w' !! t = (if decide (r = RefusesThread) then Some 0%nat else None) /\
  klog (env w') = refused_requests r t (next_port (env w)) (next_stack_base (glob w)) (stacksize a) (next_port (env w) + 1) ++ klog (env w).

(** The code from the kernel thread on. *)
Definition after_stack (t : nat) (start arg entry : Z) : M (error_t * option nat) :=
  err ← __pthread_thread_alloc t;
  if decide (err <> OK) then failed_thread_alloc t;; mret (err, None)
  else
  tcb ← _dl_allocate_tls;
  update_thread t (with_p_tcb tcb);;
  match tcb with
  | None => failed_thread_tls_alloc t;; mret (OK, None)
  | Some x =>
      modify (fun w => set_env (set_tcbs (<[x := mkTcb x 0]> (tcbs (env w))) (env w)) w);;
      err ← __pthread_setup t entry start arg;
      if decide (err <> OK) then failed_setup t;; mret (err, None)
      else
      err ← __pthread_sigstate_init t;
      if decide (err <> OK) then failed_sigstate t;; mret (err, None)
      else launch t
  end.

(** The code from the stack on, with the attributes [a] in force. *)
Definition after_structure (t : nat) (a default : pthread_attr) (start arg entry : Z) : M (error_t * option nat) :=
  err ← find_thread_stack t a default;
  if decide (err <> OK) then failed_stack_alloc t;; mret (err, None) else after_stack t start arg entry.

Lemma create_to_stack l attr rattr me start arg entry Q w :
  let a := in_force attr w in let t := next_thread (glob w) in
  can_be_refused rattr me a Q w -> answers (env w) = true :: l ->
  exists m default, inits t m w /\ forall B (f : error_t * option nat -> world -> res B),
    solo (bindr (__pthread_create_internal attr start arg entry me w) f) =
    solo (bindr (after_structure t a default start arg entry me (granting l (structure_made a m w))) f).
Proof.
  intros a t Hb Ha. destruct (alloc_granted l rattr me a Q w Hb Ha) as (m & Hm & Hrun). fold t in Hrun, Hm.
  set (default := set_stacksize (default_stacksize (glob w)) (__pthread_default_attr pagesize)).
  exists m, default. split; [exact Hm|].
  set (w1 := granting l (allocated m (max_threads (glob w)) w)) in *.
  set (p1 := with_p_thread (1 + num_threads (glob w)) (initial_pthread (garbage (env w)))).
  assert (pthreads w1 !! t = Some p1) as Hp1 by apply lookup_insert_eq.
  intros B f. unfold __pthread_create_internal, default_attr. step. rewrite bindr_assoc, Hrun. step.
  change (default_stacksize (glob w1)) with (default_stacksize (glob w)).
  change (match attr with Some a => a | None => set_stacksize (default_stacksize (glob w)) (__pthread_default_attr pagesize) end) with a.
  rewrite (update_thread_at t _ p1) by exact Hp1. step. unfold after_structure, after_stack. step.
  match goal with |- context [with_thread t ?q w1] => change q with (new_pthread a w) end.
  change (with_thread t (new_pthread a w) w1) with (granting l (structure_made a m w)). reflexivity.
Qed.

Lemma stack_size_refused t a default p me v :
  pthreads v !! t = Some p -> p_stack p = false -> stacksize a <> default_stacksize (glob v) ->
  find_thread_stack t a default me v = Done EINVAL v.
Proof.
  intros Hp Hs Hne. unfold find_thread_stack, __pthread_stack_alloc. step. rewrite (get_thread_at t p) by exact Hp. step.
  rewrite Hs. step. by rewrite (proj2 (Z.eqb_neq _ _) Hne).
Qed.

(** With the stack, which the kernel gives. *)
Lemma stack_granted l t a default m me w :
  t = next_thread (glob w) -> stacksize a = default_stacksize (glob w) -> 0 < stacksize a ->
  0 <= next_stack_base (glob w) < VM_MAX_ADDRESS ->
  find_thread_stack t a default me (granting (true :: l) (structure_made a m w)) = Done OK (granting l (stack_made a m w)).
Proof.
  intros -> Hsz Hpos Hb. set (v := granting (true :: l) (structure_made a m w)).
  rewrite (find_thread_stack_asked _ (new_pthread a w) a default me v (granting l (requested (KVmAllocate (next_stack_base (glob w)) (stacksize a)) v)));
    [reflexivity|apply lookup_insert_eq|reflexivity|exact Hsz|exact Hpos| |reflexivity|exact Hb].
  apply (kernel_request_answer true l). reflexivity.
Qed.

Lemma stacked_parts a w : have_kernel_resources (garbage (env w)) = false ->
  have_kernel_resources (stacked_pthread a w) = false /\ p_stackaddr (stacked_pthread a w) = next_stack_base (glob w) /\
  p_stacksize (stacked_pthread a w) = stacksize a.
Proof.
  intros Hk. unfold stacked_pthread. destruct (with_stack_parts (next_stack_base (glob w)) (stacksize a) (new_pthread a w)) as (_ & _ & -> & -> & ->).
  split; [|done]. by rewrite new_pthread_kernel.
Qed.

Section Kernel.
Context (rattr : option rwlockattr) (me : kctx) (a default : pthread_attr) (start arg entry : Z) (Q : head_id -> list nat) (w : world).
Context (m : init_memory) (Hb : can_be_refused rattr me a Q w) (Hm : inits (next_thread (glob w)) m w).
Let t := next_thread (glob w).

Lemma refused_size :
  stacksize a <> default_stacksize (glob w) ->
  exists w', refused_result RefusesSize a Q w w' /\ forall B (f : error_t * option nat -> world -> res B),
    solo (bindr (after_structure t a default start arg entry me (granting [] (structure_made a m w))) f) = solo (f (EINVAL, None) w').
Proof.
  intros Hne. pose proof (structure_in_creation a m w []) as Hi.
  destruct (dealloc_created rattr me a Q w Hb m Hm _ _ Hi eq_refl) as (w' & Hback & Hmail & Henv & Hd).
  exists w'. split.
  - split; [by eexists|]. split; [rewrite Hmail; apply Hb|by rewrite Henv].
  - intros B f. unfold after_structure. step. rewrite (stack_size_refused t a default (new_pthread a w));
      [|apply lookup_insert_eq|reflexivity|done].
    step. rewrite decide_True by done. unfold failed_stack_alloc. step. rewrite bindr_assoc. apply Hd.
Qed.

Context (Hsz : stacksize a = default_stacksize (glob w)).

Lemma stack_made_threads : pthreads (stack_made a m w) !! t = Some (stacked_pthread a w).
Proof. apply lookup_insert_eq. Qed.

Lemma stack_made_count : num_threads (glob (stack_made a m w)) <> 1.
Proof. change (num_threads (glob w) + 1 <> 1). pose proof (br_room _ _ _ _ _ Hb). lia. Qed.

Lemma stack_made_env :
  next_port (env (stack_made a m w)) = next_port (env w) /\
  klog (env (stack_made a m w)) = KVmAllocate (next_stack_base (glob w)) (stacksize a) :: klog (env w).
Proof. by split. Qed.

(** The world [v] with the stack and the structure [s]. *)
Section Stacked.
Context (v : world) (s : pthread) (Hi : in_creation w m s v) (Hport : next_port (env v) = next_port (env w)).
Context (Hk : have_kernel_resources s = false) (Hmail : mail v !! t = None).

Lemma stacked_thread : pthreads v !! t = Some s.
Proof. rewrite (ic_threads _ _ _ _ Hi). apply lookup_insert_eq. Qed.

Lemma stacked_count : num_threads (glob v) <> 1.
Proof. rewrite (ic_count _ _ _ _ Hi). pose proof (br_room _ _ _ _ _ Hb). lia. Qed.

(** What is left, with the requests before those for the thread. *)
Definition stacked_result (r : refusal) (w' : world) : Prop :=
  let k := next_port (env w) in
  (exists p, taken_back Q w p w') /\
  mail w' !! t = (if decide (r = RefusesThread) then Some 0%nat else None) /\
  klog (env w') = (KVmDeallocate (p_stackaddr s) (p_stacksize s) ::
    (if decide (r = RefusesTls) then [KThreadTerminate k; KPortDestroy t] else [])) ++ thread_requests r t k (k + 1) ++ klog (env v).

Lemma stacked_refused_thread r :
  r = RefusesPort \/ r = RefusesRight \/ r = RefusesThread ->
  exists w', stacked_result r w' /\ forall B (f : error_t * option nat -> world -> res B),
    solo (bindr (after_stack t start arg entry me (granting (thread_answers r) v)) f) = solo (f (EAGAIN, None) w').
Proof.
  intros Hr. destruct (thread_alloc_refused r t s me v Hr stacked_thread Hk stacked_count Hmail) as (b & e & Hal & Hb' & Hans & Hlog).
  destruct (failed_created rattr me a Q w Hb m Hm _ _ (in_creation_env w m _ b e _ Hi) Hans) as (w' & Hback & Hmail' & Hlog' & Hd).
  exists w'. split.
  - split; [by eexists|]. split; [by rewrite Hmail'|]. rewrite Hlog'. cbn [env set_mail set_env]. rewrite Hlog, Hport.
    by destruct Hr as [-> | [-> | ->]].
  - intros B f. unfold after_stack. step. rewrite Hal. step. rewrite decide_True by done. step. rewrite bindr_assoc. apply Hd.
Qed.

Lemma kernel_parts k p :
  let p' := with_have_kernel_resources true (with_kernel_thread k p) in
  p_thread p' = p_thread p /\ p_state p' = p_state p /\ p_stackaddr p' = p_stackaddr p /\ p_stacksize p' = p_stacksize p /\
  kernel_thread p' = k.
Proof. by destruct p. Qed.

Lemma stacked_refused_tls :
  exists w', stacked_result RefusesTls w' /\ forall B (f : error_t * option nat -> world -> res B),
    solo (bindr (after_stack t start arg entry me (granting (thread_answers RefusesTls) v)) f) = solo (f (OK, None) w').
Proof.
  destruct (tls_refused t s me v stacked_thread Hk stacked_count) as (v1 & e & Hal & Htls & Hans & Hlog).
  rewrite Hport in Htls, Hlog. destruct (kernel_parts (next_port (env w)) s) as (Hid & Hst & Haddr & Hsize & Hkt).
  set (p := with_have_kernel_resources true _) in *. clearbody p.
  set (v2 := set_mail _ _) in Htls. set (p' := with_p_tcb None p). set (v3 := with_thread t p' v2).
  assert (in_creation w m p' v3) as Hi3.
  { pose proof (in_creation_changed w m s p (<[t := 0%nat]> (mail v)) e v Hi Hid Hst) as Hi1.
    exact (in_creation_changed w m p p' (mail v2) (env v2) v2 Hi1 eq_refl eq_refl). }
  assert (kernel_thread p' <> ktid me) as Hne by (change (kernel_thread p <> ktid me); rewrite Hkt; apply Hb).
  destruct (failed_tls_created rattr me a Q w m p' v3 Hb Hm Hi3 Hans Hne) as (w' & Hback & Hmail' & Hlog' & Hd).
  exists w'. split.
  - split; [by eexists|]. split; [rewrite Hmail'; apply lookup_delete_eq|].
    rewrite Hlog'. change (klog (env v3)) with (klog e). change (p_stackaddr p') with (p_stackaddr p).
    change (p_stacksize p') with (p_stacksize p). change (kernel_thread p') with (kernel_thread p). by rewrite Hlog, Haddr, Hsize, Hkt.
  - intros B f. unfold after_stack. step. rewrite Hal. step.
    rewrite (decide_False (P := OK <> OK)) by (by intros []). step. rewrite Htls. step.
    rewrite (update_thread_at t _ p) by apply lookup_insert_eq. step. rewrite bindr_assoc. apply Hd.
Qed.
End Stacked.

Lemma refused_kernel r :
  r <> RefusesSize ->
  exists w', refused_result r a Q w w' /\ forall B (f : error_t * option nat -> world -> res B),
    solo (bindr (after_structure t a default start arg entry me (granting (true :: thread_answers r) (structure_made a m w))) f) =
    solo (f (refusal_error r, None) w').
Proof.
  intros Hne. destruct (stacked_parts a w (br_memory _ _ _ _ _ Hb)) as (Hk & Haddr & Hsize).
  assert (exists w', stacked_result (stack_made a m w) (stacked_pthread a w) r w' /\
    forall B (f : error_t * option nat -> world -> res B),
      solo (bindr (after_stack t start arg entry me (granting (thread_answers r) (stack_made a m w))) f) =
      solo (f (refusal_error r, None) w')) as (w' & (Hback & Hmail & Hlog) & Hrun).
  { pose proof (stack_in_creation a m w) as Hi. destruct stack_made_env as [Hport _].
    assert (mail (stack_made a m w) !! t = None) as Hm0 by apply (br_mail _ _ _ _ _ Hb).
    destruct r; [done|apply stacked_refused_thread; tauto..|by apply stacked_refused_tls]. }
  exists w'. split.
  - split; [exact Hback|]. split; [exact Hmail|]. rewrite Hlog, Haddr, Hsize. destruct stack_made_env as [_ ->]. by destruct r.
  - intros B f. unfold after_structure. step. rewrite stack_granted by (done || apply Hb). step.
    rewrite (decide_False (P := OK <> OK)) by (by intros []). apply Hrun.
Qed.
End Kernel.

Lemma refused_at r attr rattr me start arg entry Q w :
  let a := in_force attr w in
  can_be_refused rattr me a Q w -> answers (env w) = answers_until r ->
  (r = RefusesSize <-> stacksize a <> default_stacksize (glob w)) ->
  exists w', refused_result r a Q w w' /\ forall B (f : error_t * option nat -> world -> res B),
    solo (bindr (__pthread_create_internal attr start arg entry me w) f) = solo (f (refusal_error r, None) w').
Proof.
  intros a Hb Ha Hr. set (l := tail (answers_until r)).
  destruct (create_to_stack l attr rattr me start arg entry Q w Hb) as (m & default & Hm & Hrun); [by destruct r|].
  fold a in Hrun. destruct (decide (r = RefusesSize)) as [He | Hne].
  - destruct (refused_size rattr me a default start arg entry Q w m Hb Hm) as (w' & Hres & Hend); [by apply Hr|].
    subst r. exists w'. split; [exact Hres|]. intros B f. rewrite Hrun. apply Hend.
  - destruct (refused_kernel rattr me a default start arg entry Q w m Hb Hm) with (r := r) as (w' & Hres & Hend); [|done|].
    { destruct (Z.eq_dec (stacksize a) (default_stacksize (glob w))) as [|Hs]; [done|]. by apply Hr in Hs. }
    exists w'. split; [exact Hres|]. intros B f. rewrite Hrun. replace l with (true :: thread_answers r) by (by destruct r). apply Hend.
Qed.

(** C20: A creation that fails because the stack size is not the default one (EINVAL) or
    the kernel refuses the port, its right, the kernel thread (EAGAIN) or the
    TLS takes back what it has made: the structure is on the free list, without a stack, and its
    ID is withdrawn; stack and port are given back and the kernel thread is
    terminated, but the port is left when the kernel thread was refused.
    When the TLS is refused the internal call reports success, and
    pthread_create reads an uninitialised pointer. *)
Theorem create_refused r attr rattr me start arg entry Q w :
  let a := in_force attr w in
  can_be_refused rattr me a Q w -> answers (env w) = answers_until r ->
  (r = RefusesSize <-> stacksize a <> default_stacksize (glob w)) ->
  exists w', refused_result r a Q w w' /\
    solo (__pthread_create_internal attr start arg entry me w) = Done (refusal_error r, None) w' /\
    solo (pthread_create attr start arg entry me w) =
      match r with RefusesTls => Fault FSegv | _ => Done (refusal_error r, None) w' end.
Proof.
  intros a Hb Ha Hr. destruct (refused_at r attr rattr me start arg entry Q w Hb Ha Hr) as (w' & Hres & Hrun).
  exists w'. split; [exact Hres|]. split.
  - rewrite <- (bindr_ret (__pthread_create_internal attr start arg entry me w)). by rewrite Hrun.
  - unfold pthread_create. cbn [mbind M_bind]. rewrite Hrun. by destruct r.
Qed.
End Refused.

(** ** A concrete failure *)

(** There is memory for a structure and a stack, but the kernel refuses a thread. *)
Definition demo_refused : world :=
  set_env (set_answers (answers_until RefusesThread) (env demo_create))
    (set_glob (set_max_threads 64 (glob demo_create)) demo_create).

Lemma create_refused_witness :
  exists w', solo (@pthread_create create_platform None 0x8048000 42 0x8040000 (demo_ctx 0) demo_refused) = Done (EAGAIN, None) w' /\
    mail w' !! 1%nat = Some 0%nat /\ table_get (threads_tab (glob w')) 1 = Some None.
Proof.
  destruct (@create_refused create_platform RefusesThread None None (demo_ctx 0) 0x8048000 42 0x8040000 (fun _ => []) demo_refused)
    as (w' & ((p & Hback) & Hmail & _) & _ & Hrun).
  - split; try done; [split; [by do 2 eexists|by vm_compute..]|apply qrep_empty|].
    by intros [h Hh%elem_of_nil].
  - done.
  - by split.
  - exists w'. split; [exact Hrun|]. split; [exact Hmail|]. rewrite (tb_table _ _ _ _ Hback) by (cbn; lia). done.
Defined.
