(* ===== verification/RecycleSpec.v ===== *)
(** * A structure that is used again

    pthread_create when the free list is not empty. *)
From Stdlib Require Import ZArith Lia.
From S2P Require Import Prelude Queue World Machine Platform Sched Mach Demo Attr Mutex Rwlock Barrier Cond Kernel KernelFacts Keys Threads ThreadOps ThreadFacts ExitSpec CreateSpec.
Local Open Scope Z_scope.

#[local] Arguments update_thread : simpl never.
#[local] Arguments get_thread : simpl never.
#[local] Arguments find_thread_stack : simpl never.
#[local] Arguments __pthread_setup : simpl never.
#[local] Arguments __pthread_sigstate_init : simpl never.
#[local] Arguments __pthread_alloc : simpl never.
#[local] Arguments launch : simpl never.
#[local] Arguments _dl_allocate_tls : simpl never.
#[local] Arguments initialize_pthread : simpl never.

Section Recycle.
Context `{P : Platform} `{IH : IHash}.

(** ** The structure *)

Definition recycled_pthread (p : pthread) : pthread :=
  with_cancel_hook None (with_cancel_state PTHREAD_CANCEL_ENABLE (with_cancel_type PTHREAD_CANCEL_DEFERRED
    (with_cancel_pending 0 (with_thread_specifics None (with_p_tcb None p))))).

(** What is asked for before the structure is used again, the last request first. *)
Definition recycle_requests (p : pthread) : list kcall :=
  match p_tcb p with Some tcb => [KTlsDeallocate tcb] | None => [] end ++ [KThreadTerminate (kernel_thread p)].

Definition recycled (t : nat) (p : pthread) (q : qheap_w) (w : world) : world :=
  set_qh (clear_head (HMutex (MCancelLock t)) q)
    (set_mutexes (<[MCancelLock t := mkMutex ANull None 0]> (mutexes w))
      (set_spins (spins w ∖ {[SMutexHeld (MCancelLock t); SMutexLock (MCancelLock t)]})
        (with_thread t (recycled_pthread p)
          (set_env (set_tcbs (match p_tcb p with Some tcb => delete tcb (tcbs (env w)) | None => tcbs (env w) end)
            (set_klog (recycle_requests p ++ klog (env w)) (env w))) w)))).

(** The structure [p] of [t] is the first one of the free list. *)
Record can_recycle (t : nat) (p : pthread) (l : list nat) (Q : head_id -> list nat) (w : world) : Prop := {
  rc_free : mutex_idle MFreeThreadsLock w;
  rc_queues : qrep (qh w) Q;
  rc_list : Q HFreeThreads = t :: l;
  rc_thread : pthreads w !! t = Some p;
  rc_terminated : p_state p = PTHREAD_TERMINATED;
}.

Lemma find_terminated_at n t p me w q :
  pthreads w !! t = Some p -> p_state p = PTHREAD_TERMINATED -> __pthread_dequeue t (qh w) = Some q ->
  find_terminated n (Some t) me w = Done (Some t) (set_qh q w).
Proof.
  intros Hp Hs Hq. destruct n; cbn; rewrite (get_thread_at t p) by done; cbn; rewrite decide_True by done; cbn;
    by rewrite (dequeue_some t me _ q).
Qed.

Lemma initialize_recycled t p me w :
  pthreads w !! t = Some p ->
  initialize_pthread t true me w = Done OK (set_qh (clear_head (HMutex (MCancelLock t)) (qh w))
    (set_mutexes (<[MCancelLock t := mkMutex ANull None 0]> (mutexes w))
      (set_spins (spins w ∖ {[SMutexHeld (MCancelLock t); SMutexLock (MCancelLock t)]})
        (with_thread t (with_cancel_hook None (with_cancel_state PTHREAD_CANCEL_ENABLE (with_cancel_type PTHREAD_CANCEL_DEFERRED
          (with_cancel_pending 0 (with_thread_specifics None p))))) w)))).
Proof.
  intros Hp. unfold initialize_pthread, __pthread_init_specific, clear_mutex. cbn.
  rewrite (update_thread_at t _ p) by done. cbn. rewrite decide_False by (by intros []). cbn.
  erewrite (update_thread_at t) by apply lookup_insert_eq. cbn. f_equal. apply world_ext; try reflexivity.
  cbn. by rewrite insert_insert_eq.
Qed.

(** The structure is taken off the list up to the termination of its kernel thread. *)
Lemma alloc_takes t p l Q me w :
  can_recycle t p l Q w ->
  exists q, qrep q (qremove t Q) /\ forall B (f : error_t * option nat -> world -> res B),
    solo (bindr (__pthread_alloc me w) f) =
    solo (bindr ((__pthread_thread_halt t;;
      p ← get_thread t;
      match p_tcb p with
      | Some tcb => _dl_deallocate_tls tcb;; update_thread t (with_p_tcb None)
      | None => mret tt
      end;;
      err ← initialize_pthread t true;
      mret (err, if decide (err = OK) then Some t else None)) me (set_qh q w)) f).
Proof.
  intros [Hf R Hl Hp Hs].
  destruct (dequeue_refines (qh w) Q t R) as (q & Hq & Rq); [exists HFreeThreads; rewrite Hl; by left|].
  exists q. split; [done|]. intros B f. unfold __pthread_alloc. cbn [mbind M_bind].
  rewrite bindr_assoc, solo_mutex_lock by done. cbn. rewrite (qrep_head _ _ _ R), Hl. cbn.
  rewrite (find_terminated_at _ t p me _ q) by done. cbn.
  change (set_qh q (hold_mutex MFreeThreadsLock w)) with (hold_mutex MFreeThreadsLock (set_qh q w)).
  rewrite bindr_assoc, solo_release; [done|].
  destruct Hf as [H1 H2 H3 H4]. split; try done. cbn. rewrite (qrep_head _ _ _ Rq). rewrite (qrep_head _ _ _ R) in H4.
  destruct (Q (HMutex MFreeThreadsLock)) eqn:HQ; [|done]. unfold qremove. by rewrite HQ.
Qed.

Lemma drop_tcb_at t p me w :
  pthreads w !! t = Some p -> answers (env w) = [] ->
  match p_tcb p with
  | Some tcb => _dl_deallocate_tls tcb;; update_thread t (with_p_tcb None)
  | None => mret tt
  end me w =
  Done tt (with_thread t (with_p_tcb None p)
    (set_env (set_tcbs (match p_tcb p with Some tcb => delete tcb (tcbs (env w)) | None => tcbs (env w) end)
      (set_klog (match p_tcb p with Some tcb => [KTlsDeallocate tcb] | None => [] end ++ klog (env w)) (env w))) w)).
Proof.
  intros Hp Ha. destruct (p_tcb p) as [tcb|] eqn:Ht.
  - unfold _dl_deallocate_tls. cbn. rewrite kernel_request_granted by done. cbn.
    by rewrite (update_thread_at t _ p) by done.
  - cbn. f_equal. assert (with_p_tcb None p = p) as -> by (destruct p; cbn in *; by subst).
    unfold with_thread. cbn. rewrite insert_id by done. by destruct w as [? ? ? ? ? ? ? ? ? ? ? []].
Qed.

Lemma alloc_recycled t p l Q me w :
  can_recycle t p l Q w -> kernel_thread p <> ktid me -> answers (env w) = [] ->
  exists q, qrep q (qremove t Q) /\ forall B (f : error_t * option nat -> world -> res B),
    solo (bindr (__pthread_alloc me w) f) = solo (f (OK, Some t) (recycled t p q w)).
Proof.
  intros Hc Hne Ha. destruct (alloc_takes t p l Q me w Hc) as (q & Rq & Hrun). exists q. split; [done|]. intros B f. rewrite Hrun.
  pose proof (rc_thread _ _ _ _ _ Hc) as Hp. unfold __pthread_thread_halt. cbn [mbind M_bind].
  rewrite (get_thread_at t p) by exact Hp. cbn [bindr]. rewrite kernel_request_granted by exact Ha. cbn [bindr c_assert mret M_ret].
  cbn [mach_thread_self bindr]. rewrite (proj2 (Z.eqb_neq _ _) Hne). cbn [mret M_ret bindr].
  rewrite (get_thread_at t p) by exact Hp. cbn [bindr]. set (w1 := requested _ _).
  pose proof (drop_tcb_at t p me w1 Hp Ha) as Hdrop. cbn [mbind M_bind mret M_ret] in Hdrop. rewrite Hdrop. cbn [bindr]. erewrite initialize_recycled by apply lookup_insert_eq. cbn [bindr].
  rewrite decide_True by done. f_equal. f_equal. apply world_ext; try reflexivity.
  - cbn. by rewrite !insert_insert_eq.
  - unfold recycled, recycle_requests, w1. cbn. by destruct (p_tcb p).
Qed.

(** The kernel refuses to terminate the thread a second time. *)
Lemma alloc_refused t p l Q me w ans {B} (f : error_t * option nat -> world -> res B) :
  can_recycle t p l Q w -> answers (env w) = false :: ans -> solo (bindr (__pthread_alloc me w) f) = Fault FAssert.
Proof.
  intros Hc Ha. destruct (alloc_takes t p l Q me w Hc) as (q & _ & Hrun). rewrite Hrun.
  unfold __pthread_thread_halt. cbn [mbind M_bind]. rewrite (get_thread_at t p) by apply Hc. cbn [bindr].
  unfold kernel_request, ask. cbn. by rewrite Ha.
Qed.

(** ** The creation *)

(** The structure [p] of the thread [t] was left by a join, and [c] makes a thread. *)
Record can_reuse (rattr : option rwlockattr) (me : kctx) (c : nat) (a : pthread_attr) (t : nat) (p : pthread) (l : list nat)
    (Q : head_id -> list nat) (w : world) : Prop := {
  ru_recycle : can_recycle t p l Q w;
  ru_runs : runs me c w;
  ru_other : c <> t;
  ru_kernel : kernel_thread p <> ktid me;
  ru_stack : p_stack p = false;
  ru_resources : have_kernel_resources p = true;
  ru_port : mail w !! t = None;
  ru_count : num_threads (glob w) <> 1;
  ru_table : rwlock_idle RThreadsLock rattr w;
  ru_id : known_id (p_thread p) w;
  ru_size : stacksize a = default_stacksize (glob w);
  ru_base : 0 <= next_stack_base (glob w) < VM_MAX_ADDRESS;
  ru_end : next_stack_base (glob w) + stacksize a < 2 ^ 32;
  ru_vars : 0 <= hurd_threadvar_max;
  ru_room : 32 + 4 * hurd_threadvar_max <= stacksize a;
  ru_mask : SSigstate (Z.to_nat (ktid me)) ∉ spins w;
  ru_new_mask : SSigstate (Z.to_nat (kernel_thread p)) ∉ spins w;
}.

(** The structure on the way, and the world before its context is set up. *)
Definition reused_pthread (a : pthread_attr) (tcb base : Z) (p : pthread) : pthread :=
  with_p_tcb (Some tcb) (with_stack base (stacksize a) (attr_pthread a (recycled_pthread p))).

Definition reused (a : pthread_attr) (t : nat) (p : pthread) (q : qheap_w) (w : world) : world :=
  let base := next_stack_base (glob w) in
  let p1 := attr_pthread a (recycled_pthread p) in
  with_thread t (reused_pthread a (next_port (env w)) base p)
    (tcb_given (with_thread t (with_stack base (stacksize a) p1)
      (stack_given base (stacksize a) (with_thread t p1 (recycled t p q w))))).

Lemma reuse_at attr rattr me c start arg entry t p l Q w :
  let a := in_force attr w in
  can_reuse rattr me c a t p l Q w -> answers (env w) = [] ->
  exists q, qrep q (qremove t Q) /\ forall B (f : error_t * option nat -> world -> res B),
    solo (bindr (__pthread_create_internal attr start arg entry me w) f) =
    solo (bindr ((err ← __pthread_setup t entry start arg;
                  if decide (err <> OK) then failed_setup t;; mret (err, None)
                  else
                  err ← __pthread_sigstate_init t;
                  if decide (err <> OK) then failed_sigstate t;; mret (err, None)
                  else launch t) me (reused a t p q w)) f).
Proof.
  intros a [Hc _ _ Hne Hs Hk _ _ _ _ Hsz Hb He Hv Hroom _ _] Ha.
  destruct (alloc_recycled t p l Q me w Hc Hne Ha) as (q & Rq & Hrun). exists q. split; [done|]. intros B f.
  unfold __pthread_create_internal. cbn [mbind M_bind]. rewrite bindr_assoc, Hrun.
  set (w1 := recycled t p q w). set (p1 := recycled_pthread p).
  assert (pthreads w1 !! t = Some p1) as Hp1 by apply lookup_insert_eq.
  cbn. change (match attr with Some a => a | None => set_stacksize (default_stacksize (glob w)) (__pthread_default_attr pagesize) end) with a.
  rewrite (update_thread_at t _ p1) by done. cbn. set (p2 := attr_pthread a p1).
  change (with_thread t _ w1) with (with_thread t p2 w1). set (w2 := with_thread t p2 w1).
  change (match attr with Some a => a | None => set_stacksize (default_stacksize (glob w1)) (__pthread_default_attr pagesize) end) with a.
  rewrite (find_thread_stack_at t p2); [|apply lookup_insert_eq|exact Hs|exact Hsz|lia|exact Ha|exact Hb].
  set (p3 := with_stack _ _ p2). set (w3 := with_thread t p3 (stack_given _ _ w2)). cbn.
  rewrite (decide_False (P := OK <> OK)) by (by intros []). cbn.
  assert (__pthread_thread_alloc t me w3 = Done OK w3) as ->.
  { unfold __pthread_thread_alloc. cbn [mbind M_bind]. rewrite (get_thread_at t p3) by apply lookup_insert_eq. cbn [bindr].
    assert (have_kernel_resources p3 = true) as -> by exact Hk. done. }
  cbn. rewrite (decide_False (P := OK <> OK)) by (by intros []). cbn.
  destruct (allocate_tls_at me w3 Ha) as (w5 & Htls & Hp5 & Hw5). rewrite Htls. cbn.
  rewrite (update_thread_at t _ p3) by (rewrite Hp5; apply lookup_insert_eq). cbn.
  match goal with |- context [__pthread_setup _ _ _ _ _ ?v] => assert (v = reused a t p q w) as -> by exact (Hw5 t _) end.
  done.
Qed.

Lemma reused_parts a tcb base p :
  kernel_thread (reused_pthread a tcb base p) = kernel_thread p /\ p_thread (reused_pthread a tcb base p) = p_thread p /\
  p_stackaddr (reused_pthread a tcb base p) = base /\ p_stacksize (reused_pthread a tcb base p) = stacksize a /\
  p_tcb (reused_pthread a tcb base p) = Some tcb.
Proof. by destruct p. Qed.

Lemma reused_threads a t p q w : pthreads (reused a t p q w) =
  <[t := reused_pthread a (next_port (env w)) (next_stack_base (glob w)) p]> (pthreads w).
Proof. unfold reused, with_thread. cbn. by rewrite !insert_insert_eq. Qed.

Lemma reused_log a t p q w : klog (env (reused a t p q w)) =
  [KTlsAllocate (next_port (env w)); KVmAllocate (next_stack_base (glob w)) (stacksize a)] ++ recycle_requests p ++ klog (env w).
Proof. done. Qed.

Lemma reused_start rattr me c a t p l Q q w :
  can_reuse rattr me c a t p l Q w -> answers (env w) = [] -> qrep q (qremove t Q) ->
  can_start rattr me c t (reused_pthread a (next_port (env w)) (next_stack_base (glob w)) p) (next_port (env w))
    (mkTcb (next_port (env w)) 0) (reused a t p q w).
Proof.
  intros [Hc (Htt & Htls & pc & Hpc & Hkc) Hct Hne Hs Hk Hport Hn Htab Hid Hsz Hb He Hv Hroom Hm1 Hm2] Ha Rq.
  destruct (reused_parts a (next_port (env w)) (next_stack_base (glob w)) p) as (E1 & E2 & E3 & E4 & E5).
  pose proof (reused_threads a t p q w) as Hth. set (p' := reused_pthread _ _ _ p) in *. clearbody p'.
  assert (spins (reused a t p q w) ⊆ spins w) as Hsp by (cbn; set_solver).
  assert (forall h, cells (qh w) !! Head h = None -> cells (qh (reused a t p q w)) !! Head h = None) as Hheads.
  { intros h Hh. cbn. unfold clear_head. cbn. rewrite lookup_delete_None. right. rewrite (qrep_head _ _ _ Rq).
    rewrite (qrep_head _ _ _ (rc_queues _ _ _ _ _ Hc)) in Hh. unfold qremove. by destruct (Q h). }
  split.
  - split; rewrite ?E1, ?E3, ?E4; try done; [apply lookup_insert_eq|lia].
  - split; [exact Htt|]. split; [exact Htls|]. exists pc. split; [|exact Hkc]. rewrite Hth. by rewrite lookup_insert_ne.
  - exact Hct.
  - rewrite Hth. apply lookup_insert_eq.
  - exact Hn.
  - intros Hin%Hsp. exact (Hm1 Hin).
  - rewrite E1. intros Hin%Hsp. exact (Hm2 Hin).
  - destruct Htab as [H1 H2 H3 H4 H5].
    split; [exact H1|intros Hin%Hsp; exact (H2 Hin)|intros Hin%Hsp; exact (H3 Hin)|exact (Hheads _ H4)|exact (Hheads _ H5)].
  - rewrite E2. exact Hid.
Qed.

Lemma requests_make_nothing p : forallb makes_nothing (recycle_requests p) = true.
Proof. unfold recycle_requests. by destruct (p_tcb p). Qed.

Section Started.
Context (me : kctx) (t : nat) (entry start arg sp tcb : Z) (x : tcbhead) (l : list kcall) (p : pthread) (v : world).
Let w' := started me t entry start arg sp tcb x l p v.

Lemma started_thread : pthreads w' !! t = Some (with_mc_sp sp (with_mc_pc entry p)).
Proof. unfold w', started. rewrite launched_threads, word_cleared_threads, set_up_threads. apply lookup_insert_eq. Qed.

Lemma started_id o : table_get (threads_tab (glob v)) (p_thread p - 1) = Some o ->
  table_get (threads_tab (glob w')) (p_thread p - 1) = Some (Some t).
Proof.
  intros Hid. unfold w', started. rewrite launched_glob, word_cleared_glob, set_up_glob. cbn [threads_tab set_threads_tab].
  change (p_thread (with_mc_sp sp (with_mc_pc entry p))) with (p_thread p).
  destruct (table_set_known _ _ (Some t) o Hid) as (tab & -> & ->). by rewrite decide_True.
Qed.

Lemma started_log : exists g, klog (env w') = KThreadResume (kernel_thread p) :: l ++ g ++ klog (env v) /\ forallb makes_nothing g = true.
Proof.
  exists (if p_guardsize p =? 0 then [] else [KVmProtect (p_stackaddr p) (p_guardsize p)]). split; [reflexivity|]. by case_match.
Qed.

Lemma started_mail : mail w' = mail v.
Proof. reflexivity. Qed.
End Started.

(** C21: A creation that uses the structure of a joined thread again asks the kernel once more to
    terminate the thread that is dead, and the process aborts if the kernel
    refuses.  If not, the call succeeds with the ID of the dead thread, but makes neither a
    kernel thread nor a port: it sets the context of the dead kernel thread and
    resumes it, and the first attempt to wake the new thread up fails its assertion. *)
Theorem reused_thread_is_dead attr rattr me c start arg entry t p l Q w :
  let a := in_force attr w in
  can_reuse rattr me c a t p l Q w -> start <> 0 ->
  (answers (env w) = [] -> exists w' r,
    solo (pthread_create attr start arg entry me w) = Done (OK, Some (p_thread p)) w' /\
    table_get (threads_tab (glob w')) (p_thread p - 1) = Some (Some t) /\
    klog (env w') = KThreadResume (kernel_thread p) :: r ++ klog (env w) /\
    KThreadTerminate (kernel_thread p) ∈ r /\ forallb makes_nothing r = true /\
    forall me', __pthread_wakeup t me' w' = Fault FAssert) /\
  (forall ans, answers (env w) = false :: ans -> solo (pthread_create attr start arg entry me w) = Fault FAssert).
Proof.
  intros a Hu Hstart. split.
  - intros Ha. destruct (reuse_at attr rattr me c start arg entry t p l Q w Hu Ha) as (q & Rq & Hrun). fold a in Hrun.
    pose proof (reused_start rattr me c a t p l Q q w Hu Ha Rq) as Hst.
    destruct (start_at rattr me c t _ _ _ start arg entry _ Hst Hstart) as (sp & gs & ll & Hll & _ & _ & _ & Hstarted).
    pose proof (reused_threads a t p q w) as Hth. pose proof (reused_log a t p q w) as Hlog.
    destruct (reused_parts a (next_port (env w)) (next_stack_base (glob w)) p) as (E1 & E2 & _).
    set (p' := reused_pthread _ _ _ p) in *.
    assert (mail (reused a t p q w) !! t = None) as Hmail by apply (ru_port _ _ _ _ _ _ _ _ _ Hu).
    assert (known_id (p_thread p') (reused a t p q w)) as [o Hid] by (rewrite E2; apply (ru_id _ _ _ _ _ _ _ _ _ Hu)).
    set (v := reused a t p q w) in *. clearbody v p'. set (L := KThreadSetState _ _ _ _ :: ll) in *.
    set (w' := started me t entry start arg sp (next_port (env w)) (mkTcb (next_port (env w)) 0) L p' v) in *.
    pose proof (started_mail me t entry start arg sp (next_port (env w)) (mkTcb (next_port (env w)) 0) L p' v) as Hm'.
    destruct (started_log me t entry start arg sp (next_port (env w)) (mkTcb (next_port (env w)) 0) L p' v) as (g & Hl' & Hg).
    pose proof (started_id me t entry start arg sp (next_port (env w)) (mkTcb (next_port (env w)) 0) L p' v o Hid) as Hid'.
    pose proof (started_thread me t entry start arg sp (next_port (env w)) (mkTcb (next_port (env w)) 0) L p' v) as Hp'.
    fold w' in Hm', Hl', Hid', Hp'. rewrite E1, Hlog in Hl'. rewrite E2 in Hid'. clearbody w'.
    exists w', (L ++ g ++ [KTlsAllocate (next_port (env w)); KVmAllocate (next_stack_base (glob w)) (stacksize a)] ++ recycle_requests p).
    split_and!; [|exact Hid'|by rewrite Hl', <- !app_assoc| | |].
    + unfold pthread_create. cbn [mbind M_bind]. rewrite Hrun, Hstarted. cbn [mbind M_bind deref bindr mret M_ret].
      rewrite (get_thread_at t _ _ _ Hp'). cbn [bindr]. by rewrite <- E2.
    + do 3 (apply elem_of_app; right). unfold recycle_requests. apply elem_of_app. right. by left.
    + unfold L. rewrite !forallb_app. cbn. by rewrite Hll, Hg, requests_make_nothing.
    + intros me'. unfold __pthread_wakeup, mach_msg_send. cbn. by rewrite Hm', Hmail.
  - intros ans Ha. unfold pthread_create, __pthread_create_internal. cbn [mbind M_bind]. rewrite bindr_assoc.
    apply (alloc_refused t p l Q me w ans); [apply Hu|exact Ha].
Qed.
End Recycle.

(** ** A concrete second use *)

(** Thread 1 was joined. *)
Definition joined_structure : pthread :=
  with_p_state PTHREAD_TERMINATED (with_p_stack false (with_have_kernel_resources true (demo_pthread 1))).

Definition demo_recycle : world :=
  set_mail (delete 1%nat (mail (demo_threads 2)))
    (with_thread 1 joined_structure (set_qh (queue_of HFreeThreads [1%nat])
      (set_mutexes {[MFreeThreadsLock := mkMutex ANull None 0]} (demo_threads 2)))).

Lemma reused_thread_is_dead_witness :
  exists w' r, solo (@pthread_create create_platform None 0x8048000 42 0x8040000 (demo_ctx 0) demo_recycle) = Done (OK, Some 2) w' /\
    klog (env w') = KThreadResume 1 :: r ++ [] /\ KThreadTerminate 1 ∈ r.
Proof.
  destruct (@reused_thread_is_dead create_platform None None (demo_ctx 0) 0 0x8048000 42 0x8040000 1 joined_structure []
    (<[HFreeThreads := [1%nat]]> (fun _ => [])) demo_recycle) as [Hok _].
  - split; try done; [|split; [by eexists|]; split; [done|]; by eexists|by eexists].
    split; try done; [split; [by do 2 eexists|by vm_compute..]|]. apply queue_of_rep. by apply (bool_decide_unpack _).
  - done.
  - destruct (Hok eq_refl) as (w' & r & Hrun & _ & Hlog & Hin & _). exists w', r. split_and!; [exact Hrun|exact Hlog|exact Hin].
Defined.
