(* ===== verification/LifeSpec.v ===== *)
(** * The life of a thread

    What pthread_create promises is what __pthread_exit and pthread_join need. *)
From Stdlib Require Import ZArith Lia.
From S2P Require Import Prelude Queue World Machine Platform Sched Mach Demo Attr Mutex Rwlock Barrier Cond Kernel KernelFacts Keys Threads ThreadOps ThreadFacts KeyFacts KeySpec ExitSpec JoinSpec CreateSpec.
Local Open Scope Z_scope.

Section Life.
Context `{P : Platform} `{IH : IHash} `{!IHashLaws IH} `{!AppCalls}.

(** Thread [c], which is [pc], can create a thread that can be joined; [Q] are the queues. *)
Record can_live (rattr : option rwlockattr) (me : kctx) (c : nat) (pc : pthread) (a : pthread_attr)
    (Q : head_id -> list nat) (w : world) : Prop := {
  li_create : can_create rattr me c a w;
  li_vars : threadvars_above a w;
  li_joinable : detachstate a <> PTHREAD_CREATE_DETACHED;
  li_caller : pthreads w !! c = Some pc;
  li_queues : qrep (qh w) Q;
  li_unqueued : ~ queued Q (next_thread (glob w));
  li_cancel : Q (HMutex (MCancelLock (next_thread (glob w)))) = [];
  li_state : Q (HMutex (MStateLock (next_thread (glob w)))) = [];
  li_cond : Q (HCond (CStateCond (next_thread (glob w)))) = [];
  li_fuel : (2 <= loop_fuel)%nat;
  li_total : 0 < pthread_total (glob w) < 2 ^ 31 - 1;
}.

Section Created.
Context (rattr : option rwlockattr) (me : kctx) (c : nat) (pc : pthread) (a : pthread_attr) (Q : head_id -> list nat) (w : world).
Context (Hl : can_live rattr me c pc a Q w).
Context (m : init_memory) (mx start arg entry sp : Z) (l : list kcall) (p : pthread).
Let t := next_thread (glob w).
Let w1 := create_world me a m mx start arg entry sp l w.
Context (Hm : inits t m w) (Hc : created me a start arg entry w w1 p).

Lemma life_rwlock r : rwlock_idle r rattr w -> rwlock_idle r rattr w1.
Proof.
  destruct Hm as [Hs Hh _ _ _ _ _ _]. intros [H1 H2 H3 H4 H5].
  split; [exact H1|intros H'%Hs; exact (H2 H')|intros H'%Hs; exact (H3 H')|exact (Hh _ H4)|exact (Hh _ H5)].
Qed.

Lemma life_mutex x : x <> MCancelLock t -> x <> MStateLock t -> mutex_idle x w -> mutex_idle x w1.
Proof.
  destruct Hm as [Hs Hh Hmu _ _ _ _ _]. intros Hx1 Hx2 [H1 H2 H3 H4].
  split; [|intros H'%Hs; exact (H2 H')|intros H'%Hs; exact (H3 H')|exact (Hh _ H4)].
  change (mutexes w1) with (im_mutexes m). by rewrite Hmu.
Qed.

Lemma life_cond : cond_ready (CStateCond t) Q w1.
Proof.
  destruct Hm as [_ _ _ _ _ _ Hlock Hq]. destruct Hl as [_ _ _ _ HQ Hun H1 H2 H3 _ _].
  split; [exact Hlock|exact (Hq Q HQ Hun H1 H2 H3)|]. fold t in H3. rewrite H3. by intros u ?%elem_of_nil.
Qed.

Lemma life_thread : pthreads w1 !! t = Some p.
Proof. rewrite (cr_threads _ _ _ _ _ _ _ _ Hc). apply lookup_insert_eq. Qed.

Lemma life_joinable : p_state p = PTHREAD_JOINABLE.
Proof. rewrite (cr_state _ _ _ _ _ _ _ _ Hc). by rewrite (proj2 (Z.eqb_neq _ _)) by apply Hl. Qed.

Lemma life_answers : answers (env w1) = [].
Proof. exact (ca_answers _ _ (cc_alloc _ _ _ _ _ (li_create _ _ _ _ _ _ _ Hl))). Qed.

Lemma life_table : rwlock_idle RThreadsLock rattr w1.
Proof. apply life_rwlock, (ca_table _ _ (cc_alloc _ _ _ _ _ (li_create _ _ _ _ _ _ _ Hl))). Qed.

Lemma life_id : table_get (threads_tab (glob w1)) (p_thread p - 1) = Some (Some t).
Proof.
  destruct (cr_count _ _ _ _ _ _ _ _ Hc) as (_ & -> & _).
  replace (num_threads (glob w) + 1 - 1) with (num_threads (glob w)) by lia.
  rewrite (cr_table _ _ _ _ _ _ _ _ Hc) by lia. by rewrite decide_True.
Qed.

Lemma life_exit a' me1 :
  ktid me1 = next_port (env w) -> tls_self me1 = Some t -> can_exit a' rattr me1 t p [] Q w1.
Proof.
  intros Hk Ht. destruct (cr_clean _ _ _ _ _ _ _ _ Hc) as (Hh & Hs & Hp & Hst & _).
  destruct (cr_locks _ _ _ _ _ _ _ _ Hc) as [Hc1 Hc2]. destruct (cr_kernel _ _ _ _ _ _ _ _ Hc) as [Hkt _].
  split.
  - split; [|split; [exact Ht|]].
    + pose proof life_id as Hid. unfold table_get in Hid. destruct (threads_tab (glob w1)); [by eexists|].
      by destruct (_ <? _) in Hid.
    + exists p. split; [apply life_thread|]. congruence.
  - apply life_thread.
  - exact Hh.
  - exact Hc1.
  - left. exact Hst.
  - intros h. by rewrite Hs.
  - apply Hl.
  - destruct (cr_count _ _ _ _ _ _ _ _ Hc) as (_ & _ & ->). pose proof (li_total _ _ _ _ _ _ _ Hl) as Htot.
    rewrite (wraps_small 32 (_ + 1)) by (cbn; lia). rewrite wraps_small by (cbn; lia). lia.
  - exact Hc2.
  - left. apply life_joinable.
  - apply life_cond.
  - apply life_answers.
Qed.

Lemma life_join : p_stack p = true -> can_join rattr me c pc t p Q w1.
Proof.
  intros Hst. pose proof (li_create _ _ _ _ _ _ _ Hl) as Hcr.
  assert (pthreads w1 !! c = Some pc) as Hpc.
  { rewrite (cr_threads _ _ _ _ _ _ _ _ Hc). rewrite lookup_insert_ne; [apply Hl|].
    intros He. by apply (cc_other _ _ _ _ _ Hcr). }
  destruct (cr_kernel _ _ _ _ _ _ _ _ Hc) as [Hkt _]. destruct (cr_locks _ _ _ _ _ _ _ _ Hc) as [_ Hc2].
  split.
  - destruct (cc_runs _ _ _ _ _ Hcr) as (_ & Htls & pc' & Hpc' & Hk). split; [|split; [exact Htls|]].
    + pose proof life_id as Hid. unfold table_get in Hid. destruct (threads_tab (glob w1)); [by eexists|].
      by destruct (_ <? _) in Hid.
    + exists pc. split; [exact Hpc|]. pose proof (li_caller _ _ _ _ _ _ _ Hl). congruence.
  - exact Hpc.
  - apply (cc_other _ _ _ _ _ Hcr).
  - apply life_thread.
  - apply life_id.
  - exact Hst.
  - rewrite Hkt. apply (cc_port _ _ _ _ _ Hcr).
  - apply life_table.
  - exact Hc2.
  - apply life_mutex; [done|done|]. apply (ca_free _ _ (cc_alloc _ _ _ _ _ Hcr)).
  - apply life_cond.
  - apply Hl.
  - apply life_answers.
Qed.
End Created.

Lemma can_exit_called a rattr me t p hs Q l w :
  can_exit a rattr me t p hs Q w -> p_state p = PTHREAD_JOINABLE -> can_exit a rattr me t p hs Q (after_calls l w).
Proof.
  intros [Hr Hp Hh [] Hcs Hd Hf Htot [] _ [] Ha] Hj. split; try done; [|by left].
  intros h Hh'. destruct (Hd h Hh') as [_ [] Hk Hf' Ht]. by split.
Qed.

Lemma can_join_called rattr me u pu t p Q l w :
  can_join rattr me u pu t p Q w -> can_join rattr me u pu t p Q (after_calls l w).
Proof. intros [Hr Hpu Hu Hp Hid Hs Hk [] [] [] [] Hq Ha]. by split. Qed.

(** The thread runs to its end and is joined; the world [w] is any. *)
Lemma life_ends rattr me me1 c pc t p start arg Q w :
  can_exit key_attr rattr me1 t p [] Q w -> can_join rattr me c pc t p Q w -> p_state p = PTHREAD_JOINABLE ->
  cancelled p = false ->
  exists p' w2 w3,
    solo (entry_point start arg me1 w) = Halted w2 /\
    solo (pthread_join (p_thread p) me w2) = Done (OK, Some (app_answer start arg (umem w))) w3 /\
    solo (pthread_join (p_thread p) me w3) = Done (ESRCH, None) w3 /\
    p_thread p' = p_thread p /\ pthreads w2 = <[t := p']> (pthreads w) /\
    after_join t p' (<[HCond (CStateCond t) := []]> Q) w2 w3 /\
    pthread_total (glob w3) = i32 (pthread_total (glob w) - 1).
Proof.
  intros Hexit Hjoin Hj Hn. set (status := app_answer start arg (umem w)). set (calls := [(start, arg)]).
  apply (can_exit_called _ _ _ _ _ _ _ calls) in Hexit; [|exact Hj]. apply (can_join_called _ _ _ _ _ _ _ calls) in Hjoin.
  destruct (exit_joinable_at key_attr rattr me1 t p [] Q status (after_calls calls w) (A := unit) Hexit Hj) as (x & Hend).
  set (calls' := [] ++ specific_calls (after_calls calls w) p) in *.
  apply (can_join_exited rattr me c pc t p Q status calls' x) in Hjoin.
  destruct (join_exited_at rattr me c pc t _ _ _ Hjoin eq_refl) as (q & Rq & Hfirst).
  destruct (reaped_after _ _ _ _ _ _ _ q _ Hjoin Rq) as [Haft Hagain].
  assert (p_status (exited status p) = status) as Hst by (unfold exited, exit_status; by rewrite Hn). rewrite Hst in Hfirst.
  exists (exited status p). do 2 eexists. split_and!; [|exact Hfirst|exact Hagain|reflexivity|reflexivity|exact Haft|reflexivity].
  unfold entry_point, __pthread_startup. cbn [mbind M_bind mret M_ret bindr]. rewrite app_call_spec. cbn [bindr]. exact Hend.
Qed.

(** What is left of the thread: its structure, which can be used again. *)
Definition life_over (t : nat) (Q : head_id -> list nat) (w w' : world) : Prop :=
  (exists p, pthreads w' = <[t := p]> (pthreads w) /\ p_state p = PTHREAD_TERMINATED /\ p_stack p = false) /\
  table_get (threads_tab (glob w')) (num_threads (glob w)) = Some None /\
  qrep (qh w') (<[HFreeThreads := t :: Q HFreeThreads]> (<[HCond (CStateCond t) := []]> Q)) /\
  mail w' !! t = None /\ pthread_total (glob w') = pthread_total (glob w).

Lemma total_restored n : 0 < n < 2 ^ 31 - 1 -> i32 (i32 (n + 1) - 1) = n.
Proof. intros Hn. rewrite (wraps_small 32 (n + 1)) by (cbn; lia). rewrite wraps_small by (cbn; lia). lia. Qed.

Lemma life_over_after t p Q w w2 w3 :
  pthreads w2 = <[t := p]> (pthreads w) -> p_thread p = num_threads (glob w) + 1 ->
  after_join t p (<[HCond (CStateCond t) := []]> Q) w2 w3 -> pthread_total (glob w3) = pthread_total (glob w) ->
  life_over t Q w w3.
Proof.
  intros H2 Hid (H3 & Htab & HQ & _ & Hmail) Htot. split_and!; [|  |exact HQ|exact Hmail|exact Htot].
  - eexists. split; [rewrite H3, H2, insert_insert_eq; reflexivity|]. split; reflexivity.
  - rewrite Hid in Htab. by replace (num_threads (glob w)) with (num_threads (glob w) + 1 - 1) by lia.
Qed.

Lemma cancelled_clean me a start arg entry w w' p : created me a start arg entry w w' p -> cancelled p = false.
Proof. intros Hc. destruct (cr_clean _ _ _ _ _ _ _ _ Hc) as (_ & _ & Hp & _). unfold cancelled. by rewrite Hp, andb_false_r. Qed.

End Life.

(** C14: The life of a thread that gets a new structure: under the conditions of
    pthread_create_result (no structure on the free list, have_kernel_resources clear
    in the memory for the new one, the default stack size, no request refused), for a
    thread that can be joined and whose start routine returns and does not call the
    library ([AppCalls]), pthread_create succeeds; the new thread calls the start
    routine with the argument and exits with its result; pthread_join by the creator
    returns this result; a second join fails with ESRCH; and the structure is on the
    free list, the ID withdrawn, the stack and the port given back, and the number of
    threads what it was.  (A thread that gets the structure of an earlier one does not
    run: see reused_thread_is_dead.) *)
Theorem thread_life `{P : Platform} `{IH : IHash} `{!IHashLaws IH} `{!AppCalls} attr rattr me me1 c pc start arg entry Q w :
  let a := in_force attr w in let t := next_thread (glob w) in let id := num_threads (glob w) + 1 in
  can_live rattr me c pc a Q w -> start <> 0 -> ktid me1 = next_port (env w) -> tls_self me1 = Some t ->
  exists w1 w2 w3,
    solo (pthread_create attr start arg entry me w) = Done (OK, Some id) w1 /\
    solo (entry_point start arg me1 w1) = Halted w2 /\
    solo (pthread_join id me w2) = Done (OK, Some (app_answer start arg (umem w))) w3 /\
    solo (pthread_join id me w3) = Done (ESRCH, None) w3 /\
    life_over t Q w w3.
Proof.
  intros a t id Hl Hs Hk Ht. pose proof (li_create _ _ _ _ _ _ _ Hl) as Hcr.
  destruct (create_at attr rattr me c start arg entry w Hcr Hs) as (m & mx & sp & gs & l & Hm & Hal & Hlow & Hhigh & Hrun).
  fold a t in Hrun, Hhigh, Hm. set (l' := _ :: l) in Hrun.
  pose proof (create_world_created rattr me c a m mx start arg entry sp gs l w Hcr Hm (li_vars _ _ _ _ _ _ _ Hl) Hal Hlow Hhigh) as Hc.
  fold l' in Hc. set (p := with_mc_sp sp _) in Hc. set (w1 := create_world me a m mx start arg entry sp l' w) in *.
  pose proof (life_thread me a w m mx start arg entry sp l' p Hc) as Hp.
  pose proof (life_exit rattr me c pc a Q w Hl m mx start arg entry sp l' p Hm Hc key_attr me1 Hk Ht) as Hexit.
  pose proof (life_join rattr me c pc a Q w Hl m mx start arg entry sp l' p Hm Hc eq_refl) as Hjoin.
  pose proof (life_joinable rattr me c pc a Q w Hl m mx start arg entry sp l' p Hc) as Hj.
  fold w1 t in Hp, Hexit, Hjoin.
  assert (umem w1 = umem w) as Hu by reflexivity.
  destruct (life_ends rattr me me1 c pc t p start arg Q w1 Hexit Hjoin Hj (cancelled_clean _ _ _ _ _ _ _ _ Hc))
    as (p' & w2 & w3 & Hrun1 & Hfirst & Hagain & Hid' & Hthreads2 & Haft & Htot3).
  destruct (cr_count _ _ _ _ _ _ _ _ Hc) as (_ & Hid & Htot). pose proof (cr_threads _ _ _ _ _ _ _ _ Hc) as Hthreads1.
  clearbody w1 p. fold t in Hthreads1. rewrite Hid in Hfirst, Hagain, Hid'. rewrite Hu in Hfirst.
  exists w1, w2, w3. split_and!; [|exact Hrun1|exact Hfirst|exact Hagain|].
  - unfold pthread_create. cbn [mbind M_bind]. rewrite Hrun. cbn [mbind M_bind deref bindr mret M_ret].
    rewrite (get_thread_at t p) by exact Hp. cbn [bindr]. by rewrite Hid.
  - apply (life_over_after t p' Q w w2 w3); [|exact Hid'|exact Haft|].
    + by rewrite Hthreads2, Hthreads1, insert_insert_eq.
    + rewrite Htot3, Htot. apply total_restored, (li_total _ _ _ _ _ _ _ Hl).
Qed.

(** ** A concrete life *)

(** The start routine returns twice its argument, which it appends. *)
Definition life_platform : Platform := {|
  VM_MIN_ADDRESS := 0; VM_MAX_ADDRESS := 0xc0000000; hurd_threadvar_max := 8;
  threadvar_location sp := sp + 0x200000 - 32; self_gs := 0; gdt_sel := 0x48; pagesize := None; PTHREAD_THREADS_MAX := None;
  call _ arg := modify (fun w => set_umem (append_digit arg (umem w)) w);; mret (2 * arg); loop_fuel := 10 |}.

#[export] Instance life_calls : @AppCalls life_platform.
Proof. by refine {| app_answer _ arg _ := 2 * arg; app_effect _ arg := append_digit arg |}. Defined.

Lemma demo_life_ready :
  can_live (P := life_platform) None (demo_ctx 0) 0 (demo_pthread 0) (in_force (P := life_platform) None demo_create)
    (fun _ => []) demo_create.
Proof.
  split; [|by vm_compute|done|done|apply qrep_empty|by intros [h Hh%elem_of_nil]|done..|cbn; lia|cbn; lia].
  split; [split; [by eexists|]; split; [done|]; by eexists|done| |done|done|done|cbn; lia|cbn; lia|cbn; lia|cbn; lia|done|..].
  - split; [split; [by do 2 eexists|by vm_compute..]|done|by split|done|done|by split|done].
  - by vm_compute.
  - by vm_compute.
Qed.

Lemma thread_life_witness :
  exists w1 w2 w3,
    solo (@pthread_create life_platform None 0x8048000 21 0x8040000 (demo_ctx 0) demo_create) = Done (OK, Some 2) w1 /\
    solo (@entry_point life_platform map_ihash 0x8048000 21 (mkKctx 1000 (Some 1%nat)) w1) = Halted w2 /\
    solo (@pthread_join life_platform map_ihash 2 (demo_ctx 0) w2) = Done (OK, Some 42) w3 /\
    solo (@pthread_join life_platform map_ihash 2 (demo_ctx 0) w3) = Done (ESRCH, None) w3 /\
    pthread_total (glob w3) = 1.
Proof.
  destruct (@thread_life life_platform map_ihash map_ihash_laws life_calls None None (demo_ctx 0) (mkKctx 1000 (Some 1%nat))
    0 (demo_pthread 0) 0x8048000 21 0x8040000 (fun _ => []) demo_create demo_life_ready)
    as (w1 & w2 & w3 & H1 & H2 & H3 & H4 & _ & _ & _ & _ & Htot); [done|done|done|].
  exists w1, w2, w3. split_and!; [exact H1|exact H2|exact H3|exact H4|exact Htot].
Defined.
