(* ===== verification/Signal.v ===== *)
(** * Signals managed in user space: signal/ and sysdeps/generic/

    The implementation for ports whose system leaves signals to the library.
    [sig_lock] is the mutex [MSigLock], the lock in the signal state of thread [t]
    is [MSigState t].  A [struct sigwaiter] is on the stack of the thread that
    waits and is named by it; it is gone when that thread's call returns.
    [process_pending] is read and written without [sig_lock] in places, before
    which there is a [yield]. *)
From Stdlib Require Import ZArith Lia.
From S2P Require Import Prelude Queue SigSet World Machine Platform Sched Mach Attr Mutex Threads ThreadOps.
Local Open Scope Z_scope.

(** What a port supplies: the headers sig-sysdep.h, hurd/futex.h and l4/math.h,
    the process ID, and the handlers of the application. *)
Class SignalPort := {
  getpid : Z;
  MINSIGSTKSZ : Z;
  (** The number of the lowest and the highest bit set, counted from 1; 0 for 0. *)
  l4_lsb64 : Z -> Z;
  l4_msb64 : Z -> Z;
  futex_wait : nat -> M unit;
  futex_wake : nat -> M unit;
  signal_dispatch_lowlevel : nat -> Z -> siginfo_t -> M unit;
  (** A call of the handler at an address. *)
  handler : Z -> Z -> siginfo_t -> M unit;
  (** How many signals one call of [signal_dispatch] is followed for. *)
  dispatch_fuel : nat;
}.

(** ** Access to the data *)

Definition put_sigs (f : signals -> signals) : M unit := modify (fun w => set_sigs (f (sigs w)) w).

Definition get_ss (t : nat) : M signal_state :=
  o ← gets (fun w => sig_states (sigs w) !! t); deref o.

Definition set_ss (t : nat) (s : signal_state) (g : signals) : signals :=
  mkSignals (<[t := s]> (sig_states g)) (process_pending g) (process_pending_info g)
    (sigwaiters g) (waiter_of g).

Definition update_ss (t : nat) (f : signal_state -> signal_state) : M unit :=
  s ← get_ss t; put_sigs (set_ss t (f s)).

Definition get_process_pending : M Z := gets (fun w => process_pending (sigs w)).

Definition set_process_pending (p : Z) (g : signals) : signals :=
  mkSignals (sig_states g) p (process_pending_info g) (sigwaiters g) (waiter_of g).

Definition set_sigwaiters (o : option nat) (g : signals) : signals :=
  mkSignals (sig_states g) (process_pending g) (process_pending_info g) o (waiter_of g).

Definition set_waiter_of (m : gmap nat sigwaiter) (g : signals) : signals :=
  mkSignals (sig_states g) (process_pending g) (process_pending_info g) (sigwaiters g) m.

(** A waiter that is gone is a dangling pointer. *)
Definition get_waiter (t : nat) : M sigwaiter :=
  o ← gets (fun w => waiter_of (sigs w) !! t); deref o.

Definition put_waiter (t : nat) (x : sigwaiter) : M unit :=
  put_sigs (fun g => set_waiter_of (<[t := x]> (waiter_of g)) g).

Definition with_s_pending x (s : signal_state) : signal_state :=
  mkSignalState x (s_blocked s) (s_stack s) (s_actions s) (s_info s) (s_sigwaiter s).
Definition with_s_blocked x (s : signal_state) : signal_state :=
  mkSignalState (s_pending s) x (s_stack s) (s_actions s) (s_info s) (s_sigwaiter s).
Definition with_s_stack x (s : signal_state) : signal_state :=
  mkSignalState (s_pending s) (s_blocked s) x (s_actions s) (s_info s) (s_sigwaiter s).
Definition with_s_actions x (s : signal_state) : signal_state :=
  mkSignalState (s_pending s) (s_blocked s) (s_stack s) x (s_info s) (s_sigwaiter s).
Definition with_s_sigwaiter x (s : signal_state) : signal_state :=
  mkSignalState (s_pending s) (s_blocked s) (s_stack s) (s_actions s) (s_info s) x.

Definition with_sw_prev x (u : sigwaiter) : sigwaiter :=
  mkSigwaiter (sw_next u) x (sw_ss u) (sw_signals u) (sw_info u).
Definition with_sw_next x (u : sigwaiter) : sigwaiter :=
  mkSigwaiter x (sw_prev u) (sw_ss u) (sw_signals u) (sw_info u).
Definition with_sw_info x (u : sigwaiter) : sigwaiter :=
  mkSigwaiter (sw_next u) (sw_prev u) (sw_ss u) (sw_signals u) x.

Definition with_si_signo x (i : siginfo_t) : siginfo_t :=
  mkSiginfo x (si_code i) (si_errno i) (si_pid i) (si_uid i) (si_addr i) (si_status i)
    (si_band i) (si_value i).

(** [sigdelset] on the pending signals of the process and of a thread, whose
    result the callers ignore. *)
Definition process_del (signo : Z) : M unit :=
  put_sigs (fun g => set_process_pending (snd (sigdelset (process_pending g) signo)) g).
Definition pending_del (t : nat) (signo : Z) : M unit :=
  update_ss t (fun s => with_s_pending (snd (sigdelset (s_pending s) signo)) s).

Definition lock (m : mutex_id) : M unit := _ ← __pthread_mutex_lock m; mret tt.
Definition unlock (m : mutex_id) : M unit := _ ← __pthread_mutex_unlock m; mret tt.

(** [assert (pthread_mutex_trylock (m) == EBUSY)] *)
Definition assert_locked (m : mutex_id) : M unit :=
  e ← __pthread_mutex_trylock m; c_assert (bool_decide (e = EBUSY)).

Definition minus_one (e : error_t) : M Z := set_errno e;; mret (-1).

(** ** sigaction.c and sigaltstack.c *)

Definition get_action (s : signal_state) (sig : Z) : M sigaction_t :=
  deref (s_actions s !! Z.to_nat (sig - 1)).

(** The signal is ignored by the action [h]; [None]: [panic]. *)
Definition ignored (h sig : Z) : option bool :=
  if h =? SIG_IGN then Some true
  else if h =? SIG_DFL
  then match default_action sig with
       | Some a => Some (bool_decide (a = sig_ignore))
       | None => None
       end
  else Some false.

(** Lines 41 to 65: the new action. *)
Definition set_action (t : nat) (sig : Z) (sa : sigaction_t) : M unit :=
  update_ss t (fun s => with_s_actions (<[Z.to_nat (sig - 1) := sa]> (s_actions s)) s);;
  update_ss t (fun s => with_s_blocked (snd (sigdelset (s_blocked s) SIGKILL)) s);;
  update_ss t (fun s => with_s_blocked (snd (sigdelset (s_blocked s) SIGSTOP)) s);;
  match ignored (sa_handler sa) sig with
  | None => fail FAbort
  | Some true => pending_del t sig;; yield;; process_del sig
  | Some false => mret tt
  end.

(** The result and the action stored through [osa]. *)
Definition sigaction (sig : Z) (sa : option sigaction_t) (osa : bool) :
    M (Z * option sigaction_t) :=
  if bad_signo sig then r ← minus_one EINVAL; mret (r, None)
  else
  t ← _pthread_self;
  lock (MSigState t);;
  old ← (if osa then s ← get_ss t; a ← get_action s sig; mret (Some a) else mret None);
  match sa with Some sa => set_action t sig sa | None => mret tt end;;
  unlock (MSigState t);;
  mret (0, old).

Definition altstack_error (s : signal_state) (stack : stack_t) `{SignalPort} : error_t :=
  if st_size stack <? MINSIGSTKSZ then ENOMEM
  else if negb (Z.land (st_flags stack) (Z.lnot SS_DISABLE) =? 0) then EINVAL
  else if flag (st_flags (s_stack s)) SS_ONSTACK then EPERM
  else OK.

Definition sigaltstack `{SignalPort} (stack : option stack_t) (old : bool) :
    M (Z * option stack_t) :=
  t ← _pthread_self;
  lock (MSigState t);;
  s ← get_ss t;
  let o := if old then Some (s_stack s) else None in
  err ← match stack with
        | None => mret OK
        | Some stack =>
            match altstack_error s stack with
            | OK => update_ss t (with_s_stack stack);; mret OK
            | err => mret err
            end
        end;
  unlock (MSigState t);;
  if decide (err <> OK) then r ← minus_one err; mret (r, o) else mret (0, o).

Definition sigpending : M (Z * Z) :=
  t ← _pthread_self;
  lock (MSigState t);;
  s ← get_ss t;
  p ← get_process_pending;
  unlock (MSigState t);;
  mret (0, Z.land (Z.lor (s_pending s) p) (s_blocked s)).

Definition sigsuspend (set : Z) : M Z := minus_one EOPNOTSUPP.
Definition sigtimedwait (set : Z) (timeout : option timespec) : M Z := minus_one EOPNOTSUPP.

(** sysdeps/generic/signal.c *)
Definition signal (sig hnd : Z) : M Z :=
  match sigaddset (snd (sigemptyset 0)) sig with
  | (OK, mask) =>
      r ← sigaction sig (Some (mkSigaction hnd mask SA_RESTART)) true;
      match r with
      | (0, Some osa) => mret (sa_handler osa)
      | _ => mret SIG_ERR
      end
  | (e, _) => set_errno e;; mret SIG_ERR
  end.

Definition bsd_signal (sig func : Z) : M Z := signal sig func.

(** sysdeps/generic/siginterrupt.c; [act] has whatever was on the stack if the
    first call fails. *)
Definition siginterrupt (uninit : sigaction_t) (sig : Z) (flag : Z) : M Z :=
  r ← sigaction sig None true;
  let act := default uninit (snd r) in
  let flags := if negb (flag =? 0) then Z.land (sa_flags act) (Z.lnot SA_RESTART)
               else Z.lor (sa_flags act) SA_RESTART in
  r ← sigaction sig (Some (mkSigaction (sa_handler act) (sa_mask act) flags)) false;
  mret (fst r).

(** ** signal-dispatch.c *)

Section Signals.
  Context `{SignalPort}.

(** Lines 39 to 52: stop signals and SIGCONT discard one another. *)
Definition discard_opposite (t : nat) (signo : Z) : M unit :=
  if negb (Z.land (sigmask signo) STOPSIGS =? 0) then
    pending_del t SIGCONT;;
    yield;;
    process_del SIGCONT
  else if signo =? SIGCONT then
    update_ss t (fun s => with_s_pending (Z.land (s_pending s) (not64 STOPSIGS)) s);;
    yield;;
    put_sigs (fun g => set_process_pending (Z.land (process_pending g) (not64 STOPSIGS)) g)
  else mret tt.

(** Lines 54 to 72: the handler, and the mask to restore after it. *)
Definition enter_handler (t : nat) (signo : Z) : M (Z * Z) :=
  s ← get_ss t;
  a ← get_action s signo;
  let hnd := sa_handler a in
  when (flag (sa_flags a) SA_RESETHAND && negb (signo =? SIGILL) && negb (signo =? SIGTRAP))
    (update_ss t (fun s => with_s_actions
       (<[Z.to_nat (signo - 1) := mkSigaction SIG_DFL (sa_mask a) (sa_flags a)]> (s_actions s)) s));;
  s ← get_ss t;
  let orig_blocked := s_blocked s in
  update_ss t (fun s => with_s_blocked (Z.lor (s_blocked s) (sa_mask a)) s);;
  when (negb (flag (sa_flags a) (Z.lor SA_RESETHAND SA_NODEFER)))
    (update_ss t (fun s => with_s_blocked (snd (sigaddset (s_blocked s) signo)) s));;
  pending_del t signo;;
  mret (hnd, orig_blocked).

(** Lines 79 to 97.  The semicolon that ends line 91 makes line 92 unconditional:
    every default action panics that does not end the process. *)
Definition act_on (hnd signo : Z) (si : siginfo_t) : M unit :=
  if hnd =? SIG_DFL then
    match default_action signo with
    | None => fail FAbort
    | Some sig_terminate | Some sig_core => exit (128 + signo)
    | Some sig_stop => fail FAbort
    | Some _ => fail FAbort
    end
  else if hnd =? SIG_IGN then mret tt
  else handler hnd signo si.

(** Lines 107 to 110: the next signal to deliver, 0 if there is none. *)
Definition next_signal (t : nat) : M Z :=
  s ← get_ss t;
  yield;;
  p ← get_process_pending;
  let pending := Z.land (not64 (s_blocked s)) (s_pending s) in
  mret (l4_lsb64 (if pending =? 0 then Z.land (not64 (s_blocked s)) p else pending)).

(** The body of the loop: one signal is delivered; the result is the next one.
    [si] stays the one of the first signal. *)
Definition dispatch_round (t : nat) (signo : Z) (si : siginfo_t) : M Z :=
  discard_opposite t signo;;
  r ← enter_handler t signo;
  unlock (MSigState t);;
  lock MSigLock;;
  process_del signo;;
  unlock MSigLock;;
  act_on (fst r) signo si;;
  lock (MSigState t);;
  update_ss t (with_s_blocked (snd r));;
  next_signal t.

Fixpoint dispatch_loop (fuel : nat) (t : nat) (signo : Z) (si : siginfo_t) : M unit :=
  match fuel with
  | O => fail FFuel
  | S fuel =>
      next ← dispatch_round t signo si;
      if next =? 0 then mret tt else dispatch_loop fuel t next si
  end.

Definition signal_dispatch (t : nat) (si : siginfo_t) : M unit :=
  let signo := si_signo si in
  c_assert ((0 <? signo) && (signo <? NSIG));;
  assert_locked (MSigState t);;
  dispatch_loop dispatch_fuel t signo si;;
  unlock (MSigState t).

(** ** sigwaiter.c *)

(** Lines 33 to 50: the waiter of thread [self] is put at the head of the list. *)
Definition push_waiter (self t : nat) (set : Z) : M unit :=
  s ← get_ss t;
  c_assert (bool_decide (s_sigwaiter s = None));;
  next ← gets (fun w => sigwaiters (sigs w));
  match next with
  | Some n =>
      x ← get_waiter n;
      c_assert (bool_decide (sw_prev x = None));;
      put_waiter n (with_sw_prev (Some self) x)
  | None => mret tt
  end;;
  put_sigs (set_sigwaiters (Some self));;
  put_waiter self (mkSigwaiter next None t set (siginfo_zero 0));;
  update_ss t (with_s_sigwaiter (Some self)).

Definition sigwaiter_block (t : nat) (set : Z) : M siginfo_t :=
  self ← _pthread_self;
  assert_locked MSigLock;;
  assert_locked (MSigState t);;
  push_waiter self t set;;
  unlock (MSigState t);;
  unlock MSigLock;;
  futex_wait self;;
  lock (MSigState t);;
  update_ss t (with_s_sigwaiter None);;
  unlock (MSigState t);;
  x ← get_waiter self;
  c_assert (negb (si_signo (sw_info x) =? 0));;
  put_sigs (fun g => set_waiter_of (delete self (waiter_of g)) g);;
  mret (sw_info x).

(** Lines 73 to 82: off the list, through the links of the waiter. *)
Definition unlink_waiter (u : nat) : M unit :=
  x ← get_waiter u;
  match sw_next x with
  | Some n => y ← get_waiter n; put_waiter n (with_sw_prev (sw_prev x) y)
  | None => mret tt
  end;;
  match sw_prev x with
  | Some p => y ← get_waiter p; put_waiter p (with_sw_next (sw_next x) y)
  | None => put_sigs (set_sigwaiters (sw_next x))
  end.

Definition sigwaiter_unblock (u : nat) : M unit :=
  x ← get_waiter u;
  assert_locked MSigLock;;
  assert_locked (MSigState (sw_ss x));;
  unlink_waiter u;;
  x ← get_waiter u;
  process_del (si_signo (sw_info x));;
  pending_del (sw_ss x) (si_signo (sw_info x));;
  unlock (MSigState (sw_ss x));;
  unlock MSigLock;;
  futex_wake u.

(** ** sigwaitinfo.c and sysdeps/generic/sigwait.c *)

(** Lines 36 to 58.  The flag [local] tells that the signal is {e not} pending for
    the thread itself. *)
Definition take_pending (t : nat) (set : Z) (info : bool) : M (option siginfo_t) :=
  s ← get_ss t;
  p ← get_process_pending;
  let local := negb (Z.land p set =? 0) in
  let extant := if local then Z.land p set else Z.land (s_pending s) set in
  c_assert (negb (extant =? 0));;
  let signo := l4_msb64 extant in
  i ← (if info then
         infos ← (if local then mret (s_info s) else gets (fun w => process_pending_info (sigs w)));
         i ← deref (infos !! Z.to_nat (signo - 1));
         mret (Some (with_si_signo signo i))
       else mret None);
  process_del signo;;
  pending_del t signo;;
  mret i.

(** The result and what is stored through [info], unless it is null. *)
Definition sigwaitinfo (set : Z) (info : bool) : M (Z * option siginfo_t) :=
  lock MSigLock;;
  t ← _pthread_self;
  lock (MSigState t);;
  s ← get_ss t;
  p ← get_process_pending;
  if negb (Z.land p set =? 0) || negb (Z.land (s_pending s) set =? 0) then
    i ← take_pending t set info;
    unlock (MSigState t);;
    unlock MSigLock;;
    mret (0, i)
  else
  i ← sigwaiter_block t set;
  c_assert (negb (si_signo i =? 0));;
  c_assert (negb (Z.land (sigmask (si_signo i)) set =? 0));;
  mret (0, if info then Some i else None).

Definition sigwait (set : Z) : M (Z * option Z) :=
  r ← sigwaitinfo set true;
  if fst r <? 0 then mret (-1, None) else mret (0, si_signo <$> snd r).

(** ** pt-kill-siginfo-np.c, kill.c and their callers *)

(** Lines 50 to 87: no waiter takes the signal, [MSigState t] is held. *)
Definition generate (t : nat) (tid sig : Z) (si : siginfo_t) : M error_t :=
  s ← get_ss t;
  a ← get_action s sig;
  match ignored (sa_handler a) sig with
  | None => fail FAbort
  | Some true => unlock (MSigState t);; mret OK
  | Some false =>
      if negb (Z.land (sigmask sig) (s_blocked s) =? 0) then
        update_ss t (fun s => with_s_pending (Z.lor (s_pending s) (sigmask sig)) s);;
        unlock (MSigState t);;
        mret OK
      else
      self ← __pthread_self;
      (if (self =? tid)
          && (negb (flag (sa_flags a) SA_ONSTACK) || flag (st_flags (s_stack s)) SS_DISABLE
              || flag (st_flags (s_stack s)) SS_ONSTACK)
       then signal_dispatch t si
       else signal_dispatch_lowlevel t tid si);;
      mret OK
  end.

Definition pthread_kill_siginfo_np (tid : Z) (si : siginfo_t) : M error_t :=
  let sig := si_signo si in
  if (sig <? 0) || (NSIG <=? sig) then mret EINVAL
  else if sig =? 0 then mret OK
  else
  o ← __pthread_getid tid;
  lock MSigLock;;
  t ← deref o;   (* [ss] is computed before, but first used here *)
  lock (MSigState t);;
  s ← get_ss t;
  wants ← match s_sigwaiter s with
          | Some u => x ← get_waiter u; mret (negb (Z.land (sw_signals x) (sigmask sig) =? 0))
          | None => mret false
          end;
  match s_sigwaiter s with
  | Some u =>
      if (wants : bool) then
        x ← get_waiter u;
        put_waiter u (with_sw_info si x);;
        sigwaiter_unblock u;;
        mret OK
      else unlock MSigLock;; generate t tid sig si
  | None => unlock MSigLock;; generate t tid sig si
  end.

(** sysdeps/generic/pt-kill.c *)
Definition generic_pthread_kill (tid signo : Z) : M error_t :=
  pthread_kill_siginfo_np tid (siginfo_zero signo).

(** [sigmask] of any integer. *)
Definition sigmask_of (signo : Z) : M Z :=
  if (1 <=? signo) && (signo <=? 64) then mret (sigmask signo) else fail FUndef.

(** kill.c, lines 45 to 60: the first waiter for the signal takes it. *)
Fixpoint offer (fuel : nat) (waiter : option nat) (signo : Z) : M bool :=
  match waiter with
  | None => mret false
  | Some u =>
      match fuel with
      | O => fail FFuel
      | S fuel =>
          x ← get_waiter u;
          mask ← sigmask_of signo;
          if negb (Z.land (sw_signals x) mask =? 0) then
            process_del signo;;
            lock (MSigState (sw_ss x));;
            pending_del (sw_ss x) signo;;
            x ← get_waiter u;
            put_waiter u (with_sw_info (siginfo_zero signo) x);;
            sigwaiter_unblock u;;
            mret true
          else offer fuel (sw_next x) signo
      end
  end.

(** The result is a number, or the error code of the last call as it is. *)
Definition kill (pid signo : Z) : M (Z + error_t) :=
  if negb (pid =? getpid) then r ← minus_one EOPNOTSUPP; mret (inl r)
  else
  lock MSigLock;;
  first ← gets (fun w => sigwaiters (sigs w));
  fuel ← gets (fun w => Datatypes.S (size (waiter_of (sigs w))));
  taken ← offer fuel first signo;
  if (taken : bool) then mret (inl 0)
  else
  unlock MSigLock;;
  self ← __pthread_self;
  err ← generic_pthread_kill self signo;
  mret (inr err).

Definition killpg (pid sig : Z) : M (Z + error_t) := kill (- pid) sig.

Definition raise (signo : Z) : M Z :=
  self ← __pthread_self;
  err ← generic_pthread_kill self signo;
  if decide (err <> OK) then minus_one err else mret 0.
End Signals.
