(* ===== verification/SignalFacts.v ===== *)
(** * What the signal functions do

    The functions are run by one thread while the mutexes they take are free, as
    the properties of MutexClient.v allow: no other thread can see the signal
    states in between. *)
From Stdlib Require Import ZArith Lia.
From S2P Require Import Prelude Queue SigSet World Machine Platform Sched Mach Demo Attr Mutex Threads ThreadOps Signal.
Local Open Scope Z_scope.

(** ** Worlds that differ in the signal states *)

(** [w] with the held spin locks [S], the signal states [g] and the application
    memory [u]. *)
Definition at_sigs (S : gset spin_id) (g : signals) (u : gmap nat Z) (w : world) : world :=
  set_umem u (set_sigs g (set_spins S w)).

Lemma at_sigs_id w : at_sigs (spins w) (sigs w) (umem w) w = w.
Proof. by destruct w. Qed.

(** A mutex with the default attributes that nobody waits for. *)
Record unused_mutex (m : mutex_id) (w : world) : Prop := {
  um_attr : exists o n, mutexes w !! m = Some (mkMutex ANull o n);
  um_queue : cells (qh w) !! Head (HMutex m) = None;
}.

(** The calls that only read or change the signal states. *)
Lemma gets_at {A} (h : signals -> A) me S g u w :
  gets (fun w => h (sigs w)) me (at_sigs S g u w) = Done (h g) (at_sigs S g u w).
Proof. done. Qed.

Lemma put_sigs_at h me S g u w :
  put_sigs h me (at_sigs S g u w) = Done tt (at_sigs S (h g) u w).
Proof. done. Qed.

Lemma get_ss_at t s me S g u w :
  sig_states g !! t = Some s -> get_ss t me (at_sigs S g u w) = Done s (at_sigs S g u w).
Proof. intros Hs. unfold get_ss, gets. cbn. by rewrite Hs. Qed.

Lemma update_ss_at t h s me S g u w :
  sig_states g !! t = Some s ->
  update_ss t h me (at_sigs S g u w) = Done tt (at_sigs S (set_ss t (h s) g) u w).
Proof. intros Hs. unfold update_ss. cbn [mbind M_bind]. by rewrite (get_ss_at t s). Qed.

Lemma get_waiter_at t x me S g u w :
  waiter_of g !! t = Some x -> get_waiter t me (at_sigs S g u w) = Done x (at_sigs S g u w).
Proof. intros Hs. unfold get_waiter, gets. cbn. by rewrite Hs. Qed.

Lemma yield_at me S g u w {B} (f : unit -> world -> res B) :
  solo (bindr (yield me (at_sigs S g u w)) f) = solo (f tt (at_sigs S g u w)).
Proof. done. Qed.

Lemma runs_at me t S g u w : runs me t w -> _pthread_self me (at_sigs S g u w) = Done t (at_sigs S g u w).
Proof. intros Hr. apply pthread_self_runs. by eapply runs_same. Qed.

Lemma lock_at m me S g u w {B} (f : unit -> world -> res B) :
  unused_mutex m w -> SMutexHeld m ∉ S -> SMutexLock m ∉ S ->
  solo (bindr (lock m me (at_sigs S g u w)) f) = solo (f tt (at_sigs ({[SMutexHeld m]} ∪ S) g u w)).
Proof.
  intros [Ha Hq] Hh Hl. unfold lock. cbn [mbind M_bind]. rewrite bindr_assoc.
  by rewrite solo_mutex_lock.
Qed.

Lemma unlock_at m me S g u w {B} (f : unit -> world -> res B) :
  unused_mutex m w -> SMutexLock m ∉ S ->
  solo (bindr (unlock m me (at_sigs S g u w)) f) = solo (f tt (at_sigs (S ∖ {[SMutexHeld m]}) g u w)).
Proof.
  intros [(o & n & Ha) Hq] Hl. unfold unlock. cbn [mbind M_bind]. rewrite bindr_assoc.
  by rewrite (solo_mutex_unlock m o n).
Qed.

Lemma assert_locked_at m me S g u w {B} (f : unit -> world -> res B) :
  unused_mutex m w -> SMutexHeld m ∈ S -> SMutexLock m ∉ S ->
  solo (bindr (assert_locked m me (at_sigs S g u w)) f) = solo (f tt (at_sigs S g u w)).
Proof.
  intros [(o & n & Ha) Hq] Hh Hl. unfold assert_locked, __pthread_mutex_trylock, get_mutex. cbn.
  rewrite Ha. cbn. rewrite !bindr_assoc, solo_spin_lock by done. cbn.
  rewrite bool_decide_eq_true_2 by set_solver. rewrite decide_False by done. cbn.
  unfold try_busy, at_sigs. cbn.
  replace (_ ∖ {[SMutexLock m]}) with S by set_solver. done.
Qed.

#[global] Arguments at_sigs : simpl never.
#[global] Arguments get_ss : simpl never.
#[global] Arguments update_ss : simpl never.
#[global] Arguments put_sigs : simpl never.
#[global] Arguments get_waiter : simpl never.
#[global] Arguments lock : simpl never.
#[global] Arguments unlock : simpl never.
#[global] Arguments assert_locked : simpl never.

Lemma set_ss_twice t s s' g : set_ss t s (set_ss t s' g) = set_ss t s g.
Proof. unfold set_ss. cbn. by rewrite insert_insert_eq. Qed.

Lemma set_ss_same t s g : sig_states g !! t = Some s -> set_ss t s g = g.
Proof. intros Hs. destruct g. unfold set_ss. cbn in *. by rewrite insert_id. Qed.

Lemma set_ss_lookup t s g : sig_states (set_ss t s g) !! t = Some s.
Proof. apply lookup_insert_eq. Qed.

(** ** The delivery of one signal *)

(** The action of a signal. *)
Definition action (s : signal_state) (sig : Z) : option sigaction_t :=
  s_actions s !! Z.to_nat (sig - 1).

(** A pending set after stop signals or SIGCONT discarded one another. *)
Definition discarded (signo x : Z) : Z :=
  if negb (Z.land (sigmask signo) STOPSIGS =? 0) then snd (sigdelset x SIGCONT)
  else if signo =? SIGCONT then Z.land x (not64 STOPSIGS)
  else x.

(** ... and the signal is delivered. *)
Definition delivered (signo x : Z) : Z := snd (sigdelset (discarded signo x) signo).

Lemma discard_at t signo s me S g u w {B} (f : unit -> world -> res B) :
  sig_states g !! t = Some s ->
  solo (bindr (discard_opposite t signo me (at_sigs S g u w)) f) =
  solo (f tt (at_sigs S (set_process_pending (discarded signo (process_pending g))
                           (set_ss t (with_s_pending (discarded signo (s_pending s)) s) g)) u w)).
Proof.
  intros Hs. unfold discard_opposite, discarded, pending_del, process_del.
  destruct (negb _); [|destruct (signo =? SIGCONT)]; cbn.
  - by rewrite (update_ss_at t _ s).
  - by rewrite (update_ss_at t _ s).
  - replace (with_s_pending (s_pending s) s) with s by (by destruct s).
    rewrite set_ss_same by done. by destruct g.
Qed.

(** The state in which the handler runs. *)
Definition entered (signo : Z) (a : sigaction_t) (s : signal_state) : signal_state :=
  let reset := flag (sa_flags a) SA_RESETHAND && negb (signo =? SIGILL) && negb (signo =? SIGTRAP) in
  let blocked := Z.lor (s_blocked s) (sa_mask a) in
  mkSignalState (snd (sigdelset (s_pending s) signo))
    (if flag (sa_flags a) (Z.lor SA_RESETHAND SA_NODEFER) then blocked
     else snd (sigaddset blocked signo))
    (s_stack s)
    (if reset then <[Z.to_nat (signo - 1) := mkSigaction SIG_DFL (sa_mask a) (sa_flags a)]> (s_actions s)
     else s_actions s)
    (s_info s) (s_sigwaiter s).

Lemma enter_at t signo s a me S g u w :
  sig_states g !! t = Some s -> action s signo = Some a ->
  enter_handler t signo me (at_sigs S g u w) =
  Done (sa_handler a, s_blocked s) (at_sigs S (set_ss t (entered signo a s) g) u w).
Proof.
  intros Hs Ha. unfold enter_handler, get_action, entered. cbn.
  rewrite (get_ss_at t s) by done. cbn. unfold action in Ha. rewrite Ha. cbn.
  destruct (flag (sa_flags a) SA_RESETHAND && _ && _) eqn:Hr; cbn;
    [rewrite (update_ss_at t _ s) by done; cbn | ];
    (erewrite get_ss_at by (done || apply set_ss_lookup)); cbn;
    (erewrite update_ss_at by (done || apply set_ss_lookup)); cbn;
    destruct (flag (sa_flags a) (Z.lor _ _)); cbn; unfold pending_del;
    repeat (erewrite update_ss_at by apply set_ss_lookup; cbn); by rewrite !set_ss_twice.
Qed.

(** The lock of thread [t]'s signal state is held, [sig_lock] is free. *)
Record dispatching (t : nat) (S : gset spin_id) (w : world) : Prop := {
  d_state : unused_mutex (MSigState t) w;
  d_sig : unused_mutex MSigLock w;
  d_held : SMutexHeld (MSigState t) ∈ S;
  d_free : SMutexHeld MSigLock ∉ S;
  d_spin : SMutexLock (MSigState t) ∉ S;
  d_sig_spin : SMutexLock MSigLock ∉ S;
}.

Section Dispatch.
Context `{SignalPort}.
(** Handlers that return and change the memory of the application only. *)
Context (eff : Z -> Z -> siginfo_t -> gmap nat Z -> gmap nat Z).
Hypothesis handler_eff : forall h sig si me w,
  handler h sig si me w = Done tt (set_umem (eff h sig si (umem w)) w).

(** What the action [a] does to the memory. *)
Definition effect (a : sigaction_t) (sig : Z) (si : siginfo_t) (u : gmap nat Z) : gmap nat Z :=
  if sa_handler a =? SIG_IGN then u else eff (sa_handler a) sig si u.

Definition round_state (signo : Z) (a : sigaction_t) (s : signal_state) : signal_state :=
  with_s_blocked (s_blocked s) (entered signo a (with_s_pending (discarded signo (s_pending s)) s)).

Definition round_signals (t : nat) (signo : Z) (a : sigaction_t) (s : signal_state) (g : signals) :
    signals :=
  set_process_pending (delivered signo (process_pending g)) (set_ss t (round_state signo a s) g).

(** The signals that may be delivered. *)
Definition deliverable (s : signal_state) (p : Z) : Z :=
  let l := Z.land (not64 (s_blocked s)) (s_pending s) in
  if l =? 0 then Z.land (not64 (s_blocked s)) p else l.

Lemma act_on_at a signo si me S g u w :
  sa_handler a <> SIG_DFL ->
  act_on (sa_handler a) signo si me (at_sigs S g u w) = Done tt (at_sigs S g (effect a signo si u) w).
Proof.
  intros Hd%Z.eqb_neq. unfold act_on, effect. rewrite Hd.
  destruct (sa_handler a =? SIG_IGN); [done|]. by rewrite handler_eff.
Qed.

Lemma round_at t signo si s a me S g u w {B} (f : Z -> world -> res B) :
  dispatching t S w -> sig_states g !! t = Some s -> action s signo = Some a ->
  sa_handler a <> SIG_DFL ->
  solo (bindr (dispatch_round t signo si me (at_sigs S g u w)) f) =
  let g' := round_signals t signo a s g in
  solo (f (l4_lsb64 (deliverable (round_state signo a s) (process_pending g')))
          (at_sigs S g' (effect a signo si u) w)).
Proof.
  intros [Hm Hg Hh Hf Hl Hgl] Hs Ha Hd. unfold dispatch_round. cbn.
  rewrite bindr_assoc, (discard_at t signo s) by done. rewrite bindr_assoc.
  rewrite (enter_at t signo (with_s_pending (discarded signo (s_pending s)) s) a)
    by (apply lookup_insert_eq || done). cbn [bindr].
  rewrite bindr_assoc, unlock_at, bindr_assoc, lock_at by (done || set_solver).
  unfold process_del. rewrite put_sigs_at. cbn [bindr].
  rewrite bindr_assoc, unlock_at by (done || set_solver). cbn [fst snd].
  rewrite act_on_at by done. cbn [bindr].
  rewrite bindr_assoc, lock_at by (done || set_solver).
  erewrite update_ss_at by apply lookup_insert_eq. cbn [bindr].
  unfold next_signal. cbn. erewrite get_ss_at by apply lookup_insert_eq. cbn.
  replace ({[SMutexHeld (MSigState t)]} ∪ _) with S; [|].
  - unfold round_signals, set_process_pending, set_ss. cbn. by rewrite !insert_insert_eq.
  - apply set_eq. intros x. destruct (decide (x = SMutexHeld (MSigState t))); set_solver.
Qed.

(** ** The delivery of all signals *)

(** The signals that are pending and not blocked. *)
Definition due (s : signal_state) (p : Z) : gset Z :=
  members (Z.land (not64 (s_blocked s)) (Z.lor (s_pending s) p)).

(** Only signals are pending. *)
Definition pending_ok (x : Z) : Prop := 0 <= x < 2 ^ 31.

Definition job_control (a : Z) : bool := Z.testbit STOPSIGS (a - 1) || (a =? SIGCONT).

Lemma elem_of_due b s p :
  b ∈ due s p <-> bad_signo b = false /\ Z.testbit (s_blocked s) (b - 1) = false /\
    (Z.testbit (s_pending s) (b - 1) = true \/ Z.testbit p (b - 1) = true).
Proof.
  unfold due. rewrite elem_of_members. split; intros [Hb Ht]; (split; [done|]);
    pose proof (good_signo b Hb); rewrite Z.land_spec, not64_testbit, Z.lor_spec in * by lia.
  - by rewrite andb_true_iff, negb_true_iff, orb_true_iff in Ht.
  - by rewrite andb_true_iff, negb_true_iff, orb_true_iff.
Qed.

Lemma pending_land x y : pending_ok x -> pending_ok (Z.land x y).
Proof.
  intros Hx. assert (0 <= Z.land x y) by (apply Z.land_nonneg; left; apply Hx).
  split; [done|]. apply Z.le_lt_trans with x; [|apply Hx].
  rewrite Z.land_comm. apply Z.ldiff_le; [apply Hx|]. apply Z.bits_inj'. intros n Hn.
  rewrite Z.ldiff_spec, Z.land_spec, Z.bits_0.
  by destruct (Z.testbit y n), (Z.testbit x n).
Qed.

Lemma pending_discarded a x : pending_ok x -> pending_ok (discarded a x).
Proof.
  intros Hx. unfold discarded. destruct (negb _); [by apply pending_land|].
  destruct (a =? SIGCONT); [by apply pending_land | done].
Qed.

Lemma discarded_bits a x n : Z.testbit (discarded a x) n = true -> Z.testbit x n = true.
Proof.
  unfold discarded. destruct (negb _); [|destruct (a =? SIGCONT)]; cbn; [| |done];
    rewrite Z.land_spec; by intros [? _]%andb_true_iff.
Qed.

Lemma discarded_other a x : bad_signo a = false -> job_control a = false -> discarded a x = x.
Proof.
  intros Ha [Hs Hc]%orb_false_iff. unfold discarded.
  by rewrite Z.land_comm, land_sigmask, Hs, Hc.
Qed.

Lemma delivered_bits a b x :
  bad_signo a = false -> bad_signo b = false ->
  Z.testbit (delivered a x) (b - 1) = Z.testbit (discarded a x) (b - 1) && negb (b =? a).
Proof. intros Ha Hb. unfold delivered, sigdelset. rewrite Ha. by apply members_del. Qed.

Lemma pending_delivered a x : bad_signo a = false -> pending_ok x -> pending_ok (delivered a x).
Proof.
  intros Ha Hx. unfold delivered, sigdelset. rewrite Ha. by apply pending_land, pending_discarded.
Qed.

Lemma due_round t a act s g :
  bad_signo a = false ->
  let p' := process_pending (round_signals t a act s g) in
  let d := due s (process_pending g) in
  due (round_state a act s) p' ⊆ d ∖ {[a]} /\
  (job_control a = false -> due (round_state a act s) p' = d ∖ {[a]}).
Proof.
  intros Ha p' d.
  assert (forall b, b ∈ due (round_state a act s) p' <-> bad_signo b = false /\
    Z.testbit (s_blocked s) (b - 1) = false /\ b <> a /\
    (Z.testbit (discarded a (s_pending s)) (b - 1) = true \/
     Z.testbit (discarded a (process_pending g)) (b - 1) = true)) as Hd.
  { intros b. rewrite elem_of_due. destruct (bad_signo b) eqn:Hb; [by split; intros []|].
    subst p'. cbn [round_state s_blocked s_pending with_s_blocked entered with_s_pending].
    change (snd (sigdelset (discarded a (s_pending s)) a)) with (delivered a (s_pending s)).
    cbn [round_signals process_pending set_process_pending].
    rewrite !delivered_bits, !andb_true_iff, negb_true_iff, Z.eqb_neq by done. intuition. }
  split.
  - intros b (Hb & Hbl & Hne & Hp)%Hd. subst d. rewrite elem_of_difference, elem_of_singleton, elem_of_due.
    split_and!; [done..| |done]. destruct Hp as [Hp|Hp]; apply discarded_bits in Hp; auto.
  - intros Hj. apply set_eq. intros b. rewrite Hd, !discarded_other by done. subst d.
    rewrite elem_of_difference, elem_of_singleton, elem_of_due. intuition.
Qed.

Hypothesis lsb_zero : l4_lsb64 0 = 0.
Hypothesis lsb_bit : forall x, 0 < x < 2 ^ 64 ->
  1 <= l4_lsb64 x /\ Z.testbit x (l4_lsb64 x - 1) = true.

(** The lowest bit is that of a signal that is due, if there is one. *)
Lemma next_due s p :
  pending_ok (s_pending s) -> pending_ok p ->
  if decide (l4_lsb64 (deliverable s p) = 0) then due s p = ∅
  else l4_lsb64 (deliverable s p) ∈ due s p.
Proof.
  intros Hs Hp.
  assert (forall x, pending_ok x -> 0 < x -> let a := l4_lsb64 x in
    a <> 0 /\ bad_signo a = false /\ Z.testbit x (a - 1) = true) as Hbit.
  { intros x [Hx0 Hx] Hpos a. destruct (lsb_bit x) as [Ha Hb]; [lia|]. fold a in Ha, Hb.
    split; [lia|]. split; [|done]. unfold bad_signo, NSIG.
    assert (a - 1 < 31); [|destruct (Z.leb_spec a 0), (Z.leb_spec 32 a); (done || lia)].
    destruct (Z.ltb_spec (a - 1) 31) as [|Hge]; [done|].
    rewrite Z.bits_above_log2 in Hb; [done|lia|].
    apply Z.lt_le_trans with 31; [|done]. apply Z.log2_lt_pow2; lia. }
  assert (forall x, pending_ok x -> pending_ok (Z.land (not64 (s_blocked s)) x)) as Hok.
  { intros x Hx. rewrite Z.land_comm. by apply pending_land. }
  assert (forall x b, bad_signo b = false ->
    Z.testbit (Z.land (not64 (s_blocked s)) x) (b - 1) = true ->
    Z.testbit (s_blocked s) (b - 1) = false /\ Z.testbit x (b - 1) = true) as Hand.
  { intros x b Hb%good_signo. rewrite Z.land_spec, not64_testbit by lia.
    by intros [?%negb_true_iff ?]%andb_true_iff. }
  unfold deliverable. destruct (Z.eqb_spec (Z.land (not64 (s_blocked s)) (s_pending s)) 0) as [Hz|Hnz].
  - destruct (decide (Z.land (not64 (s_blocked s)) p = 0)) as [Hz'|Hnz'].
    + rewrite Hz', lsb_zero, decide_True by done. unfold due.
      by rewrite Z.land_lor_distr_r, Hz, Hz'.
    + destruct (Hbit _ (Hok _ Hp)) as (Hne & Hb & Ht); [destruct (Hok _ Hp); lia|].
      rewrite decide_False by done. apply elem_of_due. split; [done|].
      apply Hand in Ht; [|done]. naive_solver.
  - destruct (Hbit _ (Hok _ Hs)) as (Hne & Hb & Ht); [destruct (Hok _ Hs); lia|].
    rewrite decide_False by done. apply elem_of_due. split; [done|].
    apply Hand in Ht; [|done]. naive_solver.
Qed.

(** What the delivery of signal [b] does to the memory. *)
Definition deliver (s : signal_state) (si : siginfo_t) (u : gmap nat Z) (b : Z) : gmap nat Z :=
  match action s b with Some a => effect a b si u | None => u end.

(** A handler or SIG_IGN is installed for the signal. *)
Definition handled (s : signal_state) (b : Z) : Prop :=
  exists a, action s b = Some a /\ sa_handler a <> SIG_DFL.

Lemma action_round a act s b :
  bad_signo a = false -> bad_signo b = false -> a <> b ->
  action (round_state a act s) b = action s b.
Proof.
  intros Ha%good_signo Hb%good_signo Hne. unfold action, round_state. cbn.
  destruct (flag _ SA_RESETHAND && _ && _); [|done]. rewrite list_lookup_insert_ne; [done|lia].
Qed.

Lemma due_good s p b : b ∈ due s p -> bad_signo b = false.
Proof. by intros [? _]%elem_of_due. Qed.

Lemma deliver_ext s s' si u l :
  (forall b, b ∈ l -> action s b = action s' b) ->
  foldl (deliver s si) u l = foldl (deliver s' si) u l.
Proof.
  revert u. induction l as [|b l IH]; intros u Hl; [done|]. cbn.
  unfold deliver at 2 4. rewrite Hl by left. apply IH. intros c Hc. apply Hl. by right.
Qed.

(** The outcome of the loop for the first signal [a] and then the signals [l]. *)
Record drained (t : nat) (a : Z) (l : list Z) (s s' : signal_state) (g g' : signals) : Prop := {
  dr_nodup : NoDup (a :: l);
  dr_due : forall b, b ∈ l -> b ∈ due s (process_pending g);
  dr_state : sig_states g' !! t = Some s';
  dr_mask : s_blocked s' = s_blocked s;
  dr_none : due s' (process_pending g') = ∅;
  dr_others : forall u, u <> t -> sig_states g' !! u = sig_states g !! u;
  dr_all : (forall b, b = a \/ b ∈ due s (process_pending g) -> job_control b = false) ->
    forall b, b ∈ due s (process_pending g) -> b = a \/ b ∈ l;
}.

Lemma dispatch_loop_at t si me S u w {B} (f : unit -> world -> res B) fuel signo s g :
  dispatching t S w -> sig_states g !! t = Some s ->
  pending_ok (s_pending s) -> pending_ok (process_pending g) ->
  bad_signo signo = false ->
  handled s signo -> (forall b, b ∈ due s (process_pending g) -> handled s b) ->
  (size (due s (process_pending g) ∖ {[signo]}) < fuel)%nat ->
  exists l s' g', solo (bindr (dispatch_loop fuel t signo si me (at_sigs S g u w)) f) =
    solo (f tt (at_sigs S g' (foldl (deliver s si) u (signo :: l)) w)) /\
    drained t signo l s s' g g'.
Proof.
  intros HS. revert signo s g u. induction fuel as [|fuel IH]; [lia|].
  intros signo s g u Hs Hps Hpp Hgood (a & Ha & Hd) Hhand Hsize. cbn [dispatch_loop mbind M_bind].
  rewrite bindr_assoc, (round_at t signo si s a) by done. cbn zeta.
  set (s1 := round_state signo a s). set (g1 := round_signals t signo a s g).
  destruct (due_round t signo a s g Hgood) as [Hsub Hall]. fold s1 g1 in Hsub, Hall.
  assert (pending_ok (s_pending s1)) as Hps1 by (by apply (pending_delivered signo)).
  assert (pending_ok (process_pending g1)) as Hpp1 by (by apply pending_delivered).
  assert (sig_states g1 !! t = Some s1) as Hs1 by apply lookup_insert_eq.
  assert (forall v, v <> t -> sig_states g1 !! v = sig_states g !! v) as Hoth.
  { intros v Hv. by apply lookup_insert_ne. }
  pose proof (next_due s1 (process_pending g1) Hps1 Hpp1) as Hnext.
  set (n := l4_lsb64 _) in Hnext |- *. 
  destruct (Z.eqb_spec n 0) as [Hz|Hnz].
  - rewrite decide_True in Hnext by done. exists [], s1, g1. split.
    + cbn. unfold deliver. by rewrite Ha.
    + split; try done; [apply NoDup_singleton|set_solver|].
      intros Hj b Hb. left. rewrite Hall in Hnext by auto. destruct (decide (b = signo)); set_solver.
  - rewrite decide_False in Hnext by done. assert (bad_signo n = false) as Hn by by eapply due_good.
    assert (n ∈ due s (process_pending g) /\ n <> signo) as [Hnd Hne] by set_solver.
    assert (forall b, b ∈ due s1 (process_pending g1) -> action s1 b = action s b) as Hact.
    { intros b Hb. apply action_round; [done|by eapply due_good|set_solver]. }
    assert (forall b, b ∈ due s1 (process_pending g1) -> handled s1 b) as Hh1.
    { intros b Hb. unfold handled. rewrite Hact by done. apply Hhand. set_solver. }
    destruct (IH n s1 g1 (effect a signo si u)) as (l & s' & g' & Hrun & [? Hdue ? ? ? Ho Hdone]);
      [done..|by apply Hh1|done| |].
    { assert (size (due s1 (process_pending g1) ∖ {[n]}) < size (due s1 (process_pending g1)))%nat.
      - apply subset_size. set_solver.
      - apply subseteq_size in Hsub. lia. }
    exists (n :: l), s', g'. split.
    + assert (deliver s si u signo = effect a signo si u) as Hdel by (unfold deliver; by rewrite Ha).
      cbn [foldl] in Hrun |- *. rewrite Hdel, Hrun. do 3 f_equal.
      apply (deliver_ext s1 s si (effect a signo si u) (n :: l)).
      intros b [-> | Hb]%elem_of_cons; [by apply Hact | by apply Hact, Hdue].
    + split; try done.
      * constructor; [|done]. set_solver.
      * set_solver.
      * intros v Hv. by rewrite Ho, Hoth.
      * intros Hj b Hb. rewrite Hall in Hdone by auto. destruct (decide (b = signo)); [by left|right].
        apply elem_of_cons. apply Hdone; set_solver.
Qed.
End Dispatch.

(** An assumption on the application, which the library does not enforce: its
    handlers return and change its own memory only.  A handler that sends its own
    signal again prolongs [signal_dispatch] without bound. *)
Definition quiet_handlers `{SignalPort} (eff : Z -> Z -> siginfo_t -> gmap nat Z -> gmap nat Z) : Prop :=
  forall h sig si me w, handler h sig si me w = Done tt (set_umem (eff h sig si (umem w)) w).

(** [l4_lsb64] gives the number of a set bit, counted from 1, and 0 for 0. *)
Definition finds_bit (lsb : Z -> Z) : Prop :=
  lsb 0 = 0 /\ forall x, 0 < x < 2 ^ 64 -> 1 <= lsb x /\ Z.testbit x (lsb x - 1) = true.

Lemma size_due s p : (size (due s p) <= 31)%nat.
Proof.
  etransitivity; [apply (subseteq_size _ (list_to_set (seqZ 1 31)))|by vm_compute].
  intros b Hb%due_good%good_signo. rewrite elem_of_list_to_set, elem_of_seqZ. lia.
Qed.

(** C27: if the handlers return and change only the memory of the application
    ([quiet_handlers]; they send no signals), and if neither the signal of the call
    nor any that is pending and not blocked has its default action (which would end
    the process or panic), then [signal_dispatch] comes to an end.  It runs the
    handler of its signal and then those of other signals, each of them at most once
    and only signals that were pending and not blocked; unless stop or continue
    signals discard one another it runs all of those.  When it returns no signal is
    pending that is not blocked, the signal mask is the one before the call, the
    other threads' signal states are as before and the lock of the signal state is
    free. *)
Theorem signal_dispatch_drains `{SignalPort} eff t si me w s :
  quiet_handlers eff -> finds_bit l4_lsb64 -> (31 < dispatch_fuel)%nat ->
  dispatching t (spins w) w -> sig_states (sigs w) !! t = Some s ->
  pending_ok (s_pending s) -> pending_ok (process_pending (sigs w)) ->
  bad_signo (si_signo si) = false -> handled s (si_signo si) ->
  (forall b, b ∈ due s (process_pending (sigs w)) -> handled s b) ->
  exists l s' g', solo (signal_dispatch t si me w) =
    Done tt (at_sigs (spins w ∖ {[SMutexHeld (MSigState t)]}) g'
               (foldl (deliver eff s si) (umem w) (si_signo si :: l)) w) /\
    drained t (si_signo si) l s s' (sigs w) g'.
Proof.
  intros Hq [Hz Hb] Hfuel HS Hs Hps Hpp Hgood Hh Hhand.
  pose proof (good_signo _ Hgood) as Hrange. replace (signal_dispatch t si me w)
    with (signal_dispatch t si me (at_sigs (spins w) (sigs w) (umem w) w)) by (by rewrite at_sigs_id).
  unfold signal_dispatch, NSIG. cbn [mbind M_bind].
  rewrite (proj2 (Z.ltb_lt 0 (si_signo si))), (proj2 (Z.ltb_lt (si_signo si) 32)) by lia.
  cbn [c_assert andb mret M_ret bindr].
  rewrite assert_locked_at by apply HS.
  destruct (dispatch_loop_at eff Hq Hz Hb t si me (spins w) (umem w) w
    (fun _ w' => unlock (MSigState t) me w') dispatch_fuel (si_signo si) s (sigs w)) as (l & s' & g' & Hrun & Hdr);
    [done..| |].
  { pose proof (size_due s (process_pending (sigs w))).
    assert (due s (process_pending (sigs w)) ∖ {[si_signo si]} ⊆ due s (process_pending (sigs w)))
      as Hsub%subseteq_size by set_solver. lia. }
  exists l, s', g'. split; [|done]. rewrite Hrun.
  rewrite <- (bindr_ret (unlock _ _ _)). by rewrite unlock_at by apply HS.
Qed.

(** ** A concrete port *)

Definition lowest_bit (x : Z) : Z :=
  match find (fun n => Z.testbit x n) (seqZ 0 64) with Some n => n + 1 | None => 0 end.

Lemma lowest_bit_finds : finds_bit lowest_bit.
Proof.
  split; [by vm_compute|]. intros x [Hx0 Hx]. unfold lowest_bit.
  destruct (find _ _) as [n|] eqn:Hf.
  - apply find_some in Hf as [Hin Ht]. apply list_elem_of_In, elem_of_seqZ in Hin.
    split; [lia|]. by replace (n + 1 - 1) with n by lia.
  - exfalso. pose proof (find_none _ _ Hf (Z.log2 x)) as Hn. cbn beta in Hn.
    rewrite Z.bit_log2 in Hn by lia. discriminate Hn.
    apply list_elem_of_In, elem_of_seqZ. split; [apply Z.log2_nonneg|]. apply Z.log2_lt_pow2; lia.
Qed.

(** Handlers note their signal in the memory. *)
Definition demo_eff (h sig : Z) (si : siginfo_t) (u : gmap nat Z) : gmap nat Z :=
  <[Z.to_nat sig := h]> u.

Definition demo_port : SignalPort := {|
  getpid := 1; MINSIGSTKSZ := 4096; l4_lsb64 := lowest_bit;
  l4_msb64 x := if x =? 0 then 0 else Z.log2 x + 1;
  futex_wait _ := mret tt; futex_wake _ := mret tt; signal_dispatch_lowlevel _ _ _ := mret tt;
  handler h sig si := modify (fun w => set_umem (demo_eff h sig si (umem w)) w);
  dispatch_fuel := 32 |}.

(** A thread's signal state with the handler at address 100 for every signal. *)
Definition demo_ss (pending blocked : Z) (waiter : option nat) : signal_state :=
  mkSignalState pending blocked (mkStack 0 0 0) (replicate 32 (mkSigaction 100 0 0))
    (replicate 32 (siginfo_zero 0)) waiter.

(** [n] threads, the signal states [g], and free locks. *)
Definition demo_sig_world (n : nat) (g : signals) : world :=
  set_sigs g (set_rwlocks {[RThreadsLock := mkRwlock 0 None]} (set_mutexes
    (<[MSigLock := mkMutex ANull None 0]>
       (list_to_map (map (fun t => (MSigState t, mkMutex ANull None 0)) (seq 0 n))))
    (demo_world n ANull))).

(** SIGINT is delivered to a thread that has SIGUSR1 pending and blocks nothing. *)
Definition demo_dispatch_world : world :=
  set_spins {[SMutexHeld (MSigState 0)]}
    (demo_sig_world 1 (mkSignals {[0%nat := demo_ss (sigmask SIGUSR1) 0 None]} 0 [] None ∅)).

Lemma demo_due_handled b :
  b ∈ due (demo_ss (sigmask SIGUSR1) 0 None) 0 -> handled (demo_ss (sigmask SIGUSR1) 0 None) b.
Proof.
  intros Hb%due_good%good_signo. eexists (mkSigaction 100 0 0). split; [|done].
  apply lookup_replicate. split; [done|lia].
Qed.

Lemma signal_dispatch_drains_witness :
  exists l s' g', solo (@signal_dispatch demo_port 0 (siginfo_zero SIGINT) (demo_ctx 0) demo_dispatch_world) =
    Done tt (at_sigs (spins demo_dispatch_world ∖ {[SMutexHeld (MSigState 0)]}) g'
               (foldl (deliver demo_eff (demo_ss (sigmask SIGUSR1) 0 None) (siginfo_zero SIGINT))
                  (umem demo_dispatch_world) (SIGINT :: l)) demo_dispatch_world) /\
    drained 0 SIGINT l (demo_ss (sigmask SIGUSR1) 0 None) s' (sigs demo_dispatch_world) g'.
Proof.
  apply (@signal_dispatch_drains demo_port demo_eff 0 (siginfo_zero SIGINT)).
  - done.
  - apply lowest_bit_finds.
  - cbn. lia.
  - split; [split; [by do 2 eexists | done] | split; [by do 2 eexists | done] | set_solver..].
  - done.
  - done.
  - done.
  - done.
  - by eexists.
  - apply demo_due_handled.
Defined.
