(* ===== verification/SignalSpec.v ===== *)
(** * Signal actions, and who gets a signal *)
From Stdlib Require Import ZArith Lia.
From S2P Require Import Prelude Queue SigSet World Machine Platform Sched Mach Demo Attr Mutex Rwlock Threads ThreadOps ThreadFacts Signal SignalFacts.
Local Open Scope Z_scope.

(** ** Actions *)

(** Thread [t] runs in [w], its signal state is [s] and the mutexes are free. *)
Record signal_ready (me : kctx) (t : nat) (s : signal_state) (w : world) : Prop := {
  sr_runs : runs me t w;
  sr_state : sig_states (sigs w) !! t = Some s;
  sr_lock : unused_mutex (MSigState t) w;
  sr_held : SMutexHeld (MSigState t) ∉ spins w;
  sr_spin : SMutexLock (MSigState t) ∉ spins w;
  sr_actions : length (s_actions s) = 32%nat;
}.

Lemma ready_action me t s w sig :
  signal_ready me t s w -> bad_signo sig = false -> exists a, action s sig = Some a.
Proof.
  intros H Hb%good_signo. apply lookup_lt_is_Some. rewrite (sr_actions _ _ _ _ H). lia.
Qed.

Lemma default_action_some sig : bad_signo sig = false -> exists a, default_action sig = Some a.
Proof.
  intros Hb%good_signo.
  assert (Forall (fun sig => is_Some (default_action sig)) (seqZ 1 31)) as HF.
  { apply (bool_decide_unpack _). by vm_compute. }
  rewrite Forall_forall in HF. apply HF, elem_of_seqZ. lia.
Qed.

Lemma ignored_some h sig : bad_signo sig = false -> exists b, ignored h sig = Some b.
Proof.
  intros Hb. unfold ignored. destruct (h =? SIG_IGN); [by eexists|].
  destruct (h =? SIG_DFL); [|by eexists]. destruct (default_action_some sig Hb) as [a ->]. by eexists.
Qed.

(** The signal state after a new action, which ignores the signal or not. *)
Definition new_action (sig : Z) (sa : sigaction_t) (ign : bool) (s : signal_state) : signal_state :=
  mkSignalState (if ign then snd (sigdelset (s_pending s) sig) else s_pending s)
    (snd (sigdelset (snd (sigdelset (s_blocked s) SIGKILL)) SIGSTOP)) (s_stack s)
    (<[Z.to_nat (sig - 1) := sa]> (s_actions s)) (s_info s) (s_sigwaiter s).

Definition acted (t : nat) (sig : Z) (sa : sigaction_t) (ign : bool) (s : signal_state) (g : signals) :
    signals :=
  let g' := set_ss t (new_action sig sa ign s) g in
  if ign then set_process_pending (snd (sigdelset (process_pending g) sig)) g' else g'.

Lemma set_action_at t sig sa s ign me S g u w {B} (f : unit -> world -> res B) :
  sig_states g !! t = Some s -> ignored (sa_handler sa) sig = Some ign ->
  solo (bindr (set_action t sig sa me (at_sigs S g u w)) f) =
  solo (f tt (at_sigs S (acted t sig sa ign s g) u w)).
Proof.
  intros Hs Hi. unfold set_action, pending_del, process_del. cbn.
  rewrite (update_ss_at t _ s) by done. cbn. 
  do 2 (erewrite update_ss_at by apply set_ss_lookup; cbn). rewrite Hi, !set_ss_twice.
  unfold acted, new_action. destruct ign; [|done].
  cbn. erewrite update_ss_at by apply set_ss_lookup. cbn. by rewrite set_ss_twice.
Qed.

(** C33: [sigaction] fails with EINVAL and changes nothing for a number that is
    not a signal.  Else it returns the old action, stores the new one as given,
    removes SIGKILL and SIGSTOP from the thread's signal mask, and discards the
    signal if it is pending for the thread or for the process and the new action
    ignores it. *)
Theorem sigaction_result me t s sig sa w :
  signal_ready me t s w ->
  if bad_signo sig
  then solo (sigaction sig (Some sa) true me w) =
       Done (-1, None) (set_env (set_errnos (<[ktid me := EINVAL]> (errnos (env w))) (env w)) w)
  else exists old s' p', action s sig = Some old /\
    solo (sigaction sig (Some sa) true me w) =
      Done (0, Some old)
        (at_sigs (spins w) (set_process_pending p' (set_ss t s' (sigs w))) (umem w) w) /\
    (forall b, bad_signo b = false -> action s' b = if decide (b = sig) then Some sa else action s b) /\
    members (s_blocked s') = members (s_blocked s) ∖ {[SIGKILL; SIGSTOP]} /\
    (let lost := if decide (ignored (sa_handler sa) sig = Some true) then {[sig]} else ∅ in
     members (s_pending s') = members (s_pending s) ∖ lost /\
     members p' = members (process_pending (sigs w)) ∖ lost).
Proof.
  intros H. destruct (bad_signo sig) eqn:Hbad.
  - unfold sigaction. rewrite Hbad. done.
  - destruct (ready_action me t s w sig H Hbad) as [old Hold].
    destruct (ignored_some (sa_handler sa) sig Hbad) as [ign Hign].
    exists old, (new_action sig sa ign s), (process_pending (acted t sig sa ign s (sigs w))).
    split; [done|]. split_and!.
    + replace (sigaction sig (Some sa) true me w)
        with (sigaction sig (Some sa) true me (at_sigs (spins w) (sigs w) (umem w) w))
        by (by rewrite at_sigs_id).
      destruct H as [Hr Hs Hm Hh Hl _]. unfold sigaction, get_action. rewrite Hbad. cbn.
      rewrite (runs_at me t) by done. cbn. rewrite lock_at by done.
      rewrite (get_ss_at t s) by done. cbn. fold (action s sig). rewrite Hold. cbn.
      rewrite (set_action_at t sig sa s ign) by done. rewrite unlock_at by (done || set_solver).
      rewrite spins_cycle by done. by destruct ign.
    + intros b Hb. unfold action, new_action. cbn.
      destruct (decide (b = sig)) as [-> | Hne].
      * apply list_lookup_insert_eq. rewrite (sr_actions _ _ _ _ H). apply good_signo in Hbad. lia.
      * apply good_signo in Hb, Hbad. apply list_lookup_insert_ne. lia.
    + unfold new_action. cbn [s_blocked]. rewrite !members_delset by done. set_solver.
    + rewrite Hign. destruct ign.
      * rewrite decide_True by done. cbn zeta. unfold acted, new_action.
        cbn [s_pending process_pending set_process_pending]. by rewrite !members_delset.
      * rewrite decide_False by done. cbn. set_solver.
Qed.

Lemma sigaction_result_witness :
  exists old s' p', action (demo_ss (sigmask SIGUSR1) (sigmask SIGKILL) None) SIGUSR1 = Some old /\
    solo (sigaction SIGUSR1 (Some (mkSigaction SIG_IGN 0 0)) true (demo_ctx 0)
      (demo_sig_world 1 (mkSignals {[0%nat := demo_ss (sigmask SIGUSR1) (sigmask SIGKILL) None]} 0 [] None ∅))) =
      Done (0, Some old) (at_sigs ∅ (set_process_pending p' (set_ss 0 s'
        (mkSignals {[0%nat := demo_ss (sigmask SIGUSR1) (sigmask SIGKILL) None]} 0 [] None ∅)))
        {[0%nat := 0]} (demo_sig_world 1
          (mkSignals {[0%nat := demo_ss (sigmask SIGUSR1) (sigmask SIGKILL) None]} 0 [] None ∅))) /\
    members (s_pending s') = members (sigmask SIGUSR1) ∖ {[SIGUSR1]}.
Proof.
  destruct (sigaction_result (demo_ctx 0) 0 (demo_ss (sigmask SIGUSR1) (sigmask SIGKILL) None)
    SIGUSR1 (mkSigaction SIG_IGN 0 0)
    (demo_sig_world 1 (mkSignals {[0%nat := demo_ss (sigmask SIGUSR1) (sigmask SIGKILL) None]} 0 [] None ∅)))
    as (old & s' & p' & Ho & Hrun & _ & _ & Hp & _).
  - split; [apply (demo_runs 1 ANull 0); lia | done | split; [by do 2 eexists | done] | set_solver.. | done].
  - exists old, s', p'. split; [exact Ho|]. split; [exact Hrun|]. exact Hp.
Defined.

(** ** The list of the waiters *)

(** The waiters [l] are linked in both directions. *)
Definition links (m : gmap nat sigwaiter) (l : list nat) : Prop :=
  forall l1 u l2, l = l1 ++ u :: l2 ->
  exists x, m !! u = Some x /\ sw_prev x = last l1 /\ sw_next x = head l2.

Record waiting_list (l : list nat) (g : signals) : Prop := {
  wl_head : sigwaiters g = head l;
  wl_nodup : NoDup l;
  wl_links : links (waiter_of g) l;
}.

(** The lists without the waiter [u], whose contents are [x]. *)
Definition unlinked (x : sigwaiter) (g : signals) : signals :=
  let m := match sw_next x with
           | Some n => alter (with_sw_prev (sw_prev x)) n (waiter_of g)
           | None => waiter_of g
           end in
  match sw_prev x with
  | Some p => set_waiter_of (alter (with_sw_next (sw_next x)) p m) g
  | None => set_sigwaiters (sw_next x) (set_waiter_of m g)
  end.

Lemma put_waiter_alter n f y me S g u w :
  waiter_of g !! n = Some y ->
  put_waiter n (f y) me (at_sigs S g u w) =
  Done tt (at_sigs S (set_waiter_of (alter f n (waiter_of g)) g) u w).
Proof.
  intros Hy. unfold put_waiter. rewrite put_sigs_at. do 3 f_equal. apply map_eq. intros i.
  destruct (decide (i = n)) as [-> | Hne].
  - by rewrite lookup_insert_eq, lookup_alter_eq, Hy.
  - by rewrite lookup_insert_ne, lookup_alter_ne.
Qed.

Lemma links_next m l1 u l2 x n :
  links m (l1 ++ u :: l2) -> NoDup (l1 ++ u :: l2) -> m !! u = Some x -> sw_next x = Some n ->
  u <> n /\ exists y, m !! n = Some y.
Proof.
  intros Hl Hn Hu Hx. destruct (Hl _ _ _ eq_refl) as (x' & Hu' & _ & Hnext).
  assert (x' = x) as -> by congruence. rewrite Hx in Hnext.
  destruct l2 as [|v l2]; [done|]. injection Hnext as <-.
  apply NoDup_app in Hn as (_ & _ & Hn). split; [apply NoDup_cons in Hn as [? _]; set_solver|].
  destruct (Hl (l1 ++ [u]) n l2) as (y & Hy & _); [by rewrite <- app_assoc|]. eauto.
Qed.

Lemma links_prev m l1 u l2 x p :
  links m (l1 ++ u :: l2) -> m !! u = Some x -> sw_prev x = Some p -> exists y, m !! p = Some y.
Proof.
  intros Hl Hu Hx. destruct (Hl _ _ _ eq_refl) as (x' & Hu' & Hprev & _).
  assert (x' = x) as -> by congruence. rewrite Hx in Hprev. symmetry in Hprev.
  apply last_Some in Hprev as [l1' ->].
  destruct (Hl l1' p (u :: l2)) as (y & Hy & _); [by rewrite <- app_assoc|]. eauto.
Qed.

Lemma unlink_at l1 u l2 x me S g mem w :
  waiting_list (l1 ++ u :: l2) g -> waiter_of g !! u = Some x ->
  unlink_waiter u me (at_sigs S g mem w) = Done tt (at_sigs S (unlinked x g) mem w).
Proof.
  intros [Hh Hn Hl] Hx. unfold unlink_waiter, unlinked. cbn. rewrite (get_waiter_at u x) by done. cbn.
  destruct (sw_next x) as [n|] eqn:Hnext.
  - destruct (links_next _ _ _ _ _ _ Hl Hn Hx Hnext) as (_ & y & Hy). cbn.
    rewrite (get_waiter_at n y) by done. cbn.
    rewrite (put_waiter_alter n (with_sw_prev (sw_prev x)) y) by done. cbn.
    destruct (sw_prev x) as [p|] eqn:Hprev; [|done].
    destruct (links_prev _ _ _ _ _ _ Hl Hx Hprev) as (z & Hz). cbn.
    assert (exists z', alter (with_sw_prev (Some p)) n (waiter_of g) !! p = Some z') as [z' Hz'].
    { destruct (decide (p = n)) as [-> | Hne].
      - rewrite lookup_alter_eq, Hy. eauto.
      - rewrite lookup_alter_ne by done. eauto. }
    rewrite (get_waiter_at p z') by done. cbn. by rewrite (put_waiter_alter p (with_sw_next (Some n))).
  - cbn. destruct (sw_prev x) as [p|] eqn:Hprev.
    + destruct (links_prev _ _ _ _ _ _ Hl Hx Hprev) as (z & Hz). cbn.
      rewrite (get_waiter_at p z) by done. cbn. by rewrite (put_waiter_alter p (with_sw_next None)).
    + cbn. rewrite put_sigs_at. by destruct g.
Qed.

Lemma unlinked_head l1 u l2 x g :
  waiting_list (l1 ++ u :: l2) g -> waiter_of g !! u = Some x ->
  sw_prev x = last l1 /\ sw_next x = head l2.
Proof.
  intros [_ _ Hl] Hx. destruct (Hl _ _ _ eq_refl) as (x' & Hx' & ? & ?). by simplify_eq.
Qed.

(** What is stored for a waiter after [unlinked]: the neighbours of [u] changed. *)
Lemma unlinked_lookup x g v y :
  waiter_of g !! v = Some y ->
  waiter_of (unlinked x g) !! v = Some
    (let y := if decide (sw_next x = Some v) then with_sw_prev (sw_prev x) y else y in
     if decide (sw_prev x = Some v) then with_sw_next (sw_next x) y else y).
Proof.
  intros Hy. unfold unlinked.
  assert (match sw_next x with
          | Some n => alter (with_sw_prev (sw_prev x)) n (waiter_of g)
          | None => waiter_of g end !! v =
          Some (if decide (sw_next x = Some v) then with_sw_prev (sw_prev x) y else y)) as Hm.
  { destruct (sw_next x) as [n|]; [|by rewrite decide_False].
    destruct (decide (n = v)) as [-> | Hne].
    - by rewrite lookup_alter_eq, Hy, decide_True.
    - rewrite lookup_alter_ne, decide_False by congruence. done. }
  destruct (sw_prev x) as [p|] eqn:Hp; cbn.
  - destruct (decide (p = v)) as [-> | Hne].
    + by rewrite lookup_alter_eq, Hm, (decide_True (P := Some v = Some v)).
    + rewrite lookup_alter_ne, (decide_False (P := Some p = Some v)) by congruence. done.
  - by rewrite Hm.
Qed.

(** The neighbours of [v] in a list from which [u] is removed. *)
Lemma removed_links m l1 u l2 x a v b :
  links m (l1 ++ u :: l2) -> NoDup (l1 ++ u :: l2) -> m !! u = Some x -> l1 ++ l2 = a ++ v :: b ->
  exists y, m !! v = Some y /\
    last a = (if decide (sw_next x = Some v) then last l1 else sw_prev y) /\
    head b = (if decide (sw_prev x = Some v) then head l2 else sw_next y).
Proof.
  intros Hl Hn Hx Hab. pose proof Hn as (Hn1 & Hdis & Hn2)%NoDup_app.
  apply NoDup_cons in Hn2 as [Hu Hn2].
  destruct (Hl _ _ _ eq_refl) as (x' & Hx' & Hprev & Hnext). simplify_eq. rewrite Hprev, Hnext.
  assert (forall (l : list nat) w, w ∉ l -> last l <> Some w) as Hlast.
  { intros l w' Hw [l' ->]%last_Some. set_solver. }
  assert (forall (l : list nat) w, w ∉ l -> head l <> Some w) as Hhead.
  { intros [|? l] w' Hw; [done|]. cbn. intros [= ->]. set_solver. }
  apply app_eq_inv in Hab as [(k & -> & Hk) | (k & -> & ->)]; [destruct k as [|c k]; cbn in Hk|].
  - subst l2. rewrite app_nil_r in *. destruct (Hl (a ++ [u]) v b) as (y & Hy & _ & Hb); [by rewrite <- app_assoc|].
    exists y. split; [done|]. rewrite decide_True by done. rewrite decide_False; [done|].
    apply Hlast. intros Hin. by apply (Hdis v Hin), elem_of_cons; right; left.
  - injection Hk as <- ->. rewrite <- app_assoc in Hl. destruct (Hl a v (k ++ u :: l2) eq_refl) as (y & Hy & Ha & Hb).
    exists y. split; [done|]. rewrite decide_False, Ha, Hb.
    + split; [done|]. apply NoDup_app in Hn1 as (_ & _ & [Hv _]%NoDup_cons).
      destruct k as [|d k]; [by rewrite last_snoc, decide_True|].
      rewrite decide_False; [done|]. rewrite last_app_cons. cbn. apply Hlast. set_solver.
    + apply Hhead. intros Hin. apply (Hdis v); [set_solver|]. by right.
  - destruct (Hl (l1 ++ u :: k) v b) as (y & Hy & Ha & Hb); [by rewrite <- app_assoc|].
    exists y. split; [done|]. rewrite Ha, Hb, last_app_cons.
    rewrite (decide_False (P := last l1 = Some v)) by (apply Hlast; intros Hin; apply (Hdis v Hin); set_solver).
    split; [|done]. destruct k as [|d k]; [by rewrite app_nil_r, decide_True|].
    rewrite last_app_cons, decide_False; [done|].
    apply NoDup_app in Hn2 as (_ & Hd & _). intros [= ->]. apply (Hd v); set_solver.
Qed.

Lemma unlinked_waiting l1 u l2 x g :
  waiting_list (l1 ++ u :: l2) g -> waiter_of g !! u = Some x ->
  waiting_list (l1 ++ l2) (unlinked x g).
Proof.
  intros HL Hx. pose proof (unlinked_head _ _ _ _ _ HL Hx) as [Hprev Hnext].
  destruct HL as [Hh Hn Hl]. pose proof Hn as (Hn1 & Hdis & Hn2)%NoDup_app.
  apply NoDup_cons in Hn2 as [Hu Hn2]. split.
  - unfold unlinked. rewrite Hprev, Hnext. destruct l1 as [|p l1] using rev_ind; [by destruct l2|].
    rewrite last_snoc. cbn. rewrite Hh. by destruct l1.
  - apply NoDup_app. split; [done|]. split; [|done]. intros v Hv1 Hv2. by apply (Hdis v); [|right].
  - intros a v b Hab.
    destruct (removed_links _ _ _ _ _ _ _ _ Hl Hn Hx Hab) as (y & Hy & Ha & Hb).
    eexists. split; [by apply unlinked_lookup|]. rewrite Ha, Hb, Hprev, Hnext.
    by repeat case_decide.
Qed.

(** ** [kill] *)

(** The signal states after the waiter [u] of thread [t] took the signal. *)
Definition taken (u t : nat) (signo : Z) (x : sigwaiter) (s : signal_state) (g : signals) : signals :=
  let s' := with_s_pending (snd (sigdelset (s_pending s) signo)) s in
  let p' := snd (sigdelset (process_pending g) signo) in
  let x' := with_sw_info (siginfo_zero signo) x in
  let g1 := set_waiter_of (<[u := x']> (waiter_of g)) g in
  set_process_pending p' (set_ss t s' (unlinked x' g1)).

Section Kill.
Context `{SignalPort}.

(** What the waiting thread [t] and the held locks [S] must be like. *)
Record waiting_thread (t : nat) (s : signal_state) (S : gset spin_id) (g : signals) (w : world) : Prop := {
  wt_state : sig_states g !! t = Some s;
  wt_lock : unused_mutex (MSigState t) w;
  wt_sig : unused_mutex MSigLock w;
  wt_free : SMutexHeld (MSigState t) ∉ S;
  wt_spin : SMutexLock (MSigState t) ∉ S;
  wt_sig_spin : SMutexLock MSigLock ∉ S;
}.

Lemma sigmask_of_at signo me w :
  bad_signo signo = false -> sigmask_of signo me w = Done (sigmask signo) w.
Proof.
  intros Hb%good_signo. unfold sigmask_of.
  by rewrite (proj2 (Z.leb_le 1 signo)), (proj2 (Z.leb_le signo 64)) by lia.
Qed.

(** A waiter's links and info are independent. *)
Lemma info_waiting l u x i g :
  waiting_list l g -> waiter_of g !! u = Some x ->
  waiting_list l (set_waiter_of (<[u := with_sw_info i x]> (waiter_of g)) g).
Proof.
  intros [Hh Hn Hl] Hx. split; [done..|]. intros l1 v l2 ->. cbn.
  destruct (Hl l1 v l2 eq_refl) as (y & Hy & Hp & Hs). destruct (decide (u = v)) as [-> | Hne].
  - rewrite lookup_insert_eq. simplify_eq. eauto.
  - rewrite lookup_insert_ne by done. eauto.
Qed.

Lemma unlinked_frame x g :
  sig_states (unlinked x g) = sig_states g /\ process_pending (unlinked x g) = process_pending g.
Proof. unfold unlinked. by destruct (sw_prev x). Qed.

(** The waiter [u] is not its own neighbour. *)
Lemma unlinked_self l1 u l2 x g :
  waiting_list (l1 ++ u :: l2) g -> waiter_of g !! u = Some x ->
  waiter_of (unlinked x g) !! u = Some x.
Proof.
  intros HL Hx. destruct (unlinked_head _ _ _ _ _ HL Hx) as [Hprev Hnext].
  destruct HL as [_ (_ & Hdis & [Hu _]%NoDup_cons)%NoDup_app _].
  rewrite (unlinked_lookup x g u x Hx). cbn zeta.
  rewrite (decide_False (P := sw_next x = Some u)), decide_False; [done| |].
  - rewrite Hprev. intros [l' ->]%last_Some. apply (Hdis u); set_solver.
  - rewrite Hnext. destruct l2; [done|]. cbn. intros [= ->]. set_solver.
Qed.

(** Waking the waiter [u], when taking it off the list leads from [g] to [g1]. *)
Lemma unblock_with u x t s me S g g1 mem w {B} (f : unit -> world -> res B) :
  unlink_waiter u me (at_sigs S g mem w) = Done tt (at_sigs S g1 mem w) ->
  sig_states g1 = sig_states g -> process_pending g1 = process_pending g ->
  waiter_of g !! u = Some x -> waiter_of g1 !! u = Some x -> sw_ss x = t ->
  waiting_thread t s (S ∖ {[SMutexHeld (MSigState t)]}) g w ->
  SMutexHeld (MSigState t) ∈ S -> SMutexHeld MSigLock ∈ S ->
  solo (bindr (sigwaiter_unblock u me (at_sigs S g mem w)) f) =
  let signo := si_signo (sw_info x) in
  solo (bindr (futex_wake u me (at_sigs (S ∖ {[SMutexHeld (MSigState t); SMutexHeld MSigLock]})
    (set_process_pending (snd (sigdelset (process_pending g) signo))
      (set_ss t (with_s_pending (snd (sigdelset (s_pending s) signo)) s) g1)) mem w)) f).
Proof.
  intros Hun Hf1 Hf2 Hx Hx1 <- [Hs Hm Hg _ Hsp Hgsp] Hh1 Hh2. cbn zeta. unfold sigwaiter_unblock.
  set (signo := si_signo (sw_info x)) in *. cbn [mbind M_bind].
  rewrite (get_waiter_at u x) by done. cbn [bindr].
  rewrite bindr_assoc, assert_locked_at by (done || set_solver).
  rewrite bindr_assoc, assert_locked_at by (done || set_solver).
  rewrite Hun. cbn [bindr]. rewrite (get_waiter_at u x) by done. cbn [bindr].
  fold signo. unfold process_del. rewrite put_sigs_at. cbn [bindr]. unfold pending_del.
  rewrite (update_ss_at (sw_ss x) _ s) by (cbn; by rewrite Hf1). cbn [bindr].
  rewrite bindr_assoc, unlock_at by (done || set_solver).
  rewrite bindr_assoc, unlock_at by (done || set_solver).
  rewrite Hf2. do 4 f_equal. set_solver.
Qed.

Lemma unblock_at l1 u l2 x t s me S g mem w {B} (f : unit -> world -> res B) :
  waiting_list (l1 ++ u :: l2) g -> waiter_of g !! u = Some x -> sw_ss x = t ->
  waiting_thread t s (S ∖ {[SMutexHeld (MSigState t)]}) g w ->
  SMutexHeld (MSigState t) ∈ S -> SMutexHeld MSigLock ∈ S ->
  solo (bindr (sigwaiter_unblock u me (at_sigs S g mem w)) f) =
  let signo := si_signo (sw_info x) in
  solo (bindr (futex_wake u me (at_sigs (S ∖ {[SMutexHeld (MSigState t); SMutexHeld MSigLock]})
    (set_process_pending (snd (sigdelset (process_pending g) signo))
      (set_ss t (with_s_pending (snd (sigdelset (s_pending s) signo)) s) (unlinked x g))) mem w)) f).
Proof.
  intros HL Hx Ht HT Hh1 Hh2. destruct (unlinked_frame x g) as [Hf1 Hf2].
  apply (unblock_with u x t s me S g (unlinked x g)); try done.
  - by apply (unlink_at l1 u l2 x).
  - by eapply unlinked_self.
Qed.

(** The waiter waits for the signal. *)
Definition wants (g : signals) (signo : Z) (u : nat) : Prop :=
  exists x, waiter_of g !! u = Some x /\ Z.testbit (sw_signals x) (signo - 1) = true.

(** The search passes the waiters that do not want the signal. *)
Lemma offer_skip l0 l1 u l2 fuel signo me S g mem w :
  waiting_list (l0 ++ l1 ++ u :: l2) g -> bad_signo signo = false ->
  (forall v, v ∈ l1 -> ~ wants g signo v) -> (length l1 < fuel)%nat ->
  offer fuel (head (l1 ++ u :: l2)) signo me (at_sigs S g mem w) =
  offer (fuel - length l1) (Some u) signo me (at_sigs S g mem w).
Proof.
  intros HL Hb. revert l0 fuel HL. induction l1 as [|v l1 IH]; intros l0 fuel HL Hw Hf.
  { cbn. by rewrite Nat.sub_0_r. }
  destruct fuel as [|fuel]; [lia|]. cbn in Hf |- *.
  destruct (wl_links _ _ HL l0 v (l1 ++ u :: l2) eq_refl) as (x & Hx & _ & Hnext).
  rewrite (get_waiter_at v x) by done. cbn. rewrite sigmask_of_at by done. cbn.
  rewrite land_sigmask by done. destruct (Z.testbit (sw_signals x) (signo - 1)) eqn:Ht; cbn.
  - exfalso. apply (Hw v); [by left|]. by exists x.
  - rewrite Hnext. apply (IH (l0 ++ [v])); [by rewrite <- app_assoc | | lia].
    intros v' Hv'. apply Hw. by right.
Qed.

(** That the signal is deleted twice makes no difference. *)
Lemma taken_twice u t signo x s g :
  let s1 := with_s_pending (snd (sigdelset (s_pending s) signo)) s in
  let g1 := set_ss t s1 (set_process_pending (snd (sigdelset (process_pending g) signo)) g) in
  let x1 := with_sw_info (siginfo_zero signo) x in
  let g2 := set_waiter_of (<[u := x1]> (waiter_of g1)) g1 in
  set_process_pending (snd (sigdelset (process_pending g2) signo))
    (set_ss t (with_s_pending (snd (sigdelset (s_pending s1) signo)) s1) (unlinked x1 g2)) =
  taken u t signo x s g.
Proof.
  unfold taken, unlinked. cbn. rewrite !delset_twice.
  destruct (sw_prev x); unfold set_process_pending, set_ss; cbn; by rewrite insert_insert_eq.
Qed.

(** The waiter takes the signal: its information is that of [signo], which is no
    longer pending. *)
Lemma offer_take l1 u l2 fuel signo x s me S g mem w {B} (f : bool -> world -> res B) :
  waiting_list (l1 ++ u :: l2) g -> bad_signo signo = false -> wants g signo u ->
  waiter_of g !! u = Some x -> waiting_thread (sw_ss x) s S g w -> SMutexHeld MSigLock ∈ S ->
  solo (bindr (offer (Datatypes.S fuel) (Some u) signo me (at_sigs S g mem w)) f) =
  solo (bindr (futex_wake u me (at_sigs (S ∖ {[SMutexHeld MSigLock]}) (taken u (sw_ss x) signo x s g) mem w))
          (fun _ w' => f true w')).
Proof.
  intros HL Hb (x' & Hx' & Ht) Hx HT Hg. assert (x' = x) as -> by congruence. cbn [offer mbind M_bind].
  rewrite (get_waiter_at u x) by done. cbn [bindr]. rewrite sigmask_of_at by done. cbn [bindr].
  rewrite land_sigmask by done. rewrite Ht. cbn.
  unfold process_del. rewrite put_sigs_at. cbn.
  destruct HT as [Hs Hm Hgm Hfree Hsp Hgsp].
  rewrite !bindr_assoc, lock_at by done. unfold pending_del.
  rewrite (update_ss_at _ _ s) by done. cbn [bindr].
  rewrite (get_waiter_at u x) by done. cbn [bindr]. unfold put_waiter. rewrite put_sigs_at. cbn [bindr].
  set (s1 := with_s_pending _ s).
  assert (waiting_list (l1 ++ u :: l2) (set_ss (sw_ss x) s1 (set_process_pending (snd (sigdelset (process_pending g) signo)) g))) as HL'.
  { destruct HL as [? ? ?]. by split. }
  pose proof (info_waiting _ u x (siginfo_zero signo) _ HL' Hx) as HL2.
  rewrite bindr_assoc.
  rewrite (unblock_at l1 u l2 (with_sw_info (siginfo_zero signo) x) (sw_ss x) s1);
    [|exact HL2|apply lookup_insert_eq|done| |set_solver|set_solver].
  - cbn zeta. cbn [sw_info with_sw_info siginfo_zero si_signo]. 
    replace (_ ∖ {[SMutexHeld (MSigState (sw_ss x)); SMutexHeld MSigLock]})
      with (S ∖ {[SMutexHeld MSigLock]}) by set_solver.
    by rewrite <- (taken_twice u (sw_ss x) signo x s g).
  - split; [apply lookup_insert_eq|done|done|set_solver..].
Qed.
End Kill.

Lemma waiting_size l g : waiting_list l g -> (length l <= size (waiter_of g))%nat.
Proof.
  intros [_ Hn Hl]. rewrite <- size_dom. rewrite <- (size_list_to_set (C := gset nat) l) by done.
  apply subseteq_size. intros u Hu%elem_of_list_to_set. apply elem_of_dom.
  apply list_elem_of_split in Hu as (l1 & l2 & ->). destruct (Hl _ _ _ eq_refl) as (x & Hx & _).
  by exists x.
Qed.

(** C26: a signal that [kill] sends to the process goes to exactly one thread that
    waits for it, if there is one: the first in the list of the waiters.  This
    one is taken off the list, the rest of which is as before, its information is
    the signal, and it is woken; the signal is pending neither for the process
    nor for that thread any more, and nothing else changes in the signal states of
    the threads. *)
Theorem kill_wakes_first_waiter `{SignalPort} l1 u l2 x s signo me w :
  bad_signo signo = false ->
  waiting_list (l1 ++ u :: l2) (sigs w) ->
  (forall v, v ∈ l1 -> ~ wants (sigs w) signo v) -> wants (sigs w) signo u ->
  waiter_of (sigs w) !! u = Some x -> waiting_thread (sw_ss x) s (spins w) (sigs w) w ->
  SMutexHeld MSigLock ∉ spins w ->
  exists g', solo (kill getpid signo me w) =
      solo (bindr (futex_wake u me (at_sigs (spins w) g' (umem w) w)) (fun _ w' => Done (inl 0) w')) /\
    waiting_list (l1 ++ l2) g' /\
    sw_info <$> waiter_of g' !! u = Some (siginfo_zero signo) /\
    members (process_pending g') = members (process_pending (sigs w)) ∖ {[signo]} /\
    (exists s', sig_states g' = <[sw_ss x := s']> (sig_states (sigs w)) /\
      s' = with_s_pending (s_pending s') s /\ members (s_pending s') = members (s_pending s) ∖ {[signo]}).
Proof.
  intros Hb HL Hskip Hu Hx HT Hfree. set (g := sigs w) in *.
  set (x' := with_sw_info (siginfo_zero signo) x). set (g1 := set_waiter_of (<[u := x']> (waiter_of g)) g).
  pose proof (info_waiting _ u x (siginfo_zero signo) _ HL Hx) as HL1. fold x' g1 in HL1.
  assert (waiter_of g1 !! u = Some x') as Hx1 by apply lookup_insert_eq.
  exists (taken u (sw_ss x) signo x s g). split_and!.
  - replace (kill getpid signo me w) with (kill getpid signo me (at_sigs (spins w) g (umem w) w))
      by (by rewrite at_sigs_id).
    unfold kill. rewrite Z.eqb_refl. cbn [negb mbind M_bind].
    rewrite lock_at by (done || apply HT). rewrite gets_at. cbn [bindr]. rewrite (wl_head _ _ HL).
    rewrite (gets_at (fun g => Datatypes.S (size (waiter_of g)))). cbn [bindr].
    pose proof (waiting_size _ _ HL) as Hsize. rewrite length_app in Hsize. cbn in Hsize.
    rewrite (offer_skip [] l1 u l2) by (done || lia). cbn beta.
    destruct (Datatypes.S (size (waiter_of g)) - length l1)%nat as [|n] eqn:Hn; [lia|].
    rewrite (offer_take l1 u l2 n signo x s) by (done || set_solver || (destruct HT; split; done || set_solver)).
    by rewrite spins_cycle.
  - pose proof (unlinked_waiting _ _ _ _ _ HL1 Hx1) as [? ? ?]. by split.
  - unfold taken. fold x' g1. cbn. by rewrite (unlinked_self l1 u l2 x' g1).
  - unfold taken. cbn [process_pending set_process_pending]. by apply members_delset.
  - exists (with_s_pending (snd (sigdelset (s_pending s) signo)) s). split_and!.
    + unfold taken. fold x' g1. cbn. by rewrite (proj1 (unlinked_frame x' g1)).
    + done.
    + cbn [s_pending with_s_pending]. by apply members_delset.
Qed.

(** Threads 1 and 2 wait, the last one for SIGUSR2. *)
Definition demo_waiter (t : nat) (next prev : option nat) (set : Z) : sigwaiter :=
  mkSigwaiter next prev t set (siginfo_zero 0).

Definition demo_waiting_signals : signals :=
  mkSignals {[1%nat := demo_ss 0 0 (Some 1%nat); 2%nat := demo_ss 0 0 (Some 2%nat)]} 0 [] (Some 1%nat)
    {[1%nat := demo_waiter 1 (Some 2%nat) None (sigmask SIGUSR1);
      2%nat := demo_waiter 2 None (Some 1%nat) (sigmask SIGUSR2)]}.

Lemma demo_waiting_list : waiting_list [1%nat; 2%nat] demo_waiting_signals.
Proof.
  split; [done| |].
  - repeat constructor; set_solver.
  - intros l1 u l2 Hl. destruct l1 as [|a [|b l1]].
    + injection Hl as <- <-. by eexists.
    + injection Hl as <- <- <-. by eexists.
    + by destruct l1.
Qed.

Lemma kill_wakes_first_waiter_witness :
  exists g', solo (@kill demo_port 1 SIGUSR2 (demo_ctx 0) (demo_sig_world 3 demo_waiting_signals)) =
      Done (inl 0) (at_sigs ∅ g' {[0%nat := 0]} (demo_sig_world 3 demo_waiting_signals)) /\
    waiting_list [1%nat] g'.
Proof.
  destruct (@kill_wakes_first_waiter demo_port [1%nat] 2 [] (demo_waiter 2 None (Some 1%nat) (sigmask SIGUSR2))
    (demo_ss 0 0 (Some 2%nat)) SIGUSR2 (demo_ctx 0) (demo_sig_world 3 demo_waiting_signals)) as (g' & Hrun & Hl & _).
  - done.
  - apply demo_waiting_list.
  - intros v Hv%list_elem_of_singleton (x & Hx & Ht). subst v. injection Hx as <-. by vm_compute in Ht.
  - by eexists.
  - done.
  - split; [done | split; [by do 2 eexists | done] | split; [by do 2 eexists | done] | set_solver..].
  - set_solver.
  - exists g'. split; [exact Hrun | exact Hl].
Defined.

(** ** A thread that was woken for a signal but did not run yet *)

(** What hurd/futex.h is used for: a thread that waits is woken by a call of
    [futex_wake], and calls before it runs make no difference. *)
Record message_futex `{SignalPort} : Prop := {
  mf_wait u me w : futex_wait u me w = Susp (RRecv u None) w (fun _ w' => Done tt w');
  mf_wake u me w : futex_wake u me w = Done tt (set_mail (<[u := 1%nat]> (mail w)) w);
}.
#[global] Arguments message_futex : clear implicits.

(** Thread [u] is in [sigwait] for the signals [set] with the information of the
    signal [i].  The others that wait are [l]; the list of the waiters is [l0]. *)
Record serving (l0 l : list nat) (u : nat) (set i : Z) (s : signal_state) (g : signals) : Prop := {
  sg_list : waiting_list l0 g;
  sg_new : u ∉ l;
  sg_state : sig_states g !! u = Some s;
  sg_waits : s_sigwaiter s = Some u;
  sg_waiter : waiter_of g !! u = Some (mkSigwaiter (head l) None u set (siginfo_zero i));
}.

(** The entry of a thread that is not in the list does not matter to it. *)
Lemma waiting_insert l u x g :
  waiting_list l g -> u ∉ l -> waiting_list l (set_waiter_of (<[u := x]> (waiter_of g)) g).
Proof.
  intros [Hh Hn Hl] Hu. split; [done..|]. intros l1 v l2 ->. cbn.
  rewrite lookup_insert_ne by set_solver. by apply Hl.
Qed.

(** A thread that is put at the head of the list. *)
Lemma waiting_cons l u x g :
  waiting_list l g -> u ∉ l -> sw_next x = head l -> sw_prev x = None ->
  let m := match head l with
           | Some n => alter (with_sw_prev (Some u)) n (waiter_of g)
           | None => waiter_of g
           end in
  waiting_list (u :: l) (set_sigwaiters (Some u) (set_waiter_of (<[u := x]> m) g)).
Proof.
  intros [Hh Hn Hl] Hu Hnext Hprev m. split; [done|by constructor|]. intros [|v l1] v' l2 Heq; cbn.
  - injection Heq as <- <-. rewrite lookup_insert_eq. by exists x.
  - injection Heq as <- ->. rewrite lookup_insert_ne by set_solver.
    destruct (Hl l1 v' l2 eq_refl) as (y & Hy & Hyp & Hyn). unfold m.
    destruct l1 as [|n l1]; cbn.
    + rewrite lookup_alter_eq, Hy. by eexists.
    + apply NoDup_cons in Hn as [Hn _]. rewrite lookup_alter_ne by set_solver. exists y.
      split; [done|]. split; [|done]. rewrite Hyp. by destruct l1.
Qed.

(** A waiter that is not in the list but points to its head leaves the list as it is. *)
Lemma unlinked_again l x g :
  waiting_list l g -> sw_next x = head l -> sw_prev x = None -> unlinked x g = g.
Proof.
  intros [Hh Hn Hl] Hnext Hprev. unfold unlinked. rewrite Hnext, Hprev, <- Hh.
  assert (match sigwaiters g with
          | Some n => alter (with_sw_prev None) n (waiter_of g)
          | None => waiter_of g end = waiter_of g) as ->; [|by destruct g].
  rewrite Hh. destruct l as [|n l]; [done|]. cbn. apply map_eq. intros i.
  destruct (decide (i = n)) as [-> | Hne]; [|by rewrite lookup_alter_ne].
  destruct (Hl [] n l eq_refl) as (y & Hy & Hyp & _). rewrite lookup_alter_eq, Hy. cbn.
  f_equal. destruct y; cbn in *. by rewrite <- Hyp.
Qed.

(** [unlink_waiter] for the first waiter, or one that was. *)
Lemma unlink_first u x me S g mem w :
  waiter_of g !! u = Some x -> sw_prev x = None ->
  (forall n, sw_next x = Some n -> is_Some (waiter_of g !! n)) ->
  unlink_waiter u me (at_sigs S g mem w) = Done tt (at_sigs S (unlinked x g) mem w).
Proof.
  intros Hx Hprev Hnext. unfold unlink_waiter, unlinked. cbn. rewrite (get_waiter_at u x) by done. cbn.
  rewrite Hprev. destruct (sw_next x) as [n|].
  - destruct (Hnext n eq_refl) as [y Hy]. cbn. rewrite (get_waiter_at n y) by done. cbn.
    rewrite (put_waiter_alter n (with_sw_prev None) y) by done. cbn. by rewrite put_sigs_at.
  - cbn. rewrite put_sigs_at. by destruct g.
Qed.

(** It keeps its own entry. *)
Lemma unlinked_front l u x g :
  waiter_of g !! u = Some x -> sw_next x = head l -> sw_prev x = None -> u ∉ l ->
  waiter_of (unlinked x g) !! u = Some x.
Proof.
  intros Hx Hnext Hprev Hu. rewrite (unlinked_lookup x g u x Hx), Hnext, Hprev. cbn zeta.
  rewrite (decide_False (P := None = Some u)), decide_False; [done| |done].
  destruct l; [done|]. cbn. intros [= ->]. set_solver.
Qed.

(** Thread [u], whose ID is [tid], can be sent a signal. *)
Record reachable_thread (attr : option rwlockattr) (tid : Z) (u : nat) (w : world) : Prop := {
  rt_table : rwlock_idle RThreadsLock attr w;
  rt_entry : table_get (threads_tab (glob w)) (tid - 1) = Some (Some u);
  rt_lock : unused_mutex (MSigState u) w;
  rt_sig : unused_mutex MSigLock w;
  rt_free : forall m, m = MSigState u \/ m = MSigLock ->
    SMutexHeld m ∉ spins w /\ SMutexLock m ∉ spins w;
}.

Lemma reachable_mail attr tid u m w :
  reachable_thread attr tid u w -> reachable_thread attr tid u (set_mail m w).
Proof. intros [Hr Ht Hm Hg Hf]. split; [by destruct Hr|done|by destruct Hm|by destruct Hg|done]. Qed.

(** The signal states after the signal [sig] was given to the waiter [u]. *)
Definition served (u : nat) (sig : Z) (x : sigwaiter) (s : signal_state) (g : signals) : signals :=
  let x' := with_sw_info (siginfo_zero sig) x in
  let g1 := unlinked x' (set_waiter_of (<[u := x']> (waiter_of g)) g) in
  set_process_pending (snd (sigdelset (process_pending g) sig))
    (set_ss u (with_s_pending (snd (sigdelset (s_pending s) sig)) s) g1).

Section Served.
Context `{SignalPort}.

(** [pthread_kill] gives its signal to the thread, whether the thread is still in
    the list or not. *)
Lemma kill_serves attr tid l0 l u set i s sig me g mem w :
  reachable_thread attr tid u w -> serving l0 l u set i s g -> l0 = u :: l \/ l0 = l ->
  bad_signo sig = false -> Z.testbit set (sig - 1) = true ->
  let x := mkSigwaiter (head l) None u set (siginfo_zero i) in
  solo (generic_pthread_kill tid sig me (at_sigs (spins w) g mem w)) =
  solo (bindr (futex_wake u me (at_sigs (spins w) (served u sig x s g) mem w)) (fun _ w' => Done OK w')).
Proof.
  intros [Hr Ht Hm Hg Hf] [HL Hu Hs Hw Hx] Hl0 Hb Hset x. pose proof (good_signo _ Hb) as Hrange.
  destruct (Hf (MSigState u)) as [Hh1 Hp1]; [by left|]. destruct (Hf MSigLock) as [Hh2 Hp2]; [by right|].
  unfold generic_pthread_kill, pthread_kill_siginfo_np, NSIG. cbn [si_signo siginfo_zero].
  rewrite (proj2 (Z.ltb_ge sig 0)), (proj2 (Z.leb_gt 32 sig)), (proj2 (Z.eqb_neq sig 0)) by lia. cbn [orb].
  cbn [mbind M_bind]. rewrite (solo_getid attr tid (Some u)) by (done || (by destruct Hr; split)).
  rewrite lock_at by done. cbn [deref mret M_ret bindr]. rewrite lock_at by (done || set_solver).
  rewrite (get_ss_at u s) by done. cbn [bindr]. rewrite Hw. cbn [mbind M_bind].
  rewrite (get_waiter_at u x) by done. cbn [bindr mret M_ret]. cbn [sw_signals x].
  rewrite land_sigmask, Hset by done. cbn [negb mbind M_bind].
  rewrite (get_waiter_at u x) by done. cbn [bindr]. unfold put_waiter. rewrite put_sigs_at. cbn [bindr].
  set (x' := with_sw_info (siginfo_zero sig) x). set (g1 := set_waiter_of _ g).
  assert (waiter_of g1 !! u = Some x') as Hx1 by apply lookup_insert_eq.
  assert (waiter_of (unlinked x' g1) !! u = Some x') as Hx2.
  { by apply (unlinked_front l). }
  destruct (unlinked_frame x' g1) as [Hfr1 Hfr2].
  rewrite (unblock_with u x' u s me _ g1 (unlinked x' g1)); [| |done..| | |].
  - cbn zeta. cbn [sw_info x' with_sw_info siginfo_zero si_signo]. unfold served. fold x' g1.
    replace (_ ∖ {[SMutexHeld (MSigState u); SMutexHeld MSigLock]}) with (spins w) by set_solver. done.
  - apply unlink_first; [done..|]. cbn. intros n Hn. destruct (decide (n = u)) as [-> | Hne].
    + rewrite lookup_insert_eq. eauto.
    + rewrite lookup_insert_ne by done. destruct l as [|n' l]; [done|]. injection Hn as ->.
      destruct HL as [_ _ Hlinks]. destruct Hl0 as [-> | ->].
      * destruct (Hlinks [u] n l eq_refl) as (y & -> & _). eauto.
      * destruct (Hlinks [] n l eq_refl) as (y & -> & _). eauto.
  - split; [done..|set_solver|set_solver|set_solver].
  - set_solver.
  - set_solver.
Qed.

(** Then it has this signal only. *)
Lemma served_serving l0 l u set i s sig g :
  serving l0 l u set i s g -> l0 = u :: l \/ l0 = l -> bad_signo sig = false ->
  let g' := served u sig (mkSigwaiter (head l) None u set (siginfo_zero i)) s g in
  exists s', serving l l u set sig s' g' /\
    members (process_pending g') = members (process_pending g) ∖ {[sig]} /\
    members (s_pending s') = members (s_pending s) ∖ {[sig]}.
Proof.
  intros [HL Hu Hs Hw Hx] Hl0 Hb g'. set (x := mkSigwaiter _ _ _ _ _) in *.
  set (x' := with_sw_info (siginfo_zero sig) x). set (g1 := set_waiter_of (<[u := x']> (waiter_of g)) g).
  assert (waiter_of g1 !! u = Some x') as Hx1 by apply lookup_insert_eq.
  exists (with_s_pending (snd (sigdelset (s_pending s) sig)) s). split_and!; [|by apply members_delset..].
  assert (waiting_list l (unlinked x' g1)) as [? ? ?].
  { destruct Hl0 as [-> | ->].
    - apply (unlinked_waiting [] u l); [|done]. by apply info_waiting.
    - rewrite (unlinked_again l); [|by apply waiting_insert|done..]. by apply waiting_insert. }
  split; [by split|done|apply set_ss_lookup|done|]. by apply (unlinked_front l u x' g1).
Qed.

(** Thread [u] is about to call [sigwait], none of whose signals [set] is pending. *)
Record begins_sigwait (l : list nat) (u : nat) (set : Z) (s : signal_state) (g : signals) : Prop := {
  bs_list : waiting_list l g;
  bs_new : u ∉ l;
  bs_state : sig_states g !! u = Some s;
  bs_waits : s_sigwaiter s = None;
  bs_process : Z.land (process_pending g) set = 0;
  bs_pending : Z.land (s_pending s) set = 0;
}.

Definition begun (l : list nat) (u : nat) (set : Z) (s : signal_state) (g : signals) : signals :=
  let m := match head l with
           | Some n => alter (with_sw_prev (Some u)) n (waiter_of g)
           | None => waiter_of g
           end in
  set_ss u (with_s_sigwaiter (Some u) s)
    (set_sigwaiters (Some u) (set_waiter_of (<[u := mkSigwaiter (head l) None u set (siginfo_zero 0)]> m) g)).

Lemma begun_serving l u set s g :
  begins_sigwait l u set s g ->
  serving (u :: l) l u set 0 (with_s_sigwaiter (Some u) s) (begun l u set s g).
Proof.
  intros [HL Hu Hs _ _ _]. split; [|done|apply set_ss_lookup|done|apply lookup_insert_eq].
  by destruct (waiting_cons l u (mkSigwaiter (head l) None u set (siginfo_zero 0)) g HL Hu eq_refl eq_refl).
Qed.

Lemma push_at l u set s me S g mem w :
  begins_sigwait l u set s g ->
  push_waiter u u set me (at_sigs S g mem w) = Done tt (at_sigs S (begun l u set s g) mem w).
Proof.
  intros [[Hh Hn Hl] Hu Hs Hw _ _]. unfold push_waiter, begun. cbn [mbind M_bind].
  rewrite (get_ss_at u s) by done. cbn [bindr]. rewrite Hw. rewrite bool_decide_eq_true_2 by done.
  cbn [c_assert mret M_ret bindr].
  rewrite (gets_at sigwaiters). cbn [bindr]. rewrite Hh. destruct l as [|n l]; cbn [head mbind M_bind bindr].
  - cbn. unfold put_waiter. do 2 (rewrite put_sigs_at; cbn). by rewrite (update_ss_at u _ s).
  - destruct (Hl [] n l eq_refl) as (y & Hy & Hyp & _). rewrite (get_waiter_at n y) by done. cbn [bindr].
    rewrite Hyp. cbn. rewrite (put_waiter_alter n (with_sw_prev (Some u)) y) by done. cbn.
    unfold put_waiter. do 2 (rewrite put_sigs_at; cbn). by rewrite (update_ss_at u _ s).
Qed.

(** The signal states after [sigwait] of thread [u] returned. *)
Definition ended (u : nat) (s : signal_state) (g : signals) : signals :=
  set_waiter_of (delete u (waiter_of g)) (set_ss u (with_s_sigwaiter None s) g).

(** [sigwait] waits, and when it goes on it returns the signal in its waiter. *)
Lemma sigwait_blocks attr tid l u set s me w :
  message_futex _ -> runs me u w -> reachable_thread attr tid u w -> begins_sigwait l u set s (sigs w) ->
  exists k, solo (sigwait set me w) =
      Susp (RRecv u None) (at_sigs (spins w) (begun l u set s (sigs w)) (umem w) w) k /\
    forall e l' sig s' g' m, serving l' l u set sig s' g' -> bad_signo sig = false ->
      Z.testbit set (sig - 1) = true ->
      solo (k e (at_sigs (spins w) g' (umem w) (set_mail m w))) =
      Done (0, Some sig) (at_sigs (spins w) (ended u s' g') (umem w) (set_mail m w)).
Proof.
  intros [Hwait _] Hr [Ht _ Hm Hg Hf] HB. pose proof HB as [HL Hu Hs Hw Hp1 Hp2].
  destruct (Hf (MSigState u)) as [Hh1 Hl1]; [by left|]. destruct (Hf MSigLock) as [Hh2 Hl2]; [by right|].
  assert (sigwait set me w = sigwait set me (at_sigs (spins w) (sigs w) (umem w) w)) as -> by (by rewrite at_sigs_id).
  unfold sigwait, sigwaitinfo. cbn [mbind M_bind]. rewrite !bindr_assoc, lock_at by done.
  rewrite (runs_at me u) by done. cbn [bindr]. rewrite bindr_assoc, lock_at by (done || set_solver).
  rewrite (get_ss_at u s) by done. cbn [bindr]. unfold get_process_pending. rewrite (gets_at process_pending).
  cbn [bindr]. rewrite Hp1, Hp2. cbn [Z.eqb negb orb]. unfold sigwaiter_block. cbn [mbind M_bind].
  rewrite (runs_at me u) by done. cbn [bindr]. rewrite !bindr_assoc, assert_locked_at by (done || set_solver).
  rewrite !bindr_assoc, assert_locked_at by (done || set_solver).
  rewrite (push_at l u set s) by done. cbn [bindr].
  rewrite !bindr_assoc, unlock_at by (done || set_solver).
  rewrite !bindr_assoc, unlock_at by (done || set_solver).
  rewrite Hwait. cbn [bindr solo]. eexists. split; [do 2 f_equal; set_solver|].
  intros e l' sig s' g' m [_ _ Hs' _ Hx'] Hb Hset. pose proof (good_signo _ Hb) as Hrange.
  rewrite !bindr_assoc, lock_at; [|by destruct Hm|done|done].
  rewrite (update_ss_at u _ s') by done. cbn [bindr].
  rewrite !bindr_assoc, unlock_at; [|by destruct Hm|set_solver].
  erewrite get_waiter_at by (cbn; exact Hx'). cbn [bindr sw_info siginfo_zero si_signo].
  rewrite (proj2 (Z.eqb_neq sig 0)) by lia. cbn [negb c_assert mret M_ret bindr].
  rewrite put_sigs_at. cbn [bindr].
  cbn [sw_info siginfo_zero si_signo]. rewrite (Z.land_comm (sigmask sig)), land_sigmask, Hset by done.
  rewrite (proj2 (Z.eqb_neq sig 0)) by lia. rewrite spins_cycle by done. done.
Qed.
End Served.

(** C39: a signal sent to a thread that is in [sigwait], but was already woken for
    another signal, replaces that signal, which is lost.  Whatever the signals
    [sig1] and [sig2] that the thread waits for and whatever other threads wait:
    after [pthread_kill] sent [sig1] the call returns [sig1]; but if [sig2] is sent
    too before the thread runs, which succeeds just as well, the call returns
    [sig2], and [sig1] is then pending neither for the thread nor for the process. *)
Theorem second_kill_loses_signal `{F : SignalPort} attr tid l u set sig1 sig2 s me me1 me2 w :
  message_futex F -> runs me u w -> reachable_thread attr tid u w ->
  begins_sigwait l u set s (sigs w) ->
  bad_signo sig1 = false -> bad_signo sig2 = false -> sig1 <> sig2 ->
  Z.testbit set (sig1 - 1) = true -> Z.testbit set (sig2 - 1) = true ->
  exists w0 k w1 w2,
    solo (sigwait set me w) = Susp (RRecv u None) w0 k /\
    solo (generic_pthread_kill tid sig1 me1 w0) = Done OK w1 /\
    (exists e w1' w1'', resume (RRecv u None) w1 e w1' /\ solo (k e w1') = Done (0, Some sig1) w1'') /\
    solo (generic_pthread_kill tid sig2 me2 w1) = Done OK w2 /\
    exists e w2' w2'' s', resume (RRecv u None) w2 e w2' /\ solo (k e w2') = Done (0, Some sig2) w2'' /\
      sig_states (sigs w2'') !! u = Some s' /\
      sig1 ∉ members (s_pending s') /\ sig1 ∉ members (process_pending (sigs w2'')).
Proof.
  intros HF Hr HR HB Hb1 Hb2 Hne Hs1 Hs2.
  destruct (sigwait_blocks attr tid l u set s me w HF Hr HR HB) as (k & Hwait & Hk).
  pose proof (begun_serving _ _ _ _ _ HB) as HS0. set (g0 := begun l u set s (sigs w)) in *.
  set (s0 := with_s_sigwaiter (Some u) s) in *.
  pose proof (kill_serves attr tid _ l u set 0 s0 sig1 me1 g0 (umem w) w HR HS0) as Hk1.
  destruct (served_serving _ l u set 0 s0 sig1 g0 HS0) as (s1 & HS1 & Hp1 & Hq1); [by left|done|].
  set (g1 := served _ _ _ s0 g0) in *.
  set (wk := set_mail (<[u := 1%nat]> (mail w)) w).
  pose proof (kill_serves attr tid l l u set sig1 s1 sig2 me2 g1 (umem w) wk (reachable_mail _ _ _ _ _ HR) HS1) as Hk2.
  destruct (served_serving l l u set sig1 s1 sig2 g1 HS1) as (s2 & HS2 & Hp2 & Hq2); [by right|done|].
  set (g2 := served _ _ _ s1 g1) in *.
  assert (forall g m, resume (RRecv u None) (at_sigs (spins w) g (umem w) (set_mail (<[u := 1%nat]> m) w))
    KERN_SUCCESS (at_sigs (spins w) g (umem w) (set_mail (<[u := 0%nat]> (<[u := 1%nat]> m)) w))) as Hres.
  { intros g m. exact (resume_msg u None 0 (at_sigs (spins w) g (umem w) (set_mail (<[u := 1%nat]> m) w))
      (lookup_insert_eq m u _)). }
  exists (at_sigs (spins w) g0 (umem w) w), k, (at_sigs (spins w) g1 (umem w) wk),
    (at_sigs (spins w) g2 (umem w) (set_mail (<[u := 1%nat]> (mail wk)) w)). split_and!.
  - exact Hwait.
  - rewrite Hk1 by (done || by left). rewrite (mf_wake HF). done.
  - do 3 eexists. split; [apply Hres|]. by apply (Hk _ l sig1 s1).
  - etrans; [exact (Hk2 (or_intror eq_refl) Hb2 Hs2)|]. rewrite (mf_wake HF). done.
  - do 4 eexists. split; [apply Hres|]. split; [by apply (Hk _ l sig2 s2)|].
    split; [apply set_ss_lookup|]. split.
    + cbn. rewrite Hq2, Hq1. set_solver.
    + change (sig1 ∉ members (process_pending g2)). rewrite Hp2, Hp1. set_solver.
Qed.

(** A port with such a futex. *)
Definition demo_futex_port : SignalPort := {|
  getpid := 1; MINSIGSTKSZ := 4096; l4_lsb64 := lowest_bit;
  l4_msb64 x := if x =? 0 then 0 else Z.log2 x + 1;
  futex_wait u := fun _ w => Susp (RRecv u None) w (fun _ w' => Done tt w');
  futex_wake u := modify (fun w => set_mail (<[u := 1%nat]> (mail w)) w);
  signal_dispatch_lowlevel _ _ _ := mret tt;
  handler h sig si := modify (fun w => set_umem (demo_eff h sig si (umem w)) w);
  dispatch_fuel := 32 |}.

(** Thread 1 will wait for two signals, thread 2 waits already. *)
Definition demo_before_wait : signals :=
  mkSignals {[1%nat := demo_ss 0 0 None; 2%nat := demo_ss 0 0 (Some 2%nat)]} 0 [] (Some 2%nat)
    {[2%nat := demo_waiter 2 None None (sigmask SIGUSR2)]}.

Lemma demo_begins_sigwait :
  begins_sigwait [2%nat] 1 (Z.lor (sigmask SIGUSR1) (sigmask SIGUSR2)) (demo_ss 0 0 None) demo_before_wait.
Proof.
  split; [|set_solver|done..]. split; [done|apply NoDup_singleton|].
  intros [|a l1] u l2 Hl; [|by destruct l1]. injection Hl as <- <-. by eexists.
Qed.

(** Thread 0 sends SIGUSR1 to thread 1, whose ID is 2, and thread 2 sends SIGUSR2. *)
Lemma second_kill_loses_signal_witness :
  exists w0 k w1 w2 e w2' w2'',
    solo (@sigwait demo_futex_port (Z.lor (sigmask SIGUSR1) (sigmask SIGUSR2)) (demo_ctx 1)
      (demo_sig_world 3 demo_before_wait)) = Susp (RRecv 1 None) w0 k /\
    solo (@generic_pthread_kill demo_futex_port 2 SIGUSR1 (demo_ctx 0) w0) = Done OK w1 /\
    solo (@generic_pthread_kill demo_futex_port 2 SIGUSR2 (demo_ctx 2) w1) = Done OK w2 /\
    resume (RRecv 1 None) w2 e w2' /\ solo (k e w2') = Done (0, Some SIGUSR2) w2''.
Proof.
  destruct (@second_kill_loses_signal demo_futex_port None 2 [2%nat] 1
    (Z.lor (sigmask SIGUSR1) (sigmask SIGUSR2)) SIGUSR1 SIGUSR2 (demo_ss 0 0 None)
    (demo_ctx 1) (demo_ctx 0) (demo_ctx 2) (demo_sig_world 3 demo_before_wait))
    as (w0 & k & w1 & w2 & H0 & H1 & _ & H2 & e & w2' & w2'' & s' & Hr & Hk & _).
  - by split.
  - apply (demo_runs 3 ANull 1). lia.
  - split; [by split | done | split; [by do 2 eexists | done] | split; [by do 2 eexists | done] |].
    intros m _. split; set_solver.
  - exact demo_begins_sigwait.
  - done.
  - done.
  - done.
  - done.
  - done.
  - exists w0, k, w1, w2, e, w2', w2''. split_and!; assumption.
Defined.
