(* ===== verification/Ports.v ===== *)
(** * Code for other ports: sysdeps/generic, sysdeps/posix and sysdeps/i386

    The versions of functions that the Hurd port replaces by those of Keys.v and
    Mach.v, and the atomic operations. *)
From Stdlib Require Import ZArith Lia.
From S2P Require Import Prelude Queue World Machine Sched Mach.
Local Open Scope Z_scope.

(** ** Thread specific data is not supported: sysdeps/generic *)

Definition generic_key_create (d : destructor) : M error_t := mret ENOSYS.
Definition generic_key_delete (key : Z) : M error_t := mret ENOSYS.
(** The error code is returned as the value. *)
Definition generic_getspecific (key : Z) : M error_t := mret EINVAL.
Definition generic_setspecific (key value : Z) : M error_t := mret EINVAL.
Definition generic_init_specific (thread : nat) : M error_t := mret OK.
Definition __pthread_destory_specifc (thread : nat) : M unit := mret tt.

(** ** Spin locks of sysdeps/posix/pt-spin.c *)

(** The inner loop: did one of [n] attempts succeed? *)
Fixpoint spin_attempts (n : nat) (l : spin_id) : M bool :=
  match n with
  | O => mret false
  | S n =>
      r ← __pthread_spin_trylock l;
      if decide (r = OK) then mret true else spin_attempts n l
  end.

(** The outer loop; [fuel] bounds how often the processor is yielded. *)
Fixpoint posix_spin_lock (fuel spin_count : nat) (l : spin_id) : M error_t :=
  ok ← spin_attempts spin_count l;
  if (ok : bool) then mret OK
  else
  yield;;
  match fuel with O => fail FFuel | S fuel => posix_spin_lock fuel spin_count l end.

(** A lock that is free is taken at once and without yielding, as by the Mach
    version. *)
Lemma posix_spin_lock_free fuel spin_count l me w :
  l ∉ spins w -> (0 < spin_count)%nat ->
  posix_spin_lock fuel spin_count l me w = Done OK (set_spins ({[l]} ∪ spins w) w) /\
  solo (__pthread_spin_lock l me w) = Done OK (set_spins ({[l]} ∪ spins w) w).
Proof.
  intros Hl Hc. split.
  - destruct spin_count as [|n]; [lia|].
    destruct fuel; cbn; by rewrite bool_decide_eq_false_2, decide_True.
  - rewrite <- (bindr_ret (__pthread_spin_lock _ _ _)). by rewrite solo_spin_lock.
Qed.

(** ** sysdeps/i386/bits/pt-atomic.h

    A variable of type [int] before and after. *)
Definition __atomic_inc (var : Z) : Z := i32 (var + 1).
Definition __atomic_dec (var : Z) : Z := i32 (var - 1).
Definition __atomic_dec_and_test (var : Z) : bool * Z := (i32 (var - 1) =? 0, i32 (var - 1)).

(** The pointer, and whether it was swapped. *)
Definition __atomicptr_compare_and_swap (ptr oldval newval : Z) : bool * Z :=
  if ptr =? oldval then (true, newval) else (false, ptr).
